(** * xnb-utils: a shallow embedding of the XNB container codec

    The development follows the TypeScript sources:
    - [Buffer/Binary.ts], [Buffer/BinaryWriter.ts], [Buffer/BinaryReader.ts]
      and [Buffer/LzxReader.ts] (byte buffers with a cursor),
    - [Worker.ts] (the header written by [pack] and read by [parseHeader]),
    - [TypeReader.ts] (the [ReaderManager] dispatch),
    - [Decompress.ts] (the outer LZX framing loop),
    - [Readers/Texture2DReader.ts], [Readers/SFDItemReader.ts],
      [Readers/SFDAnimationReader.ts] and [Color.ts].

    JavaScript numbers that only ever hold integers are modelled in [Z], with
    the 32-bit wrap-around of the bit operators written out.  Where the
    source computes with fractions (alpha scaling, [id / 50]) numbers are
    IEEE 754 binary64 values, modelled with the Standard Library's
    [SpecFloat].  Node [Buffer]s and [Uint8Array]s are lists of bytes. *)

From Stdlib Require Import ZArith Lia Bool String Ascii.
From Stdlib Require Import Floats.SpecFloat.
From stdpp Require Import base option list gmap.

Local Open Scope Z_scope.

(** ** JavaScript 32-bit integer operators *)

Module JS.

(** [ToInt32]: the signed 32-bit value every bit operator works on. *)
Definition ToInt32 (z : Z) : Z := (z + 2 ^ 31) mod 2 ^ 32 - 2 ^ 31.

(** [a & b] *)
Definition band (a b : Z) : Z := Z.land (ToInt32 a) (ToInt32 b).

(** [a | b] *)
Definition bor (a b : Z) : Z := Z.lor (ToInt32 a) (ToInt32 b).

(** [a << n]: the shift count is taken modulo 32, the result wraps. *)
Definition shl (a n : Z) : Z := ToInt32 (Z.shiftl (ToInt32 a) (n mod 32)).

(** [a >> n]: sign-propagating right shift. *)
Definition sar (a n : Z) : Z := Z.shiftr (ToInt32 a) (n mod 32).

(** Truthiness of an integer-valued number. *)
Definition truthy (a : Z) : bool := negb (a =? 0).

End JS.

(** ** Exceptions and results *)

(** The messages of the [XnbError]s thrown by the modelled code, with the
    values interpolated into them. *)
Inductive XnbMessage : Type :=
  | BufferSeekOutOfBounds (position size : Z)
  | InvalidFileMagic (magic : list Z)
  | InvalidReaderIndex (index : Z)
  | ExpectedReader
  | InvalidSizeInCompression.

(** What a call can throw: the repository's own [XnbError], Node's
    [RangeError] (code [ERR_OUT_OF_RANGE], for a value or for an offset into a
    buffer of a given length) and the engine's [TypeError] for a property read
    on [undefined]. *)
Inductive Exception : Type :=
  | XnbError (message : XnbMessage)
  | RangeErrorValue (value : Z)
  | RangeErrorOffset (offset size : Z)
  | TypeErrorUndefined.

(** The outcome of running a piece of code.  [OutOfFuel] is the loops' fuel
    running out; the totality lemmas below show it is not produced. *)
Inductive result (A : Type) : Type :=
  | Ok (a : A)
  | Throw (e : Exception)
  | OutOfFuel.

Arguments Ok {A} a.
Arguments Throw {A} e.
Arguments OutOfFuel {A}.

(** A computation over a mutable object of type [S]. *)
Definition M (S A : Type) : Type := S -> result (A * S).

Definition ret {S A : Type} (a : A) : M S A := fun s => Ok (a, s).

Definition throw {S A : Type} (e : Exception) : M S A := fun _ => Throw e.

Definition bind {S A B : Type} (m : M S A) (k : A -> M S B) : M S B :=
  fun s =>
    match m s with
    | Ok (a, s') => k a s'
    | Throw e => Throw e
    | OutOfFuel => OutOfFuel
    end.

Definition get {S : Type} : M S S := fun s => Ok (s, s).

Definition put {S : Type} (s : S) : M S unit := fun _ => Ok (tt, s).

Notation "x <- m ;; k" := (bind m (fun x => k))
  (at level 100, m at next level, right associativity).
Notation "m ;;; k" := (bind m (fun _ => k))
  (at level 100, right associativity).

(** ** Node buffers *)

Abbreviation Buffer := (list Z).

Definition size (b : Buffer) : Z := Z.of_nat (length b).

(** [Buffer.alloc(n)]: [n] zero bytes. *)
Definition Buffer_alloc (n : Z) : Buffer := replicate (Z.to_nat n) 0.

(** [buf[i]]: [None] stands for [undefined]. *)
Definition Buffer_get (b : Buffer) (i : Z) : option Z :=
  if i <? 0 then None else b !! Z.to_nat i.

(** [buf[i] = v] on a typed array: an index outside the array is ignored. *)
Definition Buffer_set (b : Buffer) (i v : Z) : Buffer :=
  if i <? 0 then b else <[Z.to_nat i := v]> b.

(** [buf.writeUInt8(value, offset)]: the value is checked first, then the
    offset ([buf[offset] === undefined] raises the bounds error). *)
Definition Buffer_writeUInt8 (b : Buffer) (value offset : Z) : result Buffer :=
  if (value <? 0) || (255 <? value) then Throw (RangeErrorValue value)
  else match Buffer_get b offset with
       | None => Throw (RangeErrorOffset offset (size b))
       | Some _ => Ok (Buffer_set b offset value)
       end.

(** [buf.readUInt8()] at offset 0. *)
Definition Buffer_readUInt8 (b : Buffer) : result Z :=
  match Buffer_get b 0 with
  | Some v => Ok v
  | None => Throw (RangeErrorOffset 0 (size b))
  end.

(** [buf.subarray(start, end)]: negative indices count from the end, both
    are clamped to the buffer. *)
Definition Buffer_subarray (b : Buffer) (start end_ : Z) : Buffer :=
  let rel i := if i <? 0 then Z.max (size b + i) 0 else Z.min i (size b) in
  take (Z.to_nat (rel end_ - rel start)) (drop (Z.to_nat (rel start)) b).

(** [buf.set(source, offset)] of a typed array: refuses a source that does
    not fit. *)
Definition Buffer_setArray (b : Buffer) (source : Buffer) (offset : Z) : result Buffer :=
  if (offset <? 0) || (size b <? offset + size source)
  then Throw (RangeErrorOffset offset (size b))
  else Ok (take (Z.to_nat offset) b ++ source
           ++ drop (Z.to_nat offset + length source) b).

(** The four bytes of a 32-bit value, least significant first. *)
Definition bytesLE32 (value : Z) : Buffer :=
  [value mod 256; (value / 2 ^ 8) mod 256; (value / 2 ^ 16) mod 256;
   (value / 2 ^ 24) mod 256].

(** [buf.writeUInt32LE(value, offset)]: value range first, then both ends of
    the four bytes must be inside the buffer. *)
Definition Buffer_writeUInt32LE (b : Buffer) (value offset : Z) : result Buffer :=
  if (value <? 0) || (2 ^ 32 - 1 <? value) then Throw (RangeErrorValue value)
  else match Buffer_get b offset, Buffer_get b (offset + 3) with
       | Some _, Some _ => Buffer_setArray b (bytesLE32 value) offset
       | _, _ => Throw (RangeErrorOffset offset (size b))
       end.

(** [buf.writeInt32LE(value, offset)] *)
Definition Buffer_writeInt32LE (b : Buffer) (value offset : Z) : result Buffer :=
  if (value <? - 2 ^ 31) || (2 ^ 31 - 1 <? value) then Throw (RangeErrorValue value)
  else match Buffer_get b offset, Buffer_get b (offset + 3) with
       | Some _, Some _ => Buffer_setArray b (bytesLE32 (value mod 2 ^ 32)) offset
       | _, _ => Throw (RangeErrorOffset offset (size b))
       end.

(** ** Node buffers: the other fixed-width integers, and [copy] *)

(** [buf.writeInt8(value, offset)]: the byte stored is the value modulo 256. *)
Definition Buffer_writeInt8 (b : Buffer) (value offset : Z) : result Buffer :=
  if (value <? - 2 ^ 7) || (2 ^ 7 - 1 <? value) then Throw (RangeErrorValue value)
  else match Buffer_get b offset with
       | None => Throw (RangeErrorOffset offset (size b))
       | Some _ => Ok (Buffer_set b offset (value mod 256))
       end.

(** The two bytes of a 16-bit value, least significant first. *)
Definition bytesLE16 (value : Z) : Buffer :=
  [value mod 256; (value / 2 ^ 8) mod 256].

(** [buf.writeUInt16LE(value, offset)] *)
Definition Buffer_writeUInt16LE (b : Buffer) (value offset : Z) : result Buffer :=
  if (value <? 0) || (2 ^ 16 - 1 <? value) then Throw (RangeErrorValue value)
  else match Buffer_get b offset, Buffer_get b (offset + 1) with
       | Some _, Some _ => Buffer_setArray b (bytesLE16 value) offset
       | _, _ => Throw (RangeErrorOffset offset (size b))
       end.

(** [buf.writeInt16LE(value, offset)] *)
Definition Buffer_writeInt16LE (b : Buffer) (value offset : Z) : result Buffer :=
  if (value <? - 2 ^ 15) || (2 ^ 15 - 1 <? value) then Throw (RangeErrorValue value)
  else match Buffer_get b offset, Buffer_get b (offset + 1) with
       | Some _, Some _ => Buffer_setArray b (bytesLE16 (value mod 2 ^ 16)) offset
       | _, _ => Throw (RangeErrorOffset offset (size b))
       end.

(** [buf.readInt8()] at offset 0: [val | (val & 2 ** 7) * 0x1fffffe]. *)
Definition Buffer_readInt8 (b : Buffer) : result Z :=
  match Buffer_get b 0 with
  | Some val => Ok (JS.bor val (JS.band val (2 ^ 7) * 0x1fffffe))
  | None => Throw (RangeErrorOffset 0 (size b))
  end.

(** [buf.readUInt16LE()] at offset 0: [first + last * 2 ** 8]. *)
Definition Buffer_readUInt16LE (b : Buffer) : result Z :=
  match Buffer_get b 0, Buffer_get b 1 with
  | Some first, Some last => Ok (first + last * 2 ^ 8)
  | _, _ => Throw (RangeErrorOffset 0 (size b))
  end.

(** [buf.readInt16LE()] at offset 0: [val | (val & 2 ** 15) * 0x1fffe]. *)
Definition Buffer_readInt16LE (b : Buffer) : result Z :=
  match Buffer_get b 0, Buffer_get b 1 with
  | Some first, Some last =>
      let val := first + last * 2 ^ 8 in
      Ok (JS.bor val (JS.band val (2 ^ 15) * 0x1fffe))
  | _, _ => Throw (RangeErrorOffset 0 (size b))
  end.

(** [buf.readUInt32LE()] at offset 0. *)
Definition Buffer_readUInt32LE (b : Buffer) : result Z :=
  match Buffer_get b 0, Buffer_get b 1, Buffer_get b 2, Buffer_get b 3 with
  | Some first, Some second, Some third, Some last =>
      Ok (first + second * 2 ^ 8 + third * 2 ^ 16 + last * 2 ^ 24)
  | _, _, _, _ => Throw (RangeErrorOffset 0 (size b))
  end.

(** [buf.readInt32LE()] at offset 0: the last byte enters as [last << 24]. *)
Definition Buffer_readInt32LE (b : Buffer) : result Z :=
  match Buffer_get b 0, Buffer_get b 1, Buffer_get b 2, Buffer_get b 3 with
  | Some first, Some second, Some third, Some last =>
      Ok (first + second * 2 ^ 8 + third * 2 ^ 16 + JS.shl last 24)
  | _, _, _, _ => Throw (RangeErrorOffset 0 (size b))
  end.

(** [source.copy(target, targetStart, sourceStart, sourceEnd)], returning the
    target after the copy: the three indices are checked, then as many bytes
    are copied as the source has from [sourceStart] to [sourceEnd] and the
    target has room for from [targetStart]. *)
Definition Buffer_copy (source target : Buffer) (targetStart sourceStart sourceEnd : Z)
  : result Buffer :=
  if targetStart <? 0 then Throw (RangeErrorValue targetStart)
  else if (sourceStart <? 0) || (size source <? sourceStart)
  then Throw (RangeErrorValue sourceStart)
  else if sourceEnd <? 0 then Throw (RangeErrorValue sourceEnd)
  else if (size target <=? targetStart) || (sourceEnd <=? sourceStart) then Ok target
  else
    let sourceEnd := if size target - targetStart <? sourceEnd - sourceStart
                     then sourceStart + size target - targetStart else sourceEnd in
    let nb := Z.min (sourceEnd - sourceStart) (size source - sourceStart) in
    Ok (take (Z.to_nat targetStart) target
        ++ take (Z.to_nat nb) (drop (Z.to_nat sourceStart) source)
        ++ drop (Z.to_nat (targetStart + nb)) target).

(** ** Binary.ts: a buffer and a cursor *)

Record Binary : Type := mkBinary {
  buffer : Buffer;
  bytePosition : Z
}.

Definition set_bytePosition (p : Z) (b : Binary) : Binary :=
  mkBinary (buffer b) p.

Definition set_buffer (buf : Buffer) (b : Binary) : Binary :=
  mkBinary buf (bytePosition b).

(** ** BinaryWriter.ts *)

Module BinaryWriter.

Definition t : Type := Binary.

(** [new BinaryWriter(size)] *)
Definition new (n : Z) : t := mkBinary (Buffer_alloc n) 0.

(** [alloc(bytes)]: grows the buffer by [bytes] when fewer than
    [bytes + 1] remain after the cursor. *)
Definition alloc (bytes : Z) (w : t) : t :=
  if size (buffer w) <=? bytePosition w + bytes
  then set_buffer (buffer w ++ Buffer_alloc bytes) w
  else w.

(** [trim()] *)
Definition trim (w : t) : t :=
  set_buffer (take (Z.to_nat (bytePosition w)) (buffer w)
              ++ Buffer_alloc (bytePosition w - size (buffer w))) w.

(** [writeByte(value)] *)
Definition writeByte (value : Z) : M t unit := fun w =>
  let w := alloc 1 w in
  match Buffer_writeUInt8 (buffer w) value (bytePosition w) with
  | Ok buf => Ok (tt, mkBinary buf (bytePosition w + 1))
  | Throw e => Throw e
  | OutOfFuel => OutOfFuel
  end.

(** [writeBytes(value)] *)
Definition writeBytes (value : Buffer) : M t unit := fun w =>
  let w := alloc (size value) w in
  match Buffer_setArray (buffer w) value (bytePosition w) with
  | Ok buf => Ok (tt, mkBinary buf (bytePosition w + size value))
  | Throw e => Throw e
  | OutOfFuel => OutOfFuel
  end.

(** [writeUInt32(value)] *)
Definition writeUInt32 (value : Z) : M t unit := fun w =>
  let w := alloc 4 w in
  match Buffer_writeUInt32LE (buffer w) value (bytePosition w) with
  | Ok buf => Ok (tt, mkBinary buf (bytePosition w + 4))
  | Throw e => Throw e
  | OutOfFuel => OutOfFuel
  end.

(** [writeInt32(value)] *)
Definition writeInt32 (value : Z) : M t unit := fun w =>
  let w := alloc 4 w in
  match Buffer_writeInt32LE (buffer w) value (bytePosition w) with
  | Ok buf => Ok (tt, mkBinary buf (bytePosition w + 4))
  | Throw e => Throw e
  | OutOfFuel => OutOfFuel
  end.

(** The [do ... while (value)] loop of [write7BitNumber]. *)
Fixpoint write7BitNumber_loop (fuel : nat) (value : Z) (w : t) : result (unit * t) :=
  match fuel with
  | O => OutOfFuel
  | S fuel =>
      let byte := JS.band value 0x7F in
      let value := JS.sar value 7 in
      let byte := if JS.truthy value then JS.bor byte 0x80 else byte in
      match Buffer_writeUInt8 (buffer w) byte (bytePosition w) with
      | Ok buf =>
          let w := mkBinary buf (bytePosition w + 1) in
          if JS.truthy value then write7BitNumber_loop fuel value w
          else Ok (tt, w)
      | Throw e => Throw e
      | OutOfFuel => OutOfFuel
      end
  end.

(** [write7BitNumber(value)]: reserves two bytes, then emits.  Every turn of
    the loop either throws or fills one more byte of the buffer, so one turn
    more than the buffer has bytes is enough fuel. *)
Definition write7BitNumber (value : Z) : M t unit := fun w =>
  let w := alloc 2 w in
  write7BitNumber_loop (S (length (buffer w))) value w.

(** [concat(buffer)] *)
Definition concat (b : Buffer) (w : t) : t :=
  let w := trim w in
  mkBinary (buffer w ++ b) (bytePosition w + size b).

(** [writeInt8(value)] *)
Definition writeInt8 (value : Z) : M t unit := fun w =>
  let w := alloc 1 w in
  match Buffer_writeInt8 (buffer w) value (bytePosition w) with
  | Ok buf => Ok (tt, mkBinary buf (bytePosition w + 1))
  | Throw e => Throw e
  | OutOfFuel => OutOfFuel
  end.

(** [writeInt16(value)] *)
Definition writeInt16 (value : Z) : M t unit := fun w =>
  let w := alloc 2 w in
  match Buffer_writeInt16LE (buffer w) value (bytePosition w) with
  | Ok buf => Ok (tt, mkBinary buf (bytePosition w + 2))
  | Throw e => Throw e
  | OutOfFuel => OutOfFuel
  end.

(** [writeUInt16(value)] *)
Definition writeUInt16 (value : Z) : M t unit := fun w =>
  let w := alloc 2 w in
  match Buffer_writeUInt16LE (buffer w) value (bytePosition w) with
  | Ok buf => Ok (tt, mkBinary buf (bytePosition w + 2))
  | Throw e => Throw e
  | OutOfFuel => OutOfFuel
  end.

(** [writeBoolean(value)] *)
Definition writeBoolean (value : bool) : M t unit :=
  writeByte (if value then 1 else 0).

End BinaryWriter.

(** ** BinaryReader.ts *)

Module BinaryReader.

Definition t : Type := Binary.

(** [new BinaryReader(buffer)] *)
Definition new (b : Buffer) : t := mkBinary b 0.

(** [_seek(index)] with the default origin, the current position. *)
Definition _seek (index : Z) : M t Z := fun r =>
  let offset := bytePosition r in
  let p := Z.max (bytePosition r + index) 0 in
  if (p <? 0) || (size (buffer r) <? p)
  then Throw (XnbError (BufferSeekOutOfBounds p (size (buffer r))))
  else Ok (p - offset, set_bytePosition p r).

(** [_read(count)] with [seek = true]. *)
Definition _read (count : Z) : M t Buffer := fun r =>
  let b := Buffer_subarray (buffer r) (bytePosition r) (bytePosition r + count) in
  (_seek count ;;; ret b) r.

(** [_peek(count)], that is [_read(count, false)]. *)
Definition _peek (count : Z) : M t Buffer := fun r =>
  Ok (Buffer_subarray (buffer r) (bytePosition r) (bytePosition r + count), r).

Definition lift {A : Type} (x : result A) : M t A := fun r =>
  match x with
  | Ok a => Ok (a, r)
  | Throw e => Throw e
  | OutOfFuel => OutOfFuel
  end.

(** [readByte()] *)
Definition readByte : M t Z :=
  b <- _read 1 ;; lift (Buffer_readUInt8 b).

(** [readBoolean()] *)
Definition readBoolean : M t bool :=
  v <- readByte ;; ret (JS.truthy v).

(** [readBytes(count)] *)
Definition readBytes (count : Z) : M t Buffer := _read count.

(** The [do ... while (value & 0x80)] loop of [read7BitNumber]. *)
Fixpoint read7BitNumber_loop (fuel : nat) (result bitsRead : Z) : M t Z :=
  match fuel with
  | O => fun _ => OutOfFuel
  | S fuel =>
      value <- readByte ;;
      let result := JS.bor result (JS.shl (JS.band value 0x7F) bitsRead) in
      let bitsRead := bitsRead + 7 in
      if JS.truthy (JS.band value 0x80)
      then read7BitNumber_loop fuel result bitsRead
      else ret result
  end.

(** [read7BitNumber()].  Every turn reads a byte or throws, and after the
    first read the cursor is inside the buffer, so two turns more than the
    buffer has bytes is enough fuel. *)
Definition read7BitNumber : M t Z := fun r =>
  read7BitNumber_loop (S (S (length (buffer r)))) 0 0 r.

(** [copyFrom(buffer, targetIndex, sourceIndex, length)]; the defaults are
    [0], [0] and [buffer.length]. *)
Definition copyFrom (b : Buffer) (targetIndex sourceIndex length : Z) : M t unit := fun r =>
  if size (buffer r) <? length + targetIndex then
    let tempBuffer :=
      Buffer_alloc (size (buffer r) + (length + targetIndex - size (buffer r))) in
    (tempBuffer <- lift (Buffer_copy (buffer r) tempBuffer 0 0 (size (buffer r))) ;;
     tempBuffer <- lift (Buffer_copy b tempBuffer targetIndex sourceIndex length) ;;
     fun r => Ok (tt, set_buffer tempBuffer r)) r
  else
    (buf <- lift (Buffer_copy b (buffer r) targetIndex sourceIndex length) ;;
     fun r => Ok (tt, set_buffer buf r)) r.

(** [readInt8()] *)
Definition readInt8 : M t Z :=
  b <- _read 1 ;; lift (Buffer_readInt8 b).

(** [readUInt16()] *)
Definition readUInt16 : M t Z :=
  b <- _read 2 ;; lift (Buffer_readUInt16LE b).

(** [readUInt32()] *)
Definition readUInt32 : M t Z :=
  b <- _read 4 ;; lift (Buffer_readUInt32LE b).

(** [readInt16()] *)
Definition readInt16 : M t Z :=
  b <- _read 2 ;; lift (Buffer_readInt16LE b).

(** [readInt32()] *)
Definition readInt32 : M t Z :=
  b <- _read 4 ;; lift (Buffer_readInt32LE b).

(** [peekBytes(value)] *)
Definition peekBytes (value : Z) : M t Buffer := _peek value.

(** [peekByte()] *)
Definition peekByte : M t Z :=
  b <- _peek 1 ;; lift (Buffer_readUInt8 b).

(** [peekInt8()] *)
Definition peekInt8 : M t Z :=
  b <- _peek 1 ;; lift (Buffer_readInt8 b).

(** [peekUInt16()] *)
Definition peekUInt16 : M t Z :=
  b <- _peek 2 ;; lift (Buffer_readUInt16LE b).

(** [peekUInt32()] *)
Definition peekUInt32 : M t Z :=
  b <- _peek 4 ;; lift (Buffer_readUInt32LE b).

(** [peekInt16()] *)
Definition peekInt16 : M t Z :=
  b <- _peek 2 ;; lift (Buffer_readInt16LE b).

(** [peekInt32()] *)
Definition peekInt32 : M t Z :=
  b <- _peek 4 ;; lift (Buffer_readInt32LE b).

End BinaryReader.

(** ** Strings

    A JavaScript string is represented by its UTF-8 bytes, as a [string]. *)

Definition byte_of_ascii (c : ascii) : Z := Z.of_N (N_of_ascii c).

Definition ascii_of_byte (b : Z) : ascii := ascii_of_N (Z.to_N b).

(** [new TextEncoder().encode(s)] *)
Definition TextEncoder_encode (s : string) : Buffer :=
  map byte_of_ascii (list_ascii_of_string s).

(** U+FFFD, which [toString] puts in place of a byte that is not UTF-8. *)
Definition replacement_character : string :=
  String (ascii_of_byte 239) (String (ascii_of_byte 191)
    (String (ascii_of_byte 189) EmptyString)).

(** [buf.toString()] of a one-byte buffer. *)
Definition Buffer_toString1 (b : Z) : string :=
  if b <? 128 then String (ascii_of_byte b) EmptyString
  else replacement_character.

(** [s.toLowerCase()] on the ASCII letters; this is all of it on the strings
    [Buffer_toString1] returns. *)
Definition toLowerCase (s : string) : string :=
  string_of_list_ascii
    (map (fun c => let b := byte_of_ascii c in
                   if (65 <=? b) && (b <=? 90) then ascii_of_byte (b + 32) else c)
         (list_ascii_of_string s)).

(** ** Worker.ts: the header *)

Module Worker.
Import BinaryWriter.

Definition HIDEF_MASK : Z := 0x1.
Definition COMPRESSED_LZ4_MASK : Z := 0x40.
Definition COMPRESSED_LZX_MASK : Z := 0x80.
Definition XNB_COMPRESSED_PROLOGUE_SIZE : Z := 14.

(** [interface Header]; the two optional fields are [None] when absent. *)
Record Header : Type := mkHeader {
  target : string;
  xnbVersion : Z;
  hidef : bool;
  compressed : option bool;
  compressionType : option Z
}.

(** [target === 'a' || target === 'i'] *)
Definition lz4Compression (h : Header) : bool :=
  String.eqb (target h) "a" || String.eqb (target h) "i".

(** The argument of the second [writeByte] of [pack]:
    [hidef ? 1 : 0 | ((compressed && lz4Compression) ? COMPRESSED_LZ4_MASK : 0)].
    The conditional operator binds weaker than [|], so the mask belongs to
    the else branch. *)
Definition pack_flags (h : Header) : Z :=
  let compressed := lz4Compression h in
  if hidef h then 1
  else JS.bor 0 (if compressed && lz4Compression h then COMPRESSED_LZ4_MASK else 0).

(** [pack], from the creation of the writer (of capacity [jsonLength], the
    byte length of the stringified input) to the placeholder sizes.  The
    rest of [pack] appends the readers and the content after these bytes
    and back-patches the sizes at offsets 6 and 10; the bytes at offsets 0
    to 5 stay as they are written here. *)
Definition pack_header (jsonLength : Z) (h : Header) : result (unit * BinaryWriter.t) :=
  (writeBytes (TextEncoder_encode "XNB") ;;;
   writeBytes (TextEncoder_encode (target h)) ;;;
   writeByte (xnbVersion h) ;;;
   writeByte (pack_flags h) ;;;
   writeUInt32 0 ;;;
   if lz4Compression h then writeUInt32 0 else ret tt)
  (BinaryWriter.new jsonLength).

Import BinaryReader.

(** [parseHeader(buffer)].  [readChars(3)] is compared with ['XNB']; a
    decoded string equals ['XNB'] exactly when the three bytes are those of
    ['XNB'], so the bytes are compared.  The log calls have no effect on the
    result. *)
Definition parseHeader : M BinaryReader.t Header :=
  magic <- _read 3 ;;
  if negb (bool_decide (magic = TextEncoder_encode "XNB"))
  then throw (XnbError (InvalidFileMagic magic))
  else
    t <- _read 1 ;;
    let target := toLowerCase (match t with
                               | [b] => Buffer_toString1 b
                               | _ => EmptyString
                               end) in
    xnbVersion <- readByte ;;
    flags <- readByte ;;
    let hidef := negb (JS.band flags HIDEF_MASK =? 0) in
    let compressed :=
      negb ((if JS.truthy (JS.band flags COMPRESSED_LZX_MASK)
             then JS.band flags COMPRESSED_LZX_MASK
             else JS.band flags COMPRESSED_LZ4_MASK) =? 0) in
    let compressionType :=
      if negb (JS.band flags COMPRESSED_LZX_MASK =? 0) then COMPRESSED_LZX_MASK
      else if JS.truthy (JS.band flags COMPRESSED_LZ4_MASK) then COMPRESSED_LZ4_MASK
      else 0 in
    ret (mkHeader target xnbVersion hidef (Some compressed) (Some compressionType)).

(** The header as [pack] is meant to emit it and [parseHeader] to return it:
    compression is LZ4 for the targets ['a'] and ['i'] and none otherwise. *)
Definition expected_header (h : Header) : Header :=
  mkHeader (target h) (xnbVersion h) (hidef h)
    (Some (lz4Compression h))
    (Some (if lz4Compression h then COMPRESSED_LZ4_MASK else 0)).

(** A header [pack] accepts: one of the five target letters and one of the
    three format versions. *)
Definition valid_header (h : Header) : Prop :=
  target h ∈ ["w"; "m"; "x"; "a"; "i"]%string /\ xnbVersion h ∈ [3; 4; 5].

(** The flags byte as the format lays it out: bit 0 = HiDef, bit 6 = LZ4,
    bit 7 = LZX. *)
Definition flags_layout (hidef lz4 lzx : bool) : Z :=
  (if hidef then 1 else 0) + (if lz4 then 64 else 0) + (if lzx then 128 else 0).

End Worker.

(** ** Cursor invariants *)

(** The cursor is inside the buffer. *)
Definition cursor_ok (b : Binary) : Prop :=
  0 <= bytePosition b <= size (buffer b).

(** The bytes before the cursor. *)
Definition written (b : Binary) : Buffer :=
  take (Z.to_nat (bytePosition b)) (buffer b).

(** ** Type.ts *)

(** [arr[i]] on an array: [None] stands for [undefined]. *)
Definition Array_get {A : Type} (l : list A) (i : Z) : option A :=
  if i <? 0 then None else l !! Z.to_nat i.

(** [class Type]: a name, the subtypes and the array flag.  The constructor
    takes an options object and stores [opts.name]; called with a string, as
    [SFDAnimationReader] calls it, it stores [undefined], which is the name
    [None]. *)
#[warnings="-register-all"]
Inductive XType : Type :=
  mkType (name : option string) (subtypes : list XType) (isArray : bool).

Definition name (t : XType) : option string := let (n, _, _) := t in n.
Definition subtypes (t : XType) : list XType := let (_, s, _) := t in s.
Definition isArray (t : XType) : bool := let (_, _, a) := t in a.

(** [a === b] on two names. *)
Definition name_eqb (a b : option string) : bool :=
  match a, b with
  | Some x, Some y => String.eqb x y
  | None, None => true
  | _, _ => false
  end.

(** [this.equals(other)]:
    [this.name === other.name && this.subtypes.every((type, i) =>
     type.equals(other.subtypes[i])) && this.isArray === other.isArray].
    Reading [other.name] throws when [other] is [undefined]. *)
Fixpoint Type_equals (this : XType) (other : option XType) {struct this} : result bool :=
  match this, other with
  | _, None => Throw TypeErrorUndefined
  | mkType n subs arr, Some o =>
      if name_eqb n (name o) then
        match
          (fix every (l : list XType) (i : Z) {struct l} : result bool :=
             match l with
             | [] => Ok true
             | t :: l' =>
                 match Type_equals t (Array_get (subtypes o) i) with
                 | Ok true => every l' (i + 1)
                 | r => r
                 end
             end) subs 0
        with
        | Ok true => Ok (Bool.eqb arr (isArray o))
        | r => r
        end
      else Ok false
  end.

(** ** TypeReader.ts *)

(** [abstract class Reader<T>]: what [ReaderManager] uses of a reader. *)
Class ReaderClass (Reader Content : Type) : Type := {
  reader_type : Reader -> XType;
  reader_readFrom : Reader -> list Reader -> M BinaryReader.t Content
}.

Module ReaderManager.
Import BinaryReader.

Section Manager.
Context {Reader Content : Type} `{ReaderClass Reader Content}.

(** [_readerIs(reader, other)]: [reader.type.equals(other.type)], where
  [reader] is what the lookup returned. *)
Definition _readerIs (reader : option Reader) (other : Reader) : result bool :=
  match reader with
  | None => Throw TypeErrorUndefined
  | Some rd => Type_equals (reader_type rd) (Some (reader_type other))
  end.

(** [readFrom(buffer, expect)] over the manager's [_readers]. *)
Definition readFrom (_readers : list Reader) (expect : option Reader)
  : M BinaryReader.t Content :=
  n <- read7BitNumber ;;
  let index := n - 1 in
  if Z.of_nat (length _readers) <=? index
  then throw (XnbError (InvalidReaderIndex index))
  else
  let reader := Array_get _readers index in
  (match expect with
   | Some e =>
       same <- lift (_readerIs reader e) ;;
       if negb same then throw (XnbError ExpectedReader) else ret tt
   | None => ret tt
   end) ;;;
  match reader with
  | None => throw TypeErrorUndefined
  | Some rd => reader_readFrom rd _readers
  end.

End Manager.

End ReaderManager.

(** The four readers registered in [Worker.ts], for concrete runs, with the
    types their constructors pass to [super]: three build the type from
    [{ name: ... }]; [SFDAnimationReader] calls
    [new Type('SFD.Content.AnimationsContentTypeReader')], which leaves the
    name undefined. *)
Inductive KnownReader : Type :=
  | Texture2DReader
  | SoundEffectReader
  | SFDItemReader
  | SFDAnimationReader.

Definition KnownReader_type (r : KnownReader) : XType :=
  match r with
  | Texture2DReader =>
      mkType (Some "Microsoft.Xna.Framework.Content.Texture2DReader"%string) [] false
  | SoundEffectReader =>
      mkType (Some "Microsoft.Xna.Framework.Content.SoundEffectReader"%string) [] false
  | SFDItemReader => mkType (Some "SFD.Content.ItemsContentTypeReader"%string) [] false
  | SFDAnimationReader => mkType None [] false
  end.

(** The registered readers with a payload decoder that consumes nothing: an
    instance for concrete runs of the dispatch that stop before decoding. *)
Definition KnownReader_dispatch_only : ReaderClass KnownReader unit := {|
  reader_type := KnownReader_type;
  reader_readFrom := fun _ _ => ret tt
|}.

(** ** LzxReader.ts *)

Module LzxReader.

(** [class LzxReader extends BinaryReader]: the inherited buffer and
    cursor, and the bit offset inside the current 16-bit word. *)
Record t : Type := mk {
  base : Binary;
  _bitOffset : Z
}.

(** [new LzxReader(buffer)] *)
Definition new (b : Buffer) : t := mk (BinaryReader.new b) 0.

(** An inherited [BinaryReader] method run on an [LzxReader]. *)
Definition inherited {A : Type} (m : M BinaryReader.t A) : M t A := fun r =>
  match m (base r) with
  | Ok (a, b) => Ok (a, mk b (_bitOffset r))
  | Throw e => Throw e
  | OutOfFuel => OutOfFuel
  end.

Definition readByte : M t Z := inherited BinaryReader.readByte.

(** [buffer.bytePosition += d] through the inherited accessors. *)
Definition add_bytePosition (d : Z) : M t unit := fun r =>
  Ok (tt, mk (set_bytePosition (bytePosition (base r) + d) (base r)) (_bitOffset r)).

(** [readLZXInt16()] with [seek = true]: [(lsB << 8) | msB]. *)
Definition readLZXInt16 : M t Z :=
  lsB <- readByte ;;
  msB <- readByte ;;
  ret (JS.bor (JS.shl lsB 8) msB).

Definition lift {A : Type} (x : result A) : M t A := inherited (BinaryReader.lift x).

(** [get bitOffset()] *)
Definition bitOffset : M t Z := fun r => Ok (_bitOffset r, r).

(** [set bitOffset(offset)]:
    [if (offset < 0) offset = 16 - offset;
     this._bitOffset = offset % 16;
     byteSeek = ((offset - (Math.abs(offset) % 16)) / 16) * 2;
     this.bytePosition += byteSeek].
    The dividend of [/ 16] is a multiple of 16. *)
Definition set_bitOffset (offset : Z) : M t unit := fun r =>
  let offset := if offset <? 0 then 16 - offset else offset in
  let byteSeek := (offset - Z.rem (Z.abs offset) 16) / 16 * 2 in
  Ok (tt, mk (set_bytePosition (bytePosition (base r) + byteSeek) (base r))
             (Z.rem offset 16)).

(** The [while (bitsLeft > 0)] loop of [readLZXBits], with the loop
    variables [bitsLeft] and [read]. *)
Fixpoint readLZXBits_loop (fuel : nat) (bitsLeft read : Z) : M t Z :=
  match fuel with
  | O => fun _ => OutOfFuel
  | S fuel =>
      if 0 <? bitsLeft then
        word <- inherited (BinaryReader._peek 2) ;;
        peek <- lift (Buffer_readUInt16LE word) ;;
        o <- bitOffset ;;
        let bitsInFrame := Z.min (Z.max bitsLeft 0) (16 - o) in
        let offset := 16 - o - bitsInFrame in
        let value := JS.sar (JS.band peek (JS.shl (2 ^ bitsInFrame - 1) offset)) offset in
        let bitsLeft := bitsLeft - bitsInFrame in
        o <- bitOffset ;;
        set_bitOffset (o + bitsInFrame) ;;;
        readLZXBits_loop fuel bitsLeft (JS.bor read (JS.shl value bitsLeft))
      else ret read
  end.

(** [readLZXBits(bits)].  The bit offset is below 16 after every
    assignment, so a turn takes at least one bit and one turn more than
    there are bits is enough fuel. *)
Definition readLZXBits (bits : Z) : M t Z :=
  readLZXBits_loop (S (Z.to_nat bits)) bits 0.

(** [peekLZXBits(bits)] *)
Definition peekLZXBits (bits : Z) : M t Z :=
  bitPosition <- bitOffset ;;
  position <- (fun r => Ok (bytePosition (base r), r)) ;;
  read <- readLZXBits bits ;;
  set_bitOffset bitPosition ;;;
  (fun r => Ok (tt, mk (set_bytePosition position (base r)) (_bitOffset r))) ;;;
  ret read.

(** [align()] *)
Definition align : M t unit :=
  o <- bitOffset ;;
  if 0 <? o then
    o <- bitOffset ;;
    set_bitOffset (o + (16 - o))
  else ret tt.

End LzxReader.

(** ** Decompress.ts *)

(** [Buffer.from(array)]: every entry is reduced to a byte. *)
Definition Buffer_from (l : list Z) : Buffer := map (fun v => v mod 256) l.

Module Decompress.
Import LzxReader.

Section WithLzx.
(** The LZX decoder of [Lzx.ts] as the framing loop sees it: the instance
  [new Lzx(16)] and its method [decompress(buffer, frameSize,
  blockSize)], which returns the frame's bytes and changes the decoder
  and the reader. *)
Context {Lzx : Type}.
Variable Lzx_16 : Lzx.
Variable Lzx_decompress : Lzx -> Z -> Z -> M LzxReader.t (list Z * Lzx).

(** The body of [while (pos < compressedTodo)], with the loop variables
  [pos], [lzx] and [decompressed]. *)
Fixpoint decompress_loop (fuel : nat) (compressedTodo pos : Z) (lzx : Lzx)
  (decompressed : list Z) : M LzxReader.t (list Z) :=
  match fuel with
  | O => fun _ => OutOfFuel
  | S fuel =>
    if pos <? compressedTodo then
      flag <- readByte ;;
      sizes <- (if flag =? 0xFF then
                  frameSize <- readLZXInt16 ;;
                  blockSize <- readLZXInt16 ;;
                  ret (frameSize, blockSize, pos + 5)
                else
                  add_bytePosition (-1) ;;;
                  blockSize <- readLZXInt16 ;;
                  ret (0x8000, blockSize, pos + 2)) ;;
      let '(frameSize, blockSize, pos) := sizes in
      if (blockSize =? 0) || (frameSize =? 0) then ret decompressed
      else if (0x10000 <? blockSize) || (0x10000 <? frameSize)
      then throw (XnbError InvalidSizeInCompression)
      else
        frame <- Lzx_decompress lzx frameSize blockSize ;;
        let '(bytes, lzx) := frame in
        decompress_loop fuel compressedTodo (pos + blockSize) lzx
          (decompressed ++ bytes)
    else ret decompressed
  end.

(** [decompress(buffer, compressedTodo)].  A turn that goes on adds at
  least 3 to [pos], so [compressedTodo] turns and one more for the last
  test are enough fuel. *)
Definition decompress (compressedTodo : Z) : M LzxReader.t Buffer :=
  decompressed <- decompress_loop (S (Z.to_nat compressedTodo)) compressedTodo 0
                  Lzx_16 [] ;;
  ret (Buffer_from decompressed).

End WithLzx.

(** *** The framing of the format, read off the bytes

    These definitions follow the description of the outer framing, not the
    code: a 16-bit integer with its bytes swapped is [first * 256 + second];
    a frame starts with the flag [0xFF] followed by the frame size and the
    block size (5 bytes), or directly with the block size (2 bytes) and
    then has the frame size [0x8000]. *)

Definition i16_swapped_at (b : Buffer) (p : Z) : option Z :=
  match Buffer_get b p, Buffer_get b (p + 1) with
  | Some first, Some second => Some (first * 256 + second)
  | _, _ => None
  end.

(** frame size, block size and length of the frame header at offset [p] *)
Definition frame_header_at (b : Buffer) (p : Z) : option (Z * Z * Z) :=
  match Buffer_get b p with
  | Some flag =>
      if flag =? 0xFF then
        match i16_swapped_at b (p + 1), i16_swapped_at b (p + 3) with
        | Some frame_size, Some block_size => Some (frame_size, block_size, 5)
        | _, _ => None
        end
      else
        match i16_swapped_at b p with
        | Some block_size => Some (0x8000, block_size, 2)
        | None => None
        end
  | None => None
  end.

(** The reader moved to the byte offset [p]. *)
Definition at_offset (p : Z) (r : LzxReader.t) : LzxReader.t :=
  mk (set_bytePosition p (base r)) (_bitOffset r).

(** *** The framing loop of the format

    These definitions, too, follow the description and not the code.  The
    loop runs while [pos] is below [compressed_todo]; each turn takes the
    frame header that the buffer holds at the reader's cursor, stops on a
    size 0, fails on a size above [0x10000], and otherwise lets the decoder
    run on the reader moved past the header, appends the frame to the
    output and adds the header and the block size to [pos].  [turns] bounds
    the number of turns. *)

(** How the loop ends: with the output and the reader where it stands; on a
    size above [0x10000]; where the buffer ends before the end of a frame
    header; on a failure of the decoder; or not within the turns given (or
    the decoder's own). *)
Inductive framing : Type :=
  | Output (output : list Z) (r : LzxReader.t)
  | InvalidSize
  | HeaderCutOff
  | DecoderThrows (e : Exception)
  | Unfinished.

Section Frames.
Context {Lzx : Type}.
Variable Lzx_16 : Lzx.
Variable Lzx_decompress : Lzx -> Z -> Z -> M LzxReader.t (list Z * Lzx).

Fixpoint frames (turns : nat) (compressed_todo pos : Z) (lzx : Lzx) (output : list Z)
    (r : LzxReader.t) : framing :=
  match turns with
  | O => Unfinished
  | S turns =>
      if pos <? compressed_todo then
        let p := bytePosition (base r) in
        match frame_header_at (buffer (base r)) p with
        | None => HeaderCutOff
        | Some (frame_size, block_size, header) =>
            if (block_size =? 0) || (frame_size =? 0)
            then Output output (at_offset (p + header) r)
            else if (0x10000 <? block_size) || (0x10000 <? frame_size)
            then InvalidSize
            else
              match Lzx_decompress lzx frame_size block_size (at_offset (p + header) r) with
              | Ok ((frame, lzx), r) =>
                  frames turns compressed_todo (pos + header + block_size) lzx
                    (output ++ frame) r
              | Throw e => DecoderThrows e
              | OutOfFuel => Unfinished
              end
        end
      else Output output r
  end.

(** The loop from [pos = 0], with no output yet and the decoder of a 16-bit
    window.  A turn that goes on adds at least 3 to [pos]. *)
Definition framed (compressed_todo : Z) (r : LzxReader.t) : framing :=
  frames (S (Z.to_nat compressed_todo)) compressed_todo 0 Lzx_16 [] r.

End Frames.

End Decompress.

(** Every entry of a buffer is a byte. *)
Definition bytes (b : Buffer) : Prop := Forall (fun v => 0 <= v <= 255) b.

(** ** JavaScript numbers with fractions: IEEE 754 binary64 *)

Module Num.

Definition number : Type := spec_float.

Definition prec : Z := 53.
Definition emax : Z := 1024.

(** The number an integer literal or an integer-valued byte denotes. *)
Definition of_Z (z : Z) : number := binary_normalize prec emax z 0 false.

Definition NaN : number := S754_nan.

(** [x / y], [x * y], [x + y], [-x] *)
Definition div (x y : number) : number := SFdiv prec emax x y.
Definition mul (x y : number) : number := SFmul prec emax x y.
Definition add (x y : number) : number := SFadd prec emax x y.
Definition opp (x : number) : number := SFopp x.

(** [ToNumber] of an array element: [undefined] becomes [NaN]. *)
Definition of_element (v : option Z) : number :=
  match v with
  | Some z => of_Z z
  | None => NaN
  end.

(** The integer [floor] of the finite value [(-1)^s * m * 2^e]. *)
Definition floorZ (s : bool) (m : positive) (e : Z) : Z :=
  let v := if s then Z.neg m else Z.pos m in
  if 0 <=? e then v * 2 ^ e else Z.shiftr v (- e).

(** The integer [ceil] of the finite value [(-1)^s * m * 2^e]. *)
Definition ceilZ (s : bool) (m : positive) (e : Z) : Z :=
  let v := if s then Z.neg m else Z.pos m in
  if 0 <=? e then v * 2 ^ e else - Z.shiftr (- v) (- e).

(** An integer result with the sign of zero kept. *)
Definition of_Z_signed (s : bool) (z : Z) : number :=
  if z =? 0 then S754_zero s else of_Z z.

(** [Math.floor(x)] *)
Definition Math_floor (x : number) : number :=
  match x with
  | S754_finite s m e => of_Z_signed s (floorZ s m e)
  | _ => x
  end.

(** [Math.ceil(x)] *)
Definition Math_ceil (x : number) : number :=
  match x with
  | S754_finite s m e => of_Z_signed s (ceilZ s m e)
  | _ => x
  end.

(** [Math.min(x, y)]: [NaN] if either is, and [-0] below [+0]. *)
Definition Math_min (x y : number) : number :=
  match SFcompare x y with
  | Some Lt => x
  | Some Gt => y
  | Some Eq => match x with S754_zero true => x | _ => y end
  | None => NaN
  end.

(** [ToUint8], the conversion of a store into a [Uint8Array]: truncate,
    then reduce modulo 256; [NaN] and the infinities become 0. *)
Definition ToUint8 (x : number) : Z :=
  match x with
  | S754_finite s m e =>
      (if s then - floorZ false m e else floorZ false m e) mod 256
  | _ => 0
  end.

(** Whether a number holds an integer value. *)
Definition is_integer (x : number) : bool :=
  match x with
  | S754_zero _ => true
  | S754_finite s m e => (0 <=? e) || (Z.pos m mod 2 ^ (- e) =? 0)
  | _ => false
  end.

End Num.

(** ** Readers/Texture2DReader.ts *)

Module Texture2D.

(** The offsets [0, 4, 8, ...] below [len] that
    [for (let i = 0; i < data.length; i += 4)] visits. *)
Definition pixel_offsets (len : nat) : list Z :=
  map (fun k => 4 * Z.of_nat k) (seq 0 (Nat.div (len + 3) 4)).

(** [Math.min(Math.ceil(data[j] * inverseAlpha), 255)] as stored. *)
Definition unpremultiplied (c : option Z) (inverseAlpha : Num.number) : Z :=
  Num.ToUint8
    (Num.Math_min (Num.Math_ceil (Num.mul (Num.of_element c) inverseAlpha))
                  (Num.of_Z 255)).

(** The body of the loop of [readFrom] at offset [i]. *)
Definition readFrom_pixel (data : Buffer) (i : Z) : Buffer :=
  let inverseAlpha := Num.div (Num.of_Z 255) (Num.of_element (Buffer_get data (i + 3))) in
  let data := Buffer_set data i (unpremultiplied (Buffer_get data i) inverseAlpha) in
  let data := Buffer_set data (i + 1) (unpremultiplied (Buffer_get data (i + 1)) inverseAlpha) in
  let data := Buffer_set data (i + 2) (unpremultiplied (Buffer_get data (i + 2)) inverseAlpha) in
  data.

(** The un-premultiply loop of [readFrom] ("add the alpha channel into the
    image"), on the pixel array in place. *)
Definition readFrom_alpha (data : Buffer) : Buffer :=
  foldl readFrom_pixel data (pixel_offsets (length data)).

(** [Math.floor(data[j] * alpha)] as stored. *)
Definition premultiplied (c : option Z) (alpha : Num.number) : Z :=
  Num.ToUint8 (Num.Math_floor (Num.mul (Num.of_element c) alpha)).

(** The body of the loop of [writeTo] at offset [i]. *)
Definition writeTo_pixel (data : Buffer) (i : Z) : Buffer :=
  let alpha := Num.div (Num.of_element (Buffer_get data (i + 3))) (Num.of_Z 255) in
  let data := Buffer_set data i (premultiplied (Buffer_get data i) alpha) in
  let data := Buffer_set data (i + 1) (premultiplied (Buffer_get data (i + 1)) alpha) in
  let data := Buffer_set data (i + 2) (premultiplied (Buffer_get data (i + 2)) alpha) in
  data.

(** The premultiply loop of [writeTo], on the pixel array in place. *)
Definition writeTo_alpha (data : Buffer) : Buffer :=
  foldl writeTo_pixel data (pixel_offsets (length data)).

(** *** Pixels

    An RGBA8 pixel array is the flattening of its pixels. *)

Definition pixel : Type := (Z * Z * Z * Z)%type.

Definition flatten (px : list pixel) : Buffer :=
  flat_map (fun '(r, g, b, a) => [r; g; b; a]) px.

Definition byte_pixel (p : pixel) : Prop :=
  let '(r, g, b, a) := p in
  (0 <= r <= 255) /\ (0 <= g <= 255) /\ (0 <= b <= 255) /\ (0 <= a <= 255).

Definition alpha_of (p : pixel) : Z := let '(_, _, _, a) := p in a.

(** What the loop of [readFrom] stores for the channel [c] of a pixel with
    alpha [a], and its action on a pixel. *)
Definition unpremultiply_channel (c a : Z) : Z :=
  unpremultiplied (Some c) (Num.div (Num.of_Z 255) (Num.of_Z a)).

Definition unpremultiply_pixel (p : pixel) : pixel :=
  let '(r, g, b, a) := p in
  (unpremultiply_channel r a, unpremultiply_channel g a, unpremultiply_channel b a, a).

(** The same for the loop of [writeTo]. *)
Definition premultiply_channel (c a : Z) : Z :=
  premultiplied (Some c) (Num.div (Num.of_Z a) (Num.of_Z 255)).

Definition premultiply_pixel (p : pixel) : pixel :=
  let '(r, g, b, a) := p in
  (premultiply_channel r a, premultiply_channel g a, premultiply_channel b a, a).

(** *** The formulas of the format in exact arithmetic *)

(** [min(255, ceil(c * 255 / a))] *)
Definition exact_unpremultiply (c a : Z) : Z := Z.min 255 (- ((- (c * 255)) / a)).

(** [floor(c * a / 255)] *)
Definition exact_premultiply (c a : Z) : Z := (c * a) / 255.

(** The channel and alpha pairs at which the rounded product
    [c * (255 / a)] lies just above the integer [c * 255 / a]. *)
Definition unpremultiply_rounds_up : list (Z * Z) :=
  [(67, 201); (134, 201); (43, 215); (86, 215); (172, 215)].

(** The pairs at which the rounded product [c * (a / 255)] lies just below
    the integer [c * a / 255]. *)
Definition premultiply_rounds_down : list (Z * Z) :=
  [(85, 147); (170, 147); (51, 155); (102, 155); (153, 155); (204, 155);
   (85, 171); (170, 171); (75, 187); (150, 187); (165, 187); (153, 195)].

Definition in_pairs (c a : Z) (l : list (Z * Z)) : bool :=
  existsb (fun '(c', a') => (c =? c') && (a =? a')) l.

End Texture2D.

(** ** The two alpha formulas on every byte pair

    What is checked of the stored channels [u] (after [readFrom]) and [p]
    (after [writeTo]) for a channel [c] in a pixel of alpha [a]: they are the
    exact formulas except at the listed pairs, where the binary64 product is
    off the integer by one unit in the last place; alpha 0 stores 0 for a
    zero channel and 255 for any other on read, and 0 on write; alpha 255
    leaves the channel as it is. *)

Definition channel_facts (c a u p : Z) : bool :=
  (if a =? 0 then u =? (if c =? 0 then 0 else 255)
   else u =? Texture2D.exact_unpremultiply c a
             + (if Texture2D.in_pairs c a Texture2D.unpremultiply_rounds_up then 1 else 0))
  && (p =? Texture2D.exact_premultiply c a
           - (if Texture2D.in_pairs c a Texture2D.premultiply_rounds_down then 1 else 0))
  && (negb (a =? 0) || (p =? 0))
  && (negb (a =? 255) || ((u =? c) && (p =? c))).

(** The check of every channel for one alpha; the two quotients are computed
    once. *)
Definition alpha_check (a : Z) : bool :=
  let inverseAlpha := Num.div (Num.of_Z 255) (Num.of_Z a) in
  let alpha := Num.div (Num.of_Z a) (Num.of_Z 255) in
  forallb (fun c =>
    channel_facts c a (Texture2D.unpremultiplied (Some c) inverseAlpha)
                      (Texture2D.premultiplied (Some c) alpha))
    (seqZ 0 256).

(** ** Texture2DReader.writeTo on the caller's texture

    The pixel array of a texture is an object: [content.data] is a reference
    into a store of typed arrays, and [writeTo] works on the array it refers
    to. *)

Module Texture2DWriter.
Import BinaryWriter.

(** A reference to a typed array. *)
Abbreviation ref := nat.

(** [interface Texture2D] *)
Record Texture2D : Type := mkTexture2D {
  format : Z;
  data : ref;
  width : Z;
  height : Z
}.

(** What [writeTo] can change: the typed arrays and the output writer. *)
Record World : Type := mkWorld {
  arrays : gmap ref (list Z);
  output : BinaryWriter.t
}.

(** A writer method run on the output. *)
Definition on_output {A : Type} (m : M BinaryWriter.t A) : M World A := fun s =>
  match m (output s) with
  | Ok (a, w) => Ok (a, mkWorld (arrays s) w)
  | Throw e => Throw e
  | OutOfFuel => OutOfFuel
  end.

(** The array a reference points to. *)
Definition load (r : ref) : M World Buffer := fun s =>
  match arrays s !! r with
  | Some d => Ok (d, s)
  | None => Throw TypeErrorUndefined
  end.

(** The array behind a reference replaced by its state after a loop that
    assigned to its elements. *)
Definition store (r : ref) (d : Buffer) : M World unit := fun s =>
  Ok (tt, mkWorld (<[r := d]> (arrays s)) (output s)).

Definition DXT1 : Z := 1.
Definition DXT3 : Z := 2.
Definition DXT5 : Z := 4.

Section WithDxt.
(** [compress(inputData, width, height, flags)] of [dxt-js]: returns a new
  array. *)
Variable compress : Buffer -> Z -> Z -> Z -> Buffer.

(** [writeTo(buffer, content, manager)].  [let data = content.data] is
  the same array as [content.data]; the loop assigns to it; [compress]
  then makes [data] a new array for the last two writes. *)
Definition compressed (content : Texture2D) (data : Buffer) : Buffer :=
  if format content =? 4 then compress data (width content) (height content) DXT1
  else if format content =? 5 then compress data (width content) (height content) DXT3
  else if format content =? 6 then compress data (width content) (height content) DXT5
  else data.

Definition writeTo (content : Texture2D) : M World unit :=
  on_output (writeInt32 (format content)) ;;;
  on_output (writeUInt32 (width content)) ;;;
  on_output (writeUInt32 (height content)) ;;;
  on_output (writeUInt32 1) ;;;
  pixels <- load (data content) ;;
  store (data content) (Texture2D.writeTo_alpha pixels) ;;;
  data <- load (data content) ;;
  let data := compressed content data in
  on_output (writeUInt32 (size data)) ;;;
  on_output (writeBytes data).

End WithDxt.

End Texture2DWriter.

(** ** Color.ts *)

Module Color.

(** [class Color]; the constructor's parameters are
    [(red, green, blue, alpha)], all 0 by default. *)
Record t : Type := new {
  red : Z;
  green : Z;
  blue : Z;
  alpha : Z
}.

(** [new Color()] *)
Definition default : t := new 0 0 0 0.

(** [Color.fromBuffer(buffer)] *)
Definition fromBuffer : M BinaryReader.t t :=
  red <- BinaryReader.readByte ;;
  green <- BinaryReader.readByte ;;
  blue <- BinaryReader.readByte ;;
  alpha <- BinaryReader.readByte ;;
  ret (new red green blue alpha).

(** [Color.toArray(data)]; an [undefined] entry makes [color.red] throw.
    [Uint8Array.from] reduces the values to bytes. *)
Fixpoint toArray (data : list (option t)) : result Buffer :=
  match data with
  | [] => Ok []
  | None :: _ => Throw TypeErrorUndefined
  | Some color :: data =>
      match toArray data with
      | Ok values =>
          Ok (red color mod 256 :: green color mod 256 :: blue color mod 256
              :: alpha color mod 256 :: values)
      | r => r
      end
  end.

(** [Color.fromArray(data, index)]; an element outside the array is
    [undefined]. *)
Definition fromArray (data : Buffer) (index : Z) : option Z * option Z * option Z * option Z :=
  (Buffer_get data index, Buffer_get data (index + 1),
   Buffer_get data (index + 2), Buffer_get data (index + 3)).

(** [isSameColor(first, second)] *)
Definition isSameColor (first second : t) : bool :=
  (red first =? red second) && (green first =? green second)
  && (blue first =? blue second) && (alpha first =? alpha second).

End Color.

(** ** Readers/SFDItemReader.ts: one image layer *)

Module SFDItem.
Import BinaryReader.

(** [interface Texture] *)
Record Texture : Type := mkTexture {
  width : Z;
  height : Z;
  data : Buffer
}.

(** [for (let k = 0; k < size; k++)] of [readFrom], with [n] pixels left:
    the register [color], the pixels [data] read so far and [emptyImage].
    [data[k] = ...] with [k] counting up from 0 appends.  The register is
    [undefined] after a palette index outside the table, and reading
    [color.red] then throws. *)
Fixpoint readFrom_pixels (n : nat) (dynamicColorTable : list Color.t)
    (color : option Color.t) (data : list (option Color.t)) (emptyImage : bool)
    : M BinaryReader.t (list (option Color.t) * bool) :=
  match n with
  | O => ret (data, emptyImage)
  | S n =>
      flag <- readBoolean ;;
      if flag then
        match color with
        | None => throw TypeErrorUndefined
        | Some c =>
            readFrom_pixels n dynamicColorTable color
              (data ++ [Some (Color.new (Color.red c) (Color.blue c)
                                        (Color.green c) (Color.alpha c))])
              emptyImage
        end
      else
        index <- readByte ;;
        let color := Array_get dynamicColorTable index in
        readFrom_pixels n dynamicColorTable color (data ++ [color]) false
  end.

(** The body of [for (let j = 0; j < innerLoop; j++)] of [readFrom]: the
    layer [textures[j]], [None] for [undefined]. *)
Definition readFrom_layer (width height : Z) (dynamicColorTable : list Color.t)
    : M BinaryReader.t (option Texture) :=
  let size := width * height in
  present <- readBoolean ;;
  if present then
    pixels <- readFrom_pixels (Z.to_nat size) dynamicColorTable (Some Color.default) [] true ;;
    let '(data, emptyImage) := pixels in
    _read 1 ;;;
    if emptyImage then ret None
    else
      array <- lift (Color.toArray data) ;;
      ret (Some (mkTexture width height array))
  else ret None.

(** The layer the format describes, from the run flags: a true flag repeats
    the register's color unchanged. *)
Fixpoint described_pixels (flags : list (option Z)) (dynamicColorTable : list Color.t)
    (register : Color.t) : list Color.t :=
  match flags with
  | [] => []
  | None :: flags => register :: described_pixels flags dynamicColorTable register
  | Some index :: flags =>
      match Array_get dynamicColorTable index with
      | Some c => c :: described_pixels flags dynamicColorTable c
      | None => []
      end
  end.

End SFDItem.

(** ** Readers/SFDAnimationReader.ts: the derived fields of a part *)

Module SFDAnimation.

(** [localId: id % 50] for a 32-bit [id]: the remainder has the sign of
    [id] and is exact. *)
Definition localId (id : Z) : Z := Z.rem id 50.

(** [type: id >= 0 ? id / 50 : -(-id / 50 + 1)]; [/] is the division of
    numbers. *)
Definition type (id : Z) : Num.number :=
  if 0 <=? id then Num.div (Num.of_Z id) (Num.of_Z 50)
  else Num.opp (Num.add (Num.div (Num.opp (Num.of_Z id)) (Num.of_Z 50)) (Num.of_Z 1)).

(** The type with the division of integers, as the format describes it. *)
Definition described_type (id : Z) : Z :=
  if 0 <=? id then Z.quot id 50 else - (Z.quot (- id) 50 + 1).

End SFDAnimation.

(** A stand-in for the LZX decoder in concrete runs of the framing loop: the
    frame is the block's bytes as they are. *)
Definition Lzx_stored (lzx : unit) (frameSize blockSize : Z)
  : M LzxReader.t (list Z * unit) :=
  frame <- LzxReader.inherited (BinaryReader.readBytes blockSize) ;;
  ret (frame, lzx).

(** ** The varint of the format

    Seven payload bits per byte, the low group first; the high bit is set on
    every byte but the last.  [k] bounds the number of bytes. *)

Fixpoint varint (k : nat) (n : Z) : list Z :=
  match k with
  | O => []
  | S k => if n / 128 =? 0 then [n mod 128]
           else (n mod 128 + 128) :: varint k (n / 128)
  end.

(** The number of bits of [n], and [ceil(bits(n) / 7)], at least 1. *)
Definition bits (n : Z) : Z := if n =? 0 then 0 else Z.log2 n + 1.

Definition varint_length (n : Z) : Z := Z.max 1 ((bits n + 6) / 7).

(** ** What the writer's methods have in common

    A method of the writer appends: when it returns, the cursor is still
    inside the buffer and the bytes before the old cursor are the same. *)

Definition appends (m : M BinaryWriter.t unit) : Prop :=
  forall w w', cursor_ok w -> m w = Ok (tt, w') ->
    cursor_ok w' /\ exists enc, written w' = written w ++ enc.

(** The [every] of [equals], over the subtypes of [this] from the index [i]
    on, against the subtypes of [other]. *)
Definition equals_every (other : XType) : list XType -> Z -> result bool :=
  fix every (l : list XType) (i : Z) {struct l} : result bool :=
    match l with
    | [] => Ok true
    | t :: l' =>
        match Type_equals t (Array_get (subtypes other) i) with
        | Ok true => every l' (i + 1)
        | r => r
        end
    end.

(** ** The LZX bit stream, read off the bytes

    The stream is a sequence of 16-bit little-endian words, each read from
    its most significant bit down. *)

(** The word at the byte offset [p]. *)
Definition word_at (b : Buffer) (p : Z) : option Z :=
  match Buffer_get b p, Buffer_get b (p + 1) with
  | Some low, Some high => Some (low + high * 256)
  | _, _ => None
  end.

(** The [n] bits that start [o] bits into the word [w]. *)
Definition word_bits (w o n : Z) : Z := (w / 2 ^ (16 - o - n)) mod 2 ^ n.

(** The [n] bits that start [o] bits into the word at [p], continued in the
    words after it; [k] bounds the number of words. *)
Fixpoint stream_bits (k : nat) (b : Buffer) (p o n : Z) : option Z :=
  if n <=? 0 then Some 0 else
  match k with
  | O => None
  | S k =>
      match word_at b p with
      | None => None
      | Some w =>
          if o + n <=? 16 then Some (word_bits w o n)
          else
            match stream_bits k b (p + 2) 0 (n - (16 - o)) with
            | Some rest => Some (word_bits w o (16 - o) * 2 ^ (n - (16 - o)) + rest)
            | None => None
            end
      end
  end.

(** ** Strings in buffers

    A string is represented by its UTF-8 bytes (a string of JavaScript
    without unpaired surrogates). *)

(** The string with the given UTF-8 bytes. *)
Definition string_of_bytes (l : Buffer) : string :=
  string_of_list_ascii (map ascii_of_byte l).

(** [s.length], the number of UTF-16 code units: one for a character of one
    to three bytes, two for a character of four bytes. *)
Definition String_length (s : string) : Z :=
  foldr (fun b n => (if (b <? 0x80) || (0xC0 <=? b) then 1 else 0)
                    + (if 0xF0 <=? b then 1 else 0) + n)
        0 (TextEncoder_encode s).

(** A byte [10xxxxxx], which continues a character. *)
Definition is_continuation (b : Z) : bool := (0x80 <=? b) && (b <? 0xC0).

(** The bytes of a string, character by character. *)
Fixpoint utf8_chars (l : Buffer) : list Buffer :=
  match l with
  | [] => []
  | b :: l' =>
      match l' with
      | c :: _ =>
          if is_continuation c then
            match utf8_chars l' with
            | char :: chars => (b :: char) :: chars
            | [] => [[b]]
            end
          else [b] :: utf8_chars l'
      | [] => [[b]]
      end
  end.

(** The bytes of the leading characters that fit whole into [room] bytes. *)
Fixpoint utf8_fit (chars : list Buffer) (room : Z) : Buffer :=
  match chars with
  | [] => []
  | char :: chars =>
      if size char <=? room then char ++ utf8_fit chars (room - size char) else []
  end.

(** [buf.write(string, offset)], in UTF-8: as many characters as fit whole
    from [offset] to the end of the buffer; a partial character is not
    written. *)
Definition Buffer_write (b : Buffer) (s : string) (offset : Z) : result Buffer :=
  if (offset <? 0) || (size b <? offset) then Throw (RangeErrorOffset offset (size b))
  else
    let fit := utf8_fit (utf8_chars (TextEncoder_encode s)) (size b - offset) in
    Ok (take (Z.to_nat offset) b ++ fit ++ drop (Z.to_nat offset + length fit) b).

(** The state of the UTF-8 decoder between two bytes: idle, or inside a
    character with [needed] more bytes to come, the next one between
    [lower] and [upper], after the bytes [seen]. *)
Inductive utf8_state : Type :=
  | Idle
  | Inside (needed : nat) (lower upper : Z) (seen : Buffer).

(** The bytes of U+FFFD, the replacement character. *)
Definition replacement : Buffer := [0xEF; 0xBF; 0xBD].

(** A byte met in the idle state: what is emitted, and the next state. *)
Definition utf8_start (b : Z) : Buffer * utf8_state :=
  if b <? 0x80 then ([b], Idle)
  else if (0xC2 <=? b) && (b <=? 0xDF) then ([], Inside 0 0x80 0xBF [b])
  else if (0xE0 <=? b) && (b <=? 0xEF)
  then ([], Inside 1 (if b =? 0xE0 then 0xA0 else 0x80) (if b =? 0xED then 0x9F else 0xBF) [b])
  else if (0xF0 <=? b) && (b <=? 0xF4)
  then ([], Inside 2 (if b =? 0xF0 then 0x90 else 0x80) (if b =? 0xF4 then 0x8F else 0xBF) [b])
  else (replacement, Idle).

(** The UTF-8 decoder: a well-formed character is kept as it is, and every
    maximal ill-formed part becomes one replacement character.  [needed]
    counts the bytes to come after the next one. *)
Fixpoint utf8_decode (st : utf8_state) (l : Buffer) : Buffer :=
  match l with
  | [] => match st with Idle => [] | Inside _ _ _ _ => replacement end
  | b :: l' =>
      match st with
      | Idle => let '(out, st') := utf8_start b in out ++ utf8_decode st' l'
      | Inside needed lower upper seen =>
          if (lower <=? b) && (b <=? upper) then
            match needed with
            | O => seen ++ [b] ++ utf8_decode Idle l'
            | S needed => utf8_decode (Inside needed 0x80 0xBF (seen ++ [b])) l'
            end
          else
            let '(out, st') := utf8_start b in
            replacement ++ out ++ utf8_decode st' l'
      end
  end.

(** [buf.toString()] *)
Definition Buffer_toString (b : Buffer) : string :=
  string_of_bytes (utf8_decode Idle b).

(** ** BinaryWriter.ts: the string methods *)

Module BinaryWriterStrings.
Import BinaryWriter.

(** [writeChars(value)]: room for [value.length] bytes, and the cursor moved
    by [value.length]. *)
Definition writeChars (value : string) : M BinaryWriter.t unit := fun w =>
  let w := alloc (String_length value) w in
  match Buffer_write (buffer w) value (bytePosition w) with
  | Ok buf => Ok (tt, mkBinary buf (bytePosition w + String_length value))
  | Throw e => Throw e
  | OutOfFuel => OutOfFuel
  end.

(** [writeString(value)]: the length as a varint, then as [writeChars]. *)
Definition writeString (value : string) : M BinaryWriter.t unit :=
  write7BitNumber (String_length value) ;;;
  fun w =>
    let w := alloc (String_length value) w in
    match Buffer_write (buffer w) value (bytePosition w) with
    | Ok buf => Ok (tt, mkBinary buf (bytePosition w + String_length value))
    | Throw e => Throw e
    | OutOfFuel => OutOfFuel
    end.

(** [writeChar(value)]; [inr length] stands for the [Error] thrown for a
    string whose length is not 1. *)
Definition writeChar (value : string) : M BinaryWriter.t (unit + Z) :=
  let length := String_length value in
  if negb (length =? 1) then ret (inr length)
  else fun w =>
    let w := alloc length w in
    match Buffer_write (buffer w) value (bytePosition w) with
    | Ok buf => Ok (inl tt, mkBinary buf (bytePosition w + length))
    | Throw e => Throw e
    | OutOfFuel => OutOfFuel
    end.

End BinaryWriterStrings.

(** ** BinaryReader.ts: the string methods *)

Module BinaryReaderStrings.
Import BinaryReader.

(** [readChars(count)] *)
Definition readChars (count : Z) : M BinaryReader.t string :=
  b <- _read count ;; ret (Buffer_toString b).

(** [readChar()] *)
Definition readChar : M BinaryReader.t string :=
  b <- _read 1 ;; ret (Buffer_toString b).

(** [readString()] *)
Definition readString : M BinaryReader.t string :=
  length <- read7BitNumber ;;
  b <- readBytes length ;;
  ret (Buffer_toString b).

(** [peekString(count)] *)
Definition peekString (count : Z) : M BinaryReader.t string :=
  b <- _peek count ;; ret (Buffer_toString b).

(** [peekChar()] *)
Definition peekChar : M BinaryReader.t string :=
  b <- _peek 1 ;; ret (Buffer_toString b).

End BinaryReaderStrings.

(** ** Encodings

    A write method emits the bytes [enc] when, in any writer, it returns
    with these bytes appended after the bytes written before; a read method
    decodes [enc] into [v] when, wherever [enc] lies in a buffer, it returns
    [v] from a cursor at its first byte and leaves the cursor after its last
    byte. *)

Definition emits (m : M BinaryWriter.t unit) (enc : Buffer) : Prop :=
  forall w, cursor_ok w ->
    exists w', m w = Ok (tt, w') /\ cursor_ok w' /\ written w' = written w ++ enc.

Definition decodes {A : Type} (m : M BinaryReader.t A) (enc : Buffer) (v : A) : Prop :=
  forall pre post,
    m (mkBinary (pre ++ enc ++ post) (size pre)) =
      Ok (v, mkBinary (pre ++ enc ++ post) (size pre + size enc)).

(** A string of ASCII characters only. *)
Definition ascii_only (s : string) : Prop :=
  Forall (fun b => b < 128) (TextEncoder_encode s).

(** ** The errors of the container and of the content readers

    The [XnbError]s thrown by [getReader], by [unpack] and by the content
    readers, with the values interpolated into their messages, and the
    [Error] of [writeChar].  A method that can throw one of them returns a
    sum, in which [inr] stands for the throw. *)

Inductive Failure : Type :=
  | InvalidReaderType (type : string + XType)
  | FileTruncated
  | UnexpectedSharedResources (shared : Z)
  | AudioFormatNotSupported
  | Texture2DFormatECT1
  | Texture2DFormatNotImplemented (format : Z)
  | ColorNotInTable
  | CharLength (length : Z).

Definition fails {S A : Type} (f : Failure) : M S (A + Failure) := ret (inr f).

(** Sequencing that stops at a throw. *)
Definition bind_ok {S A B : Type} (m : M S (A + Failure)) (k : A -> M S (B + Failure))
  : M S (B + Failure) :=
  x <- m ;;
  match x with
  | inl a => k a
  | inr f => ret (inr f)
  end.

Notation "x <-? m ;; k" := (bind_ok m (fun x => k))
  (at level 100, m at next level, right associativity).

(** A result used inside a computation. *)
Definition of_result {S A : Type} (x : result A) : M S A := fun s =>
  match x with
  | Ok a => Ok (a, s)
  | Throw e => Throw e
  | OutOfFuel => OutOfFuel
  end.

(** ** TypeReader.ts: the write side *)

(** [writeTo] of [abstract class Reader<T>]. *)
Class WriterClass (Reader Content : Type) : Type := {
  reader_writeTo : Reader -> list Reader -> Content -> M BinaryWriter.t (unit + Failure)
}.

Module ReaderManagerWriting.

Section Manager.
Context {Reader Content Read : Type}.
Context {RC : ReaderClass Reader Read} {WC : WriterClass Reader Content}.

(** [writeTo(buffer, content)] *)
Definition writeTo (_readers : list Reader) (content : Content)
  : M BinaryWriter.t (unit + Failure) :=
  BinaryWriter.write7BitNumber 1 ;;;
  match Array_get _readers 0 with
  | None => throw TypeErrorUndefined
  | Some rd => reader_writeTo rd _readers content
  end.

(** [_readers.findIndex((reader) => type.equals(reader.type))], from the
  index [i] on. *)
Fixpoint findIndex (type : XType) (l : list Reader) (i : Z) : result Z :=
  match l with
  | [] => Ok (-1)
  | reader :: l =>
      match Type_equals type (Some (reader_type reader)) with
      | Ok true => Ok i
      | Ok false => findIndex type l (i + 1)
      | Throw e => Throw e
      | OutOfFuel => OutOfFuel
      end
  end.

(** [indexOf(reader)] *)
Definition indexOf (_readers : list Reader) (reader : Reader) : result Z :=
  findIndex (reader_type reader) _readers 0.

(** [get(type)]: [_readers.find((reader) => type.equals(reader.type))]. *)
Fixpoint get (_readers : list Reader) (type : XType) : result (option Reader) :=
  match _readers with
  | [] => Ok None
  | reader :: l =>
      match Type_equals type (Some (reader_type reader)) with
      | Ok true => Ok (Some reader)
      | Ok false => get l type
      | Throw e => Throw e
      | OutOfFuel => OutOfFuel
      end
  end.

(** [writeIndex(buffer, reader)] *)
Definition writeIndex (_readers : list Reader) (reader : Reader) : M BinaryWriter.t unit :=
  index <- of_result (indexOf _readers reader) ;;
  BinaryWriter.write7BitNumber (index + 1).

End Manager.

End ReaderManagerWriting.

(** ** Type.ts: [fromString] *)

(** [s.split(separator)] for a separator of one ASCII character. *)
Fixpoint String_split (separator : ascii) (s : string) : list string :=
  match s with
  | EmptyString => [EmptyString]
  | String c s' =>
      if Ascii.eqb c separator then EmptyString :: String_split separator s'
      else match String_split separator s' with
           | segment :: segments => String c segment :: segments
           | [] => [String c EmptyString]
           end
  end.

(** [s.endsWith(suffix)] *)
Definition String_endsWith (s suffix : string) : bool :=
  bool_decide (list_ascii_of_string suffix `suffix_of` list_ascii_of_string s).

Section FromString.
(** What [fromString] makes of the text after the first backtick:
  [.slice(2, -1).match(subtypeRegex)?.map((e) => Type.fromString(e.slice(1, -1)))],
  with [[]] for [undefined]. *)
Variable generic_arguments : string -> list XType.

(** [Type.fromString(type)] *)
Definition Type_fromString (type : string) : XType :=
  let split := String_split "`" type in
  let name := hd EmptyString (String_split "," (hd EmptyString split)) in
  let subtypes := match split !! 1%nat with
                  | Some arguments => generic_arguments arguments
                  | None => []
                  end in
  mkType (Some name) subtypes (String_endsWith name "[]").

End FromString.

(** ** Readers/SoundEffectReader.ts *)

Module SoundEffect.
Import BinaryReader BinaryWriter.

(** [interface SoundEffect] *)
Record t : Type := mk {
  formatSize : Z;
  format : Buffer;
  dataSize : Z;
  data : Buffer
}.

(** [readFrom(buffer, resolver)]: the format size is tested after the four
    reads. *)
Definition readFrom : M BinaryReader.t (t + Failure) :=
  formatSize <- readUInt32 ;;
  format <- readBytes formatSize ;;
  dataSize <- readUInt32 ;;
  data <- readBytes dataSize ;;
  if negb (formatSize =? 18) then fails AudioFormatNotSupported
  else ret (inl (mk formatSize format dataSize data)).

(** [writeTo(buffer, content, manager)] *)
Definition writeTo (content : t) : M BinaryWriter.t (unit + Failure) :=
  writeUInt32 (formatSize content) ;;;
  writeBytes (format content) ;;;
  writeUInt32 (dataSize content) ;;;
  writeBytes (data content) ;;;
  writeInt32 0 ;;;
  writeInt32 0 ;;;
  writeInt32 0 ;;;
  ret (inl tt).

(** The reader's type. *)
Definition type : XType :=
  mkType (Some "Microsoft.Xna.Framework.Content.SoundEffectReader"%string) [] false.

End SoundEffect.

(** ** Worker.ts: [getReader], [unpack] and [pack] *)

Module Xnb.
Import Worker.

(** [interface ContentReader] *)
Record ContentReader : Type := mkContentReader {
  type : string;
  version : Z
}.

(** [interface Parsed<T>] *)
Record Parsed (T : Type) : Type := mkParsed {
  header : Header;
  readers : list ContentReader;
  content : T
}.

Arguments mkParsed {T} header readers content.
Arguments header {T} p.
Arguments readers {T} p.
Arguments content {T} p.

Section GetReader.
Context {Reader Read : Type} {RC : ReaderClass Reader Read}.

(** The module's list [readers] of all available readers. *)
Variable available : list Reader.

Variable generic_arguments : string -> list XType.

(** [readers.find((e) => e.type.equals(parsed))] *)
Fixpoint find_reader (parsed : XType) (l : list Reader) : result (option Reader) :=
  match l with
  | [] => Ok None
  | e :: l =>
      match Type_equals (reader_type e) (Some parsed) with
      | Ok true => Ok (Some e)
      | Ok false => find_reader parsed l
      | Throw e => Throw e
      | OutOfFuel => OutOfFuel
      end
  end.

(** [getReader(type)] *)
Definition getReader (type : string + XType) : result (Reader + Failure) :=
  let parsed := match type with
                | inl s => Type_fromString generic_arguments s
                | inr t => t
                end in
  match find_reader parsed available with
  | Ok (Some found) => Ok (inl found)
  | Ok None => Ok (inr (InvalidReaderType type))
  | Throw e => Throw e
  | OutOfFuel => OutOfFuel
  end.

End GetReader.

Section Worker.
Context {Reader Content : Type}.
Context {RC : ReaderClass Reader (Content + Failure)} {WC : WriterClass Reader Content}.
Variable available : list Reader.
Variable generic_arguments : string -> list XType.

(** The LZX decoder, as in [Decompress], and [decodeBlock], [encodeBound]
  and [encodeBlock] of [lz4]: [decodeBlock(input, output)] gives the
  output buffer after the call, [encodeBlock(input, output)] the size it
  returns and the output buffer after the call. *)
Context {Lzx : Type}.
Variable Lzx_16 : Lzx.
Variable Lzx_decompress : Lzx -> Z -> Z -> M LzxReader.t (list Z * Lzx).
Variable decodeBlock : Buffer -> Buffer -> Buffer.
Variable encodeBound : Z -> Z.
Variable encodeBlock : Buffer -> Buffer -> Z * Buffer.

(** [buffer.bytePosition = value] *)
Definition seek_to (value : Z) : M BinaryReader.t unit := fun r =>
  Ok (tt, set_bytePosition value r).

(** The [if (compressed)] block of [unpack]. *)
Definition unpack_decompress (h : Header) (fileSize : Z) : M LzxReader.t unit :=
  if default false (compressed h) then
    decompressedSize <- LzxReader.inherited BinaryReader.readUInt32 ;;
    if bool_decide (compressionType h = Some COMPRESSED_LZX_MASK) then
      let compressedTodo := fileSize - XNB_COMPRESSED_PROLOGUE_SIZE in
      decompressed <- Decompress.decompress Lzx_16 Lzx_decompress compressedTodo ;;
      LzxReader.inherited
        (BinaryReader.copyFrom decompressed XNB_COMPRESSED_PROLOGUE_SIZE 0 decompressedSize) ;;;
      LzxReader.inherited (seek_to XNB_COMPRESSED_PROLOGUE_SIZE)
    else if bool_decide (compressionType h = Some COMPRESSED_LZ4_MASK) then
      trimmed <- (fun r => Ok (Buffer_subarray (buffer (LzxReader.base r))
                                 XNB_COMPRESSED_PROLOGUE_SIZE
                                 (size (buffer (LzxReader.base r))), r)) ;;
      let decompressed := decodeBlock trimmed (Buffer_alloc decompressedSize) in
      LzxReader.inherited
        (BinaryReader.copyFrom decompressed XNB_COMPRESSED_PROLOGUE_SIZE 0 decompressedSize) ;;;
      LzxReader.inherited (seek_to XNB_COMPRESSED_PROLOGUE_SIZE)
    else ret tt
  else ret tt.

(** The loop over the readers of [unpack], with [count] turns left and the
  lists [loadedReaders] and [readers]. *)
Fixpoint unpack_readers (count : nat) (loadedReaders : list Reader)
    (readers : list ContentReader)
    : M BinaryReader.t (list Reader * list ContentReader + Failure) :=
  match count with
  | O => ret (inl (loadedReaders, readers))
  | S count =>
      type <- BinaryReaderStrings.readString ;;
      version <- BinaryReader.readInt32 ;;
      reader <-? of_result (getReader available generic_arguments (inl type)) ;;
      unpack_readers count (loadedReaders ++ [reader])
        (readers ++ [mkContentReader type version])
  end.

(** [unpack] after the decompression: the readers, the shared resources and
  the content, all read with the inherited methods of the reader. *)
Definition unpack_content (h : Header) (expect : option Reader)
  : M BinaryReader.t (Parsed Content + Failure) :=
  count <- BinaryReader.read7BitNumber ;;
  loaded <-? unpack_readers (Z.to_nat count) [] [] ;;
  let '(loadedReaders, readers) := loaded in
  shared <- BinaryReader.read7BitNumber ;;
  if negb (shared =? 0) then fails (UnexpectedSharedResources shared)
  else
    result <-? ReaderManager.readFrom loadedReaders expect ;;
    ret (inl (mkParsed
                (mkHeader (target h) (xnbVersion h) (hidef h) (compressed h) None)
                readers result)).

(** [unpack(file, expect)] *)
Definition unpack (file : Buffer) (expect : option Reader)
  : result (Parsed Content + Failure) :=
  match
    (h <- LzxReader.inherited parseHeader ;;
     fileSize <- LzxReader.inherited BinaryReader.readUInt32 ;;
     size <- (fun r => Ok (size (buffer (LzxReader.base r)), r)) ;;
     if negb (size =? fileSize) then fails FileTruncated
     else
       unpack_decompress h fileSize ;;;
       LzxReader.inherited (unpack_content h expect))
    (LzxReader.new file)
  with
  | Ok (parsed, _) => Ok parsed
  | Throw e => Throw e
  | OutOfFuel => OutOfFuel
  end.

(** The loop over [json.readers] of [pack], with the list [readers]. *)
Fixpoint pack_readers (l : list ContentReader) (readers : list Reader)
    : M BinaryWriter.t (list Reader + Failure) :=
  match l with
  | [] => ret (inl readers)
  | reader :: l =>
      found <-? of_result (getReader available generic_arguments (inl (type reader))) ;;
      BinaryWriterStrings.writeString (type reader) ;;;
      BinaryWriter.writeUInt32 (version reader) ;;;
      pack_readers l (readers ++ [found])
  end.

(** The [if (lz4Compression)] block at the end of [pack], on the trimmed
  writer. *)
Definition pack_lz4 (w : BinaryWriter.t) : result Buffer :=
  let contentBuffer := Buffer_alloc (bytePosition w - XNB_COMPRESSED_PROLOGUE_SIZE) in
  match Buffer_copy (buffer w) contentBuffer 0 XNB_COMPRESSED_PROLOGUE_SIZE
          (size (buffer w)) with
  | Ok contentBuffer =>
      let compressed := Buffer_alloc (encodeBound (size contentBuffer)) in
      let '(compressedSize, compressed) := encodeBlock contentBuffer compressed in
      let compressed := Buffer_subarray compressed 0 compressedSize in
      match Buffer_writeUInt32LE (buffer w) (size contentBuffer) 10 with
      | Ok b =>
          match Buffer_writeUInt32LE b (XNB_COMPRESSED_PROLOGUE_SIZE + compressedSize) 6 with
          | Ok returnBuffer =>
              match Buffer_copy compressed returnBuffer XNB_COMPRESSED_PROLOGUE_SIZE 0
                      (size compressed) with
              | Ok returnBuffer =>
                  Ok (Buffer_subarray returnBuffer 0
                        (XNB_COMPRESSED_PROLOGUE_SIZE + compressedSize))
              | Throw e => Throw e
              | OutOfFuel => OutOfFuel
              end
          | Throw e => Throw e
          | OutOfFuel => OutOfFuel
          end
      | Throw e => Throw e
      | OutOfFuel => OutOfFuel
      end
  | Throw e => Throw e
  | OutOfFuel => OutOfFuel
  end.

(** [pack(json)]; [jsonLength] is [Buffer.byteLength(JSON.stringify(json))],
  the capacity of the writer. *)
Definition pack (jsonLength : Z) (json : Parsed Content) : result (Buffer + Failure) :=
  match pack_header jsonLength (header json) with
  | Ok (_, w) =>
      match
        (BinaryWriter.write7BitNumber (Z.of_nat (length (readers json))) ;;;
         loaded <-? pack_readers (readers json) [] ;;
         BinaryWriter.write7BitNumber 0 ;;;
         ReaderManagerWriting.writeTo loaded (content json)) w
      with
      | Ok (inl _, w) =>
          let w := BinaryWriter.trim w in
          if lz4Compression (header json) then
            match pack_lz4 w with
            | Ok b => Ok (inl b)
            | Throw e => Throw e
            | OutOfFuel => OutOfFuel
            end
          else
            match Buffer_writeUInt32LE (buffer w) (bytePosition w) 6 with
            | Ok b => Ok (inl b)
            | Throw e => Throw e
            | OutOfFuel => OutOfFuel
            end
      | Ok (inr f, _) => Ok (inr f)
      | Throw e => Throw e
      | OutOfFuel => OutOfFuel
      end
  | Throw e => Throw e
  | OutOfFuel => OutOfFuel
  end.

End Worker.

End Xnb.

(** The [SoundEffectReader] as a reader of the manager. *)
#[export] Instance SoundEffect_reader : ReaderClass unit (SoundEffect.t + Failure) := {|
  reader_type := fun _ => SoundEffect.type;
  reader_readFrom := fun _ _ => SoundEffect.readFrom
|}.

#[export] Instance SoundEffect_writer : WriterClass unit SoundEffect.t := {|
  reader_writeTo := fun _ _ => SoundEffect.writeTo
|}.

(** ** Encodings of values that can be refused

    [emits_ok]: the write method returns normally and appends [enc];
    [reads]: the read method returns [v] from a cursor at the first byte of
    [enc], when [enc] is the end of the buffer. *)

Definition emits_ok (m : M BinaryWriter.t (unit + Failure)) (enc : Buffer) : Prop :=
  forall w, cursor_ok w ->
    exists w', m w = Ok (inl tt, w') /\ cursor_ok w' /\ written w' = written w ++ enc.

Definition reads {A : Type} (m : M BinaryReader.t A) (enc : Buffer) (v : A) : Prop :=
  forall pre, exists r', m (mkBinary (pre ++ enc) (size pre)) = Ok (v, r').

(** The bytes of an entry of the readers table. *)
Definition reader_entry (e : Xnb.ContentReader) : Buffer :=
  varint 5 (size (TextEncoder_encode (Xnb.type e))) ++ TextEncoder_encode (Xnb.type e)
  ++ bytesLE32 (Xnb.version e).

(** The readers table: the entries one after the other. *)
Definition readers_table (l : list Xnb.ContentReader) : Buffer :=
  concat (map reader_entry l).

(** [expect] is absent, or a reader of the type of [rd]. *)
Definition expected {Reader Read : Type} {RC : ReaderClass Reader Read}
    (rd : Reader) (expect : option Reader) : Prop :=
  match expect with
  | None => True
  | Some e => Type_equals (reader_type rd) (Some (reader_type e)) = Ok true
  end.

(** An entry of the readers table that [pack] can write and [unpack] read
    back, with the reader it names: an ASCII type string of fewer than
    [2 ^ 14] bytes that [getReader] resolves, and a version that is a
    non-negative 32-bit signed integer. *)
Definition listed {Reader Read : Type} {RC : ReaderClass Reader Read}
    (available : list Reader) (generic_arguments : string -> list XType)
    (e : Xnb.ContentReader) (rd : Reader) : Prop :=
  ascii_only (Xnb.type e) /\
  size (TextEncoder_encode (Xnb.type e)) < 2 ^ 14 /\
  0 <= Xnb.version e < 2 ^ 31 /\
  Xnb.getReader available generic_arguments (inl (Xnb.type e)) = Ok (inl rd).

(** ** Readers/Texture2DReader.ts: [readFrom] *)

Module Texture2DReading.
Import BinaryReader.

(** [interface Texture2D], with the pixel array as it is when [readFrom]
    returns. *)
Record Texture2D : Type := mkTexture2D {
  format : Z;
  data : Buffer;
  width : Z;
  height : Z
}.

(** The elements of a view of the reader's buffer that starts at [start],
    after assignments that made them [data]: [readBytes] returns a view
    ([subarray]), so what is assigned to its elements is assigned to the
    buffer. *)
Definition assign_view (start : Z) (data : Buffer) : M BinaryReader.t unit := fun r =>
  Ok (tt, set_buffer (take (Z.to_nat start) (buffer r) ++ data
                      ++ drop (Z.to_nat start + length data) (buffer r)) r).

Section WithDxt.
(** [decompress(inputData, width, height, flags)] of [dxt-js]: returns a
  new array. *)
Variable decompress : Buffer -> Z -> Z -> Z -> Buffer.

(** [readFrom(buffer, resolver)].  The format is tested after the reads;
  for the formats 4, 5 and 6 the loop runs on the new array [decompress]
  returns, for the format 0 on the view of the buffer. *)
Definition readFrom : M BinaryReader.t (Texture2D + Failure) :=
  format <- readInt32 ;;
  width <- readUInt32 ;;
  height <- readUInt32 ;;
  mipCount <- readUInt32 ;;
  dataSize <- readUInt32 ;;
  start <- (fun r => Ok (bytePosition r, r)) ;;
  data <- readBytes dataSize ;;
  if format =? 4 then
    let data := decompress data width height Texture2DWriter.DXT1 in
    ret (inl (mkTexture2D format (Texture2D.readFrom_alpha data) width height))
  else if format =? 5 then
    let data := decompress data width height Texture2DWriter.DXT3 in
    ret (inl (mkTexture2D format (Texture2D.readFrom_alpha data) width height))
  else if format =? 6 then
    let data := decompress data width height Texture2DWriter.DXT5 in
    ret (inl (mkTexture2D format (Texture2D.readFrom_alpha data) width height))
  else if format =? 2 then fails Texture2DFormatECT1
  else if negb (format =? 0) then fails (Texture2DFormatNotImplemented format)
  else
    let data := Texture2D.readFrom_alpha data in
    assign_view start data ;;;
    ret (inl (mkTexture2D format data width height)).

End WithDxt.

End Texture2DReading.

(** ** BinaryReader.ts and BinaryWriter.ts: the double methods *)

(** The eight bytes of a 64-bit value, least significant first. *)
Definition bytesLE64 (value : Z) : Buffer :=
  map (fun k => (value / 2 ^ (8 * Z.of_nat k)) mod 256) (seq 0 8).

(** The binary64 number of a bit pattern: sign, eleven bits of exponent,
    fifty-two bits of fraction. *)
Definition binary64_of_bits (bits : Z) : Num.number :=
  let sign := 2 ^ 63 <=? bits in
  let exponent := (bits / 2 ^ 52) mod 2 ^ 11 in
  let fraction := bits mod 2 ^ 52 in
  if exponent =? 0 then
    if fraction =? 0 then S754_zero sign
    else S754_finite sign (Z.to_pos fraction) (-1074)
  else if exponent =? 2047 then
    if fraction =? 0 then S754_infinity sign else S754_nan
  else S754_finite sign (Z.to_pos (fraction + 2 ^ 52)) (exponent - 1075).

(** The bit pattern of a binary64 number; [NaN] is written with the quiet
    bit only. *)
Definition bits_of_binary64 (x : Num.number) : Z :=
  match x with
  | S754_zero sign => if sign then 2 ^ 63 else 0
  | S754_infinity sign => (if sign then 2 ^ 63 else 0) + 2047 * 2 ^ 52
  | S754_nan => 2047 * 2 ^ 52 + 2 ^ 51
  | S754_finite sign m e =>
      (if sign then 2 ^ 63 else 0)
      + (if Z.pos m <? 2 ^ 52 then Z.pos m else (e + 1075) * 2 ^ 52 + (Z.pos m - 2 ^ 52))
  end.

(** [buf.readDoubleLE()] at offset 0: both ends of the eight bytes must be
    inside the buffer. *)
Definition Buffer_readDoubleLE (b : Buffer) : result Num.number :=
  match Buffer_get b 0, Buffer_get b 7 with
  | Some _, Some _ =>
      Ok (binary64_of_bits
            (foldr (fun byte acc => byte + 256 * acc) 0 (take 8 b)))
  | _, _ => Throw (RangeErrorOffset 0 (size b))
  end.

(** [buf.writeDoubleLE(value, offset)] *)
Definition Buffer_writeDoubleLE (b : Buffer) (value : Num.number) (offset : Z)
  : result Buffer :=
  match Buffer_get b offset, Buffer_get b (offset + 7) with
  | Some _, Some _ => Buffer_setArray b (bytesLE64 (bits_of_binary64 value)) offset
  | _, _ => Throw (RangeErrorOffset offset (size b))
  end.

Module BinaryDoubles.

(** [readDouble()]: [this._read(4).readDoubleLE()] *)
Definition readDouble : M BinaryReader.t Num.number :=
  b <- BinaryReader._read 4 ;; BinaryReader.lift (Buffer_readDoubleLE b).

(** [peekDouble()]: [this._peek(4).readDoubleLE()] *)
Definition peekDouble : M BinaryReader.t Num.number :=
  b <- BinaryReader._peek 4 ;; BinaryReader.lift (Buffer_readDoubleLE b).

(** [writeDouble(value)]:
    [this.alloc(4).buffer.writeDoubleLE(value, this._bytePosition);
     this._bytePosition += 4] *)
Definition writeDouble (value : Num.number) : M BinaryWriter.t unit := fun w =>
  let w := BinaryWriter.alloc 4 w in
  match Buffer_writeDoubleLE (buffer w) value (bytePosition w) with
  | Ok buf => Ok (tt, mkBinary buf (bytePosition w + 4))
  | Throw e => Throw e
  | OutOfFuel => OutOfFuel
  end.

End BinaryDoubles.

(** What [readFrom] returns for a format, and the pixel bytes of the buffer
    after it. *)
Definition read_texture (decompress : Buffer -> Z -> Z -> Z -> Buffer)
    (format width height : Z) (data : Buffer)
  : (Texture2DReading.Texture2D + Failure) * Buffer :=
  let decoded flags :=
    inl (Texture2DReading.mkTexture2D format
           (Texture2D.readFrom_alpha (decompress data width height flags)) width height) in
  if format =? 4 then (decoded Texture2DWriter.DXT1, data)
  else if format =? 5 then (decoded Texture2DWriter.DXT3, data)
  else if format =? 6 then (decoded Texture2DWriter.DXT5, data)
  else if format =? 2 then (inr Texture2DFormatECT1, data)
  else if negb (format =? 0) then (inr (Texture2DFormatNotImplemented format), data)
  else (inl (Texture2DReading.mkTexture2D format (Texture2D.readFrom_alpha data)
               width height),
        Texture2D.readFrom_alpha data).

(** ** Readers/SFDItemReader.ts: [readFrom] and [writeTo] *)

Module SFDItemReader.
Import BinaryReader BinaryWriter.

(** [interface ItemPart] *)
Record ItemPart : Type := mkItemPart {
  textures : list (option SFDItem.Texture);
  type : Z
}.

(** [interface SFDItem] *)
Record t : Type := mk {
  gameName : string;
  fileName : string;
  equipmentLayer : Z;
  id : string;
  jacketUnderBelt : bool;
  canEquip : bool;
  canScript : bool;
  colorPalette : string;
  width : Z;
  height : Z;
  parts : list ItemPart
}.

(** The loop that reads the color table, with [n] colors to come. *)
Fixpoint readFrom_colors (n : nat) (dynamicColorTable : list Color.t)
    : M BinaryReader.t (list Color.t) :=
  match n with
  | O => ret dynamicColorTable
  | S n =>
      color <- Color.fromBuffer ;;
      readFrom_colors n (dynamicColorTable ++ [color])
  end.

(** [for (let j = 0; j < innerLoop; j++)], with [n] layers to come. *)
Fixpoint readFrom_textures (n : nat) (width height : Z) (dynamicColorTable : list Color.t)
    (textures : list (option SFDItem.Texture))
    : M BinaryReader.t (list (option SFDItem.Texture)) :=
  match n with
  | O => ret textures
  | S n =>
      texture <- SFDItem.readFrom_layer width height dynamicColorTable ;;
      readFrom_textures n width height dynamicColorTable (textures ++ [texture])
  end.

(** [for (let i = 0; i < outerLoop; i++)], with [n] parts to come. *)
Fixpoint readFrom_parts (n : nat) (width height : Z) (dynamicColorTable : list Color.t)
    (parts : list ItemPart) : M BinaryReader.t (list ItemPart) :=
  match n with
  | O => ret parts
  | S n =>
      type <- readInt32 ;;
      innerLoop <- readInt32 ;;
      textures <- readFrom_textures (Z.to_nat innerLoop) width height dynamicColorTable [] ;;
      readFrom_parts n width height dynamicColorTable (parts ++ [mkItemPart textures type])
  end.

(** [readFrom(buffer, manager)] *)
Definition readFrom : M BinaryReader.t t :=
  fileName <- BinaryReaderStrings.readString ;;
  gameName <- BinaryReaderStrings.readString ;;
  equipmentLayer <- readInt32 ;;
  id <- BinaryReaderStrings.readString ;;
  jacketUnderBelt <- readBoolean ;;
  canEquip <- readBoolean ;;
  canScript <- readBoolean ;;
  colorPalette <- BinaryReaderStrings.readString ;;
  width <- readInt32 ;;
  height <- readInt32 ;;
  colorsCount <- readByte ;;
  dynamicColorTable <- readFrom_colors (Z.to_nat colorsCount) [] ;;
  outerLoop <- readInt32 ;;
  BinaryReaderStrings.readChar ;;;
  parts <- readFrom_parts (Z.to_nat outerLoop) width height dynamicColorTable [] ;;
  ret (mk gameName fileName equipmentLayer id jacketUnderBelt canEquip canScript
         colorPalette width height parts).

(** [Color.fromArray(data, k)] as the color it constructs: the
    constructor's default, 0, stands in for a component outside the
    array. *)
Definition color_at (data : Buffer) (k : Z) : Color.t :=
  let '(red, green, blue, alpha) := Color.fromArray data k in
  Color.new (default 0 red) (default 0 green) (default 0 blue) (default 0 alpha).

(** The colors [for (let k = 0; k < data.length; k += 4)] visits. *)
Definition texture_colors (data : Buffer) : list Color.t :=
  map (color_at data) (Texture2D.pixel_offsets (length data)).

(** [if (!dynamicColorTable.find((c) => isSameColor(c, color)))
     dynamicColorTable.push(color)] *)
Definition add_color (dynamicColorTable : list Color.t) (color : Color.t) : list Color.t :=
  if existsb (fun c => Color.isSameColor c color) dynamicColorTable
  then dynamicColorTable
  else dynamicColorTable ++ [color].

(** The color table [writeTo] collects over the parts and their layers. *)
Definition color_table (parts : list ItemPart) : list Color.t :=
  foldl (fun table part =>
           foldl (fun table texture =>
                    match texture with
                    | Some texture =>
                        foldl add_color table (texture_colors (SFDItem.data texture))
                    | None => table
                    end)
                 table (textures part))
        [] parts.

(** [dynamicColorTable.findIndex((c) => isSameColor(c, color))], from the
    index [i] on. *)
Fixpoint findIndex (color : Color.t) (dynamicColorTable : list Color.t) (i : Z) : Z :=
  match dynamicColorTable with
  | [] => -1
  | c :: table => if Color.isSameColor c color then i else findIndex color table (i + 1)
  end.

(** [color.toBuffer()] *)
Definition toBuffer (color : Color.t) : Buffer :=
  [Color.red color mod 256; Color.green color mod 256; Color.blue color mod 256;
   Color.alpha color mod 256].

(** [buffer.writeChar(value)] inside a method that lets its error through. *)
Definition writeChar (value : string) : M BinaryWriter.t (unit + Failure) :=
  done <- BinaryWriterStrings.writeChar value ;;
  match done with
  | inl _ => ret (inl tt)
  | inr length => fails (CharLength length)
  end.

(** The line feed, ['\n']. *)
Definition line_feed : string := String (ascii_of_byte 10) EmptyString.

(** The loop over the pixels of a layer in [writeTo], with the colors still
    to write and the register [color]. *)
Fixpoint writeTo_pixels (colors : list Color.t) (dynamicColorTable : list Color.t)
    (color : Color.t) : M BinaryWriter.t (unit + Failure) :=
  match colors with
  | [] => ret (inl tt)
  | color3 :: colors =>
      if Color.isSameColor color3 color then
        writeBoolean true ;;;
        writeTo_pixels colors dynamicColorTable color
      else
        writeBoolean false ;;;
        let num2 := findIndex color3 dynamicColorTable 0 in
        if num2 =? -1 then fails ColorNotInTable
        else
          writeByte num2 ;;;
          writeTo_pixels colors dynamicColorTable color3
  end.

(** The body of [for (let j = 0; j < textures.length; j++)] of the second
    loop nest of [writeTo]. *)
Definition writeTo_layer (dynamicColorTable : list Color.t)
    (texture : option SFDItem.Texture) : M BinaryWriter.t (unit + Failure) :=
  match texture with
  | Some texture =>
      writeBoolean true ;;;
      _ <-? writeTo_pixels (texture_colors (SFDItem.data texture)) dynamicColorTable
              Color.default ;;
      writeChar line_feed
  | None => writeBoolean false ;;; ret (inl tt)
  end.

Fixpoint writeTo_textures (dynamicColorTable : list Color.t)
    (textures : list (option SFDItem.Texture)) : M BinaryWriter.t (unit + Failure) :=
  match textures with
  | [] => ret (inl tt)
  | texture :: textures =>
      _ <-? writeTo_layer dynamicColorTable texture ;;
      writeTo_textures dynamicColorTable textures
  end.

Fixpoint writeTo_parts (dynamicColorTable : list Color.t) (parts : list ItemPart)
    : M BinaryWriter.t (unit + Failure) :=
  match parts with
  | [] => ret (inl tt)
  | part :: parts =>
      writeInt32 (type part) ;;;
      writeInt32 (Z.of_nat (length (textures part))) ;;;
      _ <-? writeTo_textures dynamicColorTable (textures part) ;;
      writeTo_parts dynamicColorTable parts
  end.

Fixpoint writeTo_colors (dynamicColorTable : list Color.t) : M BinaryWriter.t unit :=
  match dynamicColorTable with
  | [] => ret tt
  | color :: table => writeBytes (toBuffer color) ;;; writeTo_colors table
  end.

(** [writeTo(buffer, content, manager)] *)
Definition writeTo (content : t) : M BinaryWriter.t (unit + Failure) :=
  BinaryWriterStrings.writeString (fileName content) ;;;
  BinaryWriterStrings.writeString (gameName content) ;;;
  writeInt32 (equipmentLayer content) ;;;
  BinaryWriterStrings.writeString (id content) ;;;
  writeBoolean (jacketUnderBelt content) ;;;
  writeBoolean (canEquip content) ;;;
  writeBoolean (canScript content) ;;;
  BinaryWriterStrings.writeString (colorPalette content) ;;;
  writeInt32 (width content) ;;;
  writeInt32 (height content) ;;;
  let dynamicColorTable := color_table (parts content) in
  writeByte (Z.of_nat (length dynamicColorTable)) ;;;
  writeTo_colors dynamicColorTable ;;;
  writeInt32 (Z.of_nat (length (parts content))) ;;;
  _ <-? writeChar line_feed ;;
  writeTo_parts dynamicColorTable (parts content).

End SFDItemReader.

(** ** What a layer reads back as

    [writeTo] writes a true flag for a pixel that equals the register and a
    palette index for another one, which becomes the register; [readFrom]
    stores the register with green and blue exchanged for a true flag. *)

(** A color with green and blue exchanged. *)
Definition exchanged (c : Color.t) : Color.t :=
  Color.new (Color.red c) (Color.blue c) (Color.green c) (Color.alpha c).

(** The colors of a layer after [writeTo] and [readFrom]. *)
Fixpoint read_back (register : Color.t) (colors : list Color.t) : list Color.t :=
  match colors with
  | [] => []
  | c :: colors =>
      if Color.isSameColor c register then exchanged register :: read_back register colors
      else c :: read_back c colors
  end.

(** The bytes [writeTo] writes for the pixels of a layer. *)
Fixpoint pixel_flags (table : list Color.t) (register : Color.t) (colors : list Color.t)
    : Buffer :=
  match colors with
  | [] => []
  | c :: colors =>
      if Color.isSameColor c register then 1 :: pixel_flags table register colors
      else 0 :: SFDItemReader.findIndex c table 0 :: pixel_flags table c colors
  end.

(** The bytes of a list of colors, as [Color.toArray] lays them out. *)
Definition color_bytes (colors : list Color.t) : Buffer :=
  flat_map SFDItemReader.toBuffer colors.

(** The color of a pixel. *)
Definition color_of_pixel (p : Texture2D.pixel) : Color.t :=
  let '(r, g, b, a) := p in Color.new r g b a.

(** ** Readers/SoundEffectReader.ts: [export] and [import] *)

Module SoundEffectFile.
Import BinaryReader BinaryWriter.

(** The six reads of [export] on [new BinaryReader(value.format)]. *)
Definition format_fields (format : Buffer)
  : result (Buffer * Buffer * Z * Z * Buffer * Buffer) :=
  match
    (wavTypeFormat <- readBytes 2 ;;
     flags <- readBytes 2 ;;
     sampleRate <- readInt32 ;;
     bytesPerSec <- readInt32 ;;
     blockAlignment <- readBytes 2 ;;
     bitsPerSample <- readBytes 2 ;;
     ret (wavTypeFormat, flags, sampleRate, bytesPerSec, blockAlignment, bitsPerSample))
    (BinaryReader.new format)
  with
  | Ok (fields, _) => Ok fields
  | Throw e => Throw e
  | OutOfFuel => OutOfFuel
  end.

(** [export(value, exportFile)], on the writer [new BinaryWriter(0)]: what
    is written before [exportFile] is called with the writer's buffer. *)
Definition export (value : SoundEffect.t) : M BinaryWriter.t unit :=
  let size := size (SoundEffect.data value) + size (SoundEffect.format value) + 5 * 4 in
  BinaryWriterStrings.writeChars "RIFF" ;;;
  writeInt32 (size - 8) ;;;
  BinaryWriterStrings.writeChars "WAVE" ;;;
  BinaryWriterStrings.writeChars "fmt " ;;;
  fields <- of_result (format_fields (SoundEffect.format value)) ;;
  let '(wavTypeFormat, flags, sampleRate, bytesPerSec, blockAlignment, bitsPerSample) :=
    fields in
  writeInt32 (SoundEffect.formatSize value) ;;;
  writeBytes wavTypeFormat ;;;
  writeBytes flags ;;;
  writeInt32 sampleRate ;;;
  writeInt32 bytesPerSec ;;;
  writeBytes blockAlignment ;;;
  writeBytes bitsPerSample ;;;
  (if SoundEffect.formatSize value =? 18 then writeByte 0 ;;; writeByte 0 else ret tt) ;;;
  BinaryWriterStrings.writeChars "data" ;;;
  writeInt32 (SoundEffect.dataSize value) ;;;
  writeBytes (SoundEffect.data value).

(** [audio.bytePosition += d] *)
Definition skip (d : Z) : M BinaryReader.t unit := fun r =>
  Ok (tt, set_bytePosition (bytePosition r + d) r).

(** [import(value, importFile)], on [new BinaryReader(importFile(...))]. *)
Definition import : M BinaryReader.t SoundEffect.t :=
  skip 16 ;;;
  formatSize <- readUInt32 ;;
  format <- readBytes formatSize ;;
  skip 4 ;;;
  dataSize <- readInt32 ;;
  data <- readBytes dataSize ;;
  ret (SoundEffect.mk formatSize format dataSize data).

End SoundEffectFile.

(* ===================================================================== *)
(** * Properties *)
(* ===================================================================== *)

(** ** 32-bit operators on small values *)

Lemma ToInt32_small (z : Z) : - 2 ^ 31 <= z < 2 ^ 31 -> JS.ToInt32 z = z.
Proof.
  intros H. unfold JS.ToInt32. rewrite Z.mod_small; lia.
Qed.

Lemma band_7F (v : Z) : 0 <= v < 2 ^ 31 -> JS.band v 0x7F = v mod 128.
Proof.
  intros H. unfold JS.band. rewrite !ToInt32_small by lia.
  change 0x7F with (Z.ones 7). rewrite Z.land_ones by lia. reflexivity.
Qed.

Lemma sar_7 (v : Z) : 0 <= v < 2 ^ 31 -> JS.sar v 7 = v / 128.
Proof.
  intros H. unfold JS.sar. rewrite ToInt32_small by lia.
  change (7 mod 32) with 7. rewrite Z.shiftr_div_pow2 by lia. reflexivity.
Qed.

Lemma bor_80 (b : Z) : 0 <= b < 128 -> JS.bor b 0x80 = b + 128.
Proof.
  intros H. unfold JS.bor. rewrite !ToInt32_small by lia.
  pose proof (Z.add_lor_land b 0x80) as E.
  assert (Z.land b 0x80 = 0) as L.
  { rewrite <- (Z.mod_small b 128) by lia.
    change 128 with (2 ^ 7) at 1. rewrite <- Z.land_ones by lia.
    rewrite <- Z.land_assoc. change (Z.land (Z.ones 7) 0x80) with 0.
    apply Z.land_0_r. }
  lia.
Qed.

(** ** The writer's varint loop in arithmetic form *)

(** One turn of the emit loop on a value in the non-negative 32-bit range:
    the byte is the low seven bits, with the high bit set exactly when more
    bits remain. *)
Lemma write7BitNumber_loop_step (fuel : nat) (v : Z) (w : Binary) :
  0 <= v < 2 ^ 31 ->
  BinaryWriter.write7BitNumber_loop (S fuel) v w =
    match Buffer_get (buffer w) (bytePosition w) with
    | None => Throw (RangeErrorOffset (bytePosition w) (size (buffer w)))
    | Some _ =>
        if v / 128 =? 0
        then Ok (tt, mkBinary (Buffer_set (buffer w) (bytePosition w) (v mod 128))
                               (bytePosition w + 1))
        else BinaryWriter.write7BitNumber_loop fuel (v / 128)
               (mkBinary (Buffer_set (buffer w) (bytePosition w) (v mod 128 + 128))
                         (bytePosition w + 1))
    end.
Proof.
  intros Hv. cbn [BinaryWriter.write7BitNumber_loop].
  rewrite band_7F, sar_7 by assumption.
  pose proof (Z.mod_pos_bound v 128 ltac:(lia)) as Hm.
  unfold JS.truthy, Buffer_writeUInt8.
  destruct (v / 128 =? 0) eqn:E; cbn [negb].
  - replace ((v mod 128 <? 0) || (255 <? v mod 128)) with false
      by (symmetry; apply orb_false_iff; split; apply Z.ltb_ge; lia).
    destruct (Buffer_get (buffer w) (bytePosition w)); reflexivity.
  - rewrite bor_80 by assumption.
    replace ((v mod 128 + 128 <? 0) || (255 <? v mod 128 + 128)) with false
      by (symmetry; apply orb_false_iff; split; apply Z.ltb_ge; lia).
    destruct (Buffer_get (buffer w) (bytePosition w)); reflexivity.
Qed.

(** [C10] On a freshly constructed writer (capacity 0) [write7BitNumber]
    reserves two bytes whatever the value: every value below [2^14] is
    written (one or two bytes), and for every 32-bit value from [2^14] on the
    third byte falls at offset 2 of the 2-byte buffer, where Node's
    [writeUInt8] throws its out-of-range error. *)
Theorem write7BitNumber_fresh_capacity :
  (forall n, 0 <= n < 2 ^ 14 ->
     BinaryWriter.write7BitNumber n (BinaryWriter.new 0) =
       Ok (tt, if n <? 128 then mkBinary [n; 0] 1
               else mkBinary [n mod 128 + 128; n / 128] 2)) /\
  (forall n, 2 ^ 14 <= n < 2 ^ 31 ->
     BinaryWriter.write7BitNumber n (BinaryWriter.new 0) =
       Throw (RangeErrorOffset 2 2)).
Proof.
  split; intros n Hn.
  - unfold BinaryWriter.write7BitNumber.
    change (BinaryWriter.alloc 2 (BinaryWriter.new 0)) with (mkBinary [0; 0] 0).
    cbn [buffer length].
    rewrite write7BitNumber_loop_step by lia. cbn [buffer bytePosition].
    change (Buffer_get [0; 0] 0) with (Some 0).
    destruct (n <? 128) eqn:L.
    + apply Z.ltb_lt in L.
      rewrite Z.div_small, Z.mod_small by lia. reflexivity.
    + apply Z.ltb_ge in L.
      assert (0 < n / 128 < 128) as Hq by (split; [apply Z.div_str_pos; lia | apply Z.div_lt_upper_bound; lia]).
      replace (n / 128 =? 0) with false by (symmetry; apply Z.eqb_neq; lia).
      rewrite write7BitNumber_loop_step by lia. cbn [buffer bytePosition].
      change (Buffer_get (Buffer_set [0; 0] 0 (n mod 128 + 128)) (0 + 1)) with (Some 0).
      rewrite (Z.div_small (n / 128)), (Z.mod_small (n / 128)) by lia.
      reflexivity.
  - unfold BinaryWriter.write7BitNumber.
    change (BinaryWriter.alloc 2 (BinaryWriter.new 0)) with (mkBinary [0; 0] 0).
    cbn [buffer length].
    assert (128 <= n / 128 < 2 ^ 24) as Hq
      by (split; [apply Z.div_le_lower_bound; lia | apply Z.div_lt_upper_bound; lia]).
    assert (0 < n / 128 / 128 < 2 ^ 17) as Hq2
      by (split; [apply Z.div_str_pos; lia | apply Z.div_lt_upper_bound; lia]).
    rewrite write7BitNumber_loop_step by lia. cbn [buffer bytePosition].
    change (Buffer_get [0; 0] 0) with (Some 0).
    replace (n / 128 =? 0) with false by (symmetry; apply Z.eqb_neq; lia).
    rewrite write7BitNumber_loop_step by lia. cbn [buffer bytePosition].
    change (Buffer_get (Buffer_set [0; 0] 0 (n mod 128 + 128)) (0 + 1)) with (Some 0).
    replace (n / 128 / 128 =? 0) with false by (symmetry; apply Z.eqb_neq; lia).
    rewrite write7BitNumber_loop_step by lia. cbn [buffer bytePosition].
    reflexivity.
Qed.

(** The theorem at 300 (two bytes) and at 16384 (the first value that
    needs a third byte). *)
Lemma write7BitNumber_fresh_capacity_witness :
  BinaryWriter.write7BitNumber 300 (BinaryWriter.new 0) =
    Ok (tt, mkBinary [172; 2] 2) /\
  BinaryWriter.write7BitNumber 16384 (BinaryWriter.new 0) =
    Throw (RangeErrorOffset 2 2).
Proof.
  split.
  - apply (proj1 write7BitNumber_fresh_capacity 300). lia.
  - apply (proj2 write7BitNumber_fresh_capacity 16384). lia.
Defined.

(** ** Cursor lemmas for the writer and the reader *)

Lemma size_app (a b : Buffer) : size (a ++ b) = size a + size b.
Proof. unfold size. rewrite length_app. lia. Qed.

Lemma size_alloc (n : Z) : 0 <= n -> size (Buffer_alloc n) = n.
Proof. intros H. unfold size, Buffer_alloc. rewrite length_replicate. lia. Qed.

Lemma alloc_room (n : Z) (w : Binary) :
  cursor_ok w -> 0 <= n ->
  cursor_ok (BinaryWriter.alloc n w) /\
  written (BinaryWriter.alloc n w) = written w /\
  bytePosition (BinaryWriter.alloc n w) = bytePosition w /\
  bytePosition w + n <= size (buffer (BinaryWriter.alloc n w)).
Proof.
  intros [H0 H1] Hn. unfold BinaryWriter.alloc, cursor_ok, written.
  destruct (size (buffer w) <=? bytePosition w + n) eqn:E; cbn.
  - apply Z.leb_le in E. rewrite size_app, size_alloc by lia.
    repeat split; try lia.
    apply take_app_le. unfold size in H1. lia.
  - apply Z.leb_gt in E. repeat split; lia.
Qed.

Lemma Buffer_get_Some (b : Buffer) (i : Z) :
  0 <= i < size b -> exists v, Buffer_get b i = Some v.
Proof.
  intros H. unfold Buffer_get. replace (i <? 0) with false by (symmetry; apply Z.ltb_ge; lia).
  destruct (lookup_lt_is_Some_2 b (Z.to_nat i)) as [v Hv]; [unfold size in H; lia|].
  eauto.
Qed.

Lemma Buffer_get_None (b : Buffer) (i : Z) :
  size b <= i -> Buffer_get b i = None.
Proof.
  intros H. unfold Buffer_get. destruct (i <? 0); [reflexivity|].
  apply lookup_ge_None. unfold size in H. lia.
Qed.

Lemma Buffer_setArray_ok (b source : Buffer) (offset : Z) :
  0 <= offset -> offset + size source <= size b ->
  Buffer_setArray b source offset =
    Ok (take (Z.to_nat offset) b ++ source
        ++ drop (Z.to_nat offset + length source) b).
Proof.
  intros H0 H1. unfold Buffer_setArray.
  replace ((offset <? 0) || (size b <? offset + size source)) with false; [reflexivity|].
  symmetry. apply orb_false_iff. split; apply Z.ltb_ge; lia.
Qed.

Lemma writeBytes_written (value : Buffer) (w : Binary) :
  cursor_ok w ->
  exists w', BinaryWriter.writeBytes value w = Ok (tt, w') /\
             cursor_ok w' /\ written w' = written w ++ value.
Proof.
  intros Hw. unfold BinaryWriter.writeBytes.
  assert (0 <= size value) as Hs by (unfold size; lia).
  destruct (alloc_room (size value) w Hw Hs) as (Hc & Hwr & Hp & Hroom).
  set (w1 := BinaryWriter.alloc (size value) w) in *.
  destruct Hc as [Hc0 Hc1].
  rewrite Buffer_setArray_ok by lia.
  eexists. split; [reflexivity|]. unfold cursor_ok, written in *. cbn [buffer bytePosition].
  assert (length (take (Z.to_nat (bytePosition w1)) (buffer w1)) = Z.to_nat (bytePosition w1)) as Hl.
  { rewrite length_take. unfold size in Hc1. lia. }
  split.
  - rewrite !size_app. unfold size in *. rewrite Hl, length_drop. lia.
  - rewrite <- Hwr.
    replace (Z.to_nat (bytePosition w1 + size value))
      with (length (take (Z.to_nat (bytePosition w1)) (buffer w1) ++ value))
      by (rewrite length_app, Hl; unfold size; lia).
    rewrite app_assoc. apply take_app_length.
Qed.

Lemma writeByte_written (value : Z) (w : Binary) :
  cursor_ok w -> 0 <= value <= 255 ->
  exists w', BinaryWriter.writeByte value w = Ok (tt, w') /\
             cursor_ok w' /\ written w' = written w ++ [value].
Proof.
  intros Hw Hv. unfold BinaryWriter.writeByte.
  destruct (alloc_room 1 w Hw ltac:(lia)) as (Hc & Hwr & Hp & Hroom).
  set (w1 := BinaryWriter.alloc 1 w) in *.
  destruct Hc as [Hc0 Hc1].
  unfold Buffer_writeUInt8.
  replace ((value <? 0) || (255 <? value)) with false
    by (symmetry; apply orb_false_iff; split; apply Z.ltb_ge; lia).
  destruct (Buffer_get_Some (buffer w1) (bytePosition w1)) as [v0 Hv0]; [lia|].
  rewrite Hv0. eexists. split; [reflexivity|].
  unfold cursor_ok, written, Buffer_set in *. cbn [buffer bytePosition].
  replace (bytePosition w1 <? 0) with false by (symmetry; apply Z.ltb_ge; lia).
  split.
  - unfold size in *. rewrite length_insert. lia.
  - rewrite <- Hwr.
    replace (Z.to_nat (bytePosition w1 + 1)) with (S (Z.to_nat (bytePosition w1))) by lia.
    erewrite take_S_r.
    + rewrite take_insert_ge by lia. reflexivity.
    + apply list_lookup_insert_eq. unfold size in *. lia.
Qed.

Lemma writeUInt32_written (value : Z) (w : Binary) :
  cursor_ok w -> 0 <= value < 2 ^ 32 ->
  exists w', BinaryWriter.writeUInt32 value w = Ok (tt, w') /\
             cursor_ok w' /\ written w' = written w ++ bytesLE32 value.
Proof.
  intros Hw Hv. unfold BinaryWriter.writeUInt32.
  destruct (alloc_room 4 w Hw ltac:(lia)) as (Hc & Hwr & Hp & Hroom).
  set (w1 := BinaryWriter.alloc 4 w) in *.
  destruct Hc as [Hc0 Hc1].
  unfold Buffer_writeUInt32LE.
  replace ((value <? 0) || (2 ^ 32 - 1 <? value)) with false
    by (symmetry; apply orb_false_iff; split; apply Z.ltb_ge; lia).
  destruct (Buffer_get_Some (buffer w1) (bytePosition w1)) as [v0 Hv0]; [lia|].
  destruct (Buffer_get_Some (buffer w1) (bytePosition w1 + 3)) as [v3 Hv3]; [lia|].
  rewrite Hv0, Hv3.
  assert (size (bytesLE32 value) = 4) as Hs by reflexivity.
  rewrite Buffer_setArray_ok by lia.
  eexists. split; [reflexivity|]. unfold cursor_ok, written in *. cbn [buffer bytePosition].
  assert (length (take (Z.to_nat (bytePosition w1)) (buffer w1)) = Z.to_nat (bytePosition w1)) as Hl.
  { rewrite length_take. unfold size in Hc1. lia. }
  split.
  - rewrite !size_app, Hs. unfold size in *. rewrite Hl, length_drop.
    cbn [length bytesLE32]. lia.
  - rewrite <- Hwr.
    replace (Z.to_nat (bytePosition w1 + 4))
      with (length (take (Z.to_nat (bytePosition w1)) (buffer w1) ++ bytesLE32 value))
      by (rewrite length_app, Hl; cbn [length bytesLE32]; lia).
    rewrite app_assoc. apply take_app_length.
Qed.

Lemma _read_ok (count : Z) (r : Binary) :
  0 <= bytePosition r -> 0 <= count ->
  bytePosition r + count <= size (buffer r) ->
  BinaryReader._read count r =
    Ok (take (Z.to_nat count) (drop (Z.to_nat (bytePosition r)) (buffer r)),
        set_bytePosition (bytePosition r + count) r).
Proof.
  intros H0 Hc H1. unfold BinaryReader._read, bind, BinaryReader._seek, ret.
  replace (Z.max (bytePosition r + count) 0) with (bytePosition r + count) by lia.
  replace ((bytePosition r + count <? 0) || (size (buffer r) <? bytePosition r + count))
    with false by (symmetry; apply orb_false_iff; split; apply Z.ltb_ge; lia).
  unfold Buffer_subarray.
  replace (bytePosition r <? 0) with false by (symmetry; apply Z.ltb_ge; lia).
  replace (bytePosition r + count <? 0) with false by (symmetry; apply Z.ltb_ge; lia).
  rewrite !Z.min_l by lia.
  replace (bytePosition r + count - bytePosition r) with count by lia.
  reflexivity.
Qed.

Lemma readByte_ok (r : Binary) (v : Z) :
  0 <= bytePosition r ->
  buffer r !! Z.to_nat (bytePosition r) = Some v ->
  BinaryReader.readByte r = Ok (v, set_bytePosition (bytePosition r + 1) r).
Proof.
  intros H0 Hv. unfold BinaryReader.readByte, bind.
  pose proof (lookup_lt_Some _ _ _ Hv) as Hlt.
  rewrite _read_ok by (unfold size; lia).
  unfold BinaryReader.lift, Buffer_readUInt8, Buffer_get. cbn [Z.ltb Z.compare Z.to_nat].
  rewrite lookup_take_lt by (cbn; lia). rewrite lookup_drop, Nat.add_0_r, Hv.
  reflexivity.
Qed.

(** Rewrites the next [readByte] of the goal, a read of the byte [v]. *)
Ltac read_byte v :=
  rewrite (readByte_ok _ v);
  [ | cbn [buffer bytePosition]; lia | cbn [buffer bytePosition]; reflexivity ].

Lemma readByte_eof (r : Binary) :
  0 <= bytePosition r -> size (buffer r) <= bytePosition r ->
  BinaryReader.readByte r =
    Throw (XnbError (BufferSeekOutOfBounds (bytePosition r + 1) (size (buffer r)))).
Proof.
  intros H0 H1. unfold BinaryReader.readByte, bind, BinaryReader._read, bind,
    BinaryReader._seek.
  replace (Z.max (bytePosition r + 1) 0) with (bytePosition r + 1) by lia.
  replace ((bytePosition r + 1 <? 0) || (size (buffer r) <? bytePosition r + 1))
    with true; [reflexivity|].
  symmetry. apply orb_true_iff. right. apply Z.ltb_lt. lia.
Qed.

(** ** The header written by [pack] and read back by [parseHeader] *)

Lemma cursor_ok_new (n : Z) : cursor_ok (BinaryWriter.new n).
Proof. unfold cursor_ok, BinaryWriter.new, size. cbn. lia. Qed.

Lemma pack_flags_byte (h : Worker.Header) : 0 <= Worker.pack_flags h <= 255.
Proof.
  unfold Worker.pack_flags.
  destruct (Worker.hidef h), (Worker.lz4Compression h); vm_compute; split; discriminate.
Qed.

Lemma zero_u32 : 0 <= 0 < 2 ^ 32.
Proof. split; [lia | reflexivity]. Qed.

(** The bytes [pack] has written when it reaches the readers table. *)
Lemma pack_header_written (jsonLength : Z) (h : Worker.Header) :
  0 <= Worker.xnbVersion h <= 255 ->
  exists w, Worker.pack_header jsonLength h = Ok (tt, w) /\ cursor_ok w /\
    written w = TextEncoder_encode "XNB" ++ TextEncoder_encode (Worker.target h)
                ++ [Worker.xnbVersion h; Worker.pack_flags h] ++ bytesLE32 0
                ++ (if Worker.lz4Compression h then bytesLE32 0 else []).
Proof.
  intros Hv. unfold Worker.pack_header, bind.
  destruct (writeBytes_written (TextEncoder_encode "XNB") _ (cursor_ok_new jsonLength))
    as (w1 & E1 & C1 & W1). rewrite E1.
  destruct (writeBytes_written (TextEncoder_encode (Worker.target h)) _ C1)
    as (w2 & E2 & C2 & W2). rewrite E2.
  destruct (writeByte_written (Worker.xnbVersion h) _ C2 Hv)
    as (w3 & E3 & C3 & W3). rewrite E3.
  destruct (writeByte_written (Worker.pack_flags h) _ C3 (pack_flags_byte h))
    as (w4 & E4 & C4 & W4). rewrite E4.
  destruct (writeUInt32_written 0 _ C4 zero_u32) as (w5 & E5 & C5 & W5). rewrite E5.
  assert (written (BinaryWriter.new jsonLength) = []) as W0 by reflexivity.
  destruct (Worker.lz4Compression h).
  - destruct (writeUInt32_written 0 _ C5 zero_u32) as (w6 & E6 & C6 & W6).
    exists w6. rewrite E6. split; [reflexivity|]. split; [exact C6|].
    rewrite W6, W5, W4, W3, W2, W1, W0. rewrite <- !app_assoc. reflexivity.
  - exists w5. split; [reflexivity|]. split; [exact C5|].
    rewrite W5, W4, W3, W2, W1, W0. rewrite <- !app_assoc, app_nil_r. reflexivity.
Qed.

(** [parseHeader] on a buffer that starts with the magic, one target byte,
    the version and the flags. *)
Lemma parseHeader_prefix (t v f : Z) (rest : Buffer) :
  Worker.parseHeader (BinaryReader.new ([88; 78; 66; t; v; f] ++ rest)) =
    Ok (Worker.mkHeader
          (toLowerCase (Buffer_toString1 t)) v
          (negb (JS.band f Worker.HIDEF_MASK =? 0))
          (Some (negb ((if JS.truthy (JS.band f Worker.COMPRESSED_LZX_MASK)
                        then JS.band f Worker.COMPRESSED_LZX_MASK
                        else JS.band f Worker.COMPRESSED_LZ4_MASK) =? 0)))
          (Some (if negb (JS.band f Worker.COMPRESSED_LZX_MASK =? 0)
                 then Worker.COMPRESSED_LZX_MASK
                 else if JS.truthy (JS.band f Worker.COMPRESSED_LZ4_MASK)
                      then Worker.COMPRESSED_LZ4_MASK else 0)),
        mkBinary ([88; 78; 66; t; v; f] ++ rest) 6).
Proof.
  unfold Worker.parseHeader, bind, BinaryReader.new.
  rewrite _read_ok by (unfold size; cbn [buffer bytePosition length app]; lia).
  cbv [Z.to_nat Pos.to_nat Pos.iter_op Nat.add buffer bytePosition
       set_bytePosition firstn skipn app Z.add Pos.add Pos.succ].
  change (negb (bool_decide ([88; 78; 66] = TextEncoder_encode "XNB"))) with false.
  cbn beta iota.
  rewrite _read_ok by (unfold size; cbn [buffer bytePosition length app]; lia).
  cbv [Z.to_nat Pos.to_nat Pos.iter_op Nat.add buffer bytePosition
       set_bytePosition firstn skipn app Z.add Pos.add Pos.succ].
  rewrite (readByte_ok _ v) by (cbn [buffer bytePosition]; first [lia | reflexivity]).
  cbv [buffer bytePosition set_bytePosition Z.add Pos.add Pos.succ].
  rewrite (readByte_ok _ f) by (cbn [buffer bytePosition]; first [lia | reflexivity]).
  reflexivity.
Qed.

Lemma pack_header_buffer (jsonLength : Z) (h : Worker.Header) (c : ascii) :
  0 <= Worker.xnbVersion h <= 255 ->
  Worker.target h = String c EmptyString ->
  exists w rest,
    Worker.pack_header jsonLength h = Ok (tt, w) /\
    buffer w = [88; 78; 66; byte_of_ascii c; Worker.xnbVersion h; Worker.pack_flags h]
               ++ rest.
Proof.
  intros Hv Ht.
  destruct (pack_header_written jsonLength h Hv) as (w & E & C & W).
  exists w. rewrite Ht in W.
  pose proof (take_drop (Z.to_nat (bytePosition w)) (buffer w)) as TD.
  fold (written w) in TD. rewrite W in TD.
  eexists. split; [exact E|]. rewrite <- TD.
  cbn [TextEncoder_encode list_ascii_of_string map app]. reflexivity.
Qed.

Ltac elem_cases H :=
  repeat (apply elem_of_cons in H as [H | H]);
  [ .. | apply elem_of_nil in H; contradiction ].

(** What [parseHeader] returns on the bytes [pack] emits for a valid header:
    the LZ4 bit is there only when [hidef] is off. *)
Lemma pack_then_parseHeader (jsonLength : Z) (h : Worker.Header) :
  Worker.valid_header h ->
  exists w r,
    Worker.pack_header jsonLength h = Ok (tt, w) /\
    buffer w !! 5%nat = Some (Worker.pack_flags h) /\
    Worker.pack_flags h =
      Worker.flags_layout (Worker.hidef h)
        (negb (Worker.hidef h) && Worker.lz4Compression h) false /\
    Worker.parseHeader (BinaryReader.new (buffer w)) =
      Ok (Worker.mkHeader (Worker.target h) (Worker.xnbVersion h) (Worker.hidef h)
            (Some (negb (Worker.hidef h) && Worker.lz4Compression h))
            (Some (if negb (Worker.hidef h) && Worker.lz4Compression h
                   then Worker.COMPRESSED_LZ4_MASK else 0)), r).
Proof.
  intros [Ht Hv]. destruct h as [t v hd c ct]. cbn [Worker.target Worker.xnbVersion Worker.hidef] in *.
  assert (0 <= v <= 255) as Hb by (elem_cases Hv; lia).
  elem_cases Ht; subst t;
    (lazymatch goal with
     | |- context [Worker.pack_header _ ?h'] =>
         edestruct (pack_header_buffer jsonLength h') as (w & rest & E & B);
         [exact Hb | reflexivity |]
     end;
     exists w; eexists; split; [exact E|];
     rewrite B; split; [reflexivity|];
     split; [destruct hd; reflexivity|];
     rewrite parseHeader_prefix; destruct hd; reflexivity).
Qed.

(** [X1] The header round trip and the flags layout hold for every valid header
    except when [hidef] is set on an LZ4 target. *)
Lemma header_roundtrip_unless_hidef_lz4 (jsonLength : Z) (h : Worker.Header) :
  Worker.valid_header h ->
  Worker.hidef h && Worker.lz4Compression h = false ->
  exists w r,
    Worker.pack_header jsonLength h = Ok (tt, w) /\
    buffer w !! 5%nat =
      Some (Worker.flags_layout (Worker.hidef h) (Worker.lz4Compression h) false) /\
    Worker.parseHeader (BinaryReader.new (buffer w)) = Ok (Worker.expected_header h, r).
Proof.
  intros Hh Hx.
  destruct (pack_then_parseHeader jsonLength h Hh) as (w & r & E & F & L & P).
  exists w, r. split; [exact E|]. unfold Worker.expected_header.
  rewrite F, L, P.
  destruct (Worker.hidef h), (Worker.lz4Compression h); try discriminate; auto.
Qed.

Lemma header_roundtrip_unless_hidef_lz4_witness :
  exists w r,
    Worker.pack_header 64 (Worker.mkHeader "i" 5 false None None) = Ok (tt, w) /\
    buffer w !! 5%nat = Some 64 /\
    Worker.parseHeader (BinaryReader.new (buffer w)) =
      Ok (Worker.mkHeader "i" 5 false (Some true) (Some 64), r).
Proof.
  apply (header_roundtrip_unless_hidef_lz4 64 (Worker.mkHeader "i" 5 false None None)).
  - split; cbn; set_solver.
  - reflexivity.
Defined.

(** [C2] The header [{target: 'a', xnbVersion: 5, hidef: true}] is valid and
    selects LZ4, yet the flags byte [pack] emits at offset 5 is [0x01]: bit 6
    is missing ([0x41] in the layout), and [parseHeader] reads the bytes back
    as an uncompressed file, not as the header that was packed. *)
Theorem pack_header_hidef_lz4 (jsonLength : Z) :
  let h := Worker.mkHeader "a" 5 true None None in
  Worker.valid_header h /\
  exists w r,
    Worker.pack_header jsonLength h = Ok (tt, w) /\
    buffer w !! 5%nat = Some 0x01 /\
    Worker.flags_layout (Worker.hidef h) (Worker.lz4Compression h) false = 0x41 /\
    Worker.parseHeader (BinaryReader.new (buffer w)) =
      Ok (Worker.mkHeader "a" 5 true (Some false) (Some 0), r) /\
    Worker.mkHeader "a" 5 true (Some false) (Some 0) <> Worker.expected_header h.
Proof.
  intros h.
  assert (Worker.valid_header h) as Hh by (split; cbn; set_solver).
  split; [exact Hh|].
  destruct (pack_then_parseHeader jsonLength h Hh) as (w & r & E & F & L & P).
  exists w, r. repeat split; try assumption. discriminate.
Qed.

(** ** ReaderManager.readFrom: the index guard *)

Section ReaderIndex.
Context {Reader Content : Type} {RC : ReaderClass Reader Content}.

(** The varint [0xFF 0x01] decodes to 255. *)
Lemma read7BitNumber_FF_01 (rest : Buffer) :
  BinaryReader.read7BitNumber (BinaryReader.new ([0xFF; 0x01] ++ rest)) =
    Ok (255, mkBinary ([0xFF; 0x01] ++ rest) 2).
Proof.
  unfold BinaryReader.read7BitNumber, BinaryReader.new.
  cbn [buffer length app BinaryReader.read7BitNumber_loop]. unfold bind.
  read_byte 0xFF.
  change (JS.truthy (JS.band 0xFF 0x80)) with true. cbn iota.
  cbv [set_bytePosition buffer bytePosition]. read_byte 0x01.
  reflexivity.
Qed.

(** [C7] When the decoded reader index [i] has [i - 1 >= n] for the [n]
    readers of the registry, [readFrom] throws the invalid-reader-index
    error; no reader's [readFrom] has been called (the result does not
    depend on the readers' decoders).  In particular the index 255, the
    varint [0xFF 0x01], with four readers is rejected. *)
Theorem readFrom_invalid_reader_index :
  (forall (readers : list Reader) (expect : option Reader) (r r' : Binary) (i : Z),
     BinaryReader.read7BitNumber r = Ok (i, r') ->
     Z.of_nat (length readers) <= i - 1 ->
     ReaderManager.readFrom readers expect r =
       Throw (XnbError (InvalidReaderIndex (i - 1)))) /\
  (forall (readers : list Reader) (expect : option Reader) (rest : Buffer),
     length readers = 4%nat ->
     ReaderManager.readFrom readers expect (BinaryReader.new ([0xFF; 0x01] ++ rest)) =
       Throw (XnbError (InvalidReaderIndex 254))).
Proof.
  assert (forall (readers : list Reader) (expect : option Reader) (r r' : Binary) (i : Z),
     BinaryReader.read7BitNumber r = Ok (i, r') ->
     Z.of_nat (length readers) <= i - 1 ->
     ReaderManager.readFrom readers expect r =
       Throw (XnbError (InvalidReaderIndex (i - 1)))) as G.
  { intros readers expect r r' i Hi Hn.
    unfold ReaderManager.readFrom, bind. rewrite Hi.
    replace (Z.of_nat (length readers) <=? i - 1) with true
      by (symmetry; apply Z.leb_le; exact Hn).
    reflexivity. }
  split; [exact G|].
  intros readers expect rest Hl.
  apply (G readers expect _ _ 255 (read7BitNumber_FF_01 rest)). lia.
Qed.

(** [C8] The guard is one-sided: a raw index of 0 gives the internal index
    -1, which is not [>=] the reader count, so the invalid-reader-index
    error is not raised; the lookup [_readers[-1]] is [undefined] and the
    dispatch ends in the engine's [TypeError] on it. *)
Theorem readFrom_index_zero_not_guarded
    (readers : list Reader) (expect : option Reader) (r r' : Binary) :
  BinaryReader.read7BitNumber r = Ok (0, r') ->
  (Z.of_nat (length readers) <=? 0 - 1) = false /\
  Array_get readers (0 - 1) = None /\
  ReaderManager.readFrom readers expect r = Throw TypeErrorUndefined /\
  ReaderManager.readFrom readers expect r <>
    Throw (XnbError (InvalidReaderIndex (0 - 1))).
Proof.
  intros H0.
  assert ((Z.of_nat (length readers) <=? 0 - 1) = false) as Hg by (apply Z.leb_gt; lia).
  assert (ReaderManager.readFrom readers expect r = Throw TypeErrorUndefined) as E.
  { unfold ReaderManager.readFrom, bind. rewrite H0, Hg.
    destruct expect; reflexivity. }
  repeat split; [exact Hg | exact E | rewrite E; discriminate].
Qed.

End ReaderIndex.

(** The two theorems on the registry of [Worker.ts]. *)
Lemma readFrom_invalid_reader_index_witness :
  ReaderManager.readFrom (H := KnownReader_dispatch_only)
    [Texture2DReader; SoundEffectReader; SFDItemReader; SFDAnimationReader] None
    (BinaryReader.new [0xFF; 0x01]) =
  Throw (XnbError (InvalidReaderIndex (255 - 1))).
Proof.
  apply (proj1 (readFrom_invalid_reader_index (RC := KnownReader_dispatch_only))
           _ None (BinaryReader.new [0xFF; 0x01]) (mkBinary [0xFF; 0x01] 2) 255).
  - reflexivity.
  - cbn. lia.
Defined.

Lemma readFrom_index_zero_not_guarded_witness :
  ReaderManager.readFrom (H := KnownReader_dispatch_only)
    [Texture2DReader; SoundEffectReader; SFDItemReader; SFDAnimationReader] None
    (BinaryReader.new [0x00]) = Throw TypeErrorUndefined.
Proof.
  apply (readFrom_index_zero_not_guarded (RC := KnownReader_dispatch_only)
           [Texture2DReader; SoundEffectReader; SFDItemReader; SFDAnimationReader]
           None (BinaryReader.new [0x00]) (mkBinary [0x00] 1)).
  reflexivity.
Defined.

(** ** The outer LZX framing *)

Lemma shl8_bor_bytes (lsB msB : Z) :
  0 <= lsB <= 255 -> 0 <= msB <= 255 ->
  JS.bor (JS.shl lsB 8) msB = lsB * 256 + msB.
Proof.
  intros Hl Hm. unfold JS.bor, JS.shl.
  pose proof (eq_refl : 2 ^ 31 = 2147483648) as P31.
  change (8 mod 32) with 8.
  rewrite (ToInt32_small lsB) by lia.
  rewrite Z.shiftl_mul_pow2 by lia. change (2 ^ 8) with 256.
  rewrite !(ToInt32_small (lsB * 256)) by lia.
  rewrite (ToInt32_small msB) by lia.
  pose proof (Z.add_lor_land (lsB * 256) msB) as E.
  assert (Z.land (lsB * 256) msB = 0) as L.
  { rewrite <- (Z.mod_small msB 256) by lia.
    change 256 with (2 ^ 8). rewrite <- Z.land_ones by lia.
    rewrite (Z.land_comm msB), Z.land_assoc, Z.land_ones by lia.
    rewrite Z.mod_mul by lia. apply Z.land_0_l. }
  lia.
Qed.

Lemma Buffer_get_lookup (b : Buffer) (p v : Z) :
  Buffer_get b p = Some v -> 0 <= p /\ b !! Z.to_nat p = Some v.
Proof.
  unfold Buffer_get. destruct (p <? 0) eqn:E; [discriminate|].
  apply Z.ltb_ge in E. auto.
Qed.

Lemma Buffer_get_byte (b : Buffer) (p v : Z) :
  bytes b -> Buffer_get b p = Some v -> 0 <= v <= 255.
Proof.
  intros Hb Hg. apply Buffer_get_lookup in Hg as [_ Hg].
  unfold bytes in Hb. rewrite Forall_lookup in Hb. exact (Hb _ _ Hg).
Qed.

Lemma LzxReader_readByte_at (r : LzxReader.t) (p v : Z) :
  Buffer_get (buffer (LzxReader.base r)) p = Some v ->
  LzxReader.readByte (Decompress.at_offset p r) = Ok (v, Decompress.at_offset (p + 1) r).
Proof.
  intros Hg. apply Buffer_get_lookup in Hg as [Hp Hg].
  unfold LzxReader.readByte, LzxReader.inherited, Decompress.at_offset.
  cbn [LzxReader.base LzxReader._bitOffset].
  rewrite (readByte_ok _ v); [reflexivity | cbn; lia | exact Hg].
Qed.

Lemma readLZXInt16_at (r : LzxReader.t) (p v : Z) :
  bytes (buffer (LzxReader.base r)) ->
  Decompress.i16_swapped_at (buffer (LzxReader.base r)) p = Some v ->
  LzxReader.readLZXInt16 (Decompress.at_offset p r) = Ok (v, Decompress.at_offset (p + 2) r) /\
  0 <= v <= 0xFFFF.
Proof.
  intros Hb. unfold Decompress.i16_swapped_at.
  destruct (Buffer_get (buffer (LzxReader.base r)) p) as [lsB|] eqn:E1; [|discriminate].
  destruct (Buffer_get (buffer (LzxReader.base r)) (p + 1)) as [msB|] eqn:E2; [|discriminate].
  intros [= <-].
  pose proof (Buffer_get_byte _ _ _ Hb E1). pose proof (Buffer_get_byte _ _ _ Hb E2).
  split; [|lia].
  unfold LzxReader.readLZXInt16, bind.
  rewrite (LzxReader_readByte_at r p lsB E1).
  pose proof (LzxReader_readByte_at r (p + 1) msB E2) as R2.
  rewrite R2. unfold ret. rewrite shl8_bor_bytes by assumption.
  replace (p + 1 + 1) with (p + 2) by lia. reflexivity.
Qed.

Section Framing.
Context {Lzx : Type}.
Variable Lzx_decompress : Lzx -> Z -> Z -> M LzxReader.t (list Z * Lzx).

(** One turn of the framing loop of [decompress], on a reader whose
    buffer holds bytes.  When [pos] has reached [compressedTodo] the loop is
    over.  Otherwise, where the buffer holds a frame header at the cursor
    (flag [0xFF], frame size, block size: 5 bytes; or the block size alone
    with frame size [0x8000]: 2 bytes; sizes with their bytes swapped), the
    turn stops the loop when a size is 0, throws the invalid-size error
    when a size exceeds [0x10000], and otherwise runs the LZX decoder after
    the header, appends its bytes and goes on with [pos] advanced by the
    header and by the block size. *)
Lemma decompress_loop_turn (fuel : nat) (compressedTodo pos : Z) (lzx : Lzx)
    (decompressed : list Z) (r : LzxReader.t) :
  bytes (buffer (LzxReader.base r)) ->
  let p := bytePosition (LzxReader.base r) in
  (compressedTodo <= pos ->
     Decompress.decompress_loop Lzx_decompress (S fuel) compressedTodo pos lzx decompressed r
     = Ok (decompressed, r)) /\
  (forall frame_size block_size header,
     pos < compressedTodo ->
     Decompress.frame_header_at (buffer (LzxReader.base r)) p
       = Some (frame_size, block_size, header) ->
     (header = 5 \/ header = 2 /\ frame_size = 0x8000) /\
     Decompress.decompress_loop Lzx_decompress (S fuel) compressedTodo pos lzx decompressed r
     = if (block_size =? 0) || (frame_size =? 0)
       then Ok (decompressed, Decompress.at_offset (p + header) r)
       else if (0x10000 <? block_size) || (0x10000 <? frame_size)
       then Throw (XnbError InvalidSizeInCompression)
       else
         match Lzx_decompress lzx frame_size block_size
                 (Decompress.at_offset (p + header) r) with
         | Ok ((frame, lzx'), r') =>
             Decompress.decompress_loop Lzx_decompress fuel compressedTodo
               (pos + header + block_size) lzx' (decompressed ++ frame) r'
         | Throw e => Throw e
         | OutOfFuel => OutOfFuel
         end).
Proof.
  intros Hb p. split.
  - intros Hp. cbn [Decompress.decompress_loop].
    replace (pos <? compressedTodo) with false by (symmetry; apply Z.ltb_ge; lia).
    reflexivity.
  - intros fs bs hd Hp Hh. cbn [Decompress.decompress_loop].
    replace (pos <? compressedTodo) with true by (symmetry; apply Z.ltb_lt; lia).
    assert (r = Decompress.at_offset p r) as Er by (destruct r as [[b q] o]; reflexivity).
    unfold Decompress.frame_header_at in Hh.
    destruct (Buffer_get (buffer (LzxReader.base r)) p) as [flag|] eqn:Ef; [|discriminate].
    unfold bind at 1. rewrite Er at 1. rewrite (LzxReader_readByte_at r p flag Ef).
    destruct (flag =? 0xFF) eqn:EF.
    + destruct (Decompress.i16_swapped_at (buffer (LzxReader.base r)) (p + 1)) as [fs'|] eqn:E1;
        [|discriminate].
      destruct (Decompress.i16_swapped_at (buffer (LzxReader.base r)) (p + 3)) as [bs'|] eqn:E2;
        [|discriminate].
      injection Hh as <- <- <-. split; [left; reflexivity|].
      destruct (readLZXInt16_at r (p + 1) fs' Hb E1) as [R1 _].
      destruct (readLZXInt16_at r (p + 3) bs' Hb E2) as [R2 _].
      unfold bind. rewrite R1. replace (p + 1 + 2) with (p + 3) by lia. rewrite R2.
      unfold ret. replace (p + 3 + 2) with (p + 5) by lia.
      destruct ((bs' =? 0) || (fs' =? 0)); [reflexivity|].
      destruct ((65536 <? bs') || (65536 <? fs')); [reflexivity|].
      destruct (Lzx_decompress lzx fs' bs' (Decompress.at_offset (p + 5) r))
        as [[[frame lzx'] r']| |]; reflexivity.
    + destruct (Decompress.i16_swapped_at (buffer (LzxReader.base r)) p) as [bs'|] eqn:E1;
        [|discriminate].
      injection Hh as <- <- <-. split; [right; split; reflexivity|].
      destruct (readLZXInt16_at r p bs' Hb E1) as [R1 _].
      unfold bind, LzxReader.add_bytePosition.
      cbn [Decompress.at_offset LzxReader.base LzxReader._bitOffset bytePosition
           set_bytePosition buffer].
      replace (p + 1 + -1) with p by lia.
      change (LzxReader.mk
                (set_bytePosition p (set_bytePosition (p + 1) (LzxReader.base r)))
                (LzxReader._bitOffset r))
        with (Decompress.at_offset p r).
      rewrite R1. unfold ret.
      destruct ((bs' =? 0) || (32768 =? 0)); [reflexivity|].
      destruct ((65536 <? bs') || (65536 <? 32768)); [reflexivity|].
      destruct (Lzx_decompress lzx 32768 bs' (Decompress.at_offset (p + 2) r))
        as [[[frame lzx'] r']| |]; reflexivity.
Qed.

End Framing.

(** ** Texture2D: the alpha loops pixel by pixel *)

Lemma Buffer_get_app (pre l : Buffer) (k : Z) :
  0 <= k -> Buffer_get (pre ++ l) (Z.of_nat (length pre) + k) = Buffer_get l k.
Proof.
  intros Hk. unfold Buffer_get.
  replace (Z.of_nat (length pre) + k <? 0) with false by (symmetry; apply Z.ltb_ge; lia).
  replace (k <? 0) with false by (symmetry; apply Z.ltb_ge; lia).
  rewrite lookup_app_r by lia. f_equal. lia.
Qed.

Lemma Buffer_set_app (pre l : Buffer) (k v : Z) :
  0 <= k ->
  Buffer_set (pre ++ l) (Z.of_nat (length pre) + k) v = pre ++ Buffer_set l k v.
Proof.
  intros Hk. unfold Buffer_set.
  replace (Z.of_nat (length pre) + k <? 0) with false by (symmetry; apply Z.ltb_ge; lia).
  replace (k <? 0) with false by (symmetry; apply Z.ltb_ge; lia).
  replace (Z.to_nat (Z.of_nat (length pre) + k)) with (length pre + Z.to_nat k)%nat by lia.
  apply insert_app_r.
Qed.

Lemma Buffer_get_app0 (pre l : Buffer) :
  Buffer_get (pre ++ l) (Z.of_nat (length pre)) = Buffer_get l 0.
Proof. rewrite <- (Buffer_get_app pre l 0) by lia. f_equal. lia. Qed.

Lemma Buffer_set_app0 (pre l : Buffer) (v : Z) :
  Buffer_set (pre ++ l) (Z.of_nat (length pre)) v = pre ++ Buffer_set l 0 v.
Proof. rewrite <- (Buffer_set_app pre l 0) by lia. f_equal. lia. Qed.

Lemma flatten_cons (p : Texture2D.pixel) (px : list Texture2D.pixel) :
  Texture2D.flatten (p :: px) = Texture2D.flatten [p] ++ Texture2D.flatten px.
Proof. destruct p as [[[r g] b] a]. reflexivity. Qed.

Lemma length_flatten (px : list Texture2D.pixel) :
  length (Texture2D.flatten px) = (4 * length px)%nat.
Proof.
  induction px as [|[[[r g] b] a] px IH]; [reflexivity|].
  rewrite flatten_cons, length_app, IH. cbn [Texture2D.flatten flat_map app length]. lia.
Qed.

Lemma readFrom_pixel_app (pre post : Buffer) (p : Texture2D.pixel) :
  Texture2D.readFrom_pixel (pre ++ Texture2D.flatten [p] ++ post) (Z.of_nat (length pre)) =
  pre ++ Texture2D.flatten [Texture2D.unpremultiply_pixel p] ++ post.
Proof.
  destruct p as [[[r g] b] a]. unfold Texture2D.readFrom_pixel.
  cbn [Texture2D.flatten flat_map app Texture2D.unpremultiply_pixel].
  repeat first [ rewrite Buffer_get_app0 | rewrite Buffer_set_app0
               | rewrite Buffer_get_app by lia | rewrite Buffer_set_app by lia ].
  reflexivity.
Qed.

Lemma writeTo_pixel_app (pre post : Buffer) (p : Texture2D.pixel) :
  Texture2D.writeTo_pixel (pre ++ Texture2D.flatten [p] ++ post) (Z.of_nat (length pre)) =
  pre ++ Texture2D.flatten [Texture2D.premultiply_pixel p] ++ post.
Proof.
  destruct p as [[[r g] b] a]. unfold Texture2D.writeTo_pixel.
  cbn [Texture2D.flatten flat_map app Texture2D.premultiply_pixel].
  repeat first [ rewrite Buffer_get_app0 | rewrite Buffer_set_app0
               | rewrite Buffer_get_app by lia | rewrite Buffer_set_app by lia ].
  reflexivity.
Qed.

(** A loop over the pixel offsets whose body rewrites the pixel at its
    offset is a map over the pixels. *)
Lemma foldl_pixels (step : Buffer -> Z -> Buffer) (f : Texture2D.pixel -> Texture2D.pixel) :
  (forall pre post p,
     step (pre ++ Texture2D.flatten [p] ++ post) (Z.of_nat (length pre)) =
     pre ++ Texture2D.flatten [f p] ++ post) ->
  forall px, foldl step (Texture2D.flatten px)
               (Texture2D.pixel_offsets (length (Texture2D.flatten px))) =
             Texture2D.flatten (map f px).
Proof.
  intros Hstep px.
  assert (forall px pre j, length pre = (4 * j)%nat ->
            foldl step (pre ++ Texture2D.flatten px)
              (map (fun k => 4 * Z.of_nat k) (seq j (length px))) =
            pre ++ Texture2D.flatten (map f px)) as G.
  { clear px. induction px as [|p px IH]; intros pre j Hl.
    - reflexivity.
    - cbn [length seq map foldl].
      rewrite flatten_cons.
      replace (4 * Z.of_nat j) with (Z.of_nat (length pre)) by lia.
      rewrite Hstep. rewrite app_assoc.
      rewrite (IH (pre ++ Texture2D.flatten [f p]) (S j)).
      + rewrite (flatten_cons (f p) (map f px)), app_assoc. reflexivity.
      + rewrite length_app, length_flatten. cbn [length]. lia. }
  unfold Texture2D.pixel_offsets. rewrite length_flatten.
  replace ((4 * length px + 3) `div` 4)%nat with (length px)
    by (apply Nat.div_unique with (r := 3%nat); lia).
  apply (G px [] 0%nat). reflexivity.
Qed.

(** The loop of [readFrom] and the loop of [writeTo] on an RGBA8 array. *)
Lemma readFrom_alpha_pixels (px : list Texture2D.pixel) :
  Texture2D.readFrom_alpha (Texture2D.flatten px) =
  Texture2D.flatten (map Texture2D.unpremultiply_pixel px).
Proof. apply foldl_pixels. intros. apply readFrom_pixel_app. Qed.

Lemma writeTo_alpha_pixels (px : list Texture2D.pixel) :
  Texture2D.writeTo_alpha (Texture2D.flatten px) =
  Texture2D.flatten (map Texture2D.premultiply_pixel px).
Proof. apply foldl_pixels. intros. apply writeTo_pixel_app. Qed.

(** ** Texture2D: the stored channels on every byte pair *)

(** The check holds for all 256 * 256 pairs, by running it. *)
Lemma channel_check_true : forallb alpha_check (seqZ 0 256) = true.
Proof. vm_compute. reflexivity. Qed.

Lemma channel_facts_holds (c a : Z) :
  0 <= c <= 255 -> 0 <= a <= 255 ->
  channel_facts c a (Texture2D.unpremultiply_channel c a)
                    (Texture2D.premultiply_channel c a) = true.
Proof.
  intros Hc Ha.
  assert (In a (seqZ 0 256)) as Ia by (apply list_elem_of_In, elem_of_seqZ; lia).
  assert (In c (seqZ 0 256)) as Ic by (apply list_elem_of_In, elem_of_seqZ; lia).
  pose proof (proj1 (forallb_forall alpha_check (seqZ 0 256)) channel_check_true a Ia) as H.
  unfold alpha_check in H. cbv zeta in H.
  unfold Texture2D.unpremultiply_channel, Texture2D.premultiply_channel.
  exact (proj1 (forallb_forall _ _) H c Ic).
Qed.

Section ChannelFacts.
Variables c a : Z.
Hypothesis Hc : 0 <= c <= 255.
Hypothesis Ha : 0 <= a <= 255.

Lemma unpremultiply_channel_formula :
  0 < a ->
  Texture2D.unpremultiply_channel c a =
    Texture2D.exact_unpremultiply c a
    + (if Texture2D.in_pairs c a Texture2D.unpremultiply_rounds_up then 1 else 0).
Proof.
  intros Hpos. pose proof (channel_facts_holds c a Hc Ha) as H.
  unfold channel_facts in H. rewrite !andb_true_iff in H.
  destruct H as [[[H _] _] _].
  replace (a =? 0) with false in H by (symmetry; apply Z.eqb_neq; lia).
  apply Z.eqb_eq in H. exact H.
Qed.

Lemma unpremultiply_channel_alpha_0 :
  a = 0 -> Texture2D.unpremultiply_channel c a = if c =? 0 then 0 else 255.
Proof.
  intros Hz. pose proof (channel_facts_holds c a Hc Ha) as H.
  unfold channel_facts in H. rewrite !andb_true_iff in H.
  destruct H as [[[H _] _] _].
  replace (a =? 0) with true in H by (symmetry; apply Z.eqb_eq; lia).
  apply Z.eqb_eq in H. exact H.
Qed.

Lemma premultiply_channel_formula :
  Texture2D.premultiply_channel c a =
    Texture2D.exact_premultiply c a
    - (if Texture2D.in_pairs c a Texture2D.premultiply_rounds_down then 1 else 0).
Proof.
  pose proof (channel_facts_holds c a Hc Ha) as H.
  unfold channel_facts in H. rewrite !andb_true_iff in H.
  destruct H as [[[_ H] _] _]. apply Z.eqb_eq in H. exact H.
Qed.

Lemma premultiply_channel_alpha_0 :
  a = 0 -> Texture2D.premultiply_channel c a = 0.
Proof.
  intros Hz. pose proof (channel_facts_holds c a Hc Ha) as H.
  unfold channel_facts in H. rewrite !andb_true_iff in H.
  destruct H as [[_ H] _].
  replace (a =? 0) with true in H by (symmetry; apply Z.eqb_eq; lia).
  apply Z.eqb_eq in H. exact H.
Qed.

Lemma channel_alpha_255 :
  a = 255 ->
  Texture2D.unpremultiply_channel c a = c /\ Texture2D.premultiply_channel c a = c.
Proof.
  intros Hz. pose proof (channel_facts_holds c a Hc Ha) as H.
  unfold channel_facts in H. rewrite !andb_true_iff in H.
  destruct H as [_ H].
  replace (a =? 255) with true in H by (symmetry; apply Z.eqb_eq; lia).
  cbn [negb orb] in H. apply andb_true_iff in H as [H1 H2].
  apply Z.eqb_eq in H1, H2. auto.
Qed.

End ChannelFacts.

(** ** Texture2D: round trip of the alpha loops *)

Lemma unpremultiply_pixel_opaque (p : Texture2D.pixel) :
  Texture2D.byte_pixel p -> Texture2D.alpha_of p = 255 ->
  Texture2D.unpremultiply_pixel p = p /\ Texture2D.premultiply_pixel p = p.
Proof.
  destruct p as [[[r g] b] a]. cbn [Texture2D.byte_pixel Texture2D.alpha_of].
  intros (Hr & Hg & Hb & Ha) ->.
  unfold Texture2D.unpremultiply_pixel, Texture2D.premultiply_pixel.
  destruct (channel_alpha_255 r 255 Hr Ha eq_refl) as [-> ->].
  destruct (channel_alpha_255 g 255 Hg Ha eq_refl) as [-> ->].
  destruct (channel_alpha_255 b 255 Hb Ha eq_refl) as [-> ->].
  auto.
Qed.

Lemma map_id_Forall {A : Type} (f : A -> A) (P : A -> Prop) (l : list A) :
  (forall x, P x -> f x = x) -> Forall P l -> map f l = l.
Proof.
  intros Hf Hl. induction Hl as [|x l Hx Hl IH]; [reflexivity|].
  cbn [map]. rewrite Hf, IH by assumption. reflexivity.
Qed.

(** [C3], amended.  On an RGBA8 array
    - whose pixels have alpha 255, or are the transparent pixel (0,0,0,0)
      (the premultiplied pixels of alpha 0 or 255), the loop of [readFrom]
      followed by the loop of [writeTo] gives the array back;
    - whose pixels have alpha 255, the loop of [readFrom] changes nothing, so
      it is idempotent;
    and on any RGBA8 array the loop of [readFrom] maps each pixel to
    [unpremultiply_pixel] of it, where a channel [c] under an alpha [a > 0]
    becomes [min(255, ceil(c * 255 / a))], and one more than that at the five
    pairs of [unpremultiply_rounds_up] (the binary64 product [c * (255 / a)]
    lies just above the integer there). *)
Theorem texture_alpha_roundtrip :
  (forall px,
     Forall Texture2D.byte_pixel px ->
     Forall (fun p => Texture2D.alpha_of p = 255 \/ p = (0, 0, 0, 0)) px ->
     Texture2D.writeTo_alpha (Texture2D.readFrom_alpha (Texture2D.flatten px)) =
       Texture2D.flatten px) /\
  (forall px,
     Forall Texture2D.byte_pixel px ->
     Forall (fun p => Texture2D.alpha_of p = 255) px ->
     Texture2D.readFrom_alpha (Texture2D.flatten px) = Texture2D.flatten px /\
     Texture2D.readFrom_alpha (Texture2D.readFrom_alpha (Texture2D.flatten px)) =
       Texture2D.readFrom_alpha (Texture2D.flatten px)) /\
  (forall px,
     Texture2D.readFrom_alpha (Texture2D.flatten px) =
       Texture2D.flatten (map Texture2D.unpremultiply_pixel px)) /\
  (forall c a, 0 <= c <= 255 -> 0 < a <= 255 ->
     Texture2D.unpremultiply_channel c a =
       Texture2D.exact_unpremultiply c a
       + (if Texture2D.in_pairs c a Texture2D.unpremultiply_rounds_up then 1 else 0)).
Proof.
  split; [|split; [|split]].
  - intros px Hb Ha.
    rewrite readFrom_alpha_pixels, writeTo_alpha_pixels, map_map.
    f_equal. apply (map_id_Forall _ (fun p => Texture2D.byte_pixel p /\
               (Texture2D.alpha_of p = 255 \/ p = (0, 0, 0, 0)))).
    + intros p [Hp [H255 | ->]].
      * destruct (unpremultiply_pixel_opaque p Hp H255) as [-> ->]. reflexivity.
      * vm_compute. reflexivity.
    + apply Forall_and. split; assumption.
  - intros px Hb Ha.
    assert (Texture2D.readFrom_alpha (Texture2D.flatten px) = Texture2D.flatten px) as E.
    { rewrite readFrom_alpha_pixels. f_equal.
      apply (map_id_Forall _ (fun p => Texture2D.byte_pixel p /\ Texture2D.alpha_of p = 255)).
      + intros p [Hp H255]. apply (unpremultiply_pixel_opaque p Hp H255).
      + apply Forall_and. split; assumption. }
    rewrite !E. split; reflexivity.
  - apply readFrom_alpha_pixels.
  - intros c a Hc Ha. apply unpremultiply_channel_formula; lia.
Qed.

(** The theorem on a two-pixel texture, and at the channel 64 under alpha 128
    (the pixel (64, 0, 0, 128) reads as (128, 0, 0, 128)). *)
Lemma texture_alpha_roundtrip_witness :
  Texture2D.writeTo_alpha
    (Texture2D.readFrom_alpha (Texture2D.flatten [(10, 20, 30, 255); (0, 0, 0, 0)])) =
    Texture2D.flatten [(10, 20, 30, 255); (0, 0, 0, 0)] /\
  Texture2D.readFrom_alpha (Texture2D.flatten [(10, 20, 30, 255)]) =
    Texture2D.flatten [(10, 20, 30, 255)] /\
  Texture2D.unpremultiply_channel 64 128 = 128.
Proof.
  destruct texture_alpha_roundtrip as (A & B & _ & C).
  split; [|split].
  - apply A.
    + repeat (apply List.Forall_cons; [cbn; lia|]). apply List.Forall_nil.
    + apply List.Forall_cons; [left; reflexivity|].
      apply List.Forall_cons; [right; reflexivity|]. apply List.Forall_nil.
  - apply B.
    + repeat (apply List.Forall_cons; [cbn; lia|]). apply List.Forall_nil.
    + apply List.Forall_cons; [reflexivity|]. apply List.Forall_nil.
  - apply (C 64 128); lia.
Defined.

(** [C3] as stated fails: the pixel (5, 0, 0, 0) has alpha 0, reads as
    (255, 0, 0, 0) and is written back as (0, 0, 0, 0); and the channel 67
    under alpha 201 reads as 86, while [min(255, ceil(67 * 255 / 201))] is
    85. *)
Lemma texture_alpha_roundtrip_counterexample :
  Texture2D.byte_pixel (5, 0, 0, 0) /\
  Texture2D.readFrom_alpha [5; 0; 0; 0] = [255; 0; 0; 0] /\
  Texture2D.writeTo_alpha (Texture2D.readFrom_alpha [5; 0; 0; 0]) = [0; 0; 0; 0] /\
  Texture2D.writeTo_alpha (Texture2D.readFrom_alpha [5; 0; 0; 0]) <> [5; 0; 0; 0] /\
  Texture2D.readFrom_alpha [67; 0; 0; 201] = [86; 0; 0; 201] /\
  Texture2D.exact_unpremultiply 67 201 = 85.
Proof.
  assert (Texture2D.writeTo_alpha (Texture2D.readFrom_alpha [5; 0; 0; 0]) = [0; 0; 0; 0]) as E
    by (vm_compute; reflexivity).
  split; [cbn; lia|]. split; [vm_compute; reflexivity|]. split; [exact E|].
  split; [rewrite E; discriminate|]. split; vm_compute; reflexivity.
Qed.

(** ** Texture2DReader.writeTo: the caller's array after the call *)

Lemma writeInt32_written (value : Z) (w : Binary) :
  cursor_ok w -> - 2 ^ 31 <= value < 2 ^ 31 ->
  exists w', BinaryWriter.writeInt32 value w = Ok (tt, w') /\
             cursor_ok w' /\ written w' = written w ++ bytesLE32 (value mod 2 ^ 32).
Proof.
  intros Hw Hv. unfold BinaryWriter.writeInt32.
  destruct (alloc_room 4 w Hw ltac:(lia)) as (Hc & Hwr & Hp & Hroom).
  set (w1 := BinaryWriter.alloc 4 w) in *.
  destruct Hc as [Hc0 Hc1].
  unfold Buffer_writeInt32LE.
  replace ((value <? - 2 ^ 31) || (2 ^ 31 - 1 <? value)) with false
    by (symmetry; apply orb_false_iff; split; apply Z.ltb_ge; lia).
  destruct (Buffer_get_Some (buffer w1) (bytePosition w1)) as [v0 Hv0]; [lia|].
  destruct (Buffer_get_Some (buffer w1) (bytePosition w1 + 3)) as [v3 Hv3]; [lia|].
  rewrite Hv0, Hv3.
  assert (size (bytesLE32 (value mod 2 ^ 32)) = 4) as Hs by reflexivity.
  rewrite Buffer_setArray_ok by lia.
  eexists. split; [reflexivity|]. unfold cursor_ok, written in *. cbn [buffer bytePosition].
  assert (length (take (Z.to_nat (bytePosition w1)) (buffer w1)) = Z.to_nat (bytePosition w1)) as Hl.
  { rewrite length_take. unfold size in Hc1. lia. }
  split.
  - rewrite !size_app, Hs. unfold size in *. rewrite Hl, length_drop.
    cbn [length bytesLE32]. lia.
  - rewrite <- Hwr.
    replace (Z.to_nat (bytePosition w1 + 4))
      with (length (take (Z.to_nat (bytePosition w1)) (buffer w1)
                    ++ bytesLE32 (value mod 2 ^ 32)))
      by (rewrite length_app, Hl; cbn [length bytesLE32]; lia).
    rewrite app_assoc. apply take_app_length.
Qed.

Lemma on_output_ok {A : Type} (m : M BinaryWriter.t A) (arrays : gmap nat (list Z))
    (w w' : Binary) (x : A) :
  m w = Ok (x, w') ->
  Texture2DWriter.on_output m (Texture2DWriter.mkWorld arrays w) =
    Ok (x, Texture2DWriter.mkWorld arrays w').
Proof. intros E. unfold Texture2DWriter.on_output. cbn. rewrite E. reflexivity. Qed.

Lemma flatten_inj (l1 l2 : list Texture2D.pixel) :
  Texture2D.flatten l1 = Texture2D.flatten l2 -> l1 = l2.
Proof.
  revert l2. induction l1 as [|[[[r g] b] a] l1 IH]; intros [|[[[r' g'] b'] a'] l2] E;
    try reflexivity; try discriminate.
  cbn [Texture2D.flatten flat_map app] in E.
  injection E as -> -> -> -> E. rewrite (IH l2 E). reflexivity.
Qed.

Lemma premultiply_channel_lt (c a : Z) :
  0 < c <= 255 -> 0 <= a < 255 -> Texture2D.premultiply_channel c a < c.
Proof.
  intros Hc Ha. rewrite premultiply_channel_formula by lia.
  unfold Texture2D.exact_premultiply.
  assert ((c * a) / 255 < c) by (apply Z.div_lt_upper_bound; nia).
  destruct (Texture2D.in_pairs c a Texture2D.premultiply_rounds_down); lia.
Qed.

Section WriteTo.
Variable compress : Buffer -> Z -> Z -> Z -> Buffer.

(** [C9], amended.  [writeTo] on a texture whose [data] refers to an RGBA8
    array returns, and the array behind [content.data] then holds the
    premultiplied pixels: the caller's array has been overwritten in place.
    Each color channel [c] under alpha [a] holds [floor(c * a / 255)], and
    one less than that at the twelve pairs of [premultiply_rounds_down]
    (the binary64 product [c * (a / 255)] lies just below the integer
    there); the alpha bytes are kept.  A pixel with alpha below 255 and a
    non-zero channel makes the array differ from what was passed. *)
Theorem writeTo_premultiplies_in_place
    (content : Texture2DWriter.Texture2D) (arrays : gmap nat (list Z))
    (w : Binary) (px : list Texture2D.pixel) :
  cursor_ok w ->
  - 2 ^ 31 <= Texture2DWriter.format content < 2 ^ 31 ->
  0 <= Texture2DWriter.width content < 2 ^ 32 ->
  0 <= Texture2DWriter.height content < 2 ^ 32 ->
  arrays !! Texture2DWriter.data content = Some (Texture2D.flatten px) ->
  Forall Texture2D.byte_pixel px ->
  size (Texture2DWriter.compressed compress content
          (Texture2D.flatten (map Texture2D.premultiply_pixel px))) < 2 ^ 32 ->
  (exists w',
     Texture2DWriter.writeTo compress content (Texture2DWriter.mkWorld arrays w) =
       Ok (tt, Texture2DWriter.mkWorld
                 (<[Texture2DWriter.data content :=
                      Texture2D.flatten (map Texture2D.premultiply_pixel px)]> arrays)
                 w')) /\
  (forall c a, 0 <= c <= 255 -> 0 <= a <= 255 ->
     Texture2D.premultiply_channel c a =
       Texture2D.exact_premultiply c a
       - (if Texture2D.in_pairs c a Texture2D.premultiply_rounds_down then 1 else 0)) /\
  (forall r g b a, (r, g, b, a) ∈ px -> a < 255 -> 0 < r \/ 0 < g \/ 0 < b ->
     Texture2D.flatten (map Texture2D.premultiply_pixel px) <> Texture2D.flatten px).
Proof.
  intros Hw Hf Hwd Hh Hd Hb Hs. split; [|split].
  - unfold Texture2DWriter.writeTo, bind.
    destruct (writeInt32_written _ w Hw Hf) as (w1 & E1 & C1 & _).
    rewrite (on_output_ok _ _ _ _ _ E1).
    destruct (writeUInt32_written _ w1 C1 Hwd) as (w2 & E2 & C2 & _).
    rewrite (on_output_ok _ _ _ _ _ E2).
    destruct (writeUInt32_written _ w2 C2 Hh) as (w3 & E3 & C3 & _).
    rewrite (on_output_ok _ _ _ _ _ E3).
    destruct (writeUInt32_written 1 w3 C3 ltac:(split; [lia|reflexivity]))
      as (w4 & E4 & C4 & _).
    rewrite (on_output_ok _ _ _ _ _ E4).
    unfold Texture2DWriter.load, Texture2DWriter.store.
    cbn [Texture2DWriter.arrays Texture2DWriter.output].
    rewrite Hd, lookup_insert_eq, writeTo_alpha_pixels.
    set (out := Texture2DWriter.compressed compress content _) in *.
    destruct (writeUInt32_written (size out) w4 C4 ltac:(unfold size in *; lia))
      as (w5 & E5 & C5 & _).
    rewrite (on_output_ok _ _ _ _ _ E5).
    destruct (writeBytes_written out w5 C5) as (w6 & E6 & C6 & _).
    rewrite (on_output_ok _ _ _ _ _ E6).
    exists w6. reflexivity.
  - intros c a Hc Ha. apply premultiply_channel_formula; assumption.
  - intros r g b a Hin Ha Hpos E.
    apply flatten_inj in E.
    assert (Texture2D.premultiply_pixel (r, g, b, a) = (r, g, b, a)) as Ep.
    { clear -E Hin. induction px as [|p l IH]; [inversion Hin|].
      cbn [map] in E. injection E as E1 E2.
      apply elem_of_cons in Hin as [-> | Hin]; [exact E1 | exact (IH Hin E2)]. }
    rewrite Forall_forall in Hb. specialize (Hb _ Hin).
    destruct Hb as (Hr & Hg & Hbb & Hab).
    cbn [Texture2D.premultiply_pixel] in Ep. injection Ep as Er Eg Eb.
    destruct Hpos as [H | [H | H]].
    + pose proof (premultiply_channel_lt r a ltac:(lia) ltac:(lia)). lia.
    + pose proof (premultiply_channel_lt g a ltac:(lia) ltac:(lia)). lia.
    + pose proof (premultiply_channel_lt b a ltac:(lia) ltac:(lia)). lia.
Qed.

End WriteTo.

(** The theorem on a one-pixel texture of format 0 in a fresh writer, with a
    [compress] that is not called. *)
Lemma writeTo_premultiplies_in_place_witness :
  exists w',
    Texture2DWriter.writeTo (fun d _ _ _ => d) (Texture2DWriter.mkTexture2D 0 0 1 1)
      (Texture2DWriter.mkWorld {[0%nat := [255; 255; 255; 128]]} (BinaryWriter.new 0)) =
    Ok (tt, Texture2DWriter.mkWorld
              (<[0%nat := Texture2D.flatten
                            (map Texture2D.premultiply_pixel [(255, 255, 255, 128)])]>
                 {[0%nat := [255; 255; 255; 128]]})
              w').
Proof.
  apply (proj1 (writeTo_premultiplies_in_place (fun d _ _ _ => d)
                  (Texture2DWriter.mkTexture2D 0 0 1 1)
                  {[0%nat := [255; 255; 255; 128]]} (BinaryWriter.new 0)
                  [(255, 255, 255, 128)]
                  (cursor_ok_new 0)
                  ltac:(vm_compute; split; [discriminate | reflexivity])
                  ltac:(vm_compute; split; [discriminate | reflexivity])
                  ltac:(vm_compute; split; [discriminate | reflexivity])
                  ltac:(reflexivity)
                  ltac:(apply List.Forall_cons; [cbn; lia | apply List.Forall_nil])
                  ltac:(vm_compute; reflexivity))).
Defined.

(** [C9] as stated fails on the formula: after [writeTo] on the pixel
    (85, 0, 0, 147) the caller's array holds 48 in the first channel, while
    [floor(85 * 147 / 255)] is 49. *)
Lemma writeTo_premultiplies_in_place_counterexample :
  (exists w',
     Texture2DWriter.writeTo (fun d _ _ _ => d) (Texture2DWriter.mkTexture2D 0 0 1 1)
       (Texture2DWriter.mkWorld {[0%nat := [85; 0; 0; 147]]} (BinaryWriter.new 0)) =
     Ok (tt, Texture2DWriter.mkWorld {[0%nat := [48; 0; 0; 147]]} w')) /\
  Texture2D.exact_premultiply 85 147 = 49.
Proof.
  split; [|reflexivity]. eexists. vm_compute. reflexivity.
Qed.

(** ** SFDItemReader.readFrom: the repeat flag *)

(** One turn of the pixel loop on a true flag: the stored color is the
    register's with green and blue exchanged, and the register is kept. *)
Lemma readFrom_pixels_repeat (n : nat) (table : list Color.t) (c : Color.t)
    (data : list (option Color.t)) (emptyImage : bool) (r : Binary) (flag : Z) :
  0 <= bytePosition r ->
  buffer r !! Z.to_nat (bytePosition r) = Some flag -> flag <> 0 ->
  SFDItem.readFrom_pixels (S n) table (Some c) data emptyImage r =
  SFDItem.readFrom_pixels n table (Some c)
    (data ++ [Some (Color.new (Color.red c) (Color.blue c) (Color.green c) (Color.alpha c))])
    emptyImage (set_bytePosition (bytePosition r + 1) r).
Proof.
  intros Hp Hb Hf. cbn [SFDItem.readFrom_pixels].
  unfold bind at 1. unfold BinaryReader.readBoolean, bind.
  rewrite (readByte_ok r flag Hp Hb). unfold ret, JS.truthy.
  replace (flag =? 0) with false by (symmetry; apply Z.eqb_neq; exact Hf).
  reflexivity.
Qed.

(** [C5] A layer of 2 by 1 pixels over the palette [(1, 2, 3, 4)], with the
    bytes: present, flag false, index 0, flag true, newline.  The format
    describes the pixels (1,2,3,4) (1,2,3,4); [readFrom] stores
    (1,2,3,4) (1,3,2,4): on the true flag it builds
    [new Color(color.red, color.blue, color.green, color.alpha)], the
    register's color with green and blue exchanged. *)
Theorem readFrom_layer_repeat_exchanges_green_blue :
  SFDItem.readFrom_layer 2 1 [Color.new 1 2 3 4] (BinaryReader.new [1; 0; 0; 1; 10]) =
    Ok (Some (SFDItem.mkTexture 2 1 [1; 2; 3; 4; 1; 3; 2; 4]),
        mkBinary [1; 0; 0; 1; 10] 5) /\
  SFDItem.described_pixels [Some 0; None] [Color.new 1 2 3 4] Color.default =
    [Color.new 1 2 3 4; Color.new 1 2 3 4] /\
  Color.toArray [Some (Color.new 1 2 3 4); Some (Color.new 1 2 3 4)] =
    Ok [1; 2; 3; 4; 1; 2; 3; 4].
Proof. repeat split; vm_compute; reflexivity. Qed.

(** ** SFDAnimationReader.readFrom: the derived type of a part *)

(** [C6] For the part id 1 the stored [type] is the number 1 / 50, that is
    [5764607523034235 * 2^-58] (0.02), which is not an integer; the division
    of integers gives 0.  The stored [localId] is 1. *)
Theorem animation_part_type_of_id_1 :
  SFDAnimation.type 1 = S754_finite false 5764607523034235 (-58) /\
  Num.is_integer (SFDAnimation.type 1) = false /\
  SFDAnimation.described_type 1 = 0 /\
  SFDAnimation.localId 1 = 1.
Proof. repeat split; vm_compute; reflexivity. Qed.

(** No id from 1 to 49 gets an integer type, and neither does any from -49
    to -1. *)
Lemma animation_part_type_fraction :
  forallb (fun id => negb (Num.is_integer (SFDAnimation.type id))
                     && negb (Num.is_integer (SFDAnimation.type (- id))))
          (seqZ 1 49) = true.
Proof. vm_compute. reflexivity. Qed.

(** ** The varint on a fresh writer *)

(** [C1] On a freshly constructed writer the value 16384 is not written:
    the third byte falls outside the two reserved bytes and [writeUInt8]
    throws, so there is nothing to decode.  In a writer with room the same
    value is written as the three bytes [0x80 0x80 0x01], which
    [read7BitNumber] decodes to 16384. *)
Theorem write7BitNumber_fresh_16384 :
  BinaryWriter.write7BitNumber 16384 (BinaryWriter.new 0) = Throw (RangeErrorOffset 2 2) /\
  BinaryWriter.write7BitNumber 16384 (BinaryWriter.new 4) =
    Ok (tt, mkBinary [0x80; 0x80; 0x01; 0] 3) /\
  BinaryReader.read7BitNumber (BinaryReader.new [0x80; 0x80; 0x01; 0]) =
    Ok (16384, mkBinary [0x80; 0x80; 0x01; 0] 3).
Proof. repeat split; vm_compute; reflexivity. Qed.

(** ** The varint loops do not run out of fuel *)

Lemma size_Buffer_set (b : Buffer) (i v : Z) : size (Buffer_set b i v) = size b.
Proof.
  unfold Buffer_set, size. destruct (i <? 0); [reflexivity|].
  rewrite length_insert. reflexivity.
Qed.

Lemma write7BitNumber_loop_total (fuel : nat) (v : Z) (w : Binary) :
  (0 < fuel)%nat ->
  bytePosition w < 0 \/ size (buffer w) - bytePosition w < Z.of_nat fuel ->
  BinaryWriter.write7BitNumber_loop fuel v w <> OutOfFuel.
Proof.
  revert v w. induction fuel as [|fuel IH]; intros v w Hf Hr; [lia|].
  cbn [BinaryWriter.write7BitNumber_loop]. unfold Buffer_writeUInt8.
  destruct (_ || _); [discriminate|].
  destruct (Buffer_get (buffer w) (bytePosition w)) as [old|] eqn:E; [|discriminate].
  destruct (JS.truthy (JS.sar v 7)); [|discriminate].
  apply Buffer_get_lookup in E as [Hp E]. apply lookup_lt_Some in E.
  apply IH; cbn [buffer bytePosition]; rewrite ?size_Buffer_set; unfold size in *; lia.
Qed.

(** [write7BitNumber] returns or throws, whatever the value and the writer. *)
Lemma write7BitNumber_total (v : Z) (w : Binary) :
  BinaryWriter.write7BitNumber v w <> OutOfFuel.
Proof.
  unfold BinaryWriter.write7BitNumber. apply write7BitNumber_loop_total; [lia|].
  unfold size. destruct (Z.lt_ge_cases (bytePosition (BinaryWriter.alloc 2 w)) 0); [left|right]; lia.
Qed.

Lemma readByte_inv (r r' : Binary) (v : Z) :
  BinaryReader.readByte r = Ok (v, r') ->
  buffer r' = buffer r /\ 0 <= bytePosition r' <= size (buffer r) /\
  bytePosition r' = Z.max (bytePosition r + 1) 0 /\ v ∈ buffer r.
Proof.
  unfold BinaryReader.readByte, bind, BinaryReader._read, bind, BinaryReader._seek, ret.
  destruct (_ || _) eqn:E; [discriminate|].
  apply orb_false_iff in E as [E1 E2]. apply Z.ltb_ge in E1, E2.
  unfold BinaryReader.lift, Buffer_readUInt8.
  destruct (Buffer_get _ 0) as [x|] eqn:G; [|discriminate].
  intros [= <- <-]. cbn [buffer bytePosition set_bytePosition].
  repeat split; try lia.
  apply Buffer_get_lookup in G as [_ G]. unfold Buffer_subarray in G.
  apply list_elem_of_lookup_2 in G.
  apply elem_of_take in G as (i & G & _). rewrite lookup_drop in G.
  eapply list_elem_of_lookup_2; exact G.
Qed.

Lemma readByte_not_OutOfFuel (r : Binary) : BinaryReader.readByte r <> OutOfFuel.
Proof.
  unfold BinaryReader.readByte, bind, BinaryReader._read, bind, BinaryReader._seek, ret.
  destruct (_ || _); [discriminate|].
  unfold BinaryReader.lift, Buffer_readUInt8. destruct (Buffer_get _ 0); discriminate.
Qed.

Lemma read7BitNumber_loop_total (fuel : nat) (result bitsRead : Z) (r : Binary) :
  (0 < fuel)%nat ->
  (0 <= bytePosition r -> size (buffer r) - bytePosition r < Z.of_nat fuel) ->
  (bytePosition r < 0 -> size (buffer r) + 1 < Z.of_nat fuel) ->
  BinaryReader.read7BitNumber_loop fuel result bitsRead r <> OutOfFuel.
Proof.
  revert result bitsRead r. induction fuel as [|fuel IH]; intros acc bits r Hf Hp Hn; [lia|].
  cbn [BinaryReader.read7BitNumber_loop]. unfold bind.
  destruct (BinaryReader.readByte r) as [[v r']| |] eqn:E.
  - destruct (readByte_inv r r' v E) as (Hb & Hr & Hq & _).
    destruct (JS.truthy (JS.band v 128)); [|discriminate].
    assert (0 <= size (buffer r)) by (unfold size; lia).
    apply IH; rewrite ?Hb; lia.
  - discriminate.
  - exfalso. exact (readByte_not_OutOfFuel r E).
Qed.

(** [read7BitNumber] returns or throws, whatever the buffer and the cursor. *)
Lemma read7BitNumber_total (r : Binary) : BinaryReader.read7BitNumber r <> OutOfFuel.
Proof.
  unfold BinaryReader.read7BitNumber.
  assert (0 <= size (buffer r)) by (unfold size; lia).
  apply read7BitNumber_loop_total; unfold size in *; lia.
Qed.

(** ** The varint round trip in a writer with room *)

Lemma set_at_cursor (w : Binary) (v : Z) :
  cursor_ok w -> bytePosition w < size (buffer w) ->
  let w' := mkBinary (Buffer_set (buffer w) (bytePosition w) v) (bytePosition w + 1) in
  cursor_ok w' /\ written w' = written w ++ [v] /\ size (buffer w') = size (buffer w).
Proof.
  intros [H0 H1] Hlt w'. subst w'. unfold cursor_ok, written. cbn [buffer bytePosition].
  rewrite size_Buffer_set. split; [lia|]. split; [|reflexivity].
  unfold Buffer_set. replace (bytePosition w <? 0) with false by (symmetry; apply Z.ltb_ge; lia).
  replace (Z.to_nat (bytePosition w + 1)) with (S (Z.to_nat (bytePosition w))) by lia.
  erewrite take_S_r.
  - rewrite take_insert_ge by lia. reflexivity.
  - apply list_lookup_insert_eq. unfold size in *. lia.
Qed.

Lemma write7BitNumber_loop_varint (k : nat) :
  forall (fuel : nat) (n : Z) (w : Binary),
    0 <= n < 2 ^ 31 -> n < 128 ^ Z.of_nat (S k) -> (k < fuel)%nat ->
    cursor_ok w -> bytePosition w + Z.of_nat (S k) <= size (buffer w) ->
    exists w', BinaryWriter.write7BitNumber_loop fuel n w = Ok (tt, w') /\
               cursor_ok w' /\ written w' = written w ++ varint (S k) n /\
               size (buffer w') = size (buffer w).
Proof.
  induction k as [|k IH]; intros fuel n w Hn Hk Hf Hw Hroom;
    (destruct fuel as [|fuel]; [lia|]);
    rewrite write7BitNumber_loop_step by assumption;
    (destruct (Buffer_get_Some (buffer w) (bytePosition w)) as [old Hold];
       [destruct Hw; lia|]); rewrite Hold;
    (destruct (set_at_cursor w (n mod 128) Hw ltac:(lia)) as (C0 & W0 & S0));
    (destruct (set_at_cursor w (n mod 128 + 128) Hw ltac:(lia)) as (C1 & W1 & S1));
    cbn [varint]; destruct (n / 128 =? 0) eqn:E.
  - eexists. split; [reflexivity|]. auto.
  - apply Z.eqb_neq in E. exfalso. apply E. apply Z.div_small. change (128 ^ Z.of_nat 1) with 128 in Hk. lia.
  - eexists. split; [reflexivity|]. auto.
  - assert (0 <= n / 128 < 2 ^ 31) as Hq
      by (split; [apply Z.div_pos; lia | apply Z.div_lt_upper_bound; lia]).
    assert (n / 128 < 128 ^ Z.of_nat (S k)) as Hq2.
    { apply Z.div_lt_upper_bound; [lia|].
      rewrite <- Z.pow_succ_r by lia. replace (Z.succ (Z.of_nat (S k))) with (Z.of_nat (S (S k))) by lia.
      exact Hk. }
    destruct (IH fuel (n / 128) _ Hq Hq2 ltac:(lia) C1) as (w' & E' & C' & W' & S').
    { cbn [buffer bytePosition] in S1 |- *. rewrite S1. lia. }
    exists w'. split; [exact E'|]. split; [exact C'|]. split.
    + rewrite W', W1, <- app_assoc. reflexivity.
    + rewrite S', S1. reflexivity.
Qed.

Lemma band_80_low (x : Z) : 0 <= x < 128 -> JS.band x 0x80 = 0.
Proof.
  intros H. unfold JS.band. rewrite !ToInt32_small by lia.
  rewrite <- (Z.mod_small x 128) by lia.
  change 128 with (2 ^ 7) at 1. rewrite <- Z.land_ones by lia.
  rewrite <- Z.land_assoc. change (Z.land (Z.ones 7) 0x80) with 0.
  apply Z.land_0_r.
Qed.

Lemma band_80_high (x : Z) : 0 <= x < 128 -> JS.band (x + 128) 0x80 = 128.
Proof.
  intros H. pose proof (bor_80 x H) as B. pose proof (band_80_low x H) as L.
  unfold JS.band, JS.bor in *. rewrite !ToInt32_small in * by lia.
  rewrite <- B, Z.land_lor_distr_l, L. reflexivity.
Qed.

Lemma bor_shl (acc x s : Z) :
  0 <= s <= 28 -> 0 <= acc < 2 ^ s -> 0 <= x -> acc + x * 2 ^ s < 2 ^ 31 ->
  JS.bor acc (JS.shl x s) = acc + x * 2 ^ s.
Proof.
  intros Hs Ha Hx Hlt.
  assert (0 < 2 ^ s) as Hpow by (apply Z.pow_pos_nonneg; lia).
  assert (x <= x * 2 ^ s) by nia.
  unfold JS.bor, JS.shl. rewrite (Z.mod_small s 32) by lia.
  rewrite (ToInt32_small x) by lia.
  rewrite Z.shiftl_mul_pow2 by lia.
  rewrite !(ToInt32_small (x * 2 ^ s)) by lia.
  rewrite (ToInt32_small acc) by lia.
  pose proof (Z.add_lor_land acc (x * 2 ^ s)) as E.
  assert (Z.land acc (x * 2 ^ s) = 0) as L.
  { rewrite <- (Z.mod_small acc (2 ^ s)) by lia.
    rewrite <- Z.land_ones by lia.
    rewrite <- Z.land_assoc, (Z.land_comm (Z.ones s)), Z.land_ones by lia.
    rewrite Z.mod_mul by lia. apply Z.land_0_r. }
  lia.
Qed.

Lemma read7BitNumber_loop_varint (k : nat) :
  forall (fuel : nat) (n acc j : Z) (r : Binary) (pre post : Buffer),
    0 <= j -> j + Z.of_nat k <= 4 ->
    0 <= n < 128 ^ Z.of_nat (S k) ->
    0 <= acc < 2 ^ (7 * j) -> acc + n * 2 ^ (7 * j) < 2 ^ 31 ->
    buffer r = pre ++ varint (S k) n ++ post ->
    bytePosition r = Z.of_nat (length pre) ->
    (k < fuel)%nat ->
    BinaryReader.read7BitNumber_loop fuel acc (7 * j) r =
      Ok (acc + n * 2 ^ (7 * j),
          mkBinary (buffer r) (bytePosition r + Z.of_nat (length (varint (S k) n)))).
Proof.
  induction k as [|k IH]; intros fuel n acc j r pre post Hj Hjk Hn Ha Hlt Hbuf Hpos Hf;
    (destruct fuel as [|fuel]; [lia|]);
    cbn [BinaryReader.read7BitNumber_loop]; unfold bind;
    assert (0 < 2 ^ (7 * j)) as Hpow by (apply Z.pow_pos_nonneg; lia);
    pose proof (Z.mod_pos_bound n 128 ltac:(lia)) as Hm;
    cbn [varint] in Hbuf |- *; destruct (n / 128 =? 0) eqn:E.
  - apply Z.eqb_eq in E.
    assert (n mod 128 = n) as En by (apply Z.mod_small; apply Z.div_small_iff in E; lia).
    rewrite (readByte_ok r (n mod 128));
      [| lia | rewrite Hbuf, Hpos, Nat2Z.id; apply list_lookup_middle; reflexivity].
    rewrite band_7F, band_80_low by lia. unfold JS.truthy, ret. cbn [Z.eqb negb].
    rewrite Z.mod_mod by lia. rewrite bor_shl by nia.
    rewrite En. reflexivity.
  - apply Z.eqb_neq in E. exfalso. apply E, Z.div_small.
    change (128 ^ Z.of_nat 1) with 128 in Hn. lia.
  - apply Z.eqb_eq in E.
    assert (n mod 128 = n) as En by (apply Z.mod_small; apply Z.div_small_iff in E; lia).
    rewrite (readByte_ok r (n mod 128));
      [| lia | rewrite Hbuf, Hpos, Nat2Z.id; apply list_lookup_middle; reflexivity].
    rewrite band_7F, band_80_low by lia. unfold JS.truthy, ret. cbn [Z.eqb negb].
    rewrite Z.mod_mod by lia. rewrite bor_shl by nia.
    rewrite En. reflexivity.
  - apply Z.eqb_neq in E.
    rewrite (readByte_ok r (n mod 128 + 128));
      [| lia | rewrite Hbuf, Hpos, Nat2Z.id; apply list_lookup_middle; reflexivity].
    assert (JS.band (n mod 128 + 128) 127 = n mod 128) as B7.
    { rewrite band_7F by lia.
      replace (n mod 128 + 128) with (n mod 128 + 1 * 128) by lia.
      rewrite Z.mod_add by lia. apply Z.mod_mod. lia. }
    rewrite B7, band_80_high by lia. unfold JS.truthy. cbn [Z.eqb negb].
    assert (n = 128 * (n / 128) + n mod 128) as Dn by (apply Z.div_mod; lia).
    assert (0 <= n / 128) as Hq0 by (apply Z.div_pos; lia).
    assert (2 ^ (7 * (j + 1)) = 128 * 2 ^ (7 * j)) as P2.
    { replace (7 * (j + 1)) with (7 + 7 * j) by lia. rewrite Z.pow_add_r by lia. reflexivity. }
    assert (n / 128 < 128 ^ Z.of_nat (S k)) as Hq2.
    { apply Z.div_lt_upper_bound; [lia|].
      rewrite <- Z.pow_succ_r by lia.
      replace (Z.succ (Z.of_nat (S k))) with (Z.of_nat (S (S k))) by lia. lia. }
    rewrite bor_shl by nia.
    replace (7 * j + 7) with (7 * (j + 1)) by lia.
    rewrite (IH fuel (n / 128) (acc + n mod 128 * 2 ^ (7 * j)) (j + 1)
               (set_bytePosition (bytePosition r + 1) r)
               (pre ++ [n mod 128 + 128]) post).
    + cbn [buffer bytePosition set_bytePosition length]. f_equal. f_equal; [nia|].
      f_equal. cbn [varint]. lia.
    + lia.
    + lia.
    + lia.
    + rewrite P2. nia.
    + rewrite P2. nia.
    + cbn [buffer set_bytePosition]. rewrite Hbuf, <- app_assoc. reflexivity.
    + cbn [bytePosition set_bytePosition]. rewrite length_app. cbn [length]. lia.
    + lia.
Qed.

Lemma varint_length_5 (n : Z) :
  0 <= n < 2 ^ 31 -> Z.of_nat (length (varint 5 n)) = varint_length n.
Proof.
  intros Hn. unfold varint_length, bits.
  assert (forall a b, 0 < a -> 0 <= b -> (a < 2 ^ b <-> Z.log2 a < b)) as Llt
    by (intros; apply Z.log2_lt_pow2; lia).
  assert (forall a b, 0 < a -> 0 <= b -> (2 ^ b <= a <-> b <= Z.log2 a)) as Lle
    by (intros; apply Z.log2_le_pow2; lia).
  destruct (n =? 0) eqn:E0.
  - apply Z.eqb_eq in E0. subst n. reflexivity.
  - apply Z.eqb_neq in E0.
    assert (forall m, 0 <= m -> (m / 128 =? 0) = (m <? 128)) as D.
    { intros m Hm. destruct (m <? 128) eqn:L.
      - apply Z.ltb_lt in L. apply Z.eqb_eq, Z.div_small. lia.
      - apply Z.ltb_ge in L. apply Z.eqb_neq. intros Q.
        apply Z.div_small_iff in Q; lia. }
    assert (0 <= n / 128) by (apply Z.div_pos; lia).
    assert (0 <= n / 128 / 128) by (apply Z.div_pos; lia).
    assert (0 <= n / 128 / 128 / 128) by (apply Z.div_pos; lia).
    assert (0 <= n / 128 / 128 / 128 / 128) by (apply Z.div_pos; lia).
    cbn [varint]. rewrite !D by lia.
    pose proof (Llt n 7 ltac:(lia) ltac:(lia)) as L7.
    pose proof (Llt n 14 ltac:(lia) ltac:(lia)) as L14.
    pose proof (Llt n 21 ltac:(lia) ltac:(lia)) as L21.
    pose proof (Llt n 28 ltac:(lia) ltac:(lia)) as L28.
    pose proof (Llt n 31 ltac:(lia) ltac:(lia)) as L31.
    change (2 ^ 7) with 128 in L7. change (2 ^ 14) with 16384 in L14.
    change (2 ^ 21) with 2097152 in L21. change (2 ^ 28) with 268435456 in L28.
    pose proof (Z.log2_nonneg n).
    repeat match goal with
           | |- context [?x <? 128] => destruct (Z.ltb_spec x 128)
           end; cbn [length]; Z.div_mod_to_equations; lia.
Qed.

(** [X2] In a writer with six bytes of room after the cursor, every [n] in
    [[0, 2^31)] is written as its varint, [read7BitNumber] at the old cursor
    returns [n] and stops at the new cursor, and the encoding takes
    [ceil(bits(n) / 7)] bytes, at least 1. *)
Lemma varint_roundtrip_with_room (n : Z) (w : Binary) :
  0 <= n < 2 ^ 31 -> cursor_ok w -> bytePosition w + 5 < size (buffer w) ->
  exists w',
    BinaryWriter.write7BitNumber n w = Ok (tt, w') /\
    written w' = written w ++ varint 5 n /\
    BinaryReader.read7BitNumber (mkBinary (buffer w') (bytePosition w)) =
      Ok (n, mkBinary (buffer w') (bytePosition w')) /\
    bytePosition w' - bytePosition w = varint_length n.
Proof.
  intros Hn Hw Hroom.
  pose proof (eq_refl : 2 ^ 31 = 2147483648) as P31.
  assert (n < 128 ^ Z.of_nat 5) as H5 by (change (128 ^ Z.of_nat 5) with 34359738368; lia).
  unfold BinaryWriter.write7BitNumber, BinaryWriter.alloc.
  replace (size (buffer w) <=? bytePosition w + 2) with false
    by (symmetry; apply Z.leb_gt; lia).
  destruct Hw as [Hw0 Hw1].
  destruct (write7BitNumber_loop_varint 4 (S (length (buffer w))) n w Hn H5)
    as (w' & E & [C0 C1] & W & Sz); [unfold size in *; lia | split; assumption | lia |].
  exists w'. split; [exact E|]. split; [exact W|].
  assert (Z.of_nat (length (written w)) = bytePosition w) as Lw
    by (unfold written; rewrite length_take; unfold size in *; lia).
  assert (Z.of_nat (length (written w')) = bytePosition w') as Lw'
    by (unfold written; rewrite length_take; unfold size in *; lia).
  assert (bytePosition w' = bytePosition w + Z.of_nat (length (varint 5 n))) as Ep
    by (rewrite <- Lw', W, length_app; lia).
  split; [|rewrite <- varint_length_5 by assumption; lia].
  pose proof (take_drop (Z.to_nat (bytePosition w')) (buffer w')) as TD.
  fold (written w') in TD. rewrite W, <- app_assoc in TD.
  unfold BinaryReader.read7BitNumber. cbn [buffer].
  pose proof (read7BitNumber_loop_varint 4 (S (S (length (buffer w')))) n 0 0
                (mkBinary (buffer w') (bytePosition w)) (written w)
                (drop (Z.to_nat (bytePosition w')) (buffer w'))) as R.
  cbn [buffer bytePosition] in R. rewrite Z.mul_0_r in R.
  change (2 ^ 0) with 1 in R. rewrite Z.mul_1_r, Z.add_0_l, <- Ep in R.
  apply R; try lia.
  - symmetry. exact TD.
  - unfold size in *. lia.
Qed.

(** ** The framing loop does not run out of fuel *)

Lemma LzxReader_readByte_inv (r r' : LzxReader.t) (v : Z) :
  LzxReader.readByte r = Ok (v, r') ->
  buffer (LzxReader.base r') = buffer (LzxReader.base r) /\ v ∈ buffer (LzxReader.base r).
Proof.
  unfold LzxReader.readByte, LzxReader.inherited.
  destruct (BinaryReader.readByte (LzxReader.base r)) as [[x b]| |] eqn:E; try discriminate.
  intros [= <- <-]. destruct (readByte_inv _ _ _ E) as (Hb & _ & _ & Hin). auto.
Qed.

Lemma LzxReader_readByte_not_OutOfFuel (r : LzxReader.t) :
  LzxReader.readByte r <> OutOfFuel.
Proof.
  unfold LzxReader.readByte, LzxReader.inherited.
  destruct (BinaryReader.readByte (LzxReader.base r)) as [[x b]| |] eqn:E; try discriminate.
  exfalso. exact (readByte_not_OutOfFuel _ E).
Qed.

Lemma readLZXInt16_inv (r : LzxReader.t) :
  bytes (buffer (LzxReader.base r)) ->
  match LzxReader.readLZXInt16 r with
  | Ok (v, r') => buffer (LzxReader.base r') = buffer (LzxReader.base r) /\ 0 <= v <= 0xFFFF
  | Throw _ => True
  | OutOfFuel => False
  end.
Proof.
  intros Hb. unfold LzxReader.readLZXInt16, bind.
  destruct (LzxReader.readByte r) as [[lsB r1]| |] eqn:E1; [|exact I|].
  - destruct (LzxReader_readByte_inv _ _ _ E1) as [B1 I1].
    destruct (LzxReader.readByte r1) as [[msB r2]| |] eqn:E2; [|exact I|].
    + destruct (LzxReader_readByte_inv _ _ _ E2) as [B2 I2]. unfold ret.
      unfold bytes in Hb. rewrite Forall_forall in Hb.
      pose proof (Hb _ I1). rewrite B1 in I2. pose proof (Hb _ I2).
      rewrite shl8_bor_bytes by assumption. split; [congruence | lia].
    + exact (LzxReader_readByte_not_OutOfFuel _ E2).
  - exact (LzxReader_readByte_not_OutOfFuel _ E1).
Qed.

Section FramingTotal.
Context {Lzx : Type}.
Variable Lzx_16 : Lzx.
Variable Lzx_decompress : Lzx -> Z -> Z -> M LzxReader.t (list Z * Lzx).

(** The decoder returns or throws, and leaves bytes in the buffer. *)
Hypothesis decoder_total :
  forall lzx frameSize blockSize r, Lzx_decompress lzx frameSize blockSize r <> OutOfFuel.
Hypothesis decoder_bytes :
  forall lzx frameSize blockSize r frame lzx' r',
    bytes (buffer (LzxReader.base r)) ->
    Lzx_decompress lzx frameSize blockSize r = Ok ((frame, lzx'), r') ->
    bytes (buffer (LzxReader.base r')).

Lemma decompress_loop_total (fuel : nat) :
  forall (compressedTodo pos : Z) (lzx : Lzx) (decompressed : list Z) (r : LzxReader.t),
    bytes (buffer (LzxReader.base r)) ->
    (0 < fuel)%nat -> compressedTodo - pos < Z.of_nat fuel ->
    Decompress.decompress_loop Lzx_decompress fuel compressedTodo pos lzx decompressed r
      <> OutOfFuel.
Proof.
  induction fuel as [|fuel IH]; intros todo pos lzx out r Hb Hf Hm; [lia|].
  cbn [Decompress.decompress_loop].
  destruct (pos <? todo) eqn:Ep; [|discriminate].
  apply Z.ltb_lt in Ep. unfold bind at 1.
  destruct (LzxReader.readByte r) as [[flag r1]| |] eqn:E1;
    [|discriminate|exfalso; exact (LzxReader_readByte_not_OutOfFuel _ E1)].
  destruct (LzxReader_readByte_inv _ _ _ E1) as [B1 _].
  assert (bytes (buffer (LzxReader.base r1))) as Hb1 by (rewrite B1; exact Hb).
  assert (forall fs bs hd r2,
            0 <= bs -> 0 <= hd -> bytes (buffer (LzxReader.base r2)) ->
            (if (bs =? 0) || (fs =? 0) then ret out
             else if (65536 <? bs) || (65536 <? fs)
                  then throw (XnbError InvalidSizeInCompression)
                  else bind (Lzx_decompress lzx fs bs)
                         (fun frame => let '(bytes0, lzx0) := frame in
                            Decompress.decompress_loop Lzx_decompress fuel todo
                              (pos + hd + bs) lzx0 (out ++ bytes0))) r2
            <> OutOfFuel) as Tail.
  { intros fs bs hd r2 Hbs Hhd Hb2.
    destruct ((bs =? 0) || (fs =? 0)) eqn:Z0; [discriminate|].
    destruct ((65536 <? bs) || (65536 <? fs)); [discriminate|].
    apply orb_false_iff in Z0 as [Z0 _]. apply Z.eqb_neq in Z0.
    unfold bind.
    destruct (Lzx_decompress lzx fs bs r2) as [[[frame lzx'] r3]| |] eqn:Ed;
      [|discriminate|exfalso; exact (decoder_total _ _ _ _ Ed)].
    apply IH; [exact (decoder_bytes _ _ _ _ _ _ _ Hb2 Ed) | lia | lia]. }
  destruct (flag =? 255).
  - unfold bind.
    pose proof (readLZXInt16_inv r1 Hb1) as I1.
    destruct (LzxReader.readLZXInt16 r1) as [[fs r2]| |]; [|discriminate|contradiction].
    destruct I1 as [B2 Hfs].
    assert (bytes (buffer (LzxReader.base r2))) as Hb2 by (rewrite B2; exact Hb1).
    pose proof (readLZXInt16_inv r2 Hb2) as I2.
    destruct (LzxReader.readLZXInt16 r2) as [[bs r3]| |]; [|discriminate|contradiction].
    destruct I2 as [B3 Hbs]. unfold ret.
    apply (Tail fs bs 5 r3); [lia | lia | rewrite B3; exact Hb2].
  - unfold bind, LzxReader.add_bytePosition.
    set (r1' := LzxReader.mk _ _).
    assert (bytes (buffer (LzxReader.base r1'))) as Hb1' by exact Hb1.
    pose proof (readLZXInt16_inv r1' Hb1') as I2.
    destruct (LzxReader.readLZXInt16 r1') as [[bs r3]| |]; [|discriminate|contradiction].
    destruct I2 as [B3 Hbs]. unfold ret.
    apply (Tail 32768 bs 2 r3); [lia | lia | rewrite B3; exact Hb1'].
Qed.

(** [decompress] returns or throws. *)
Lemma decompress_total (compressedTodo : Z) (r : LzxReader.t) :
  bytes (buffer (LzxReader.base r)) ->
  Decompress.decompress Lzx_16 Lzx_decompress compressedTodo r <> OutOfFuel.
Proof.
  intros Hb. unfold Decompress.decompress, bind.
  pose proof (decompress_loop_total (S (Z.to_nat compressedTodo)) compressedTodo 0
                Lzx_16 [] r Hb ltac:(lia) ltac:(lia)) as T.
  destruct (Decompress.decompress_loop _ _ _ _ _ _ _) as [[d r']| |];
    [discriminate | discriminate | contradiction].
Qed.

End FramingTotal.

(** The sizes of a frame header are 16-bit values, so the invalid-size test
    of the loop is never true after a header was read. *)
Lemma frame_header_at_sizes (b : Buffer) (p fs bs hd : Z) :
  bytes b -> Decompress.frame_header_at b p = Some (fs, bs, hd) ->
  0 <= fs <= 0xFFFF /\ 0 <= bs <= 0xFFFF /\
  (0x10000 <? bs) || (0x10000 <? fs) = false.
Proof.
  intros Hb.
  assert (forall q v, Decompress.i16_swapped_at b q = Some v -> 0 <= v <= 0xFFFF) as I.
  { intros q v. unfold Decompress.i16_swapped_at.
    destruct (Buffer_get b q) as [x|] eqn:E1; [|discriminate].
    destruct (Buffer_get b (q + 1)) as [y|] eqn:E2; [|discriminate].
    intros [= <-].
    pose proof (Buffer_get_byte _ _ _ Hb E1). pose proof (Buffer_get_byte _ _ _ Hb E2). lia. }
  unfold Decompress.frame_header_at.
  destruct (Buffer_get b p) as [flag|]; [|discriminate].
  destruct (flag =? 255).
  - destruct (Decompress.i16_swapped_at b (p + 1)) as [x|] eqn:E1; [|discriminate].
    destruct (Decompress.i16_swapped_at b (p + 3)) as [y|] eqn:E2; [|discriminate].
    intros [= <- <- <-]. pose proof (I _ _ E1). pose proof (I _ _ E2).
    repeat split; lia.
  - destruct (Decompress.i16_swapped_at b p) as [y|] eqn:E2; [|discriminate].
    intros [= <- <- <-]. pose proof (I _ _ E2).
    repeat split; lia.
Qed.

(** ** Fixed-width integers: what is written is read back *)

(** The bytes a write appended are the bytes a read at the old cursor gets. *)
Lemma written_chunk (w w' : Binary) (enc : Buffer) :
  cursor_ok w -> cursor_ok w' -> written w' = written w ++ enc ->
  bytePosition w' = bytePosition w + size enc /\
  take (length enc) (drop (Z.to_nat (bytePosition w)) (buffer w')) = enc.
Proof.
  intros [H0 H1] [H0' H1'] W.
  assert (Z.of_nat (length (written w)) = bytePosition w) as Lw
    by (unfold written; rewrite length_take; unfold size in *; lia).
  assert (Z.of_nat (length (written w')) = bytePosition w') as Lw'
    by (unfold written; rewrite length_take; unfold size in *; lia).
  assert (bytePosition w' = bytePosition w + size enc) as Ep
    by (rewrite <- Lw', W, length_app; unfold size; lia).
  split; [exact Ep|].
  pose proof (take_drop (Z.to_nat (bytePosition w')) (buffer w')) as TD.
  fold (written w') in TD. rewrite W, <- app_assoc in TD.
  rewrite <- TD.
  replace (Z.to_nat (bytePosition w)) with (length (written w)) by lia.
  rewrite drop_app_length. apply take_app_length.
Qed.

(** A read of [k] bytes at the old cursor of a writer that appended [enc],
    [k] bytes long. *)
Lemma _read_written (w w' : Binary) (enc : Buffer) :
  cursor_ok w -> cursor_ok w' -> written w' = written w ++ enc ->
  BinaryReader._read (size enc) (mkBinary (buffer w') (bytePosition w)) = Ok (enc, w').
Proof.
  intros Hw Hw' W. destruct (written_chunk w w' enc Hw Hw' W) as [Ep Et].
  destruct Hw as [H0 H1]. destruct Hw' as [H0' H1'].
  rewrite _read_ok; cbn [buffer bytePosition]; unfold size in *; try lia.
  rewrite Nat2Z.id, Et. unfold set_bytePosition. cbn [buffer bytePosition].
  rewrite <- Ep. destruct w'; reflexivity.
Qed.

Lemma bytesLE32_value (v : Z) :
  0 <= v < 2 ^ 32 ->
  v mod 256 + (v / 2 ^ 8) mod 256 * 2 ^ 8 + (v / 2 ^ 16) mod 256 * 2 ^ 16
  + (v / 2 ^ 24) mod 256 * 2 ^ 24 = v.
Proof.
  intros H. change (2 ^ 8) with 256. change (2 ^ 16) with 65536.
  change (2 ^ 24) with 16777216. change (2 ^ 32) with 4294967296 in H.
  Z.div_mod_to_equations. lia.
Qed.

Lemma shl_24 (x : Z) :
  0 <= x <= 255 -> JS.shl x 24 = x * 2 ^ 24 - (if x <? 128 then 0 else 2 ^ 32).
Proof.
  intros H. unfold JS.shl. change (24 mod 32) with 24.
  pose proof (eq_refl : 2 ^ 31 = 2147483648) as P31.
  pose proof (eq_refl : 2 ^ 32 = 4294967296) as P32.
  pose proof (eq_refl : 2 ^ 24 = 16777216) as P24.
  rewrite (ToInt32_small x) by lia. rewrite Z.shiftl_mul_pow2 by lia.
  unfold JS.ToInt32. rewrite P24, P31, P32.
  destruct (x <? 128) eqn:E; [apply Z.ltb_lt in E | apply Z.ltb_ge in E].
  - rewrite Z.mod_small by lia. lia.
  - replace (x * 16777216 + 2147483648) with (x * 16777216 - 2147483648 + 1 * 4294967296) by lia.
    rewrite Z.mod_add by lia. rewrite Z.mod_small by lia. lia.
Qed.

Lemma readUInt32_enc (w w' : Binary) (v : Z) :
  cursor_ok w -> cursor_ok w' -> written w' = written w ++ bytesLE32 v ->
  BinaryReader.readUInt32 (mkBinary (buffer w') (bytePosition w)) =
    Ok (v mod 256 + (v / 2 ^ 8) mod 256 * 2 ^ 8 + (v / 2 ^ 16) mod 256 * 2 ^ 16
        + (v / 2 ^ 24) mod 256 * 2 ^ 24, w').
Proof.
  intros Hw Hw' W. unfold BinaryReader.readUInt32, bind.
  change 4 with (size (bytesLE32 v)).
  rewrite (_read_written w w' _ Hw Hw' W). reflexivity.
Qed.

Lemma readInt32_enc (w w' : Binary) (v : Z) :
  cursor_ok w -> cursor_ok w' -> written w' = written w ++ bytesLE32 v ->
  BinaryReader.readInt32 (mkBinary (buffer w') (bytePosition w)) =
    Ok (v mod 256 + (v / 2 ^ 8) mod 256 * 2 ^ 8 + (v / 2 ^ 16) mod 256 * 2 ^ 16
        + JS.shl ((v / 2 ^ 24) mod 256) 24, w').
Proof.
  intros Hw Hw' W. unfold BinaryReader.readInt32, bind.
  change 4 with (size (bytesLE32 v)).
  rewrite (_read_written w w' _ Hw Hw' W). reflexivity.
Qed.

Lemma int32_of_bytes (u : Z) :
  0 <= u < 2 ^ 32 ->
  u mod 256 + (u / 2 ^ 8) mod 256 * 2 ^ 8 + (u / 2 ^ 16) mod 256 * 2 ^ 16
  + JS.shl ((u / 2 ^ 24) mod 256) 24 = JS.ToInt32 u.
Proof.
  intros H. pose proof (bytesLE32_value u H) as E.
  pose proof (eq_refl : 2 ^ 31 = 2147483648) as P31.
  pose proof (eq_refl : 2 ^ 32 = 4294967296) as P32.
  pose proof (eq_refl : 2 ^ 24 = 16777216) as P24.
  assert (0 <= (u / 2 ^ 24) mod 256 <= 255) as Hb
    by (pose proof (Z.mod_pos_bound (u / 2 ^ 24) 256); lia).
  rewrite shl_24 by exact Hb.
  assert ((u / 2 ^ 24) mod 256 = u / 2 ^ 24) as Eq.
  { apply Z.mod_small. split; [apply Z.div_pos; lia|].
    apply Z.div_lt_upper_bound; lia. }
  unfold JS.ToInt32.
  destruct (_ <? 128) eqn:L; [apply Z.ltb_lt in L | apply Z.ltb_ge in L]; rewrite Eq in L.
  - assert (u < 2 ^ 31).
    { rewrite P31. destruct (Z.lt_ge_cases u 2147483648) as [|G]; [assumption|].
      assert (128 <= u / 2 ^ 24) by (apply Z.div_le_lower_bound; lia). lia. }
    rewrite (Z.mod_small (u + 2 ^ 31)) by lia. lia.
  - assert (2 ^ 31 <= u).
    { rewrite P31. destruct (Z.lt_ge_cases u 2147483648) as [G|]; [|assumption].
      assert (u / 2 ^ 24 < 128) by (apply Z.div_lt_upper_bound; lia). lia. }
    replace (u + 2 ^ 31) with (u - 2 ^ 31 + 1 * 2 ^ 32) by lia.
    rewrite Z.mod_add by lia. rewrite (Z.mod_small (u - 2 ^ 31)) by lia. lia.
Qed.

(** [X3] [writeUInt32] and [writeInt32] append the four little-endian bytes of a
    value in their range and move the cursor by 4; [readUInt32], and
    [readInt32], at the old cursor return the value and stop at the new
    cursor.  A value outside the range is refused with Node's range error.
    An unsigned value from [2^31] on that is read back with [readInt32] comes
    back lowered by [2^32]. *)
Theorem int32_write_read (value : Z) (w : Binary) :
  cursor_ok w ->
  (0 <= value < 2 ^ 32 ->
     exists w', BinaryWriter.writeUInt32 value w = Ok (tt, w') /\
       written w' = written w ++ bytesLE32 value /\
       bytePosition w' = bytePosition w + 4 /\
       BinaryReader.readUInt32 (mkBinary (buffer w') (bytePosition w)) = Ok (value, w') /\
       BinaryReader.readInt32 (mkBinary (buffer w') (bytePosition w)) =
         Ok (if value <? 2 ^ 31 then value else value - 2 ^ 32, w')) /\
  (- 2 ^ 31 <= value < 2 ^ 31 ->
     exists w', BinaryWriter.writeInt32 value w = Ok (tt, w') /\
       bytePosition w' = bytePosition w + 4 /\
       BinaryReader.readInt32 (mkBinary (buffer w') (bytePosition w)) = Ok (value, w')) /\
  (value < 0 \/ 2 ^ 32 <= value ->
     BinaryWriter.writeUInt32 value w = Throw (RangeErrorValue value)) /\
  (value < - 2 ^ 31 \/ 2 ^ 31 <= value ->
     BinaryWriter.writeInt32 value w = Throw (RangeErrorValue value)).
Proof.
  intros Hw.
  pose proof (eq_refl : 2 ^ 31 = 2147483648) as P31.
  pose proof (eq_refl : 2 ^ 32 = 4294967296) as P32.
  split; [|split; [|split]].
  - intros Hv. destruct (writeUInt32_written value w Hw Hv) as (w' & E & C & W).
    exists w'. split; [exact E|]. split; [exact W|].
    destruct (written_chunk w w' _ Hw C W) as [Ep _].
    split; [exact Ep|]. split.
    + rewrite (readUInt32_enc w w' value Hw C W), bytesLE32_value by exact Hv. reflexivity.
    + rewrite (readInt32_enc w w' value Hw C W), int32_of_bytes by exact Hv.
      f_equal. f_equal. unfold JS.ToInt32.
      destruct (value <? 2 ^ 31) eqn:L; [apply Z.ltb_lt in L | apply Z.ltb_ge in L].
      * rewrite Z.mod_small by lia. lia.
      * replace (value + 2 ^ 31) with (value - 2 ^ 31 + 1 * 2 ^ 32) by lia.
        rewrite Z.mod_add by lia. rewrite Z.mod_small by lia. lia.
  - intros Hv. destruct (writeInt32_written value w Hw Hv) as (w' & E & C & W).
    exists w'. split; [exact E|].
    destruct (written_chunk w w' _ Hw C W) as [Ep _].
    split; [exact Ep|].
    assert (0 <= value mod 2 ^ 32 < 2 ^ 32) as Hm by (apply Z.mod_pos_bound; lia).
    rewrite (readInt32_enc w w' _ Hw C W), int32_of_bytes by exact Hm.
    f_equal. f_equal. unfold JS.ToInt32.
    rewrite Zplus_mod_idemp_l. rewrite Z.mod_small by lia. lia.
  - intros Hv. unfold BinaryWriter.writeUInt32, Buffer_writeUInt32LE.
    replace ((value <? 0) || (2 ^ 32 - 1 <? value)) with true; [reflexivity|].
    symmetry. apply orb_true_iff. destruct Hv; [left; apply Z.ltb_lt | right; apply Z.ltb_lt]; lia.
  - intros Hv. unfold BinaryWriter.writeInt32, Buffer_writeInt32LE.
    replace ((value <? - 2 ^ 31) || (2 ^ 31 - 1 <? value)) with true; [reflexivity|].
    symmetry. apply orb_true_iff. destruct Hv; [left; apply Z.ltb_lt | right; apply Z.ltb_lt]; lia.
Qed.

Lemma int32_write_read_witness :
  exists w', BinaryWriter.writeUInt32 0xFFFFFFFE (BinaryWriter.new 0) = Ok (tt, w') /\
    written w' = [0xFE; 0xFF; 0xFF; 0xFF] /\
    BinaryReader.readUInt32 (mkBinary (buffer w') 0) = Ok (0xFFFFFFFE, w') /\
    BinaryReader.readInt32 (mkBinary (buffer w') 0) = Ok (-2, w').
Proof.
  destruct (proj1 (int32_write_read 0xFFFFFFFE (BinaryWriter.new 0) (cursor_ok_new 0)))
    as (w' & E & W & P & R1 & R2); [vm_compute; split; [discriminate | reflexivity]|].
  exists w'. split; [exact E|]. split; [exact W|]. split; [exact R1 | exact R2].
Defined.

(** ** Sign extension as Node computes it *)

Lemma land_pow2_low (n x : Z) : 0 <= n -> 0 <= x < 2 ^ n -> Z.land x (2 ^ n) = 0.
Proof.
  intros Hn H. rewrite <- (Z.mod_small x (2 ^ n)) by lia.
  rewrite <- Z.land_ones by lia. rewrite <- Z.land_assoc.
  replace (Z.land (Z.ones n) (2 ^ n)) with 0; [apply Z.land_0_r|].
  symmetry. rewrite Z.land_comm, Z.land_ones by lia. apply Z.mod_same.
  apply Z.pow_nonzero; lia.
Qed.

Lemma land_pow2_high (n x : Z) : 0 <= n -> 0 <= x < 2 ^ n -> Z.land (x + 2 ^ n) (2 ^ n) = 2 ^ n.
Proof.
  intros Hn H. pose proof (land_pow2_low n x Hn H) as L.
  pose proof (Z.add_lor_land x (2 ^ n)) as E. rewrite L in E.
  replace (x + 2 ^ n) with (Z.lor x (2 ^ n)) by lia.
  rewrite Z.land_lor_distr_l, L, Z.land_diag. reflexivity.
Qed.

Lemma lor_neg_pow2 (n a : Z) : 0 <= n -> 0 <= a < 2 ^ n -> Z.lor a (- 2 ^ n) = a - 2 ^ n.
Proof.
  intros Hn H.
  assert (- 2 ^ n = Z.lnot (Z.ones n)) as En by (unfold Z.lnot; rewrite Z.ones_equiv; lia).
  assert (Z.land a (- 2 ^ n) = 0) as L.
  { rewrite En, <- Z.ldiff_land, Z.ldiff_ones_r by lia.
    rewrite Z.shiftr_div_pow2 by lia. rewrite Z.div_small by lia. apply Z.shiftl_0_l. }
  pose proof (Z.add_lor_land a (- 2 ^ n)) as E. lia.
Qed.

(** [val | (val & 2 ** n) * k] where [2 ** n * k] is [- 2 ** (n + 1)] as a
    32-bit integer: the value of the [n + 1] bits read as signed. *)
Lemma sign_extend (n k val : Z) :
  0 <= n < 30 -> JS.ToInt32 (2 ^ n * k) = - 2 ^ (n + 1) -> 0 <= val < 2 ^ (n + 1) ->
  JS.bor val (JS.band val (2 ^ n) * k) = if val <? 2 ^ n then val else val - 2 ^ (n + 1).
Proof.
  intros Hn Hk Hv.
  assert (0 < 2 ^ n) as Hp by (apply Z.pow_pos_nonneg; lia).
  assert (2 ^ (n + 1) = 2 * 2 ^ n) as E1 by (rewrite Z.pow_add_r by lia; lia).
  assert (2 ^ (n + 1) <= 2 ^ 30) as Hle by (apply Z.pow_le_mono_r; lia).
  pose proof (eq_refl : 2 ^ 30 = 1073741824) as P30.
  pose proof (eq_refl : 2 ^ 31 = 2147483648) as P31.
  unfold JS.bor, JS.band. rewrite (ToInt32_small val) by lia.
  rewrite (ToInt32_small (2 ^ n)) by lia.
  destruct (val <? 2 ^ n) eqn:L; [apply Z.ltb_lt in L | apply Z.ltb_ge in L].
  - rewrite land_pow2_low by lia. rewrite Z.mul_0_l.
    change (JS.ToInt32 0) with 0. apply Z.lor_0_r.
  - replace val with (val - 2 ^ n + 2 ^ n) at 2 by lia.
    rewrite land_pow2_high by lia. rewrite Hk.
    apply lor_neg_pow2; lia.
Qed.

Lemma readInt8_value (val : Z) :
  0 <= val <= 255 ->
  JS.bor val (JS.band val (2 ^ 7) * 0x1fffffe) = if val <? 128 then val else val - 256.
Proof.
  intros H. rewrite (sign_extend 7); [reflexivity | lia | reflexivity |].
  change (2 ^ (7 + 1)) with 256. lia.
Qed.

Lemma readInt16_value (val : Z) :
  0 <= val < 2 ^ 16 ->
  JS.bor val (JS.band val (2 ^ 15) * 0x1fffe) = if val <? 2 ^ 15 then val else val - 2 ^ 16.
Proof.
  intros H. rewrite (sign_extend 15); [reflexivity | lia | reflexivity | exact H].
Qed.

(** ** The 16-bit and 8-bit writes as appended bytes *)

Lemma writeUInt16_written (value : Z) (w : Binary) :
  cursor_ok w -> 0 <= value < 2 ^ 16 ->
  exists w', BinaryWriter.writeUInt16 value w = Ok (tt, w') /\
             cursor_ok w' /\ written w' = written w ++ bytesLE16 value.
Proof.
  intros Hw Hv.
  destruct (writeBytes_written (bytesLE16 value) w Hw) as (w' & E & C & W).
  exists w'. split; [|auto]. rewrite <- E.
  unfold BinaryWriter.writeUInt16, BinaryWriter.writeBytes, Buffer_writeUInt16LE.
  change (size (bytesLE16 value)) with 2.
  destruct (alloc_room 2 w Hw ltac:(lia)) as ([Hc0 Hc1] & _ & Hp & Hroom).
  set (w1 := BinaryWriter.alloc 2 w) in *.
  replace ((value <? 0) || (2 ^ 16 - 1 <? value)) with false
    by (symmetry; apply orb_false_iff; split; apply Z.ltb_ge; lia).
  destruct (Buffer_get_Some (buffer w1) (bytePosition w1)) as [v0 ->]; [lia|].
  destruct (Buffer_get_Some (buffer w1) (bytePosition w1 + 1)) as [v1 ->]; [lia|].
  reflexivity.
Qed.

Lemma writeInt16_written (value : Z) (w : Binary) :
  cursor_ok w -> - 2 ^ 15 <= value < 2 ^ 15 ->
  exists w', BinaryWriter.writeInt16 value w = Ok (tt, w') /\
             cursor_ok w' /\ written w' = written w ++ bytesLE16 (value mod 2 ^ 16).
Proof.
  intros Hw Hv.
  destruct (writeBytes_written (bytesLE16 (value mod 2 ^ 16)) w Hw) as (w' & E & C & W).
  exists w'. split; [|auto]. rewrite <- E.
  unfold BinaryWriter.writeInt16, BinaryWriter.writeBytes, Buffer_writeInt16LE.
  change (size (bytesLE16 (value mod 2 ^ 16))) with 2.
  destruct (alloc_room 2 w Hw ltac:(lia)) as ([Hc0 Hc1] & _ & Hp & Hroom).
  set (w1 := BinaryWriter.alloc 2 w) in *.
  replace ((value <? - 2 ^ 15) || (2 ^ 15 - 1 <? value)) with false
    by (symmetry; apply orb_false_iff; split; apply Z.ltb_ge; lia).
  destruct (Buffer_get_Some (buffer w1) (bytePosition w1)) as [v0 ->]; [lia|].
  destruct (Buffer_get_Some (buffer w1) (bytePosition w1 + 1)) as [v1 ->]; [lia|].
  reflexivity.
Qed.

Lemma writeInt8_written (value : Z) (w : Binary) :
  cursor_ok w -> - 2 ^ 7 <= value < 2 ^ 7 ->
  exists w', BinaryWriter.writeInt8 value w = Ok (tt, w') /\
             cursor_ok w' /\ written w' = written w ++ [value mod 256].
Proof.
  intros Hw Hv.
  assert (0 <= value mod 256 <= 255) as Hm
    by (pose proof (Z.mod_pos_bound value 256); lia).
  destruct (writeByte_written (value mod 256) w Hw Hm) as (w' & E & C & W).
  exists w'. split; [|auto]. rewrite <- E.
  unfold BinaryWriter.writeInt8, BinaryWriter.writeByte, Buffer_writeInt8, Buffer_writeUInt8.
  replace ((value <? - 2 ^ 7) || (2 ^ 7 - 1 <? value)) with false
    by (symmetry; apply orb_false_iff; split; apply Z.ltb_ge; lia).
  replace ((value mod 256 <? 0) || (255 <? value mod 256)) with false
    by (symmetry; apply orb_false_iff; split; apply Z.ltb_ge; lia).
  reflexivity.
Qed.

Lemma _read_one (w w' : Binary) (v : Z) :
  cursor_ok w -> cursor_ok w' -> written w' = written w ++ [v] ->
  BinaryReader._read 1 (mkBinary (buffer w') (bytePosition w)) = Ok ([v], w').
Proof. intros. change 1 with (size [v]). apply _read_written; assumption. Qed.

Lemma _read_two (w w' : Binary) (v : Z) :
  cursor_ok w -> cursor_ok w' -> written w' = written w ++ bytesLE16 v ->
  BinaryReader._read 2 (mkBinary (buffer w') (bytePosition w)) = Ok (bytesLE16 v, w').
Proof. intros. change 2 with (size (bytesLE16 v)). apply _read_written; assumption. Qed.

Lemma readUInt16_enc (w w' : Binary) (v : Z) :
  cursor_ok w -> cursor_ok w' -> written w' = written w ++ bytesLE16 v ->
  BinaryReader.readUInt16 (mkBinary (buffer w') (bytePosition w)) =
    Ok (v mod 256 + (v / 2 ^ 8) mod 256 * 2 ^ 8, w').
Proof.
  intros Hw Hw' W. unfold BinaryReader.readUInt16, bind.
  rewrite (_read_two w w' _ Hw Hw' W). reflexivity.
Qed.

Lemma readInt16_enc (w w' : Binary) (v : Z) :
  cursor_ok w -> cursor_ok w' -> written w' = written w ++ bytesLE16 v ->
  BinaryReader.readInt16 (mkBinary (buffer w') (bytePosition w)) =
    Ok (let val := v mod 256 + (v / 2 ^ 8) mod 256 * 2 ^ 8 in
        JS.bor val (JS.band val (2 ^ 15) * 0x1fffe), w').
Proof.
  intros Hw Hw' W. unfold BinaryReader.readInt16, bind.
  rewrite (_read_two w w' _ Hw Hw' W). reflexivity.
Qed.

Lemma readInt8_enc (w w' : Binary) (v : Z) :
  cursor_ok w -> cursor_ok w' -> written w' = written w ++ [v] ->
  BinaryReader.readInt8 (mkBinary (buffer w') (bytePosition w)) =
    Ok (JS.bor v (JS.band v (2 ^ 7) * 0x1fffffe), w').
Proof.
  intros Hw Hw' W. unfold BinaryReader.readInt8, bind.
  rewrite (_read_one w w' _ Hw Hw' W). reflexivity.
Qed.

Lemma bytesLE16_value (v : Z) :
  0 <= v < 2 ^ 16 -> v mod 256 + (v / 2 ^ 8) mod 256 * 2 ^ 8 = v.
Proof.
  intros H. change (2 ^ 8) with 256. change (2 ^ 16) with 65536 in H.
  Z.div_mod_to_equations. lia.
Qed.

(** [X4] [writeUInt16] and [writeInt16] append the two little-endian bytes of a
    value in their range; [readUInt16], and [readInt16], at the old cursor
    return it and stop at the new cursor.  An unsigned value from [2^15] on
    read with [readInt16] comes back lowered by [2^16].  A value outside the
    range is refused with Node's range error. *)
Theorem int16_write_read (value : Z) (w : Binary) :
  cursor_ok w ->
  (0 <= value < 2 ^ 16 ->
     exists w', BinaryWriter.writeUInt16 value w = Ok (tt, w') /\
       written w' = written w ++ bytesLE16 value /\
       bytePosition w' = bytePosition w + 2 /\
       BinaryReader.readUInt16 (mkBinary (buffer w') (bytePosition w)) = Ok (value, w') /\
       BinaryReader.readInt16 (mkBinary (buffer w') (bytePosition w)) =
         Ok (if value <? 2 ^ 15 then value else value - 2 ^ 16, w')) /\
  (- 2 ^ 15 <= value < 2 ^ 15 ->
     exists w', BinaryWriter.writeInt16 value w = Ok (tt, w') /\
       bytePosition w' = bytePosition w + 2 /\
       BinaryReader.readInt16 (mkBinary (buffer w') (bytePosition w)) = Ok (value, w')) /\
  (value < 0 \/ 2 ^ 16 <= value ->
     BinaryWriter.writeUInt16 value w = Throw (RangeErrorValue value)) /\
  (value < - 2 ^ 15 \/ 2 ^ 15 <= value ->
     BinaryWriter.writeInt16 value w = Throw (RangeErrorValue value)).
Proof.
  intros Hw.
  pose proof (eq_refl : 2 ^ 15 = 32768) as P15.
  pose proof (eq_refl : 2 ^ 16 = 65536) as P16.
  split; [|split; [|split]].
  - intros Hv. destruct (writeUInt16_written value w Hw Hv) as (w' & E & C & W).
    exists w'. split; [exact E|]. split; [exact W|].
    destruct (written_chunk w w' _ Hw C W) as [Ep _].
    split; [exact Ep|]. split.
    + rewrite (readUInt16_enc w w' value Hw C W), bytesLE16_value by exact Hv. reflexivity.
    + rewrite (readInt16_enc w w' value Hw C W). cbv zeta.
      rewrite bytesLE16_value by exact Hv. rewrite readInt16_value by exact Hv. reflexivity.
  - intros Hv. destruct (writeInt16_written value w Hw Hv) as (w' & E & C & W).
    exists w'. split; [exact E|].
    destruct (written_chunk w w' _ Hw C W) as [Ep _].
    split; [exact Ep|].
    assert (0 <= value mod 2 ^ 16 < 2 ^ 16) as Hm by (apply Z.mod_pos_bound; lia).
    rewrite (readInt16_enc w w' _ Hw C W). cbv zeta.
    rewrite bytesLE16_value by exact Hm. rewrite readInt16_value by exact Hm.
    f_equal. f_equal.
    destruct (value mod 2 ^ 16 <? 2 ^ 15) eqn:L; [apply Z.ltb_lt in L | apply Z.ltb_ge in L].
    + destruct (Z.lt_ge_cases value 0) as [N|N].
      * replace value with (value + 2 ^ 16 + (-1) * 2 ^ 16) in L by lia.
        rewrite Z.mod_add in L by lia. rewrite Z.mod_small in L by lia. lia.
      * apply Z.mod_small. lia.
    + destruct (Z.lt_ge_cases value 0) as [N|N].
      * replace value with (value + 2 ^ 16 + (-1) * 2 ^ 16) at 1 by lia.
        rewrite Z.mod_add by lia. rewrite Z.mod_small by lia. lia.
      * rewrite Z.mod_small in L by lia. lia.
  - intros Hv. unfold BinaryWriter.writeUInt16, Buffer_writeUInt16LE.
    replace ((value <? 0) || (2 ^ 16 - 1 <? value)) with true; [reflexivity|].
    symmetry. apply orb_true_iff. destruct Hv; [left; apply Z.ltb_lt | right; apply Z.ltb_lt]; lia.
  - intros Hv. unfold BinaryWriter.writeInt16, Buffer_writeInt16LE.
    replace ((value <? - 2 ^ 15) || (2 ^ 15 - 1 <? value)) with true; [reflexivity|].
    symmetry. apply orb_true_iff. destruct Hv; [left; apply Z.ltb_lt | right; apply Z.ltb_lt]; lia.
Qed.

Lemma int16_write_read_witness :
  exists w', BinaryWriter.writeInt16 (-2) (BinaryWriter.new 0) = Ok (tt, w') /\
    bytePosition w' = 2 /\
    BinaryReader.readInt16 (mkBinary (buffer w') 0) = Ok (-2, w').
Proof.
  apply (proj1 (proj2 (int16_write_read (-2) (BinaryWriter.new 0) (cursor_ok_new 0)))).
  vm_compute. split; [discriminate | reflexivity].
Defined.

(** [X5] [writeByte], [writeInt8] and [writeBoolean] append one byte; [readByte],
    [readInt8] and [readBoolean] at the old cursor return what was written.
    A byte from 128 on read with [readInt8] comes back lowered by 256.  A
    value outside the range is refused with Node's range error. *)
Theorem int8_write_read (w : Binary) :
  cursor_ok w ->
  (forall value, 0 <= value <= 255 ->
     exists w', BinaryWriter.writeByte value w = Ok (tt, w') /\
       written w' = written w ++ [value] /\
       BinaryReader.readByte (mkBinary (buffer w') (bytePosition w)) = Ok (value, w') /\
       BinaryReader.readInt8 (mkBinary (buffer w') (bytePosition w)) =
         Ok (if value <? 128 then value else value - 256, w')) /\
  (forall value, - 128 <= value <= 127 ->
     exists w', BinaryWriter.writeInt8 value w = Ok (tt, w') /\
       written w' = written w ++ [value mod 256] /\
       BinaryReader.readInt8 (mkBinary (buffer w') (bytePosition w)) = Ok (value, w')) /\
  (forall value : bool,
     exists w', BinaryWriter.writeBoolean value w = Ok (tt, w') /\
       written w' = written w ++ [if value then 1 else 0] /\
       BinaryReader.readBoolean (mkBinary (buffer w') (bytePosition w)) = Ok (value, w')) /\
  (forall value, value < 0 \/ 255 < value ->
     BinaryWriter.writeByte value w = Throw (RangeErrorValue value)) /\
  (forall value, value < - 128 \/ 127 < value ->
     BinaryWriter.writeInt8 value w = Throw (RangeErrorValue value)).
Proof.
  intros Hw.
  assert (forall value, 0 <= value <= 255 ->
     exists w', BinaryWriter.writeByte value w = Ok (tt, w') /\
       written w' = written w ++ [value] /\
       BinaryReader.readByte (mkBinary (buffer w') (bytePosition w)) = Ok (value, w') /\
       BinaryReader.readInt8 (mkBinary (buffer w') (bytePosition w)) =
         Ok (if value <? 128 then value else value - 256, w')) as B.
  { intros value Hv. destruct (writeByte_written value w Hw Hv) as (w' & E & C & W).
    exists w'. split; [exact E|]. split; [exact W|]. split.
    - unfold BinaryReader.readByte, bind. rewrite (_read_one w w' value Hw C W). reflexivity.
    - rewrite (readInt8_enc w w' value Hw C W), readInt8_value by exact Hv. reflexivity. }
  split; [exact B|]. split; [|split; [|split]].
  - intros value Hv.
    destruct (writeInt8_written value w Hw ltac:(change (2 ^ 7) with 128; lia))
      as (w' & E & C & W).
    exists w'. split; [exact E|]. split; [exact W|].
    assert (0 <= value mod 256 <= 255) as Hm
      by (pose proof (Z.mod_pos_bound value 256); lia).
    rewrite (readInt8_enc w w' _ Hw C W), readInt8_value by exact Hm. f_equal. f_equal.
    destruct (value mod 256 <? 128) eqn:L; [apply Z.ltb_lt in L | apply Z.ltb_ge in L];
      Z.div_mod_to_equations; lia.
  - intros value.
    destruct (B (if value then 1 else 0) ltac:(destruct value; lia)) as (w' & E & W & R & _).
    exists w'. split; [exact E|]. split; [exact W|].
    unfold BinaryReader.readBoolean, bind. rewrite R. destruct value; reflexivity.
  - intros value Hv. unfold BinaryWriter.writeByte, Buffer_writeUInt8.
    replace ((value <? 0) || (255 <? value)) with true; [reflexivity|].
    symmetry. apply orb_true_iff. destruct Hv; [left; apply Z.ltb_lt | right; apply Z.ltb_lt]; lia.
  - intros value Hv. unfold BinaryWriter.writeInt8, Buffer_writeInt8.
    replace ((value <? - 2 ^ 7) || (2 ^ 7 - 1 <? value)) with true; [reflexivity|].
    symmetry. apply orb_true_iff.
    destruct Hv; [left; apply Z.ltb_lt | right; apply Z.ltb_lt]; change (2 ^ 7) with 128; lia.
Qed.

Lemma int8_write_read_witness :
  exists w', BinaryWriter.writeByte 200 (BinaryWriter.new 0) = Ok (tt, w') /\
    written w' = [200] /\
    BinaryReader.readByte (mkBinary (buffer w') 0) = Ok (200, w') /\
    BinaryReader.readInt8 (mkBinary (buffer w') 0) = Ok (-56, w').
Proof.
  apply (proj1 (int8_write_read (BinaryWriter.new 0) (cursor_ok_new 0)) 200). lia.
Defined.

(** [X6] [writeBytes] appends the bytes it is given, whatever their number, and
    [readBytes] of as many bytes at the old cursor returns them. *)
Theorem writeBytes_readBytes (value : Buffer) (w : Binary) :
  cursor_ok w ->
  exists w', BinaryWriter.writeBytes value w = Ok (tt, w') /\
    written w' = written w ++ value /\
    bytePosition w' = bytePosition w + size value /\
    BinaryReader.readBytes (size value) (mkBinary (buffer w') (bytePosition w)) =
      Ok (value, w').
Proof.
  intros Hw. destruct (writeBytes_written value w Hw) as (w' & E & C & W).
  exists w'. split; [exact E|]. split; [exact W|].
  destruct (written_chunk w w' _ Hw C W) as [Ep _]. split; [exact Ep|].
  unfold BinaryReader.readBytes. apply _read_written; assumption.
Qed.

Lemma writeBytes_readBytes_witness :
  exists w', BinaryWriter.writeBytes [1; 2; 3] (BinaryWriter.new 0) = Ok (tt, w') /\
    written w' = [1; 2; 3] /\
    bytePosition w' = 3 /\
    BinaryReader.readBytes 3 (mkBinary (buffer w') 0) = Ok ([1; 2; 3], w').
Proof. apply (writeBytes_readBytes [1; 2; 3] (BinaryWriter.new 0) (cursor_ok_new 0)). Defined.

(** ** The writer only appends *)

Lemma write7BitNumber_loop_appends (fuel : nat) :
  forall (v : Z) (w w' : Binary),
    cursor_ok w -> BinaryWriter.write7BitNumber_loop fuel v w = Ok (tt, w') ->
    cursor_ok w' /\ exists enc, written w' = written w ++ enc.
Proof.
  induction fuel as [|fuel IH]; intros v w w' Hw E; [discriminate|].
  cbn [BinaryWriter.write7BitNumber_loop] in E. unfold Buffer_writeUInt8 in E.
  destruct (_ || _); [discriminate|].
  destruct (Buffer_get (buffer w) (bytePosition w)) as [old|] eqn:G; [|discriminate].
  apply Buffer_get_lookup in G as [Hp G]. apply lookup_lt_Some in G.
  match type of E with
  | context [Buffer_set _ _ ?b] =>
      destruct (set_at_cursor w b Hw ltac:(unfold size; lia)) as (C1 & W1 & _)
  end.
  destruct (JS.truthy (JS.sar v 7)).
  - destruct (IH _ _ _ C1 E) as (C' & enc & W'). split; [exact C'|].
    eexists. rewrite W', W1, <- app_assoc. reflexivity.
  - injection E as <-. split; [exact C1|]. eexists. exact W1.
Qed.

(** [X7] Every write method appends, and so does a sequence of two that do. *)
Theorem writer_appends :
  (forall v, appends (BinaryWriter.writeByte v)) /\
  (forall v, appends (BinaryWriter.writeInt8 v)) /\
  (forall v, appends (BinaryWriter.writeBoolean v)) /\
  (forall v, appends (BinaryWriter.writeInt16 v)) /\
  (forall v, appends (BinaryWriter.writeUInt16 v)) /\
  (forall v, appends (BinaryWriter.writeInt32 v)) /\
  (forall v, appends (BinaryWriter.writeUInt32 v)) /\
  (forall b, appends (BinaryWriter.writeBytes b)) /\
  (forall v, appends (BinaryWriter.write7BitNumber v)) /\
  (forall m1 m2, appends m1 -> appends m2 -> appends (m1 ;;; m2)).
Proof.
  assert (forall v, appends (BinaryWriter.writeByte v)) as B.
  { intros v w w' Hw E.
    destruct (Z_le_dec 0 v) as [H0|H0]; [destruct (Z_le_dec v 255) as [H1|H1]|].
    - destruct (writeByte_written v w Hw ltac:(lia)) as (w1 & E1 & C & W).
      rewrite E1 in E. injection E as <-. eauto.
    - unfold BinaryWriter.writeByte, Buffer_writeUInt8 in E.
      replace (255 <? v) with true in E by (symmetry; apply Z.ltb_lt; lia).
      rewrite orb_true_r in E. discriminate.
    - unfold BinaryWriter.writeByte, Buffer_writeUInt8 in E.
      replace (v <? 0) with true in E by (symmetry; apply Z.ltb_lt; lia).
      discriminate. }
  split; [exact B|].
  split.
  { intros v w w' Hw E.
    destruct (Z_le_dec (- 2 ^ 7) v) as [H0|H0]; [destruct (Z_lt_dec v (2 ^ 7)) as [H1|H1]|].
    + destruct (writeInt8_written v w Hw ltac:(lia)) as (w1 & E1 & C & W).
      rewrite E1 in E. injection E as <-. eauto.
    + unfold BinaryWriter.writeInt8, Buffer_writeInt8 in E.
      replace (2 ^ 7 - 1 <? v) with true in E by (symmetry; apply Z.ltb_lt; lia).
      rewrite orb_true_r in E. discriminate.
    + unfold BinaryWriter.writeInt8, Buffer_writeInt8 in E.
      replace (v <? - 2 ^ 7) with true in E by (symmetry; apply Z.ltb_lt; lia).
      discriminate. }
  split.
  { intros v. apply B. }
  split.
  { intros v w w' Hw E.
    destruct (Z_le_dec (- 2 ^ 15) v) as [H0|H0]; [destruct (Z_lt_dec v (2 ^ 15)) as [H1|H1]|].
    + destruct (writeInt16_written v w Hw ltac:(lia)) as (w1 & E1 & C & W).
      rewrite E1 in E. injection E as <-. eauto.
    + unfold BinaryWriter.writeInt16, Buffer_writeInt16LE in E.
      replace (2 ^ 15 - 1 <? v) with true in E by (symmetry; apply Z.ltb_lt; lia).
      rewrite orb_true_r in E. discriminate.
    + unfold BinaryWriter.writeInt16, Buffer_writeInt16LE in E.
      replace (v <? - 2 ^ 15) with true in E by (symmetry; apply Z.ltb_lt; lia).
      discriminate. }
  split.
  { intros v w w' Hw E.
    destruct (Z_le_dec 0 v) as [H0|H0]; [destruct (Z_lt_dec v (2 ^ 16)) as [H1|H1]|].
    + destruct (writeUInt16_written v w Hw ltac:(lia)) as (w1 & E1 & C & W).
      rewrite E1 in E. injection E as <-. eauto.
    + unfold BinaryWriter.writeUInt16, Buffer_writeUInt16LE in E.
      replace (2 ^ 16 - 1 <? v) with true in E by (symmetry; apply Z.ltb_lt; lia).
      rewrite orb_true_r in E. discriminate.
    + unfold BinaryWriter.writeUInt16, Buffer_writeUInt16LE in E.
      replace (v <? 0) with true in E by (symmetry; apply Z.ltb_lt; lia).
      discriminate. }
  split.
  { intros v w w' Hw E.
    destruct (Z_le_dec (- 2 ^ 31) v) as [H0|H0]; [destruct (Z_lt_dec v (2 ^ 31)) as [H1|H1]|].
    + destruct (writeInt32_written v w Hw ltac:(lia)) as (w1 & E1 & C & W).
      rewrite E1 in E. injection E as <-. eauto.
    + unfold BinaryWriter.writeInt32, Buffer_writeInt32LE in E.
      replace (2 ^ 31 - 1 <? v) with true in E by (symmetry; apply Z.ltb_lt; lia).
      rewrite orb_true_r in E. discriminate.
    + unfold BinaryWriter.writeInt32, Buffer_writeInt32LE in E.
      replace (v <? - 2 ^ 31) with true in E by (symmetry; apply Z.ltb_lt; lia).
      discriminate. }
  split.
  { intros v w w' Hw E.
    destruct (Z_le_dec 0 v) as [H0|H0]; [destruct (Z_lt_dec v (2 ^ 32)) as [H1|H1]|].
    + destruct (writeUInt32_written v w Hw ltac:(lia)) as (w1 & E1 & C & W).
      rewrite E1 in E. injection E as <-. eauto.
    + unfold BinaryWriter.writeUInt32, Buffer_writeUInt32LE in E.
      replace (2 ^ 32 - 1 <? v) with true in E by (symmetry; apply Z.ltb_lt; lia).
      rewrite orb_true_r in E. discriminate.
    + unfold BinaryWriter.writeUInt32, Buffer_writeUInt32LE in E.
      replace (v <? 0) with true in E by (symmetry; apply Z.ltb_lt; lia).
      discriminate. }
  split.
  { intros b w w' Hw E.
    destruct (writeBytes_written b w Hw) as (w1 & E1 & C & W).
    rewrite E1 in E. injection E as <-. eauto. }
  split.
  { intros v w w' Hw E. unfold BinaryWriter.write7BitNumber in E.
    destruct (alloc_room 2 w Hw ltac:(lia)) as (Hc & Hwr & _).
    destruct (write7BitNumber_loop_appends _ _ _ _ Hc E) as (C & enc & W).
    split; [exact C|]. exists enc. rewrite W, Hwr. reflexivity. }
  intros m1 m2 A1 A2 w w' Hw E. unfold bind in E.
  destruct (m1 w) as [[[] w1]| |] eqn:E1; try discriminate.
  destruct (A1 w w1 Hw E1) as (C1 & enc1 & W1).
  destruct (A2 w1 w' C1 E) as (C2 & enc2 & W2).
  split; [exact C2|]. exists (enc1 ++ enc2). rewrite W2, W1, <- app_assoc. reflexivity.
Qed.

(** The theorem on the first bytes of a header. *)
Lemma writer_appends_witness :
  cursor_ok (mkBinary [88; 78; 66; 0] 3) /\
  exists enc, written (mkBinary [88; 78; 66; 0] 3) = written (BinaryWriter.new 4) ++ enc.
Proof.
  refine (let H := proj2 (proj2 (proj2 (proj2 (proj2 (proj2 (proj2 (proj2 (proj2
                     writer_appends)))))))) in _).
  apply (H (BinaryWriter.writeByte 88)
           (BinaryWriter.writeByte 78 ;;; BinaryWriter.writeByte 66)
           ltac:(apply (proj1 writer_appends))
           ltac:(apply H; apply (proj1 writer_appends))
           (BinaryWriter.new 4) (mkBinary [88; 78; 66; 0] 3) (cursor_ok_new 4)).
  reflexivity.
Defined.

(** ** [trim] and [concat] *)

(** [trim] leaves exactly the written bytes, with the cursor at their end;
    [concat] leaves the written bytes followed by the given ones, with the
    cursor at the end: spare capacity is dropped and the new bytes count as
    written. *)
Theorem trim_concat_written (b : Buffer) (w : Binary) :
  cursor_ok w ->
  buffer (BinaryWriter.trim w) = written w /\
  bytePosition (BinaryWriter.trim w) = bytePosition w /\
  buffer (BinaryWriter.concat b w) = written w ++ b /\
  written (BinaryWriter.concat b w) = written w ++ b /\
  bytePosition (BinaryWriter.concat b w) = size (buffer (BinaryWriter.concat b w)).
Proof.
  intros [H0 H1].
  assert (buffer (BinaryWriter.trim w) = written w) as T.
  { unfold BinaryWriter.trim, set_buffer, written, Buffer_alloc. cbn [buffer].
    replace (Z.to_nat (bytePosition w - size (buffer w))) with 0%nat by lia.
    apply app_nil_r. }
  assert (Z.of_nat (length (written w)) = bytePosition w) as Lw
    by (unfold written; rewrite length_take; unfold size in *; lia).
  assert (buffer (BinaryWriter.concat b w) = written w ++ b) as Cc
    by (unfold BinaryWriter.concat; cbn [buffer]; rewrite T; reflexivity).
  assert (bytePosition (BinaryWriter.concat b w) = bytePosition w + size b) as Cp
    by reflexivity.
  split; [exact T|]. split; [reflexivity|]. split; [exact Cc|]. split.
  - unfold written at 1. rewrite Cc, Cp.
    apply take_ge. rewrite length_app. unfold size. lia.
  - rewrite Cc, Cp, size_app. unfold size at 2. lia.
Qed.

Lemma trim_concat_written_witness :
  buffer (BinaryWriter.trim (mkBinary [1; 2; 0; 0] 2)) = [1; 2] /\
  buffer (BinaryWriter.concat [7; 8] (mkBinary [1; 2; 0; 0] 2)) = [1; 2; 7; 8].
Proof.
  destruct (trim_concat_written [7; 8] (mkBinary [1; 2; 0; 0] 2)) as (T & _ & C & _).
  - unfold cursor_ok, size. cbn. lia.
  - split; [exact T | exact C].
Defined.

(** ** [copyFrom] *)

Lemma Buffer_copy_all (source : Buffer) (n : Z) :
  size source <= n ->
  Buffer_copy source (Buffer_alloc n) 0 0 (size source) =
    Ok (source ++ replicate (Z.to_nat (n - size source)) 0).
Proof.
  intros Hn. unfold Buffer_copy, Buffer_alloc.
  assert (0 <= size source) as H0 by (unfold size; lia).
  assert (size (replicate (Z.to_nat n) 0) = n) as Sn
    by (unfold size; rewrite length_replicate; lia).
  rewrite Sn. cbn [Z.ltb Z.compare orb].
  replace (size source <? 0) with false by (symmetry; apply Z.ltb_ge; lia).
  destruct ((n <=? 0) || (size source <=? 0)) eqn:E.
  - apply orb_true_iff in E as [E|E]; apply Z.leb_le in E.
    + assert (source = []) as -> by (destruct source; [reflexivity | unfold size in *; cbn in *; lia]).
      replace (Z.to_nat (n - size [])) with (Z.to_nat n) by (unfold size; cbn; lia).
      reflexivity.
    + assert (source = []) as -> by (destruct source; [reflexivity | unfold size in *; cbn in *; lia]).
      replace (Z.to_nat (n - size [])) with (Z.to_nat n) by (unfold size; cbn; lia).
      reflexivity.
  - rewrite !Z.sub_0_r.
    replace (n <? size source) with false by (symmetry; apply Z.ltb_ge; lia).
    rewrite Z.min_id, Z.add_0_l. change (Z.to_nat 0) with 0%nat.
    rewrite take_0, drop_0. cbn [app].
    f_equal. f_equal.
    + apply take_ge. unfold size. lia.
    + rewrite drop_replicate. f_equal. unfold size. lia.
Qed.

Lemma Buffer_copy_into (source target : Buffer) (targetStart length : Z) :
  0 <= targetStart -> 0 <= length -> targetStart + length <= size target ->
  Buffer_copy source target targetStart 0 length =
    Ok (take (Z.to_nat targetStart) target
        ++ take (Z.to_nat (Z.min length (size source))) source
        ++ drop (Z.to_nat (targetStart + Z.min length (size source))) target).
Proof.
  intros Ht Hl Hfit. unfold Buffer_copy.
  assert (0 <= size source) as H0 by (unfold size; lia).
  replace (targetStart <? 0) with false by (symmetry; apply Z.ltb_ge; lia).
  replace (size source <? 0) with false by (symmetry; apply Z.ltb_ge; lia).
  replace (length <? 0) with false by (symmetry; apply Z.ltb_ge; lia).
  cbn [Z.ltb Z.compare orb].
  destruct ((size target <=? targetStart) || (length <=? 0)) eqn:E.
  - assert (length = 0) as ->
      by (apply orb_true_iff in E as [E|E]; apply Z.leb_le in E; lia).
    rewrite Z.min_l by lia. rewrite Z.add_0_r. change (Z.to_nat 0) with 0%nat.
    rewrite take_0. cbn [app]. rewrite take_drop. reflexivity.
  - rewrite !Z.sub_0_r.
    replace (size target - targetStart <? length) with false
      by (symmetry; apply Z.ltb_ge; lia).
    reflexivity.
Qed.

(** [copyFrom] with the source index 0. *)
Lemma copyFrom_over (b : Buffer) (targetIndex length : Z) (r : Binary) :
  0 <= targetIndex -> 0 <= length ->
  let padded := buffer r ++ replicate (Z.to_nat (targetIndex + length - size (buffer r))) 0 in
  let nb := Z.min length (size b) in
  BinaryReader.copyFrom b targetIndex 0 length r =
    Ok (tt, mkBinary (take (Z.to_nat targetIndex) padded ++ take (Z.to_nat nb) b
                      ++ drop (Z.to_nat (targetIndex + nb)) padded) (bytePosition r)).
Proof.
  intros Ht Hl padded nb.
  assert (0 <= size (buffer r)) as H0 by (unfold size; lia).
  assert (size padded = Z.max (size (buffer r)) (targetIndex + length)) as Sp
    by (subst padded; rewrite size_app; unfold size at 2; rewrite length_replicate; lia).
  unfold BinaryReader.copyFrom.
  destruct (size (buffer r) <? length + targetIndex) eqn:E;
    [apply Z.ltb_lt in E | apply Z.ltb_ge in E].
  - unfold bind, BinaryReader.lift.
    replace (size (buffer r) + (length + targetIndex - size (buffer r)))
      with (targetIndex + length) by lia.
    rewrite Buffer_copy_all by lia. fold padded.
    rewrite Buffer_copy_into by lia. reflexivity.
  - unfold bind, BinaryReader.lift.
    assert (padded = buffer r) as Ep.
    { subst padded. replace (Z.to_nat (targetIndex + length - size (buffer r))) with 0%nat by lia.
      apply app_nil_r. }
    rewrite Buffer_copy_into by lia. rewrite Ep. reflexivity.
Qed.

(** [X8] [copyFrom(buffer, targetIndex, 0, length)] leaves the cursor where it is
    and gives the reader a buffer of [max(size, targetIndex + length)]
    bytes: the old bytes, grown with zeros when needed, with the first
    [min(length, buffer.length)] bytes of the given buffer laid over them at
    [targetIndex]. *)
Theorem copyFrom_lays_over (b : Buffer) (targetIndex length : Z) (r : Binary) :
  0 <= targetIndex -> 0 <= length ->
  let padded := buffer r ++ replicate (Z.to_nat (targetIndex + length - size (buffer r))) 0 in
  let nb := Z.min length (size b) in
  BinaryReader.copyFrom b targetIndex 0 length r =
    Ok (tt, mkBinary (take (Z.to_nat targetIndex) padded ++ take (Z.to_nat nb) b
                      ++ drop (Z.to_nat (targetIndex + nb)) padded) (bytePosition r)) /\
  size padded = Z.max (size (buffer r)) (targetIndex + length).
Proof.
  intros Ht Hl padded nb. split; [apply copyFrom_over; assumption|].
  assert (0 <= size (buffer r)) as H0 by (unfold size; lia).
  subst padded. rewrite size_app. unfold size at 2. rewrite length_replicate. lia.
Qed.

(** The copy [unpack] makes of 3 decompressed bytes at offset 2 of a 4-byte
    file buffer. *)
Lemma copyFrom_lays_over_witness :
  BinaryReader.copyFrom [7; 8; 9] 2 0 3 (mkBinary [1; 2; 3; 4] 1) =
    Ok (tt, mkBinary [1; 2; 7; 8; 9] 1).
Proof.
  apply (proj1 (copyFrom_lays_over [7; 8; 9] 2 3 (mkBinary [1; 2; 3; 4] 1)
                  ltac:(lia) ltac:(lia))).
Defined.

(** ** The varint of a value that is negative as a 32-bit integer *)

Lemma sar_7_negative (v : Z) :
  - 2 ^ 31 <= v < 0 -> - 2 ^ 31 <= JS.sar v 7 < 0.
Proof.
  intros H. unfold JS.sar. rewrite ToInt32_small by lia. change (7 mod 32) with 7.
  rewrite Z.shiftr_div_pow2 by lia. change (2 ^ 7) with 128.
  pose proof (eq_refl : 2 ^ 31 = 2147483648) as P31.
  Z.div_mod_to_equations. lia.
Qed.

Lemma band_7F_range (v : Z) : 0 <= JS.band v 0x7F < 128.
Proof.
  unfold JS.band. change (JS.ToInt32 127) with (Z.ones 7).
  rewrite Z.land_ones by lia. change (2 ^ 7) with 128. apply Z.mod_pos_bound. lia.
Qed.

Lemma ToInt32_range (v : Z) : - 2 ^ 31 <= JS.ToInt32 v < 2 ^ 31.
Proof.
  unfold JS.ToInt32. pose proof (Z.mod_pos_bound (v + 2 ^ 31) (2 ^ 32) ltac:(lia)).
  pose proof (eq_refl : 2 ^ 31 = 2147483648) as P31.
  pose proof (eq_refl : 2 ^ 32 = 4294967296) as P32. lia.
Qed.

Lemma ToInt32_idem (v : Z) : JS.ToInt32 (JS.ToInt32 v) = JS.ToInt32 v.
Proof. apply ToInt32_small, ToInt32_range. Qed.

Lemma write7BitNumber_loop_ToInt32 (fuel : nat) (v : Z) (w : Binary) :
  BinaryWriter.write7BitNumber_loop fuel (JS.ToInt32 v) w =
  BinaryWriter.write7BitNumber_loop fuel v w.
Proof.
  destruct fuel as [|fuel]; [reflexivity|].
  cbn [BinaryWriter.write7BitNumber_loop]. unfold JS.band, JS.sar.
  rewrite ToInt32_idem. reflexivity.
Qed.

Lemma write7BitNumber_loop_negative (room : nat) :
  forall (fuel : nat) (v : Z) (w : Binary),
    - 2 ^ 31 <= v < 0 -> 0 <= bytePosition w ->
    size (buffer w) = bytePosition w + Z.of_nat room -> (room < fuel)%nat ->
    BinaryWriter.write7BitNumber_loop fuel v w =
      Throw (RangeErrorOffset (size (buffer w)) (size (buffer w))).
Proof.
  induction room as [|room IH]; intros fuel v w Hv Hp Hr Hf;
    (destruct fuel as [|fuel]; [lia|]);
    cbn [BinaryWriter.write7BitNumber_loop];
    pose proof (sar_7_negative v Hv) as Hs;
    pose proof (band_7F_range v) as Hb;
    (replace (JS.truthy (JS.sar v 7)) with true
       by (symmetry; unfold JS.truthy; apply negb_true_iff, Z.eqb_neq; lia));
    rewrite bor_80 by exact Hb; unfold Buffer_writeUInt8;
    (replace ((JS.band v 127 + 128 <? 0) || (255 <? JS.band v 127 + 128)) with false
       by (symmetry; apply orb_false_iff; split; apply Z.ltb_ge; lia)).
  - rewrite Buffer_get_None by lia. f_equal. f_equal. lia.
  - destruct (Buffer_get_Some (buffer w) (bytePosition w)) as [old ->]; [lia|].
    rewrite IH; cbn [buffer bytePosition]; rewrite ?size_Buffer_set; try lia.
    reflexivity.
Qed.

(** [X9] A value that is negative as a 32-bit integer (below 0, or from [2^31] up
    to [2^32]) is never written: its shifts never reach 0, so the loop fills
    every byte up to the end of the buffer and then [writeUInt8] throws. *)
Theorem write7BitNumber_negative_throws (value : Z) (w : Binary) :
  cursor_ok w -> JS.ToInt32 value < 0 ->
  let s := size (buffer (BinaryWriter.alloc 2 w)) in
  BinaryWriter.write7BitNumber value w = Throw (RangeErrorOffset s s).
Proof.
  intros Hw Hv s. unfold BinaryWriter.write7BitNumber.
  destruct (alloc_room 2 w Hw ltac:(lia)) as ([Hc0 Hc1] & _ & _ & _).
  rewrite <- write7BitNumber_loop_ToInt32.
  apply (write7BitNumber_loop_negative
           (Z.to_nat (size (buffer (BinaryWriter.alloc 2 w))
                      - bytePosition (BinaryWriter.alloc 2 w)))).
  - pose proof (ToInt32_range value). lia.
  - lia.
  - lia.
  - unfold size in *. lia.
Qed.

Lemma write7BitNumber_negative_throws_witness :
  BinaryWriter.write7BitNumber (-1) (BinaryWriter.new 0) = Throw (RangeErrorOffset 2 2).
Proof.
  apply (write7BitNumber_negative_throws (-1) (BinaryWriter.new 0) (cursor_ok_new 0)).
  reflexivity.
Defined.

(** ** A varint that does not end *)

Lemma band_7bit_high (v : Z) : 128 <= v <= 255 -> JS.truthy (JS.band v 0x80) = true.
Proof.
  intros H. replace v with (v - 128 + 128) by lia.
  rewrite band_80_high by lia. reflexivity.
Qed.

Lemma read7BitNumber_loop_unterminated (room : nat) :
  forall (fuel : nat) (acc bitsRead : Z) (r : Binary),
    0 <= bytePosition r ->
    size (buffer r) = bytePosition r + Z.of_nat room ->
    (forall i v, (Z.to_nat (bytePosition r) <= i)%nat -> buffer r !! i = Some v ->
                 128 <= v <= 255) ->
    (room < fuel)%nat ->
    BinaryReader.read7BitNumber_loop fuel acc bitsRead r =
      Throw (XnbError (BufferSeekOutOfBounds (size (buffer r) + 1) (size (buffer r)))).
Proof.
  induction room as [|room IH]; intros fuel acc bitsRead r Hp Hr Hhigh Hf;
    (destruct fuel as [|fuel]; [lia|]);
    cbn [BinaryReader.read7BitNumber_loop]; unfold bind.
  - rewrite readByte_eof by lia. f_equal. f_equal. f_equal. lia.
  - destruct (lookup_lt_is_Some_2 (buffer r) (Z.to_nat (bytePosition r))) as [v Hv];
      [unfold size in *; lia|].
    rewrite (readByte_ok r v Hp Hv).
    rewrite band_7bit_high by (apply (Hhigh _ _ (Nat.le_refl _) Hv)).
    apply (IH fuel _ _ (set_bytePosition (bytePosition r + 1) r));
      cbn [buffer bytePosition set_bytePosition]; try lia.
    intros i x Hi. apply Hhigh. lia.
Qed.

(** [X10] When every byte from the cursor to the end of the buffer has its high
    bit set (in particular when the cursor is at the end), [read7BitNumber]
    runs off the end and throws the seek error of the byte after the last. *)
Theorem read7BitNumber_unterminated (r : Binary) :
  cursor_ok r ->
  (forall i v, (Z.to_nat (bytePosition r) <= i)%nat -> buffer r !! i = Some v ->
               128 <= v <= 255) ->
  BinaryReader.read7BitNumber r =
    Throw (XnbError (BufferSeekOutOfBounds (size (buffer r) + 1) (size (buffer r)))).
Proof.
  intros [H0 H1] Hhigh. unfold BinaryReader.read7BitNumber.
  apply (read7BitNumber_loop_unterminated
           (Z.to_nat (size (buffer r) - bytePosition r))); try lia.
  - exact Hhigh.
  - unfold size in *. lia.
Qed.

Lemma read7BitNumber_unterminated_witness :
  BinaryReader.read7BitNumber (mkBinary [1; 0x80; 0xFF] 1) =
    Throw (XnbError (BufferSeekOutOfBounds 4 3)).
Proof.
  apply (read7BitNumber_unterminated (mkBinary [1; 0x80; 0xFF] 1)).
  - unfold cursor_ok, size. cbn. lia.
  - intros [|[|[|i]]] v Hi Hv; cbn in Hi, Hv; try lia; try discriminate;
      injection Hv as <-; lia.
Defined.

Lemma varint_roundtrip_with_room_witness :
  exists w',
    BinaryWriter.write7BitNumber 300 (BinaryWriter.new 8) = Ok (tt, w') /\
    written w' = [172; 2] /\
    BinaryReader.read7BitNumber (mkBinary (buffer w') 0) = Ok (300, mkBinary (buffer w') 2).
Proof.
  destruct (varint_roundtrip_with_room 300 (BinaryWriter.new 8)) as (w' & E & W & R & L).
  - vm_compute. split; [discriminate | reflexivity].
  - exact (cursor_ok_new 8).
  - vm_compute. reflexivity.
  - exists w'. split; [exact E|]. split; [exact W|].
    assert (bytePosition w' = 2) as P by (change (bytePosition (BinaryWriter.new 8)) with 0 in L;
      change (varint_length 300) with 2 in L; lia).
    rewrite P in R. exact R.
Defined.

(** ** Type.equals *)

Lemma XType_nested_ind (P : XType -> Prop) :
  (forall n subs a, Forall P subs -> P (mkType n subs a)) -> forall t, P t.
Proof.
  intros H. fix IH 1. intros [n subs a]. apply H.
  induction subs as [|s subs IHs]; constructor; [apply IH | exact IHs].
Qed.

Lemma name_eqb_refl (n : option string) : name_eqb n n = true.
Proof. destruct n; [apply String.eqb_refl | reflexivity]. Qed.

Lemma Type_equals_every (n : option string) (subs : list XType) (a : bool) (o : XType) :
  Type_equals (mkType n subs a) (Some o) =
    if name_eqb n (name o) then
      match equals_every o subs 0 with
      | Ok true => Ok (Bool.eqb a (isArray o))
      | r => r
      end
    else Ok false.
Proof. reflexivity. Qed.

Lemma Array_get_app_r {A : Type} (pre l : list A) (k : Z) :
  0 <= k -> Array_get (pre ++ l) (Z.of_nat (length pre) + k) = Array_get l k.
Proof.
  intros Hk. unfold Array_get.
  replace (Z.of_nat (length pre) + k <? 0) with false by (symmetry; apply Z.ltb_ge; lia).
  replace (k <? 0) with false by (symmetry; apply Z.ltb_ge; lia).
  rewrite lookup_app_r by lia. f_equal. lia.
Qed.

Lemma equals_every_same (o : XType) (subs : list XType) :
  Forall (fun t => Type_equals t (Some t) = Ok true) subs ->
  forall pre post, subtypes o = pre ++ subs ++ post ->
    equals_every o subs (Z.of_nat (length pre)) = Ok true.
Proof.
  induction 1 as [|t subs Ht _ IH]; intros pre post Ho; [reflexivity|].
  cbn [equals_every].
  replace (Array_get (subtypes o) (Z.of_nat (length pre))) with (Some t).
  - rewrite Ht.
    replace (Z.of_nat (length pre) + 1) with (Z.of_nat (length (pre ++ [t])))
      by (rewrite length_app; cbn [length]; lia).
    apply (IH (pre ++ [t]) post). rewrite Ho, <- app_assoc. reflexivity.
  - rewrite Ho. rewrite <- (Z.add_0_r (Z.of_nat (length pre))).
    rewrite Array_get_app_r by lia. reflexivity.
Qed.

Lemma Type_equals_refl (t : XType) : Type_equals t (Some t) = Ok true.
Proof.
  induction t as [n subs a IH] using XType_nested_ind.
  rewrite Type_equals_every. cbn [name isArray].
  rewrite name_eqb_refl.
  pose proof (equals_every_same (mkType n subs a) subs IH [] []) as E.
  change (Z.of_nat (length (@nil XType))) with 0 in E. cbn [app subtypes] in E. rewrite E by (rewrite app_nil_r; reflexivity).
  rewrite Bool.eqb_reflx. reflexivity.
Qed.

Lemma equals_every_missing (o : XType) (subs : list XType) (s : XType) (extra : list XType) :
  subtypes o = subs ->
  equals_every o (subs ++ s :: extra) 0 = Throw TypeErrorUndefined.
Proof.
  intros Ho.
  assert (forall l pre, subs = pre ++ l ->
            equals_every o (l ++ s :: extra) (Z.of_nat (length pre)) =
              Throw TypeErrorUndefined) as G.
  { induction l as [|t l IH]; intros pre E.
    - cbn [app equals_every]. rewrite Ho, E, app_nil_r.
      unfold Array_get. replace (Z.of_nat (length pre) <? 0) with false
        by (symmetry; apply Z.ltb_ge; lia).
      rewrite Nat2Z.id, lookup_ge_None_2 by lia.
      destruct s; reflexivity.
    - cbn [app equals_every].
      replace (Array_get (subtypes o) (Z.of_nat (length pre))) with (Some t).
      + rewrite Type_equals_refl.
        replace (Z.of_nat (length pre) + 1) with (Z.of_nat (length (pre ++ [t])))
          by (rewrite length_app; cbn [length]; lia).
        apply IH. rewrite E, <- app_assoc. reflexivity.
      + rewrite Ho, E. rewrite <- (Z.add_0_r (Z.of_nat (length pre))).
        rewrite Array_get_app_r by lia. reflexivity. }
  apply (G subs [] eq_refl).
Qed.

(** [X11] [equals] holds between a type and itself.  It looks only at the subtypes
    of [this]: a type equals one that has more subtypes after its own, but
    asked the other way round the comparison reads a subtype that is not
    there and ends in a [TypeError], as it does against [undefined]. *)
Theorem Type_equals_subtypes :
  (forall t, Type_equals t (Some t) = Ok true) /\
  (forall n subs extra a,
     Type_equals (mkType n subs a) (Some (mkType n (subs ++ extra) a)) = Ok true) /\
  (forall n subs s extra a,
     Type_equals (mkType n (subs ++ s :: extra) a) (Some (mkType n subs a)) =
       Throw TypeErrorUndefined) /\
  (forall t, Type_equals t None = Throw TypeErrorUndefined).
Proof.
  split; [exact Type_equals_refl|]. split; [|split].
  - intros n subs extra a. rewrite Type_equals_every. cbn [name isArray].
    rewrite name_eqb_refl.
    pose proof (equals_every_same (mkType n (subs ++ extra) a) subs
                  (proj2 (Forall_forall _ _) (fun t _ => Type_equals_refl t)) [] extra) as E.
    change (Z.of_nat (length (@nil XType))) with 0 in E. cbn [app subtypes] in E. rewrite E by reflexivity.
    rewrite Bool.eqb_reflx. reflexivity.
  - intros n subs s extra a. rewrite Type_equals_every. cbn [name isArray].
    rewrite name_eqb_refl. rewrite equals_every_missing by reflexivity. reflexivity.
  - intros [n subs a]. reflexivity.
Qed.

(** ** LzxReader: reading bits *)

Lemma land_small (a m n : Z) : 0 <= n -> 0 <= m < 2 ^ n -> 0 <= Z.land a m < 2 ^ n.
Proof.
  intros Hn Hm.
  assert (Z.land a m = Z.land a m mod 2 ^ n) as E.
  { rewrite <- Z.land_ones by lia. rewrite <- Z.land_assoc.
    rewrite (Z.land_ones m) by lia. rewrite (Z.mod_small m) by lia. reflexivity. }
  rewrite E. apply Z.mod_pos_bound. apply Z.pow_pos_nonneg; lia.
Qed.

Lemma mask_shift (peek f off : Z) :
  0 <= f -> 0 <= off ->
  Z.shiftr (Z.land peek ((2 ^ f - 1) * 2 ^ off)) off = (peek / 2 ^ off) mod 2 ^ f.
Proof.
  intros Hf Ho. rewrite Z.shiftr_land.
  rewrite <- Z.shiftl_mul_pow2 by lia. rewrite Z.shiftr_shiftl_l by lia.
  rewrite Z.sub_diag, Z.shiftl_0_r.
  replace (2 ^ f - 1) with (Z.ones f) by (rewrite Z.ones_equiv; lia).
  rewrite Z.land_ones by lia. rewrite Z.shiftr_div_pow2 by lia. reflexivity.
Qed.

(** The value the loop takes out of the peeked word. *)
Lemma frame_value (peek o f : Z) :
  0 <= peek < 2 ^ 16 -> 0 <= o -> 0 < f -> o + f <= 16 ->
  JS.sar (JS.band peek (JS.shl (2 ^ f - 1) (16 - o - f))) (16 - o - f) = word_bits peek o f.
Proof.
  intros Hp Ho Hf Hof. set (off := 16 - o - f).
  assert (0 <= off <= 15) as Hoff by (subst off; lia).
  pose proof (eq_refl : 2 ^ 16 = 65536) as P16.
  pose proof (eq_refl : 2 ^ 31 = 2147483648) as P31.
  assert (0 < 2 ^ f) as Pf by (apply Z.pow_pos_nonneg; lia).
  assert (0 < 2 ^ off) as Po by (apply Z.pow_pos_nonneg; lia).
  assert (2 ^ f * 2 ^ off <= 2 ^ 16) as Hm.
  { rewrite <- Z.pow_add_r by lia. apply Z.pow_le_mono_r; lia. }
  assert (0 <= (2 ^ f - 1) * 2 ^ off < 2 ^ 16) as Hmask by nia.
  assert (2 ^ f <= 2 ^ 16) as Hf16 by (apply Z.pow_le_mono_r; lia).
  unfold JS.sar, JS.band, JS.shl, word_bits. fold off.
  rewrite !(Z.mod_small off 32) by lia.
  rewrite (ToInt32_small (2 ^ f - 1)) by lia.
  rewrite Z.shiftl_mul_pow2 by lia.
  rewrite !(ToInt32_small ((2 ^ f - 1) * 2 ^ off)) by lia.
  rewrite (ToInt32_small peek) by lia.
  pose proof (land_small peek ((2 ^ f - 1) * 2 ^ off) 16 ltac:(lia) Hmask) as Hl.
  rewrite ToInt32_small by lia.
  apply mask_shift; lia.
Qed.

Lemma word_bits_range (w o n : Z) : 0 <= n -> 0 <= word_bits w o n < 2 ^ n.
Proof.
  intros Hn. unfold word_bits. apply Z.mod_pos_bound. apply Z.pow_pos_nonneg; lia.
Qed.

Lemma lor_disjoint (h k y : Z) :
  0 <= k -> 0 <= y < 2 ^ k -> Z.lor (h * 2 ^ k) y = h * 2 ^ k + y.
Proof.
  intros Hk Hy.
  assert (Z.land (h * 2 ^ k) y = 0) as L.
  { rewrite <- (Z.mod_small y (2 ^ k)) by lia. rewrite <- Z.land_ones by lia.
    rewrite (Z.land_comm y), Z.land_assoc, Z.land_ones by lia.
    rewrite Z.mod_mul by (apply Z.pow_nonzero; lia). apply Z.land_0_l. }
  pose proof (Z.add_lor_land (h * 2 ^ k) y) as E. lia.
Qed.

(** [read |= value << bitsLeft] where [read] holds the bits taken so far,
    above the [f] bits of [value] and the [bitsLeft] bits still to come. *)
Lemma bor_shl_below (h v f bl : Z) :
  0 <= bl -> 0 <= f -> 0 <= v < 2 ^ f -> 0 <= h ->
  (h + 1) * 2 ^ (f + bl) <= 2 ^ 31 ->
  JS.bor (h * 2 ^ (f + bl)) (JS.shl v bl) = (h * 2 ^ f + v) * 2 ^ bl.
Proof.
  intros Hbl Hf Hv Hh Hlt.
  assert (0 < 2 ^ bl) as Pbl by (apply Z.pow_pos_nonneg; lia).
  assert (0 < 2 ^ f) as Pf by (apply Z.pow_pos_nonneg; lia).
  assert (2 ^ (f + bl) = 2 ^ f * 2 ^ bl) as Ep by (apply Z.pow_add_r; lia).
  pose proof (eq_refl : 2 ^ 31 = 2147483648) as P31.
  pose proof (eq_refl : 2 ^ 32 = 4294967296) as P32.
  assert (2 ^ bl <= 2 ^ 31) as Hb31.
  { assert (1 <= (h + 1) * 2 ^ f) by nia. rewrite Ep in Hlt. nia. }
  assert (bl < 32) as Hbl32.
  { destruct (Z.lt_ge_cases bl 32) as [|G]; [assumption|].
    assert (2 ^ 32 <= 2 ^ bl) by (apply Z.pow_le_mono_r; lia). lia. }
  unfold JS.bor, JS.shl. rewrite (Z.mod_small bl 32) by lia.
  rewrite (ToInt32_small v) by nia.
  rewrite Z.shiftl_mul_pow2 by lia.
  rewrite !(ToInt32_small (v * 2 ^ bl)) by nia.
  rewrite (ToInt32_small (h * 2 ^ (f + bl))) by nia.
  rewrite lor_disjoint by nia. nia.
Qed.

Lemma set_bitOffset_in_frame (r : LzxReader.t) (o f : Z) :
  0 <= o -> 0 < f -> o + f <= 16 ->
  LzxReader.set_bitOffset (o + f) r =
    Ok (tt, LzxReader.mk
              (set_bytePosition (bytePosition (LzxReader.base r) + (if o + f =? 16 then 2 else 0))
                 (LzxReader.base r))
              (if o + f =? 16 then 0 else o + f)).
Proof.
  intros Ho Hf Hof. unfold LzxReader.set_bitOffset.
  replace (o + f <? 0) with false by (symmetry; apply Z.ltb_ge; lia).
  rewrite Z.abs_eq by lia. rewrite Z.rem_mod_nonneg by lia.
  destruct (o + f =? 16) eqn:E; [apply Z.eqb_eq in E | apply Z.eqb_neq in E].
  - rewrite E. reflexivity.
  - rewrite Z.mod_small by lia. rewrite Z.sub_diag. reflexivity.
Qed.

Lemma word_at_lookup (b : Buffer) (p w : Z) :
  word_at b p = Some w ->
  exists low high, 0 <= p /\ b !! Z.to_nat p = Some low /\
    b !! S (Z.to_nat p) = Some high /\ w = low + high * 256.
Proof.
  unfold word_at.
  destruct (Buffer_get b p) as [low|] eqn:E1; [|discriminate].
  destruct (Buffer_get b (p + 1)) as [high|] eqn:E2; [|discriminate].
  intros [= <-]. apply Buffer_get_lookup in E1 as [Hp E1].
  apply Buffer_get_lookup in E2 as [_ E2].
  replace (Z.to_nat (p + 1)) with (S (Z.to_nat p)) in E2 by lia.
  exists low, high. auto.
Qed.

Lemma word_at_range (b : Buffer) (p w : Z) :
  bytes b -> word_at b p = Some w -> 0 <= w < 2 ^ 16.
Proof.
  intros Hb Hw. destruct (word_at_lookup b p w Hw) as (low & high & _ & L & H & ->).
  unfold bytes in Hb. rewrite Forall_lookup in Hb.
  pose proof (Hb _ _ L). pose proof (Hb _ _ H).
  change (2 ^ 16) with 65536. lia.
Qed.

Lemma subarray_inside (b : Buffer) (p n : Z) :
  0 <= p -> 0 <= n -> p + n <= size b ->
  Buffer_subarray b p (p + n) = take (Z.to_nat n) (drop (Z.to_nat p) b).
Proof.
  intros Hp Hn Hs. unfold Buffer_subarray.
  replace (p <? 0) with false by (symmetry; apply Z.ltb_ge; lia).
  replace (p + n <? 0) with false by (symmetry; apply Z.ltb_ge; lia).
  rewrite !Z.min_l by lia. f_equal. lia.
Qed.

(** The two bytes [readLZXBits] peeks are the word at the cursor. *)
Lemma peek_word (r : LzxReader.t) (w : Z) :
  word_at (buffer (LzxReader.base r)) (bytePosition (LzxReader.base r)) = Some w ->
  BinaryReader._peek 2 (LzxReader.base r) =
    Ok (Buffer_subarray (buffer (LzxReader.base r)) (bytePosition (LzxReader.base r))
          (bytePosition (LzxReader.base r) + 2), LzxReader.base r) /\
  Buffer_readUInt16LE
    (Buffer_subarray (buffer (LzxReader.base r)) (bytePosition (LzxReader.base r))
       (bytePosition (LzxReader.base r) + 2)) = Ok w.
Proof.
  intros Hw. split; [reflexivity|].
  destruct (word_at_lookup _ _ _ Hw) as (low & high & Hp & L & H & ->).
  pose proof (lookup_lt_Some _ _ _ H) as Hlt.
  rewrite subarray_inside by (unfold size; lia).
  unfold Buffer_readUInt16LE, Buffer_get.
  cbn [Z.ltb Z.compare Z.to_nat Pos.to_nat Pos.iter_op].
  rewrite !lookup_take_lt by lia. rewrite !lookup_drop, Nat.add_0_r, Nat.add_1_r, L, H.
  reflexivity.
Qed.

Lemma readLZXBits_loop_step (fuel : nat) (n read w : Z) (r : LzxReader.t) :
  0 < n ->
  word_at (buffer (LzxReader.base r)) (bytePosition (LzxReader.base r)) = Some w ->
  LzxReader.readLZXBits_loop (S fuel) n read r =
    (let o := LzxReader._bitOffset r in
     let bitsInFrame := Z.min (Z.max n 0) (16 - o) in
     let offset := 16 - o - bitsInFrame in
     let value := JS.sar (JS.band w (JS.shl (2 ^ bitsInFrame - 1) offset)) offset in
     LzxReader.set_bitOffset (o + bitsInFrame) ;;;
     LzxReader.readLZXBits_loop fuel (n - bitsInFrame)
       (JS.bor read (JS.shl value (n - bitsInFrame)))) r.
Proof.
  intros Hn Hw. cbn [LzxReader.readLZXBits_loop].
  replace (0 <? n) with true by (symmetry; apply Z.ltb_lt; lia).
  destruct (peek_word r w Hw) as [P R].
  unfold bind at 1. unfold LzxReader.inherited at 1. rewrite P.
  unfold bind at 1. unfold LzxReader.lift, LzxReader.inherited, BinaryReader.lift.
  rewrite R. destruct r as [base o]. reflexivity.
Qed.

Lemma readLZXBits_loop_stream (k : nat) :
  forall (fuel : nat) (b : Buffer) (p o n h v : Z),
    bytes b -> 0 <= p -> 0 <= o < 16 -> 0 <= n -> 0 <= h ->
    (h + 1) * 2 ^ n <= 2 ^ 31 -> (Z.to_nat n < fuel)%nat ->
    stream_bits k b p o n = Some v ->
    LzxReader.readLZXBits_loop fuel n (h * 2 ^ n) (LzxReader.mk (mkBinary b p) o) =
      Ok (h * 2 ^ n + v,
          LzxReader.mk (mkBinary b (p + 2 * ((o + n) / 16))) ((o + n) mod 16)) /\
    0 <= v < 2 ^ n.
Proof.
  induction k as [|k IH]; intros fuel b p o n h v Hb Hp Ho Hn Hh Hlt Hf Hs;
    (destruct fuel as [|fuel]; [lia|]).
  - cbn [stream_bits] in Hs. destruct (n <=? 0) eqn:E; [|discriminate].
    apply Z.leb_le in E. assert (n = 0) as -> by lia. injection Hs as <-.
    cbn [LzxReader.readLZXBits_loop]. cbn [Z.ltb Z.compare]. unfold ret.
    rewrite Z.add_0_r, Z.div_small, Z.mod_small by lia.
    rewrite Z.mul_0_r, !Z.add_0_r. split; [reflexivity | cbn; lia].
  - cbn [stream_bits] in Hs. destruct (n <=? 0) eqn:E.
    + apply Z.leb_le in E. assert (n = 0) as -> by lia. injection Hs as <-.
      cbn [LzxReader.readLZXBits_loop]. cbn [Z.ltb Z.compare]. unfold ret.
      rewrite Z.add_0_r, Z.div_small, Z.mod_small by lia.
      rewrite Z.mul_0_r, !Z.add_0_r. split; [reflexivity | cbn; lia].
    + apply Z.leb_gt in E.
      destruct (word_at b p) as [w|] eqn:Hw; [|discriminate].
      pose proof (word_at_range b p w Hb Hw) as Hwr.
      rewrite (readLZXBits_loop_step fuel n _ w) by (cbn [LzxReader.base buffer bytePosition]; assumption).
      cbn [LzxReader._bitOffset]. cbv zeta.
      rewrite Z.max_l by lia.
      destruct (o + n <=? 16) eqn:E16; [apply Z.leb_le in E16 | apply Z.leb_gt in E16].
      * injection Hs as <-. rewrite Z.min_l by lia.
        rewrite frame_value by lia. rewrite Z.sub_diag.
        pose proof (word_bits_range w o n ltac:(lia)) as Hv.
        unfold bind. rewrite set_bitOffset_in_frame by lia.
        destruct fuel as [|fuel]; [lia|].
        cbn [LzxReader.readLZXBits_loop]. cbn [Z.ltb Z.compare]. unfold ret.
        replace (h * 2 ^ n) with (h * 2 ^ (n + 0)) by (f_equal; f_equal; lia).
        rewrite bor_shl_below by (rewrite ?Z.add_0_r; lia).
        rewrite Z.add_0_r. change (2 ^ 0) with 1. rewrite Z.mul_1_r.
        split; [|exact Hv]. f_equal. f_equal.
        unfold set_bytePosition. cbn [LzxReader.base buffer bytePosition].
        destruct (o + n =? 16) eqn:Q; [apply Z.eqb_eq in Q | apply Z.eqb_neq in Q].
        -- rewrite Q. reflexivity.
        -- rewrite Z.div_small, Z.mod_small by lia.
           replace (p + 2 * 0) with (p + 0) by lia. reflexivity.
      * destruct (stream_bits k b (p + 2) 0 (n - (16 - o))) as [rest|] eqn:Hr; [|discriminate].
        injection Hs as <-. rewrite Z.min_r by lia.
        rewrite frame_value by lia.
        pose proof (word_bits_range w o (16 - o) ltac:(lia)) as Hv.
        set (f := 16 - o) in *. set (x := word_bits w o f) in *.
        assert (0 < 2 ^ f) as Pf by (apply Z.pow_pos_nonneg; lia).
        assert (0 < 2 ^ (n - f)) as Pn by (apply Z.pow_pos_nonneg; lia).
        assert (2 ^ n = 2 ^ f * 2 ^ (n - f)) as En
          by (rewrite <- Z.pow_add_r by lia; f_equal; lia).
        unfold bind.
        replace (o + f) with (o + f) by reflexivity.
        rewrite set_bitOffset_in_frame by lia.
        replace (o + f =? 16) with true by (symmetry; apply Z.eqb_eq; lia).
        unfold set_bytePosition. cbn [LzxReader.base buffer bytePosition].
        replace (h * 2 ^ n) with (h * 2 ^ (f + (n - f))) by (f_equal; f_equal; lia).
        rewrite bor_shl_below; [|lia|lia|exact Hv|lia|].
        2:{ replace (f + (n - f)) with n by lia. exact Hlt. }
        destruct (IH fuel b (p + 2) 0 (n - f) (h * 2 ^ f + x) rest) as [R Hrest];
          [assumption | lia | lia | lia | nia | | lia | exact Hr |].
        { rewrite En in Hlt. nia. }
        rewrite R. split.
        -- f_equal. f_equal; [rewrite Z.pow_add_r by lia; nia|].
           f_equal; [f_equal|].
           ++ replace (o + n) with ((n - f) + 1 * 16) by lia.
              rewrite Z.div_add by lia. rewrite Z.add_0_l. lia.
           ++ replace (o + n) with ((n - f) + 1 * 16) by lia.
              rewrite Z.mod_add by lia. rewrite Z.add_0_l. reflexivity.
        -- rewrite En. nia.
Qed.
Lemma peek_no_word (b : Buffer) (p : Z) :
  0 <= p -> word_at b p = None ->
  exists s, Buffer_readUInt16LE (Buffer_subarray b p (p + 2)) = Throw (RangeErrorOffset 0 s).
Proof.
  intros Hp Hw.
  assert (size b <= p + 1) as Hs.
  { unfold word_at in Hw.
    destruct (Buffer_get b p) as [low|] eqn:E1.
    - destruct (Buffer_get b (p + 1)) as [high|] eqn:E2; [discriminate|].
      unfold Buffer_get in E2. replace (p + 1 <? 0) with false in E2
        by (symmetry; apply Z.ltb_ge; lia).
      apply lookup_ge_None in E2. unfold size. lia.
    - unfold Buffer_get in E1. replace (p <? 0) with false in E1
        by (symmetry; apply Z.ltb_ge; lia).
      apply lookup_ge_None in E1. unfold size. lia. }
  assert (length (Buffer_subarray b p (p + 2)) <= 1)%nat as Hl.
  { unfold Buffer_subarray.
    replace (p <? 0) with false by (symmetry; apply Z.ltb_ge; lia).
    replace (p + 2 <? 0) with false by (symmetry; apply Z.ltb_ge; lia).
    rewrite length_take. unfold size in *. lia. }
  unfold Buffer_readUInt16LE.
  assert (Buffer_get (Buffer_subarray b p (p + 2)) 1 = None) as G
    by (apply Buffer_get_None; unfold size; lia).
  rewrite G. destruct (Buffer_get _ 0); eexists; reflexivity.
Qed.

Lemma readLZXBits_loop_end_of_stream (k : nat) :
  forall (fuel : nat) (b : Buffer) (p o n read : Z),
    0 <= p -> 0 <= o < 16 -> o + n <= 16 * Z.of_nat k -> (Z.to_nat n < fuel)%nat ->
    stream_bits k b p o n = None ->
    exists s, LzxReader.readLZXBits_loop fuel n read (LzxReader.mk (mkBinary b p) o) =
                Throw (RangeErrorOffset 0 s).
Proof.
  induction k as [|k IH]; intros fuel b p o n read Hp Ho Hk Hf Hs;
    (destruct fuel as [|fuel]; [lia|]); cbn [stream_bits] in Hs;
    (destruct (n <=? 0) eqn:E; [discriminate|]); apply Z.leb_gt in E; [lia|].
  destruct (word_at b p) as [w|] eqn:Hw.
  - destruct (o + n <=? 16) eqn:E16; [discriminate|]. apply Z.leb_gt in E16.
    destruct (stream_bits k b (p + 2) 0 (n - (16 - o))) as [rest|] eqn:Hr; [discriminate|].
    rewrite (readLZXBits_loop_step fuel n _ w)
      by (cbn [LzxReader.base buffer bytePosition]; assumption).
    cbn [LzxReader._bitOffset]. cbv zeta.
    rewrite Z.max_l, Z.min_r by lia. unfold bind.
    rewrite set_bitOffset_in_frame by lia.
    replace (o + (16 - o) =? 16) with true by (symmetry; apply Z.eqb_eq; lia).
    unfold set_bytePosition. cbn [LzxReader.base buffer bytePosition].
    apply IH; try lia. exact Hr.
  - destruct (peek_no_word b p Hp Hw) as [s R]. exists s.
    cbn [LzxReader.readLZXBits_loop].
    replace (0 <? n) with true by (symmetry; apply Z.ltb_lt; lia).
    unfold bind at 1. unfold LzxReader.inherited at 1. unfold BinaryReader._peek.
    cbn [LzxReader.base buffer bytePosition].
    unfold bind at 1. unfold LzxReader.lift, LzxReader.inherited, BinaryReader.lift.
    rewrite R. reflexivity.
Qed.

(** [readLZXBits(n)] for up to 31 bits either returns with the reader on the
    same buffer, or throws Node's range error. *)
Lemma readLZXBits_outcome (b : Buffer) (p o n : Z) :
  bytes b -> 0 <= p -> 0 <= o < 16 -> 0 <= n <= 31 ->
  (exists v p' o', LzxReader.readLZXBits n (LzxReader.mk (mkBinary b p) o) =
                     Ok (v, LzxReader.mk (mkBinary b p') o')) \/
  (exists s, LzxReader.readLZXBits n (LzxReader.mk (mkBinary b p) o) =
               Throw (RangeErrorOffset 0 s)).
Proof.
  intros Hb Hp Ho Hn. unfold LzxReader.readLZXBits.
  destruct (stream_bits 3 b p o n) as [v|] eqn:Hs.
  - left. assert (2 ^ n <= 2 ^ 31) as Hpow by (apply Z.pow_le_mono_r; lia).
    destruct (readLZXBits_loop_stream 3 (S (Z.to_nat n)) b p o n 0 v) as [R Hv];
      try assumption; try lia.
    eauto.
  - right. apply (readLZXBits_loop_end_of_stream 3); try assumption; lia.
Qed.

(** [X12] [readLZXBits(n)] for up to 31 bits, on a reader whose cursor is at the
    byte [p] with [o] bits of the word there already taken: it returns the
    next [n] bits of the stream of little-endian 16-bit words, most
    significant bit first, and leaves the reader [o + n] bits further on,
    at a word start when the last word was used up.  When the buffer ends
    before the last word needed, it throws Node's range error for the word
    it could not peek. *)
Theorem readLZXBits_stream (b : Buffer) (p o n : Z) :
  bytes b -> 0 <= p -> 0 <= o < 16 -> 0 <= n <= 31 ->
  match stream_bits 3 b p o n with
  | Some v =>
      LzxReader.readLZXBits n (LzxReader.mk (mkBinary b p) o) =
        Ok (v, LzxReader.mk (mkBinary b (p + 2 * ((o + n) / 16))) ((o + n) mod 16)) /\
      0 <= v < 2 ^ n
  | None =>
      exists s, LzxReader.readLZXBits n (LzxReader.mk (mkBinary b p) o) =
                  Throw (RangeErrorOffset 0 s)
  end.
Proof.
  intros Hb Hp Ho Hn. unfold LzxReader.readLZXBits.
  destruct (stream_bits 3 b p o n) as [v|] eqn:Hs.
  - assert (2 ^ n <= 2 ^ 31) as Hpow by (apply Z.pow_le_mono_r; lia).
    destruct (readLZXBits_loop_stream 3 (S (Z.to_nat n)) b p o n 0 v) as [R Hv];
      try assumption; try lia.
    rewrite Z.mul_0_l, Z.add_0_l in R. auto.
  - apply (readLZXBits_loop_end_of_stream 3); try assumption; lia.
Qed.

(** Twelve bits of the words [0x1234 0x5678] from the seventh bit on: the
    last ten bits of the first word and the first two of the second. *)
Lemma readLZXBits_stream_witness :
  LzxReader.readLZXBits 12 (LzxReader.mk (mkBinary [0x34; 0x12; 0x78; 0x56] 0) 6) =
    Ok (0x8D1, LzxReader.mk (mkBinary [0x34; 0x12; 0x78; 0x56] 2) 2).
Proof.
  apply (readLZXBits_stream [0x34; 0x12; 0x78; 0x56] 0 6 12); try lia.
  repeat (apply List.Forall_cons; [lia|]). apply List.Forall_nil.
Defined.

(** [X13] [peekLZXBits] returns what [readLZXBits] returns and leaves the reader
    as it was; [align] moves a reader that is inside a word to the start of
    the next word and leaves one at a word start alone. *)
Theorem peekLZXBits_align (b : Buffer) (p o n : Z) :
  bytes b -> 0 <= p -> 0 <= o < 16 -> 0 <= n <= 31 ->
  let r := LzxReader.mk (mkBinary b p) o in
  LzxReader.peekLZXBits n r =
    match LzxReader.readLZXBits n r with
    | Ok (v, _) => Ok (v, r)
    | Throw e => Throw e
    | OutOfFuel => OutOfFuel
    end /\
  LzxReader.align r =
    Ok (tt, if 0 <? o then LzxReader.mk (mkBinary b (p + 2)) 0 else r).
Proof.
  intros Hb Hp Ho Hn r. split.
  - pose proof (readLZXBits_outcome b p o n Hb Hp Ho Hn) as S. fold r in S.
    unfold LzxReader.peekLZXBits, bind, LzxReader.bitOffset.
    cbn [LzxReader._bitOffset LzxReader.base bytePosition r].
    destruct S as [(v & p' & o' & ->)|[s ->]]; [|reflexivity].
    unfold LzxReader.set_bitOffset.
    replace (o <? 0) with false by (symmetry; apply Z.ltb_ge; lia).
    rewrite (Z.abs_eq o), (Z.rem_mod_nonneg o 16), (Z.mod_small o 16) by lia.
    rewrite Z.sub_diag. reflexivity.
  - unfold LzxReader.align, bind, LzxReader.bitOffset. subst r.
    cbv beta iota delta [LzxReader._bitOffset].
    destruct (0 <? o) eqn:E; [|reflexivity]. apply Z.ltb_lt in E.
    replace (o + (16 - o)) with 16 by lia. reflexivity.
Qed.

Lemma peekLZXBits_align_witness :
  let r := LzxReader.mk (mkBinary [0x34; 0x12; 0x78; 0x56] 0) 6 in
  LzxReader.peekLZXBits 12 r = Ok (0x8D1, r) /\
  LzxReader.align r = Ok (tt, LzxReader.mk (mkBinary [0x34; 0x12; 0x78; 0x56] 2) 0).
Proof.
  apply (peekLZXBits_align [0x34; 0x12; 0x78; 0x56] 0 6 12); try lia.
  repeat (apply List.Forall_cons; [lia|]). apply List.Forall_nil.
Defined.

(** ** parseHeader on any buffer *)

Lemma _read_eof (count : Z) (r : Binary) :
  0 <= bytePosition r -> 0 <= count -> size (buffer r) < bytePosition r + count ->
  BinaryReader._read count r =
    Throw (XnbError (BufferSeekOutOfBounds (bytePosition r + count) (size (buffer r)))).
Proof.
  intros H0 Hc H1. unfold BinaryReader._read, bind, BinaryReader._seek.
  replace (Z.max (bytePosition r + count) 0) with (bytePosition r + count) by lia.
  replace ((bytePosition r + count <? 0) || (size (buffer r) <? bytePosition r + count))
    with true; [reflexivity|].
  symmetry. apply orb_true_iff. right. apply Z.ltb_lt. lia.
Qed.

(** The flags byte as [parseHeader] reads it, checked on every byte. *)
Lemma parseHeader_flag_bits (f : Z) :
  0 <= f <= 255 ->
  negb (JS.band f Worker.HIDEF_MASK =? 0) = Z.testbit f 0 /\
  negb ((if JS.truthy (JS.band f Worker.COMPRESSED_LZX_MASK)
         then JS.band f Worker.COMPRESSED_LZX_MASK
         else JS.band f Worker.COMPRESSED_LZ4_MASK) =? 0) = Z.testbit f 7 || Z.testbit f 6 /\
  (if negb (JS.band f Worker.COMPRESSED_LZX_MASK =? 0) then Worker.COMPRESSED_LZX_MASK
   else if JS.truthy (JS.band f Worker.COMPRESSED_LZ4_MASK)
        then Worker.COMPRESSED_LZ4_MASK else 0) =
    (if Z.testbit f 7 then 0x80 else if Z.testbit f 6 then 0x40 else 0).
Proof.
  intros Hf.
  assert (forallb (fun f =>
            Bool.eqb (negb (JS.band f Worker.HIDEF_MASK =? 0)) (Z.testbit f 0)
            && Bool.eqb (negb ((if JS.truthy (JS.band f Worker.COMPRESSED_LZX_MASK)
                                then JS.band f Worker.COMPRESSED_LZX_MASK
                                else JS.band f Worker.COMPRESSED_LZ4_MASK) =? 0))
                        (Z.testbit f 7 || Z.testbit f 6)
            && ((if negb (JS.band f Worker.COMPRESSED_LZX_MASK =? 0)
                 then Worker.COMPRESSED_LZX_MASK
                 else if JS.truthy (JS.band f Worker.COMPRESSED_LZ4_MASK)
                      then Worker.COMPRESSED_LZ4_MASK else 0)
                =? (if Z.testbit f 7 then 0x80 else if Z.testbit f 6 then 0x40 else 0)))
          (seqZ 0 256) = true) as A by (vm_compute; reflexivity).
  rewrite forallb_forall in A.
  specialize (A f ltac:(apply list_elem_of_In, elem_of_seqZ; lia)).
  rewrite !andb_true_iff in A. destruct A as [[A1 A2] A3].
  apply Bool.eqb_prop in A1, A2. apply Z.eqb_eq in A3. auto.
Qed.

(** [X14] [parseHeader] accepts every buffer that holds the magic [XNB] and three
    more bytes, whatever the target letter and the version (it only logs a
    warning for the ones it does not know), and reads the flags byte bit by
    bit: bit 0 is HiDef, bit 7 is LZX, bit 6 is LZ4, and LZX wins when both
    compression bits are set.  The target letter comes back in lower case. *)
Theorem parseHeader_accepts (t v f : Z) (rest : Buffer) :
  0 <= f <= 255 ->
  Worker.parseHeader (BinaryReader.new ([88; 78; 66; t; v; f] ++ rest)) =
    Ok (Worker.mkHeader (toLowerCase (Buffer_toString1 t)) v (Z.testbit f 0)
          (Some (Z.testbit f 7 || Z.testbit f 6))
          (Some (if Z.testbit f 7 then Worker.COMPRESSED_LZX_MASK
                 else if Z.testbit f 6 then Worker.COMPRESSED_LZ4_MASK else 0)),
        mkBinary ([88; 78; 66; t; v; f] ++ rest) 6).
Proof.
  intros Hf. rewrite parseHeader_prefix.
  destruct (parseHeader_flag_bits f Hf) as (-> & -> & ->). reflexivity.
Qed.

(** The header of an LZX-compressed HiDef file for Windows, with the target
    letter in upper case. *)
Lemma parseHeader_accepts_witness :
  Worker.parseHeader (BinaryReader.new [88; 78; 66; 87; 5; 0x81; 0; 0]) =
    Ok (Worker.mkHeader "w" 5 true (Some true) (Some 0x80),
        mkBinary [88; 78; 66; 87; 5; 0x81; 0; 0] 6).
Proof. apply (parseHeader_accepts 87 5 0x81 [0; 0]). lia. Defined.

(** [X15] [parseHeader] rejects every other buffer: with the seek error when the
    buffer ends before the magic or before the flags byte, and with the
    invalid-magic error, which carries the three bytes found, when these are
    not [XNB]. *)
Theorem parseHeader_rejects (b : Buffer) :
  (size b < 3 ->
     Worker.parseHeader (BinaryReader.new b) =
       Throw (XnbError (BufferSeekOutOfBounds 3 (size b)))) /\
  (3 <= size b -> take 3 b <> [88; 78; 66] ->
     Worker.parseHeader (BinaryReader.new b) =
       Throw (XnbError (InvalidFileMagic (take 3 b)))) /\
  (3 <= size b < 6 -> take 3 b = [88; 78; 66] ->
     Worker.parseHeader (BinaryReader.new b) =
       Throw (XnbError (BufferSeekOutOfBounds (size b + 1) (size b)))).
Proof.
  assert (0 <= size b) as H0 by (unfold size; lia).
  split; [|split].
  - intros Hs. unfold Worker.parseHeader, bind, BinaryReader.new.
    rewrite _read_eof by (cbn [buffer bytePosition]; lia). reflexivity.
  - intros Hs Hm. unfold Worker.parseHeader, bind, BinaryReader.new.
    rewrite _read_ok by (cbn [buffer bytePosition]; lia).
    cbn [buffer bytePosition]. change (Z.to_nat 0) with 0%nat. rewrite drop_0.
    change (Z.to_nat 3) with 3%nat.
    rewrite bool_decide_eq_false_2 by exact Hm. reflexivity.
  - intros Hs Hm.
    destruct b as [|b0 [|b1 [|b2 tl]]]; try (unfold size in Hs; cbn in Hs; lia).
    cbn [take] in Hm. injection Hm as -> -> ->.
    destruct tl as [|t [|v [|f tl]]].
    + reflexivity.
    + reflexivity.
    + reflexivity.
    + unfold size in Hs. cbn in Hs. lia.
Qed.

Lemma parseHeader_rejects_witness :
  Worker.parseHeader (BinaryReader.new [80; 78; 71; 13; 10; 26]) =
    Throw (XnbError (InvalidFileMagic [80; 78; 71])).
Proof.
  apply (proj1 (proj2 (parseHeader_rejects [80; 78; 71; 13; 10; 26]))).
  - unfold size. cbn. lia.
  - discriminate.
Defined.

(** ** decompress: what the framing loop can end in *)

Lemma LzxReader_readByte_error (r : LzxReader.t) (e : Exception) :
  LzxReader.readByte r = Throw e -> e <> XnbError InvalidSizeInCompression.
Proof.
  unfold LzxReader.readByte, LzxReader.inherited, BinaryReader.readByte, bind,
    BinaryReader._read, bind, BinaryReader._seek, ret.
  destruct (_ || _); [intros [= <-]; discriminate|].
  unfold BinaryReader.lift, Buffer_readUInt8.
  destruct (Buffer_get _ 0); [discriminate|]. intros [= <-]. discriminate.
Qed.

Section FramingOutcome.
Context {Lzx : Type}.
Variable Lzx_16 : Lzx.
Variable Lzx_decompress : Lzx -> Z -> Z -> M LzxReader.t (list Z * Lzx).

(** The decoder returns or throws, leaves bytes in the buffer, and does not
    throw the invalid-size error of the framing loop itself. *)
Hypothesis decoder_total :
  forall lzx frameSize blockSize r, Lzx_decompress lzx frameSize blockSize r <> OutOfFuel.
Hypothesis decoder_bytes :
  forall lzx frameSize blockSize r frame lzx' r',
    bytes (buffer (LzxReader.base r)) ->
    Lzx_decompress lzx frameSize blockSize r = Ok ((frame, lzx'), r') ->
    bytes (buffer (LzxReader.base r')).
Hypothesis decoder_error :
  forall lzx frameSize blockSize r,
    Lzx_decompress lzx frameSize blockSize r <> Throw (XnbError InvalidSizeInCompression).

Lemma decompress_loop_sizes_valid (fuel : nat) :
  forall (compressedTodo pos : Z) (lzx : Lzx) (decompressed : list Z) (r : LzxReader.t),
    bytes (buffer (LzxReader.base r)) ->
    Decompress.decompress_loop Lzx_decompress fuel compressedTodo pos lzx decompressed r
      <> Throw (XnbError InvalidSizeInCompression).
Proof.
  induction fuel as [|fuel IH]; intros todo pos lzx out r Hb; [discriminate|].
  cbn [Decompress.decompress_loop].
  destruct (pos <? todo); [|discriminate].
  unfold bind at 1.
  destruct (LzxReader.readByte r) as [[flag r1]| |] eqn:E1; [| |discriminate].
  2:{ intros [= ->]. exact (LzxReader_readByte_error _ _ E1 eq_refl). }
  destruct (LzxReader_readByte_inv _ _ _ E1) as [B1 _].
  assert (bytes (buffer (LzxReader.base r1))) as Hb1 by (rewrite B1; exact Hb).
  assert (forall r0, bytes (buffer (LzxReader.base r0)) ->
            match LzxReader.readLZXInt16 r0 with
            | Ok (v, r') => bytes (buffer (LzxReader.base r')) /\ 0 <= v <= 0xFFFF
            | Throw e => e <> XnbError InvalidSizeInCompression
            | OutOfFuel => True
            end) as R16.
  { intros r0 Hb0. pose proof (readLZXInt16_inv r0 Hb0) as I.
    destruct (LzxReader.readLZXInt16 r0) as [[v r']|e|] eqn:E; [| |exact Logic.I].
    - destruct I as [B I]. rewrite B. auto.
    - unfold LzxReader.readLZXInt16, bind in E.
      destruct (LzxReader.readByte r0) as [[x ra]|ea|] eqn:Ea; [| |discriminate].
      + destruct (LzxReader.readByte ra) as [[y rb]|eb|] eqn:Eb; try discriminate.
        injection E as <-. exact (LzxReader_readByte_error _ _ Eb).
      + injection E as <-. exact (LzxReader_readByte_error _ _ Ea). }
  assert (forall fs bs hd r2,
            0 <= bs <= 0xFFFF -> 0 <= fs <= 0xFFFF -> bytes (buffer (LzxReader.base r2)) ->
            (if (bs =? 0) || (fs =? 0) then ret out
             else if (65536 <? bs) || (65536 <? fs)
                  then throw (XnbError InvalidSizeInCompression)
                  else bind (Lzx_decompress lzx fs bs)
                         (fun frame => let '(bytes0, lzx0) := frame in
                            Decompress.decompress_loop Lzx_decompress fuel todo
                              (pos + hd + bs) lzx0 (out ++ bytes0))) r2
            <> Throw (XnbError InvalidSizeInCompression)) as Tail.
  { intros fs bs hd r2 Hbs Hfs Hb2.
    destruct ((bs =? 0) || (fs =? 0)); [discriminate|].
    replace ((65536 <? bs) || (65536 <? fs)) with false
      by (symmetry; apply orb_false_iff; split; apply Z.ltb_ge; lia).
    unfold bind.
    destruct (Lzx_decompress lzx fs bs r2) as [[[frame lzx'] r3]|e|] eqn:Ed;
      [| |discriminate].
    - apply IH. exact (decoder_bytes _ _ _ _ _ _ _ Hb2 Ed).
    - intros [= ->]. exact (decoder_error _ _ _ _ Ed). }
  destruct (flag =? 255).
  - unfold bind.
    pose proof (R16 r1 Hb1) as I1.
    destruct (LzxReader.readLZXInt16 r1) as [[fs r2]|e|]; [| |discriminate].
    2:{ intros [= ->]. apply I1. reflexivity. }
    destruct I1 as [Hb2 Hfs].
    pose proof (R16 r2 Hb2) as I2.
    destruct (LzxReader.readLZXInt16 r2) as [[bs r3]|e|]; [| |discriminate].
    2:{ intros [= ->]. apply I2. reflexivity. }
    destruct I2 as [Hb3 Hbs]. unfold ret.
    apply (Tail fs bs 5 r3); assumption.
  - unfold bind, LzxReader.add_bytePosition.
    set (r1' := LzxReader.mk _ _).
    assert (bytes (buffer (LzxReader.base r1'))) as Hb1' by exact Hb1.
    pose proof (R16 r1' Hb1') as I2.
    destruct (LzxReader.readLZXInt16 r1') as [[bs r3]|e|]; [| |discriminate].
    2:{ intros [= ->]. apply I2. reflexivity. }
    destruct I2 as [Hb3 Hbs]. unfold ret.
    apply (Tail 32768 bs 2 r3); [assumption | lia | assumption].
Qed.

(** [X16] Over a buffer of bytes [decompress] always comes to an end, whenever
    the decoder does: it takes at most [compressedTodo] turns.  It never
    throws its invalid-size error, since a size read from two bytes is at
    most [0xFFFF].  With nothing to decompress it returns the empty buffer
    and leaves the reader alone. *)
Theorem decompress_outcomes (compressedTodo : Z) (r : LzxReader.t) :
  bytes (buffer (LzxReader.base r)) ->
  Decompress.decompress Lzx_16 Lzx_decompress compressedTodo r <> OutOfFuel /\
  Decompress.decompress Lzx_16 Lzx_decompress compressedTodo r <>
    Throw (XnbError InvalidSizeInCompression) /\
  (compressedTodo <= 0 ->
     Decompress.decompress Lzx_16 Lzx_decompress compressedTodo r = Ok ([], r)).
Proof.
  intros Hb. unfold Decompress.decompress, bind.
  pose proof (decompress_loop_total Lzx_decompress decoder_total decoder_bytes
                (S (Z.to_nat compressedTodo)) compressedTodo 0
                Lzx_16 [] r Hb ltac:(lia) ltac:(lia)) as T.
  pose proof (decompress_loop_sizes_valid (S (Z.to_nat compressedTodo)) compressedTodo 0
                Lzx_16 [] r Hb) as V.
  split; [|split].
  - destruct (Decompress.decompress_loop _ _ _ _ _ _ _) as [[d r']| |];
      [discriminate | discriminate | contradiction].
  - destruct (Decompress.decompress_loop _ _ _ _ _ _ _) as [[d r']|e|];
      [discriminate | | discriminate].
    intros [= ->]. apply V. reflexivity.
  - intros Hz. cbn [Decompress.decompress_loop].
    replace (0 <? compressedTodo) with false by (symmetry; apply Z.ltb_ge; lia).
    reflexivity.
Qed.

End FramingOutcome.

Lemma Lzx_stored_buffer (lzx : unit) (frameSize blockSize : Z) (r r' : LzxReader.t)
    (frame : list Z) (lzx' : unit) :
  Lzx_stored lzx frameSize blockSize r = Ok ((frame, lzx'), r') ->
  buffer (LzxReader.base r') = buffer (LzxReader.base r).
Proof.
  unfold Lzx_stored, bind, LzxReader.inherited, BinaryReader.readBytes,
    BinaryReader._read, bind, BinaryReader._seek, ret.
  destruct (_ || _); [discriminate|]. intros [= _ _ <-]. reflexivity.
Qed.

Lemma Lzx_stored_outcome (lzx : unit) (frameSize blockSize : Z) (r : LzxReader.t) :
  Lzx_stored lzx frameSize blockSize r <> OutOfFuel /\
  Lzx_stored lzx frameSize blockSize r <> Throw (XnbError InvalidSizeInCompression).
Proof.
  unfold Lzx_stored, bind, LzxReader.inherited, BinaryReader.readBytes,
    BinaryReader._read, bind, BinaryReader._seek, ret.
  destruct (_ || _); split; discriminate.
Qed.

(** The theorem with the stand-in decoder, on a stream of one frame. *)
Lemma decompress_outcomes_witness :
  let stream := [0xFF; 0x00; 0x02; 0x00; 0x03; 7; 8; 9] in
  Decompress.decompress tt Lzx_stored 8 (LzxReader.new stream) <> OutOfFuel /\
  Decompress.decompress tt Lzx_stored 8 (LzxReader.new stream) <>
    Throw (XnbError InvalidSizeInCompression).
Proof.
  intros stream.
  destruct (decompress_outcomes tt Lzx_stored
              (fun lzx fs bs r => proj1 (Lzx_stored_outcome lzx fs bs r))
              (fun lzx fs bs r frame lzx' r' Hb E =>
                 eq_ind_r bytes Hb (Lzx_stored_buffer lzx fs bs r r' frame lzx' E))
              (fun lzx fs bs r => proj2 (Lzx_stored_outcome lzx fs bs r))
              8 (LzxReader.new stream)) as (T & V & _).
  - repeat (apply List.Forall_cons; [lia|]). apply List.Forall_nil.
  - split; assumption.
Defined.

(** ** The outer LZX framing of a whole call *)

Lemma LzxReader_readByte_cut_off (r : LzxReader.t) (p : Z) :
  0 <= p -> Buffer_get (buffer (LzxReader.base r)) p = None ->
  exists e, LzxReader.readByte (Decompress.at_offset p r) = Throw e /\
            e <> XnbError InvalidSizeInCompression.
Proof.
  intros Hp Hg.
  assert (size (buffer (LzxReader.base r)) <= p) as Hs.
  { unfold Buffer_get in Hg.
    replace (p <? 0) with false in Hg by (symmetry; apply Z.ltb_ge; lia).
    apply lookup_ge_None in Hg. unfold size. lia. }
  unfold LzxReader.readByte, LzxReader.inherited, Decompress.at_offset.
  cbn [LzxReader.base].
  rewrite readByte_eof by (cbn [bytePosition buffer set_bytePosition]; lia).
  eexists. split; [reflexivity | discriminate].
Qed.

Lemma readLZXInt16_cut_off (r : LzxReader.t) (p : Z) :
  0 <= p -> Decompress.i16_swapped_at (buffer (LzxReader.base r)) p = None ->
  exists e, LzxReader.readLZXInt16 (Decompress.at_offset p r) = Throw e /\
            e <> XnbError InvalidSizeInCompression.
Proof.
  intros Hp. unfold Decompress.i16_swapped_at, LzxReader.readLZXInt16, bind.
  destruct (Buffer_get (buffer (LzxReader.base r)) p) as [lsB|] eqn:E1.
  - destruct (Buffer_get (buffer (LzxReader.base r)) (p + 1)) as [msB|] eqn:E2;
      [discriminate|]. intros _.
    rewrite (LzxReader_readByte_at r p lsB E1).
    destruct (LzxReader_readByte_cut_off r (p + 1) ltac:(lia) E2) as (e & -> & He).
    exists e. split; [reflexivity | exact He].
  - intros _.
    destruct (LzxReader_readByte_cut_off r p Hp E1) as (e & -> & He).
    exists e. split; [reflexivity | exact He].
Qed.

Section FramingRun.
Context {Lzx : Type}.
Variable Lzx_16 : Lzx.
Variable Lzx_decompress : Lzx -> Z -> Z -> M LzxReader.t (list Z * Lzx).

(** The decoder leaves bytes in the buffer and the cursor at or after the
    start of the buffer. *)
Hypothesis decoder_bytes :
  forall lzx frameSize blockSize r frame lzx' r',
    bytes (buffer (LzxReader.base r)) ->
    Lzx_decompress lzx frameSize blockSize r = Ok ((frame, lzx'), r') ->
    bytes (buffer (LzxReader.base r')).
Hypothesis decoder_cursor :
  forall lzx frameSize blockSize r frame lzx' r',
    0 <= bytePosition (LzxReader.base r) ->
    Lzx_decompress lzx frameSize blockSize r = Ok ((frame, lzx'), r') ->
    0 <= bytePosition (LzxReader.base r').

(** A turn of the loop where the buffer ends inside the frame header: the
    read that runs off the end throws. *)
Lemma decompress_loop_cut_off (fuel : nat) (compressedTodo pos : Z) (lzx : Lzx)
    (decompressed : list Z) (r : LzxReader.t) :
  bytes (buffer (LzxReader.base r)) -> 0 <= bytePosition (LzxReader.base r) ->
  pos < compressedTodo ->
  Decompress.frame_header_at (buffer (LzxReader.base r)) (bytePosition (LzxReader.base r))
    = None ->
  exists e,
    Decompress.decompress_loop Lzx_decompress (S fuel) compressedTodo pos lzx decompressed r
      = Throw e /\
    e <> XnbError InvalidSizeInCompression.
Proof.
  intros Hb Hp Hpos Hh. set (p := bytePosition (LzxReader.base r)) in *.
  cbn [Decompress.decompress_loop].
  replace (pos <? compressedTodo) with true by (symmetry; apply Z.ltb_lt; lia).
  assert (r = Decompress.at_offset p r) as Er by (destruct r as [[b q] o]; reflexivity).
  unfold Decompress.frame_header_at in Hh. unfold bind at 1.
  destruct (Buffer_get (buffer (LzxReader.base r)) p) as [flag|] eqn:Ef.
  - pose proof (LzxReader_readByte_at r p flag Ef) as R0. rewrite <- Er in R0.
    rewrite R0.
    destruct (flag =? 0xFF).
    + unfold bind.
      destruct (Decompress.i16_swapped_at (buffer (LzxReader.base r)) (p + 1))
        as [fs|] eqn:E1.
      * destruct (Decompress.i16_swapped_at (buffer (LzxReader.base r)) (p + 3))
          as [bs|] eqn:E2; [discriminate|].
        destruct (readLZXInt16_at r (p + 1) fs Hb E1) as [R1 _]. rewrite R1.
        replace (p + 1 + 2) with (p + 3) by lia.
        destruct (readLZXInt16_cut_off r (p + 3) ltac:(lia) E2) as (e & R2 & He).
        rewrite R2. exists e. split; [reflexivity | exact He].
      * destruct (readLZXInt16_cut_off r (p + 1) ltac:(lia) E1) as (e & R1 & He).
        rewrite R1. exists e. split; [reflexivity | exact He].
    + destruct (Decompress.i16_swapped_at (buffer (LzxReader.base r)) p) as [bs|] eqn:E1;
        [discriminate|].
      unfold bind, LzxReader.add_bytePosition.
      cbn [Decompress.at_offset LzxReader.base LzxReader._bitOffset bytePosition
           set_bytePosition buffer].
      replace (p + 1 + -1) with p by lia.
      change (LzxReader.mk
                (set_bytePosition p (set_bytePosition (p + 1) (LzxReader.base r)))
                (LzxReader._bitOffset r))
        with (Decompress.at_offset p r).
      destruct (readLZXInt16_cut_off r p Hp E1) as (e & R1 & He).
      rewrite R1. exists e. split; [reflexivity | exact He].
  - destruct (LzxReader_readByte_cut_off r p Hp Ef) as (e & R0 & He).
    rewrite <- Er in R0. rewrite R0. exists e. split; [reflexivity | exact He].
Qed.

(** The loop of the code and the loop of the description, turn by turn. *)
Lemma decompress_loop_frames (fuel : nat) :
  forall (compressedTodo pos : Z) (lzx : Lzx) (decompressed : list Z) (r : LzxReader.t),
    bytes (buffer (LzxReader.base r)) -> 0 <= bytePosition (LzxReader.base r) ->
    match Decompress.frames Lzx_decompress fuel compressedTodo pos lzx decompressed r with
    | Decompress.Output output r' =>
        Decompress.decompress_loop Lzx_decompress fuel compressedTodo pos lzx decompressed r
          = Ok (output, r')
    | Decompress.InvalidSize =>
        Decompress.decompress_loop Lzx_decompress fuel compressedTodo pos lzx decompressed r
          = Throw (XnbError InvalidSizeInCompression)
    | Decompress.HeaderCutOff =>
        exists e,
          Decompress.decompress_loop Lzx_decompress fuel compressedTodo pos lzx decompressed r
            = Throw e /\
          e <> XnbError InvalidSizeInCompression
    | Decompress.DecoderThrows e =>
        Decompress.decompress_loop Lzx_decompress fuel compressedTodo pos lzx decompressed r
          = Throw e
    | Decompress.Unfinished =>
        Decompress.decompress_loop Lzx_decompress fuel compressedTodo pos lzx decompressed r
          = OutOfFuel
    end.
Proof.
  induction fuel as [|fuel IH]; intros todo pos lzx out r Hb Hp; [reflexivity|].
  cbn [Decompress.frames].
  destruct (pos <? todo) eqn:Epos.
  - apply Z.ltb_lt in Epos. cbv zeta.
    destruct (Decompress.frame_header_at (buffer (LzxReader.base r))
                (bytePosition (LzxReader.base r))) as [[[fs bs] hd]|] eqn:Eh.
    + destruct (proj2 (decompress_loop_turn Lzx_decompress fuel todo pos lzx out r Hb)
                  fs bs hd Epos Eh) as [Hhd ->].
      destruct ((bs =? 0) || (fs =? 0)); [reflexivity|].
      destruct ((65536 <? bs) || (65536 <? fs)); [reflexivity|].
      destruct (Lzx_decompress lzx fs bs
                  (Decompress.at_offset (bytePosition (LzxReader.base r) + hd) r))
        as [[[frame lzx'] r']| |] eqn:Ed; [|reflexivity|reflexivity].
      assert (0 <= bytePosition (LzxReader.base
                (Decompress.at_offset (bytePosition (LzxReader.base r) + hd) r))) as Hp'
        by (cbn [Decompress.at_offset LzxReader.base bytePosition set_bytePosition];
            destruct Hhd as [->|[-> _]]; lia).
      apply IH.
      * exact (decoder_bytes _ _ _ (Decompress.at_offset _ r) _ _ _ Hb Ed).
      * exact (decoder_cursor _ _ _ _ _ _ _ Hp' Ed).
    + exact (decompress_loop_cut_off fuel todo pos lzx out r Hb Hp Epos Eh).
  - apply Z.ltb_ge in Epos.
    exact (proj1 (decompress_loop_turn Lzx_decompress fuel todo pos lzx out r Hb) Epos).
Qed.

(** On a buffer of bytes no size of a frame header exceeds [0xFFFF], so the
    loop of the description does not end on its size test. *)
Lemma frames_sizes_valid (turns : nat) :
  forall (compressed_todo pos : Z) (lzx : Lzx) (output : list Z) (r : LzxReader.t),
    bytes (buffer (LzxReader.base r)) ->
    Decompress.frames Lzx_decompress turns compressed_todo pos lzx output r
      <> Decompress.InvalidSize.
Proof.
  induction turns as [|turns IH]; intros todo pos lzx out r Hb; [discriminate|].
  cbn [Decompress.frames].
  destruct (pos <? todo); [|discriminate]. cbv zeta.
  destruct (Decompress.frame_header_at (buffer (LzxReader.base r))
              (bytePosition (LzxReader.base r))) as [[[fs bs] hd]|] eqn:Eh; [|discriminate].
  destruct (frame_header_at_sizes _ _ _ _ _ Hb Eh) as (_ & _ & ->).
  destruct ((bs =? 0) || (fs =? 0)); [discriminate|].
  destruct (Lzx_decompress lzx fs bs
              (Decompress.at_offset (bytePosition (LzxReader.base r) + hd) r))
    as [[[frame lzx'] r']| |] eqn:Ed; [|discriminate|discriminate].
  apply IH. exact (decoder_bytes _ _ _ (Decompress.at_offset _ r) _ _ _ Hb Ed).
Qed.

(** [C4] Every call [decompress(buffer, compressedTodo)], on a reader of a
    buffer of bytes, does what the framing loop of the description does from
    [pos = 0], with an empty output and the decoder [new Lzx(16)]: while
    [pos] is below [compressedTodo] it takes the frame header at the cursor
    (the flag [0xFF], the frame size and the block size, 5 bytes; or the
    block size alone with the frame size [0x8000], 2 bytes; sizes with their
    bytes swapped), ends the loop on a size 0, throws the invalid-size error
    on a size above [0x10000], and otherwise runs the decoder after the
    header, appends the frame and adds the header and the block size to
    [pos].  It returns the output of the loop as a buffer and leaves the
    reader where the loop stopped; it throws the invalid-size error, or the
    decoder's error, where the loop of the description fails so; and it
    throws another error when the buffer ends inside a frame header.  The
    size test is in the code as in the description, but a size made of two
    bytes is at most [0xFFFF]: on a buffer of bytes the loop never ends on
    it.  With a decoder that returns or throws, the turns that
    [compressedTodo] allows are enough. *)
Theorem decompress_framing (compressedTodo : Z) (r : LzxReader.t) :
  bytes (buffer (LzxReader.base r)) -> 0 <= bytePosition (LzxReader.base r) ->
  match Decompress.framed Lzx_16 Lzx_decompress compressedTodo r with
  | Decompress.Output output r' =>
      Decompress.decompress Lzx_16 Lzx_decompress compressedTodo r
        = Ok (Buffer_from output, r')
  | Decompress.InvalidSize =>
      Decompress.decompress Lzx_16 Lzx_decompress compressedTodo r
        = Throw (XnbError InvalidSizeInCompression)
  | Decompress.HeaderCutOff =>
      exists e,
        Decompress.decompress Lzx_16 Lzx_decompress compressedTodo r = Throw e /\
        e <> XnbError InvalidSizeInCompression
  | Decompress.DecoderThrows e =>
      Decompress.decompress Lzx_16 Lzx_decompress compressedTodo r = Throw e
  | Decompress.Unfinished =>
      Decompress.decompress Lzx_16 Lzx_decompress compressedTodo r = OutOfFuel
  end /\
  Decompress.framed Lzx_16 Lzx_decompress compressedTodo r <> Decompress.InvalidSize /\
  ((forall lzx frameSize blockSize r0,
      Lzx_decompress lzx frameSize blockSize r0 <> OutOfFuel) ->
   Decompress.framed Lzx_16 Lzx_decompress compressedTodo r <> Decompress.Unfinished).
Proof.
  intros Hb Hp.
  pose proof (decompress_loop_frames (S (Z.to_nat compressedTodo)) compressedTodo 0
                Lzx_16 [] r Hb Hp) as L.
  assert (match Decompress.framed Lzx_16 Lzx_decompress compressedTodo r with
          | Decompress.Output output r' =>
              Decompress.decompress Lzx_16 Lzx_decompress compressedTodo r
                = Ok (Buffer_from output, r')
          | Decompress.InvalidSize =>
              Decompress.decompress Lzx_16 Lzx_decompress compressedTodo r
                = Throw (XnbError InvalidSizeInCompression)
          | Decompress.HeaderCutOff =>
              exists e,
                Decompress.decompress Lzx_16 Lzx_decompress compressedTodo r = Throw e /\
                e <> XnbError InvalidSizeInCompression
          | Decompress.DecoderThrows e =>
              Decompress.decompress Lzx_16 Lzx_decompress compressedTodo r = Throw e
          | Decompress.Unfinished =>
              Decompress.decompress Lzx_16 Lzx_decompress compressedTodo r = OutOfFuel
          end) as A.
  { unfold Decompress.framed, Decompress.decompress, bind.
    destruct (Decompress.frames Lzx_decompress (S (Z.to_nat compressedTodo)) compressedTodo 0
                Lzx_16 [] r) as [output r'| | |e|].
    - rewrite L. reflexivity.
    - rewrite L. reflexivity.
    - destruct L as (e & -> & He). exists e. split; [reflexivity | exact He].
    - rewrite L. reflexivity.
    - rewrite L. reflexivity. }
  split; [exact A|]. split.
  - apply frames_sizes_valid. exact Hb.
  - intros Htotal E. rewrite E in A.
    exact (decompress_total Lzx_16 Lzx_decompress Htotal decoder_bytes compressedTodo r Hb A).
Qed.

End FramingRun.

Lemma Lzx_stored_cursor (lzx : unit) (frameSize blockSize : Z) (r r' : LzxReader.t)
    (frame : list Z) (lzx' : unit) :
  Lzx_stored lzx frameSize blockSize r = Ok ((frame, lzx'), r') ->
  0 <= bytePosition (LzxReader.base r').
Proof.
  unfold Lzx_stored, bind, LzxReader.inherited, BinaryReader.readBytes,
    BinaryReader._read, bind, BinaryReader._seek, ret.
  destruct (_ || _); [discriminate|]. intros [= _ _ <-].
  cbn [LzxReader.base bytePosition set_bytePosition]. lia.
Qed.

(** The theorem with the stand-in decoder, on the stream
    [FF 00 02 00 03 | 07 08 09 | 00 02 | 05 06]: a 5-byte header with frame
    size 2 and block size 3 and its block, then a 2-byte header with block
    size 2 and its block. *)
Lemma decompress_framing_witness :
  let stream := [0xFF; 0x00; 0x02; 0x00; 0x03; 7; 8; 9; 0x00; 0x02; 5; 6] in
  Decompress.decompress tt Lzx_stored 12 (LzxReader.new stream) =
    Ok ([7; 8; 9; 5; 6], Decompress.at_offset 12 (LzxReader.new stream)).
Proof.
  intros stream.
  apply (proj1 (decompress_framing tt Lzx_stored
                  (fun lzx fs bs r frame lzx' r' Hb E =>
                     eq_ind_r bytes Hb (Lzx_stored_buffer lzx fs bs r r' frame lzx' E))
                  (fun lzx fs bs r frame lzx' r' _ E =>
                     Lzx_stored_cursor lzx fs bs r r' frame lzx' E)
                  12 (LzxReader.new stream)
                  ltac:(repeat (apply List.Forall_cons; [lia|]); apply List.Forall_nil)
                  ltac:(cbn; lia))).
Defined.

(** ** Encodings: the basic reads and writes *)

Lemma emits_written (m : M BinaryWriter.t unit) (enc : Buffer) :
  (forall w, cursor_ok w ->
     exists w', m w = Ok (tt, w') /\ cursor_ok w' /\ written w' = written w ++ enc) ->
  emits m enc.
Proof. intros H. exact H. Qed.

Lemma emits_bind (m1 m2 : M BinaryWriter.t unit) (enc1 enc2 : Buffer) :
  emits m1 enc1 -> emits m2 enc2 -> emits (m1 ;;; m2) (enc1 ++ enc2).
Proof.
  intros H1 H2 w Hw. destruct (H1 w Hw) as (w1 & E1 & C1 & W1).
  destruct (H2 w1 C1) as (w2 & E2 & C2 & W2).
  exists w2. unfold bind. rewrite E1. split; [exact E2|]. split; [exact C2|].
  rewrite W2, W1, <- app_assoc. reflexivity.
Qed.

Lemma emits_ret : emits (ret tt) [].
Proof.
  intros w Hw. exists w. split; [reflexivity|]. split; [exact Hw|].
  rewrite app_nil_r. reflexivity.
Qed.

Lemma decodes_bind {A B : Type} (m : M BinaryReader.t A) (k : A -> M BinaryReader.t B)
    (enc1 enc2 : Buffer) (v : A) (u : B) :
  decodes m enc1 v -> decodes (k v) enc2 u -> decodes (x <- m ;; k x) (enc1 ++ enc2) u.
Proof.
  intros H1 H2 pre post. unfold bind.
  rewrite <- (app_assoc enc1 enc2 post). rewrite (H1 pre (enc2 ++ post)).
  pose proof (H2 (pre ++ enc1) post) as E.
  rewrite <- !app_assoc in E. rewrite size_app in E. rewrite E.
  rewrite size_app. f_equal. f_equal. f_equal. lia.
Qed.

Lemma decodes_ret {A : Type} (v : A) : decodes (ret v) [] v.
Proof.
  intros pre post. unfold ret. cbn [app]. f_equal. f_equal. f_equal.
  unfold size. cbn [length]. lia.
Qed.

Lemma decodes__read (enc : Buffer) : decodes (BinaryReader._read (size enc)) enc enc.
Proof.
  intros pre post. rewrite _read_ok; cbn [buffer bytePosition]; unfold size; try lia.
  - rewrite !Nat2Z.id. rewrite drop_app_length, take_app_length. reflexivity.
  - rewrite !length_app. lia.
Qed.

Lemma decodes_readByte (v : Z) : decodes BinaryReader.readByte [v] v.
Proof.
  intros pre post. rewrite (readByte_ok _ v); cbn [buffer bytePosition]; unfold size.
  - reflexivity.
  - lia.
  - rewrite Nat2Z.id. apply list_lookup_middle. reflexivity.
Qed.

Lemma decodes_readBoolean (v : bool) :
  decodes BinaryReader.readBoolean [if v then 1 else 0] v.
Proof.
  unfold BinaryReader.readBoolean.
  replace [if v then 1 else 0] with ([if v then 1 else 0] ++ []) by apply app_nil_r.
  eapply decodes_bind; [apply decodes_readByte|].
  destruct v; apply decodes_ret.
Qed.

Lemma Buffer_readUInt32LE_bytes (v : Z) :
  Buffer_readUInt32LE (bytesLE32 v) =
    Ok (v mod 256 + (v / 2 ^ 8) mod 256 * 2 ^ 8 + (v / 2 ^ 16) mod 256 * 2 ^ 16
        + (v / 2 ^ 24) mod 256 * 2 ^ 24).
Proof. reflexivity. Qed.

Lemma Buffer_readInt32LE_bytes (v : Z) :
  Buffer_readInt32LE (bytesLE32 v) =
    Ok (v mod 256 + (v / 2 ^ 8) mod 256 * 2 ^ 8 + (v / 2 ^ 16) mod 256 * 2 ^ 16
        + JS.shl ((v / 2 ^ 24) mod 256) 24).
Proof. reflexivity. Qed.

Lemma decodes_readUInt32 (v : Z) :
  0 <= v < 2 ^ 32 -> decodes BinaryReader.readUInt32 (bytesLE32 v) v.
Proof.
  intros Hv pre post. unfold BinaryReader.readUInt32, bind.
  change 4 with (size (bytesLE32 v)). rewrite (decodes__read (bytesLE32 v) pre post).
  rewrite Buffer_readUInt32LE_bytes, bytesLE32_value by exact Hv. reflexivity.
Qed.

Lemma decodes_readInt32 (v : Z) :
  - 2 ^ 31 <= v < 2 ^ 31 -> decodes BinaryReader.readInt32 (bytesLE32 (v mod 2 ^ 32)) v.
Proof.
  intros Hv pre post. unfold BinaryReader.readInt32, bind.
  change 4 with (size (bytesLE32 (v mod 2 ^ 32))).
  rewrite (decodes__read (bytesLE32 (v mod 2 ^ 32)) pre post).
  assert (0 <= v mod 2 ^ 32 < 2 ^ 32) as Hm by (apply Z.mod_pos_bound; lia).
  rewrite Buffer_readInt32LE_bytes, int32_of_bytes by exact Hm.
  unfold JS.ToInt32 at 1. rewrite Zplus_mod_idemp_l.
  pose proof (eq_refl : 2 ^ 31 = 2147483648) as P31.
  pose proof (eq_refl : 2 ^ 32 = 4294967296) as P32.
  rewrite Z.mod_small by lia.
  replace (v + 2 ^ 31 - 2 ^ 31) with v by lia. reflexivity.
Qed.

Lemma emits_writeByte (v : Z) : 0 <= v <= 255 -> emits (BinaryWriter.writeByte v) [v].
Proof. intros Hv w Hw. exact (writeByte_written v w Hw Hv). Qed.

Lemma emits_writeBoolean (v : bool) :
  emits (BinaryWriter.writeBoolean v) [if v then 1 else 0].
Proof. apply emits_writeByte. destruct v; lia. Qed.

Lemma emits_writeBytes (b : Buffer) : emits (BinaryWriter.writeBytes b) b.
Proof. intros w Hw. exact (writeBytes_written b w Hw). Qed.

Lemma emits_writeUInt32 (v : Z) :
  0 <= v < 2 ^ 32 -> emits (BinaryWriter.writeUInt32 v) (bytesLE32 v).
Proof. intros Hv w Hw. exact (writeUInt32_written v w Hw Hv). Qed.

Lemma emits_writeInt32 (v : Z) :
  - 2 ^ 31 <= v < 2 ^ 31 -> emits (BinaryWriter.writeInt32 v) (bytesLE32 (v mod 2 ^ 32)).
Proof. intros Hv w Hw. exact (writeInt32_written v w Hw Hv). Qed.

(** *** The varint *)

Lemma varint_S (k : nat) (n : Z) :
  varint (S k) n =
    if n / 128 =? 0 then [n mod 128] else (n mod 128 + 128) :: varint k (n / 128).
Proof. reflexivity. Qed.

Lemma varint_enough (k : nat) :
  forall n, 0 <= n < 128 ^ Z.of_nat (S k) ->
    (0 < length (varint (S k) n) <= S k)%nat /\
    n < 128 ^ Z.of_nat (length (varint (S k) n)) /\
    varint (length (varint (S k) n)) n = varint (S k) n.
Proof.
  induction k as [|k IH]; intros n Hn; rewrite !(varint_S _ n);
    destruct (n / 128 =? 0) eqn:E.
  - cbn [length]. rewrite varint_S, E. apply Z.eqb_eq in E.
    apply Z.div_small_iff in E; [|lia]. split; [lia|]. split; [|reflexivity].
    change (128 ^ Z.of_nat 1) with 128. lia.
  - apply Z.eqb_neq in E. exfalso. apply E. apply Z.div_small.
    change (128 ^ Z.of_nat 1) with 128 in Hn. lia.
  - cbn [length]. rewrite varint_S, E. apply Z.eqb_eq in E.
    apply Z.div_small_iff in E; [|lia]. split; [lia|]. split; [|reflexivity].
    change (128 ^ Z.of_nat 1) with 128. lia.
  - apply Z.eqb_neq in E.
    assert (0 <= n / 128 < 128 ^ Z.of_nat (S k)) as Hq.
    { split; [apply Z.div_pos; lia|]. apply Z.div_lt_upper_bound; [lia|].
      rewrite <- Z.pow_succ_r by lia.
      replace (Z.succ (Z.of_nat (S k))) with (Z.of_nat (S (S k))) by lia. lia. }
    destruct (IH (n / 128) Hq) as (Hl & Hb & Hv).
    cbn [length]. split; [lia|]. split.
    + replace (Z.of_nat (S (length (varint (S k) (n / 128)))))
        with (Z.succ (Z.of_nat (length (varint (S k) (n / 128))))) by lia.
      rewrite Z.pow_succ_r by lia.
      pose proof (Z.div_mod n 128 ltac:(lia)).
      pose proof (Z.mod_pos_bound n 128 ltac:(lia)). lia.
    + rewrite varint_S.
      replace (n / 128 =? 0) with false by (symmetry; apply Z.eqb_neq; exact E).
      rewrite Hv. reflexivity.
Qed.

Lemma decodes_read7BitNumber (n : Z) :
  0 <= n < 2 ^ 31 -> decodes BinaryReader.read7BitNumber (varint 5 n) n.
Proof.
  intros Hn pre post.
  pose proof (eq_refl : 2 ^ 31 = 2147483648) as P31.
  destruct (varint_enough 4 n) as (Hl & Hb & Hv);
    [change (128 ^ Z.of_nat 5) with 34359738368; lia|].
  destruct (length (varint 5 n)) as [|k] eqn:El; [lia|].
  unfold BinaryReader.read7BitNumber. cbn [buffer].
  pose proof (read7BitNumber_loop_varint k
                (S (S (length (pre ++ varint 5 n ++ post)))) n 0 0
                (mkBinary (pre ++ varint 5 n ++ post) (size pre)) pre post) as R.
  cbn [buffer bytePosition] in R. rewrite Z.mul_0_r in R.
  change (2 ^ 0) with 1 in R. rewrite Z.mul_1_r, Z.add_0_l in R.
  rewrite Hv in R. rewrite R.
  - unfold size. reflexivity.
  - lia.
  - lia.
  - lia.
  - lia.
  - lia.
  - reflexivity.
  - reflexivity.
  - rewrite !length_app. lia.
Qed.

Lemma varint_2 (n : Z) : 0 <= n < 2 ^ 14 -> varint 2 n = varint 5 n.
Proof.
  intros Hn. cbn [varint]. destruct (n / 128 =? 0); [reflexivity|].
  replace (n / 128 / 128 =? 0) with true; [reflexivity|].
  symmetry. apply Z.eqb_eq. apply Z.div_small.
  split; [apply Z.div_pos; lia|]. apply Z.div_lt_upper_bound; [lia|].
  change (2 ^ 14) with 16384 in Hn. lia.
Qed.

(** Below [2^14] the two bytes [write7BitNumber] reserves are enough in any
    writer. *)
Lemma emits_write7BitNumber (n : Z) :
  0 <= n < 2 ^ 14 -> emits (BinaryWriter.write7BitNumber n) (varint 5 n).
Proof.
  intros Hn w Hw. unfold BinaryWriter.write7BitNumber.
  destruct (alloc_room 2 w Hw ltac:(lia)) as (Hc & Hwr & Hp & Hroom).
  pose proof (eq_refl : 2 ^ 31 = 2147483648) as P31.
  pose proof (eq_refl : 2 ^ 14 = 16384) as P14.
  assert (n < 128 ^ Z.of_nat 2) as H2 by (change (128 ^ Z.of_nat 2) with 16384; lia).
  assert (bytePosition (BinaryWriter.alloc 2 w) + Z.of_nat 2
          <= size (buffer (BinaryWriter.alloc 2 w))) as Hr by lia.
  destruct (write7BitNumber_loop_varint 1 (S (length (buffer (BinaryWriter.alloc 2 w)))) n
              (BinaryWriter.alloc 2 w) ltac:(lia) H2 ltac:(destruct Hc; unfold size in *; lia)
              Hc Hr) as (w' & E & C & W & _).
  exists w'. split; [exact E|]. split; [exact C|].
  rewrite W, Hwr, varint_2 by lia. reflexivity.
Qed.

(** ** Strings: ASCII *)

Lemma byte_of_ascii_range (c : ascii) : 0 <= byte_of_ascii c <= 255.
Proof.
  unfold byte_of_ascii. pose proof (N_ascii_bounded c) as H. lia.
Qed.

Lemma ascii_of_byte_of_ascii (c : ascii) : ascii_of_byte (byte_of_ascii c) = c.
Proof. unfold ascii_of_byte, byte_of_ascii. rewrite N2Z.id. apply ascii_N_embedding. Qed.

Lemma string_of_bytes_encode (s : string) : string_of_bytes (TextEncoder_encode s) = s.
Proof.
  unfold string_of_bytes, TextEncoder_encode. rewrite map_map.
  rewrite (map_ext _ (fun c => c)) by (intros; apply ascii_of_byte_of_ascii).
  rewrite map_id. apply string_of_list_ascii_of_string.
Qed.

Lemma encode_bytes (s : string) : Forall (fun b => 0 <= b <= 255) (TextEncoder_encode s).
Proof.
  unfold TextEncoder_encode. apply Forall_map, Forall_forall.
  intros c _. apply byte_of_ascii_range.
Qed.

Section AsciiBytes.
Variable l : Buffer.
Hypothesis Hlow : Forall (fun b => 0 <= b <= 255) l.
Hypothesis Hascii : Forall (fun b => b < 128) l.

Lemma utf8_decode_ascii : utf8_decode Idle l = l.
Proof.
  induction l as [|b l' IH]; [reflexivity|].
  inversion Hlow; subst. inversion Hascii; subst.
  cbn [utf8_decode]. unfold utf8_start.
  replace (b <? 128) with true by (symmetry; apply Z.ltb_lt; lia).
  cbn [app]. rewrite IH by assumption. reflexivity.
Qed.

Lemma units_ascii :
  foldr (fun b n => (if (b <? 0x80) || (0xC0 <=? b) then 1 else 0)
                    + (if 0xF0 <=? b then 1 else 0) + n) 0 l = size l.
Proof.
  induction l as [|b l' IH]; [reflexivity|].
  inversion Hlow; subst. inversion Hascii; subst.
  cbn [foldr]. rewrite IH by assumption.
  replace (b <? 128) with true by (symmetry; apply Z.ltb_lt; lia).
  replace (240 <=? b) with false by (symmetry; apply Z.leb_gt; lia).
  unfold size. cbn [orb length]. lia.
Qed.

Lemma utf8_chars_ascii : utf8_chars l = map (fun b => [b]) l.
Proof.
  induction l as [|b l' IH]; [reflexivity|].
  inversion Hlow; subst. inversion Hascii; subst.
  cbn [utf8_chars map]. destruct l' as [|c l'']; [reflexivity|].
  inversion H4; subst.
  replace (is_continuation c) with false
    by (symmetry; unfold is_continuation; apply andb_false_iff; left; apply Z.leb_gt; lia).
  rewrite IH by assumption. reflexivity.
Qed.

End AsciiBytes.

Lemma utf8_fit_singletons (l : Buffer) (room : Z) :
  size l <= room -> utf8_fit (map (fun b => [b]) l) room = l.
Proof.
  revert room. induction l as [|b l IH]; intros room Hr; [reflexivity|].
  cbn [map utf8_fit]. unfold size in *. cbn [length] in *.
  replace (Z.of_nat 1 <=? room) with true by (symmetry; apply Z.leb_le; lia).
  cbn [app]. rewrite IH by lia. reflexivity.
Qed.

Lemma String_length_ascii (s : string) : ascii_only s -> String_length s = size (TextEncoder_encode s).
Proof. intros H. apply units_ascii; [apply encode_bytes | exact H]. Qed.

Lemma Buffer_toString_ascii (s : string) :
  ascii_only s -> Buffer_toString (TextEncoder_encode s) = s.
Proof.
  intros H. unfold Buffer_toString.
  rewrite utf8_decode_ascii by (try apply encode_bytes; exact H).
  apply string_of_bytes_encode.
Qed.

(** For a string of ASCII characters, [buf.write] with room for it is
    [buf.set] of its bytes. *)
Lemma Buffer_write_ascii (b : Buffer) (s : string) (offset : Z) :
  ascii_only s -> 0 <= offset -> offset + size (TextEncoder_encode s) <= size b ->
  Buffer_write b s offset = Buffer_setArray b (TextEncoder_encode s) offset.
Proof.
  intros Ha H0 Hr. unfold Buffer_write, Buffer_setArray.
  replace ((offset <? 0) || (size b <? offset)) with false
    by (symmetry; apply orb_false_iff; split; apply Z.ltb_ge; unfold size in *; lia).
  replace ((offset <? 0) || (size b <? offset + size (TextEncoder_encode s))) with false
    by (symmetry; apply orb_false_iff; split; apply Z.ltb_ge; lia).
  rewrite utf8_chars_ascii by (try apply encode_bytes; exact Ha).
  rewrite utf8_fit_singletons by lia. reflexivity.
Qed.

Lemma emits_writeChars (s : string) :
  ascii_only s -> emits (BinaryWriterStrings.writeChars s) (TextEncoder_encode s).
Proof.
  intros Ha w Hw.
  destruct (writeBytes_written (TextEncoder_encode s) w Hw) as (w' & E & C & W).
  exists w'. split; [|auto]. rewrite <- E.
  unfold BinaryWriterStrings.writeChars, BinaryWriter.writeBytes.
  rewrite String_length_ascii by exact Ha.
  destruct (alloc_room (size (TextEncoder_encode s)) w Hw ltac:(unfold size; lia))
    as ([Hc0 Hc1] & _ & Hp & Hroom).
  rewrite Buffer_write_ascii by (try exact Ha; lia). reflexivity.
Qed.

Lemma emits_writeString (s : string) :
  ascii_only s -> size (TextEncoder_encode s) < 2 ^ 14 ->
  emits (BinaryWriterStrings.writeString s)
    (varint 5 (size (TextEncoder_encode s)) ++ TextEncoder_encode s).
Proof.
  intros Ha Hl. unfold BinaryWriterStrings.writeString.
  apply emits_bind.
  - rewrite String_length_ascii by exact Ha.
    apply emits_write7BitNumber. unfold size in *. lia.
  - exact (emits_writeChars s Ha).
Qed.

Lemma decodes_readString (s : string) :
  ascii_only s -> size (TextEncoder_encode s) < 2 ^ 31 ->
  decodes BinaryReaderStrings.readString
    (varint 5 (size (TextEncoder_encode s)) ++ TextEncoder_encode s) s.
Proof.
  intros Ha Hl. unfold BinaryReaderStrings.readString.
  eapply decodes_bind; [apply decodes_read7BitNumber; unfold size in *; lia|].
  rewrite <- (app_nil_r (TextEncoder_encode s)) at 2.
  eapply decodes_bind; [apply decodes__read|].
  rewrite Buffer_toString_ascii by exact Ha. apply decodes_ret.
Qed.

Lemma decodes_readChars (s : string) :
  ascii_only s ->
  decodes (BinaryReaderStrings.readChars (size (TextEncoder_encode s)))
    (TextEncoder_encode s) s.
Proof.
  intros Ha. unfold BinaryReaderStrings.readChars.
  rewrite <- (app_nil_r (TextEncoder_encode s)) at 2.
  eapply decodes_bind; [apply decodes__read|].
  rewrite Buffer_toString_ascii by exact Ha. apply decodes_ret.
Qed.

(** [X17] A string of ASCII characters shorter than [2^14] is written by
    [writeString] as its length in a varint followed by its bytes, in any
    writer, and [readString] reads it back from these bytes; [writeChars]
    writes the bytes alone and [readChars] of as many bytes reads them back.
    A character outside ASCII breaks this: the length that is written and
    the room that is reserved count UTF-16 code units, not bytes, so ['é']
    is written as a length of 1 followed by two bytes, of which the cursor
    passes one, and is read back as the replacement character. *)
Theorem string_write_read :
  (forall s, ascii_only s -> size (TextEncoder_encode s) < 2 ^ 14 ->
     emits (BinaryWriterStrings.writeString s)
       (varint 5 (size (TextEncoder_encode s)) ++ TextEncoder_encode s) /\
     decodes BinaryReaderStrings.readString
       (varint 5 (size (TextEncoder_encode s)) ++ TextEncoder_encode s) s) /\
  (forall s, ascii_only s ->
     emits (BinaryWriterStrings.writeChars s) (TextEncoder_encode s) /\
     decodes (BinaryReaderStrings.readChars (size (TextEncoder_encode s)))
       (TextEncoder_encode s) s) /\
  (let e := string_of_bytes [0xC3; 0xA9] in
   BinaryWriterStrings.writeString e (BinaryWriter.new 0) =
     Ok (tt, mkBinary [1; 0xC3; 0xA9] 2) /\
   BinaryReaderStrings.readString (BinaryReader.new [1; 0xC3; 0xA9]) =
     Ok (string_of_bytes [0xEF; 0xBF; 0xBD], mkBinary [1; 0xC3; 0xA9] 2)).
Proof.
  split; [|split].
  - intros s Ha Hl. split; [exact (emits_writeString s Ha Hl)|].
    apply decodes_readString; [exact Ha|].
    pose proof (eq_refl : 2 ^ 14 = 16384). pose proof (eq_refl : 2 ^ 31 = 2147483648). lia.
  - intros s Ha. split; [exact (emits_writeChars s Ha) | exact (decodes_readChars s Ha)].
  - split; vm_compute; reflexivity.
Qed.

(** The theorem on the name of a reader. *)
Lemma string_write_read_witness :
  exists w',
    BinaryWriterStrings.writeString "SFD.Content.ItemsContentTypeReader"%string (BinaryWriter.new 0) =
      Ok (tt, w') /\
    written w' = written (BinaryWriter.new 0)
                 ++ varint 5 34 ++ TextEncoder_encode "SFD.Content.ItemsContentTypeReader"%string.
Proof.
  destruct (proj1 (proj1 string_write_read "SFD.Content.ItemsContentTypeReader"%string
                     ltac:(unfold ascii_only; vm_compute;
                           repeat (apply List.Forall_cons; [reflexivity|]); apply List.Forall_nil)
                     ltac:(vm_compute; reflexivity))
              (BinaryWriter.new 0) (cursor_ok_new 0)) as (w' & E & _ & W).
  exists w'. split; [exact E | exact W].
Defined.

(** ** Encodings of values that can be refused *)

Lemma emits_ok_bind (m1 : M BinaryWriter.t unit) (m2 : M BinaryWriter.t (unit + Failure))
    (enc1 enc2 : Buffer) :
  emits m1 enc1 -> emits_ok m2 enc2 -> emits_ok (m1 ;;; m2) (enc1 ++ enc2).
Proof.
  intros H1 H2 w Hw. destruct (H1 w Hw) as (w1 & E1 & C1 & W1).
  destruct (H2 w1 C1) as (w2 & E2 & C2 & W2).
  exists w2. unfold bind. rewrite E1. split; [exact E2|]. split; [exact C2|].
  rewrite W2, W1, <- app_assoc. reflexivity.
Qed.

Lemma emits_ok_ret : emits_ok (ret (inl tt)) [].
Proof.
  intros w Hw. exists w. split; [reflexivity|]. split; [exact Hw|].
  rewrite app_nil_r. reflexivity.
Qed.

Lemma reads_bind {A B : Type} (m : M BinaryReader.t A) (k : A -> M BinaryReader.t B)
    (enc1 enc2 : Buffer) (v : A) (u : B) :
  decodes m enc1 v -> reads (k v) enc2 u -> reads (x <- m ;; k x) (enc1 ++ enc2) u.
Proof.
  intros H1 H2 pre. unfold bind. rewrite (H1 pre enc2).
  destruct (H2 (pre ++ enc1)) as (r' & E).
  rewrite <- app_assoc, size_app in E. exists r'. exact E.
Qed.

Lemma decodes_bind_last {A B : Type} (m : M BinaryReader.t A) (k : A -> M BinaryReader.t B)
    (enc : Buffer) (v : A) (u : B) :
  decodes m enc v -> decodes (k v) [] u -> decodes (x <- m ;; k x) enc u.
Proof.
  intros H1 H2. rewrite <- (app_nil_r enc). eapply decodes_bind; eassumption.
Qed.

Lemma decodes_reads {A : Type} (m : M BinaryReader.t A) (enc post : Buffer) (v : A) :
  decodes m enc v -> reads m (enc ++ post) v.
Proof. intros H pre. eexists. apply H. Qed.

(** A value decoded from the bytes a writer has just written. *)
Lemma decodes_written {A : Type} (m : M BinaryReader.t A) (enc post : Buffer) (v : A)
    (w w' : Binary) :
  cursor_ok w -> cursor_ok w' -> written w' = written w ++ enc ++ post ->
  decodes m enc v ->
  m (mkBinary (buffer w') (bytePosition w)) =
    Ok (v, mkBinary (buffer w') (bytePosition w + size enc)).
Proof.
  intros Hw Hw' W D.
  assert (buffer w' = written w ++ enc ++ post ++ drop (Z.to_nat (bytePosition w')) (buffer w'))
    as B.
  { pose proof (take_drop (Z.to_nat (bytePosition w')) (buffer w')) as TD.
    fold (written w') in TD. rewrite W in TD. rewrite <- !app_assoc in TD.
    symmetry. exact TD. }
  assert (bytePosition w = size (written w)) as P.
  { unfold written, size. rewrite length_take. unfold cursor_ok, size in Hw. lia. }
  rewrite B, P. apply D.
Qed.

(** ** SoundEffectReader: what is written and what is read *)

Lemma SoundEffect_writeTo_emits (c : SoundEffect.t) :
  0 <= SoundEffect.formatSize c < 2 ^ 32 -> 0 <= SoundEffect.dataSize c < 2 ^ 32 ->
  emits_ok (SoundEffect.writeTo c)
    (bytesLE32 (SoundEffect.formatSize c) ++ SoundEffect.format c
     ++ bytesLE32 (SoundEffect.dataSize c) ++ SoundEffect.data c ++ replicate 12 0).
Proof.
  intros Hf Hd. unfold SoundEffect.writeTo.
  assert (- 2 ^ 31 <= 0 < 2 ^ 31) as Z0 by (split; [discriminate | reflexivity]).
  apply emits_ok_bind; [apply emits_writeUInt32; exact Hf|].
  apply emits_ok_bind; [apply emits_writeBytes|].
  apply emits_ok_bind; [apply emits_writeUInt32; exact Hd|].
  apply emits_ok_bind; [apply emits_writeBytes|].
  change (replicate 12 0) with
    (bytesLE32 (0 mod 2 ^ 32) ++ bytesLE32 (0 mod 2 ^ 32) ++ bytesLE32 (0 mod 2 ^ 32) ++ []).
  apply emits_ok_bind; [apply emits_writeInt32; exact Z0|].
  apply emits_ok_bind; [apply emits_writeInt32; exact Z0|].
  apply emits_ok_bind; [apply emits_writeInt32; exact Z0|].
  apply emits_ok_ret.
Qed.

Lemma SoundEffect_readFrom_decodes (c : SoundEffect.t) :
  SoundEffect.formatSize c = size (SoundEffect.format c) ->
  SoundEffect.dataSize c = size (SoundEffect.data c) ->
  size (SoundEffect.format c) < 2 ^ 32 -> size (SoundEffect.data c) < 2 ^ 32 ->
  decodes SoundEffect.readFrom
    (bytesLE32 (SoundEffect.formatSize c) ++ SoundEffect.format c
     ++ bytesLE32 (SoundEffect.dataSize c) ++ SoundEffect.data c)
    (if SoundEffect.formatSize c =? 18 then inl c else inr AudioFormatNotSupported).
Proof.
  intros Ef Ed Hf Hd. destruct c as [fs f ds d].
  cbn [SoundEffect.formatSize SoundEffect.format SoundEffect.dataSize SoundEffect.data] in *.
  assert (0 <= size f /\ 0 <= size d) as [Pf Pd] by (unfold size; lia).
  unfold SoundEffect.readFrom.
  eapply decodes_bind; [apply decodes_readUInt32; lia|].
  eapply decodes_bind; [rewrite Ef; apply decodes__read|].
  eapply decodes_bind; [apply decodes_readUInt32; lia|].
  eapply decodes_bind_last; [rewrite Ed; apply decodes__read|].
  destruct (fs =? 18); apply decodes_ret.
Qed.

(** [X18] What [SoundEffectReader.writeTo] writes for a sound effect whose two
    sizes are the lengths of its two arrays is the format size, the format,
    the data size, the data and twelve zero bytes; [readFrom] reads the
    sound effect back from these bytes when the format size is 18, throws
    the format error for every other format size (after it has read format
    and data), and in both cases leaves the twelve bytes unread. *)
Theorem SoundEffect_write_read (c : SoundEffect.t) (w : Binary) :
  cursor_ok w ->
  SoundEffect.formatSize c = size (SoundEffect.format c) ->
  SoundEffect.dataSize c = size (SoundEffect.data c) ->
  size (SoundEffect.format c) < 2 ^ 32 -> size (SoundEffect.data c) < 2 ^ 32 ->
  exists w',
    SoundEffect.writeTo c w = Ok (inl tt, w') /\
    cursor_ok w' /\
    written w' =
      written w ++ bytesLE32 (SoundEffect.formatSize c) ++ SoundEffect.format c
      ++ bytesLE32 (SoundEffect.dataSize c) ++ SoundEffect.data c ++ replicate 12 0 /\
    SoundEffect.readFrom (mkBinary (buffer w') (bytePosition w)) =
      Ok (if SoundEffect.formatSize c =? 18 then inl c else inr AudioFormatNotSupported,
          mkBinary (buffer w') (bytePosition w' - 12)).
Proof.
  intros Hw Ef Ed Hf Hd.
  assert (0 <= size (SoundEffect.format c) /\ 0 <= size (SoundEffect.data c)) as [Pf Pd]
    by (unfold size; lia).
  destruct (SoundEffect_writeTo_emits c ltac:(lia) ltac:(lia) w Hw) as (w' & E & C & W).
  exists w'. split; [exact E|]. split; [exact C|]. split; [exact W|].
  pose proof (SoundEffect_readFrom_decodes c Ef Ed Hf Hd) as D.
  assert (written w' =
          written w ++ (bytesLE32 (SoundEffect.formatSize c) ++ SoundEffect.format c
                        ++ bytesLE32 (SoundEffect.dataSize c) ++ SoundEffect.data c)
          ++ replicate 12 0) as W'
    by (rewrite W, <- !app_assoc; reflexivity).
  rewrite (decodes_written _ _ _ _ w w' Hw C W' D).
  f_equal. f_equal. f_equal.
  destruct (written_chunk w w' _ Hw C W) as [P _].
  rewrite P. rewrite !size_app. change (size (replicate 12 0)) with 12. lia.
Qed.

Lemma SoundEffect_write_read_witness :
  let c := SoundEffect.mk 18 (replicate 18 7) 3 [1; 2; 3] in
  exists w',
    SoundEffect.writeTo c (BinaryWriter.new 0) = Ok (inl tt, w') /\
    written w' = [18; 0; 0; 0] ++ replicate 18 7 ++ [3; 0; 0; 0] ++ [1; 2; 3]
                 ++ replicate 12 0 /\
    SoundEffect.readFrom (mkBinary (buffer w') 0) = Ok (inl c, mkBinary (buffer w') 29).
Proof.
  intros c.
  destruct (SoundEffect_write_read c (BinaryWriter.new 0)) as (w' & E & C & W & R).
  - apply cursor_ok_new.
  - reflexivity.
  - reflexivity.
  - reflexivity.
  - reflexivity.
  - exists w'. split; [exact E|]. split; [exact W|].
    assert (bytePosition w' = 41) as P.
    { destruct (written_chunk _ _ _ (cursor_ok_new 0) C W) as [P _]. exact P. }
    rewrite P in R. exact R.
Defined.

(** ** ReaderManager: the index written and the reader it selects *)

Lemma varint_5_small (n : Z) : 0 <= n < 128 -> varint 5 n = [n].
Proof.
  intros Hn. cbn [varint]. rewrite Z.div_small, Z.mod_small by lia. reflexivity.
Qed.

Lemma Type_equals_flat (n : option string) (a : bool) (other : XType) :
  Type_equals (mkType n [] a) (Some other) =
    Ok (name_eqb n (name other) && Bool.eqb a (isArray other)).
Proof. cbn. destruct (name_eqb n (name other)); reflexivity. Qed.

Section Dispatch.
Context {Reader Content Read : Type}.
Context {RC : ReaderClass Reader Read} {WC : WriterClass Reader Content}.

Lemma readFrom_selects (_readers : list Reader) (i : nat) (rd : Reader)
    (expect : option Reader) (r r1 : Binary) :
  _readers !! i = Some rd -> expected rd expect ->
  BinaryReader.read7BitNumber r = Ok (Z.of_nat i + 1, r1) ->
  ReaderManager.readFrom _readers expect r = reader_readFrom rd _readers r1.
Proof.
  intros Hi He Hn. unfold ReaderManager.readFrom, bind. rewrite Hn.
  pose proof (lookup_lt_Some _ _ _ Hi) as Hl.
  replace (Z.of_nat (length _readers) <=? Z.of_nat i + 1 - 1) with false
    by (symmetry; apply Z.leb_gt; lia).
  replace (Array_get _readers (Z.of_nat i + 1 - 1)) with (Some rd).
  2:{ unfold Array_get. replace (Z.of_nat i + 1 - 1 <? 0) with false
        by (symmetry; apply Z.ltb_ge; lia).
      replace (Z.to_nat (Z.of_nat i + 1 - 1)) with i by lia. symmetry. exact Hi. }
  destruct expect as [e|]; [|reflexivity].
  cbn [expected] in He. unfold ReaderManager._readerIs, BinaryReader.lift.
  rewrite He. reflexivity.
Qed.

Lemma readFrom_decodes (_readers : list Reader) (i : nat) (rd : Reader)
    (expect : option Reader) (enc : Buffer) (v : Read) :
  _readers !! i = Some rd -> Z.of_nat i + 1 < 2 ^ 31 -> expected rd expect ->
  decodes (reader_readFrom rd _readers) enc v ->
  decodes (ReaderManager.readFrom _readers expect) (varint 5 (Z.of_nat i + 1) ++ enc) v.
Proof.
  intros Hi Hb He D pre post.
  pose proof (decodes_read7BitNumber (Z.of_nat i + 1) ltac:(lia) pre (enc ++ post)) as N.
  rewrite <- app_assoc.
  rewrite (readFrom_selects _readers i rd expect _ _ Hi He N).
  pose proof (D (pre ++ varint 5 (Z.of_nat i + 1)) post) as E.
  rewrite <- !app_assoc, size_app in E. rewrite E.
  rewrite size_app. f_equal. f_equal. f_equal. lia.
Qed.

Lemma readFrom_reads (_readers : list Reader) (i : nat) (rd : Reader)
    (expect : option Reader) (enc : Buffer) (v : Read) :
  _readers !! i = Some rd -> Z.of_nat i + 1 < 2 ^ 31 -> expected rd expect ->
  reads (reader_readFrom rd _readers) enc v ->
  reads (ReaderManager.readFrom _readers expect) (varint 5 (Z.of_nat i + 1) ++ enc) v.
Proof.
  intros Hi Hb He D pre.
  pose proof (decodes_read7BitNumber (Z.of_nat i + 1) ltac:(lia) pre enc) as N.
  rewrite (readFrom_selects _readers i rd expect _ _ Hi He N).
  destruct (D (pre ++ varint 5 (Z.of_nat i + 1))) as (r' & E).
  rewrite <- !app_assoc, size_app in E. exists r'. exact E.
Qed.

Lemma writeTo_emits (rd : Reader) (rest : list Reader) (c : Content) (enc : Buffer) :
  emits_ok (reader_writeTo rd (rd :: rest) c) enc ->
  emits_ok (ReaderManagerWriting.writeTo (rd :: rest) c) ([1] ++ enc).
Proof.
  intros H. unfold ReaderManagerWriting.writeTo.
  apply emits_ok_bind; [|exact H].
  rewrite <- (varint_5_small 1) by lia. apply emits_write7BitNumber.
  split; [lia | reflexivity].
Qed.

(** The index [findIndex] returns: the first reader of a type equal to
    [type], or [-1]. *)
Lemma findIndex_found (type : XType) (l : list Reader) (i : nat) (rd : Reader) (o : Z) :
  l !! i = Some rd ->
  Type_equals type (Some (reader_type rd)) = Ok true ->
  (forall j rj, (j < i)%nat -> l !! j = Some rj ->
     Type_equals type (Some (reader_type rj)) = Ok false) ->
  ReaderManagerWriting.findIndex type l o = Ok (o + Z.of_nat i).
Proof.
  revert i o. induction l as [|x l IH]; intros i o Hi Ht Hj.
  - rewrite lookup_nil in Hi. discriminate.
  - destruct i as [|i].
    + cbn in Hi. injection Hi as ->. cbn [ReaderManagerWriting.findIndex].
      rewrite Ht. f_equal. lia.
    + cbn [ReaderManagerWriting.findIndex].
      rewrite (Hj 0%nat x) by (first [lia | reflexivity]).
      rewrite (IH i (o + 1)).
      * f_equal. lia.
      * exact Hi.
      * exact Ht.
      * intros j rj Hlt Hl. apply (Hj (S j) rj); [lia | exact Hl].
Qed.

Lemma findIndex_missing (type : XType) (l : list Reader) (o : Z) :
  (forall j rj, l !! j = Some rj ->
     Type_equals type (Some (reader_type rj)) = Ok false) ->
  ReaderManagerWriting.findIndex type l o = Ok (-1).
Proof.
  revert o. induction l as [|x l IH]; intros o Hj; [reflexivity|].
  cbn [ReaderManagerWriting.findIndex].
  rewrite (Hj 0%nat x) by reflexivity.
  apply IH. intros j rj Hl. apply (Hj (S j) rj). exact Hl.
Qed.

(** [X19] [writeTo] writes the index 1 and then the content with the first
    reader of the manager; [readFrom] reads an index [i + 1] and then the
    content with the reader at position [i], after the test against
    [expect].  So when the first reader's [writeTo] emits [enc ++ tail] and
    its [readFrom] decodes [enc], the manager's [writeTo] emits
    [1 :: enc ++ tail] and its [readFrom] decodes [1 :: enc]. *)
Theorem ReaderManager_write_read (rd : Reader) (rest : list Reader)
    (expect : option Reader) (c : Content) (v : Read) (enc tail : Buffer) :
  expected rd expect ->
  emits_ok (reader_writeTo rd (rd :: rest) c) (enc ++ tail) ->
  decodes (reader_readFrom rd (rd :: rest)) enc v ->
  emits_ok (ReaderManagerWriting.writeTo (rd :: rest) c) ([1] ++ enc ++ tail) /\
  decodes (ReaderManager.readFrom (rd :: rest) expect) ([1] ++ enc) v /\
  (forall (i : nat) (rd' : Reader) (enc' : Buffer) (v' : Read),
     (rd :: rest) !! i = Some rd' -> Z.of_nat i + 1 < 2 ^ 31 -> expected rd' expect ->
     decodes (reader_readFrom rd' (rd :: rest)) enc' v' ->
     decodes (ReaderManager.readFrom (rd :: rest) expect)
       (varint 5 (Z.of_nat i + 1) ++ enc') v').
Proof.
  intros He Hw Hr. split; [apply writeTo_emits; exact Hw|]. split.
  - apply (readFrom_decodes (rd :: rest) 0 rd expect enc v); try assumption.
    + reflexivity.
    + reflexivity.
  - intros i rd' enc' v' Hi Hb He' D. apply (readFrom_decodes _ i rd'); assumption.
Qed.

(** [X20] [writeIndex] writes one more than the position of the first reader
    of the manager whose type equals the given reader's, and the byte 0,
    without an error, for a reader the manager does not hold; [indexOf] is
    that position, or -1. *)
Theorem writeIndex_emits (_readers : list Reader) (reader : Reader) :
  (forall (i : nat) (rd : Reader),
     _readers !! i = Some rd -> Z.of_nat i + 1 < 2 ^ 14 ->
     Type_equals (reader_type reader) (Some (reader_type rd)) = Ok true ->
     (forall j rj, (j < i)%nat -> _readers !! j = Some rj ->
        Type_equals (reader_type reader) (Some (reader_type rj)) = Ok false) ->
     ReaderManagerWriting.indexOf _readers reader = Ok (Z.of_nat i) /\
     emits (ReaderManagerWriting.writeIndex _readers reader) (varint 5 (Z.of_nat i + 1))) /\
  ((forall j rj, _readers !! j = Some rj ->
      Type_equals (reader_type reader) (Some (reader_type rj)) = Ok false) ->
   ReaderManagerWriting.indexOf _readers reader = Ok (-1) /\
   emits (ReaderManagerWriting.writeIndex _readers reader) [0]).
Proof.
  split.
  - intros i rd Hi Hb Ht Hj.
    assert (ReaderManagerWriting.indexOf _readers reader = Ok (Z.of_nat i)) as E.
    { unfold ReaderManagerWriting.indexOf.
      rewrite (findIndex_found _ _ i rd 0 Hi Ht Hj). f_equal. }
    split; [exact E|].
    intros w Hw. unfold ReaderManagerWriting.writeIndex, bind, of_result. rewrite E.
    apply emits_write7BitNumber; [lia | exact Hw].
  - intros Hj.
    assert (ReaderManagerWriting.indexOf _readers reader = Ok (-1)) as E.
    { unfold ReaderManagerWriting.indexOf. apply findIndex_missing. exact Hj. }
    split; [exact E|].
    intros w Hw. unfold ReaderManagerWriting.writeIndex, bind, of_result. rewrite E.
    change (-1 + 1) with 0. rewrite <- (varint_5_small 0) by lia.
    apply emits_write7BitNumber; [|exact Hw]. split; [lia | reflexivity].
Qed.

End Dispatch.


Lemma ReaderManager_write_read_witness :
  let c := SoundEffect.mk 18 (replicate 18 7) 3 [1; 2; 3] in
  let enc := [18; 0; 0; 0] ++ replicate 18 7 ++ [3; 0; 0; 0] ++ [1; 2; 3] in
  exists w',
    ReaderManagerWriting.writeTo [tt] c (BinaryWriter.new 0) = Ok (inl tt, w') /\
    written w' = [1] ++ enc ++ replicate 12 0 /\
    ReaderManager.readFrom [tt] None (mkBinary ([1] ++ enc ++ replicate 12 0) 0) =
      Ok (inl c, mkBinary ([1] ++ enc ++ replicate 12 0) 30).
Proof.
  intros c enc.
  destruct (ReaderManager_write_read tt [] None c (inl c) enc (replicate 12 0))
    as (Hw & Hr & _).
  - exact Logic.I.
  - apply (SoundEffect_writeTo_emits c); split; first [reflexivity | discriminate].
  - apply (SoundEffect_readFrom_decodes c); reflexivity.
  - destruct (Hw (BinaryWriter.new 0) (cursor_ok_new 0)) as (w' & E & _ & W).
    exists w'. split; [exact E|]. split; [exact W|].
    exact (Hr [] (replicate 12 0)).
Defined.

Lemma writeIndex_emits_witness :
  let known := [Texture2DReader; SoundEffectReader; SFDItemReader; SFDAnimationReader] in
  ReaderManagerWriting.indexOf (RC := KnownReader_dispatch_only) known SFDItemReader = Ok 2 /\
  ReaderManagerWriting.writeIndex (RC := KnownReader_dispatch_only) known SFDItemReader
    (BinaryWriter.new 0) = Ok (tt, mkBinary [3; 0] 1).
Proof.
  intros known.
  destruct (proj1 (writeIndex_emits (RC := KnownReader_dispatch_only) known SFDItemReader)
              2%nat SFDItemReader) as (I & E).
  - reflexivity.
  - reflexivity.
  - reflexivity.
  - intros j rj Hj Hl. destruct j as [|[|j]]; [| |lia]; injection Hl as <-; reflexivity.
  - split; [exact I|].
    destruct (E (BinaryWriter.new 0) (cursor_ok_new 0)) as (w' & R & _ & _).
    rewrite R. f_equal. f_equal. vm_compute in R. injection R as <-. reflexivity.
Defined.

(** ** getReader: the reader of a type string *)

Section GetReaderByName.
Context {Reader Read : Type} {RC : ReaderClass Reader Read}.

Lemma find_reader_flat (parsed : XType) (l : list Reader) :
  Forall (fun e => subtypes (reader_type e) = []) l ->
  Xnb.find_reader parsed l =
    Ok (List.find (fun e => name_eqb (name (reader_type e)) (name parsed)
                            && Bool.eqb (isArray (reader_type e)) (isArray parsed)) l).
Proof.
  induction 1 as [|e l He Hl IH]; [reflexivity|].
  cbn [Xnb.find_reader List.find].
  destruct (reader_type e) as [n s a]. cbn [subtypes] in He. subst s.
  rewrite Type_equals_flat. cbn [name isArray].
  destruct (name_eqb n (name parsed) && Bool.eqb a (isArray parsed)); [reflexivity|].
  exact IH.
Qed.

(** [X21] When the available readers have types without subtypes, as the
    four of [Worker.ts] have, [getReader] of a type string returns the first
    reader whose type has the name that precedes the first backtick and the
    first comma of the string and whose array flag tells whether that name
    ends in [[]], and throws the invalid-reader-type error when there is
    none: the generic arguments of the string play no part, and no other
    error is thrown. *)
Theorem getReader_by_name (available : list Reader)
    (generic_arguments : string -> list XType) (type : string) :
  Forall (fun e => subtypes (reader_type e) = []) available ->
  let n := hd EmptyString (String_split "," (hd EmptyString (String_split "`" type))) in
  Xnb.getReader available generic_arguments (inl type) =
    Ok (match List.find (fun e => name_eqb (name (reader_type e)) (Some n)
                                  && Bool.eqb (isArray (reader_type e))
                                       (String_endsWith n "[]")) available with
        | Some e => inl e
        | None => inr (InvalidReaderType (inl type))
        end).
Proof.
  intros Hf n. unfold Xnb.getReader. rewrite (find_reader_flat _ _ Hf).
  unfold Type_fromString. cbn [name isArray]. fold n.
  destruct (List.find _ available); reflexivity.
Qed.

End GetReaderByName.

Lemma getReader_by_name_witness :
  let known := [Texture2DReader; SoundEffectReader; SFDItemReader; SFDAnimationReader] in
  let generic_arguments : string -> list XType := fun _ => [mkType (Some "System.Int32"%string) [] false] in
    Xnb.getReader (RC := KnownReader_dispatch_only) known generic_arguments
      (inl "Microsoft.Xna.Framework.Content.SoundEffectReader, Microsoft.Xna.Framework, Version=4.0.0.0"%string)
    = Ok (inl SoundEffectReader) /\
    Xnb.getReader (RC := KnownReader_dispatch_only) known generic_arguments
      (inl "Microsoft.Xna.Framework.Content.ListReader`1[[System.Int32]]"%string)
    = Ok (inr (InvalidReaderType
                 (inl "Microsoft.Xna.Framework.Content.ListReader`1[[System.Int32]]"%string))).
Proof.
  intros known generic_arguments.
  assert (Forall (fun e => subtypes (reader_type (ReaderClass := KnownReader_dispatch_only) e) = [])
            known) as Hf.
  { repeat (apply List.Forall_cons; [reflexivity|]). apply List.Forall_nil. }
  split.
  - exact (getReader_by_name (RC := KnownReader_dispatch_only) known generic_arguments _ Hf).
  - exact (getReader_by_name (RC := KnownReader_dispatch_only) known generic_arguments _ Hf).
Defined.

(** ** pack and unpack *)

Lemma trim_written (w : Binary) :
  cursor_ok w ->
  buffer (BinaryWriter.trim w) = written w /\
  bytePosition (BinaryWriter.trim w) = size (written w).
Proof.
  intros [H0 H1]. unfold BinaryWriter.trim, set_buffer, written, Buffer_alloc.
  cbn [buffer bytePosition].
  replace (Z.to_nat (bytePosition w - size (buffer w))) with 0%nat by lia.
  cbn [replicate]. rewrite app_nil_r. split; [reflexivity|].
  unfold size in *. rewrite length_take. lia.
Qed.

(** [writeUInt32LE] over four bytes inside a buffer. *)
Lemma Buffer_writeUInt32LE_patch (pre old post : Buffer) (v : Z) :
  length old = 4%nat -> 0 <= v < 2 ^ 32 ->
  Buffer_writeUInt32LE (pre ++ old ++ post) v (size pre) = Ok (pre ++ bytesLE32 v ++ post).
Proof.
  intros Ho Hv. unfold Buffer_writeUInt32LE.
  replace ((v <? 0) || (2 ^ 32 - 1 <? v)) with false
    by (symmetry; apply orb_false_iff; split; apply Z.ltb_ge; lia).
  destruct old as [|a [|b [|c [|d [|]]]]]; try discriminate.
  assert (0 <= size pre) as Hp by (unfold size; lia).
  unfold Buffer_get.
  replace (size pre <? 0) with false by (symmetry; apply Z.ltb_ge; lia).
  replace (size pre + 3 <? 0) with false by (symmetry; apply Z.ltb_ge; lia).
  assert ((pre ++ [a; b; c; d] ++ post) !! Z.to_nat (size pre) = Some a) as L0.
  { unfold size. rewrite Nat2Z.id. apply list_lookup_middle. reflexivity. }
  assert ((pre ++ [a; b; c; d] ++ post) !! Z.to_nat (size pre + 3) = Some d) as L3.
  { unfold size. replace (Z.to_nat (Z.of_nat (length pre) + 3)) with (length pre + 3)%nat by lia.
    rewrite lookup_app_r by lia. replace (length pre + 3 - length pre)%nat with 3%nat by lia.
    reflexivity. }
  rewrite L0, L3. unfold Buffer_setArray.
  replace ((size pre <? 0) || (size (pre ++ [a; b; c; d] ++ post) <? size pre + size (bytesLE32 v)))
    with false.
  2:{ symmetry; apply orb_false_iff; split; apply Z.ltb_ge; [lia|].
      rewrite !size_app. unfold size. cbn [length bytesLE32]. lia. }
  f_equal. unfold size. rewrite Nat2Z.id, take_app_length. f_equal. f_equal.
  cbn [length bytesLE32].
  rewrite drop_app_ge by lia.
  replace (length pre + 4 - length pre)%nat with 4%nat by lia. reflexivity.
Qed.

Lemma inherited_run {A : Type} (m : M BinaryReader.t A) (b b' : Binary) (o : Z) (a : A) :
  m b = Ok (a, b') ->
  LzxReader.inherited m (LzxReader.mk b o) = Ok (a, LzxReader.mk b' o).
Proof. intros E. unfold LzxReader.inherited. cbn [LzxReader.base]. rewrite E. reflexivity. Qed.

Section PackUnpack.
Context {Reader Content : Type}.
Context {RC : ReaderClass Reader (Content + Failure)} {WC : WriterClass Reader Content}.
Variable available : list Reader.
Variable generic_arguments : string -> list XType.

Lemma pack_readers_emits (l : list Xnb.ContentReader) (rds : list Reader) :
  Forall2 (listed available generic_arguments) l rds ->
  forall acc w, cursor_ok w ->
    exists w',
      Xnb.pack_readers available generic_arguments l acc w = Ok (inl (acc ++ rds), w') /\
      cursor_ok w' /\ written w' = written w ++ readers_table l.
Proof.
  induction 1 as [|e rd l rds (Ha & Hs & Hv & Hg) Hl IH]; intros acc w Hw.
  - exists w. cbn [Xnb.pack_readers]. rewrite !app_nil_r.
    split; [reflexivity|]. split; [exact Hw | reflexivity].
  - cbn [Xnb.pack_readers]. unfold bind_ok, bind, of_result. rewrite Hg.
    destruct (emits_writeString (Xnb.type e) Ha Hs w Hw) as (w1 & E1 & C1 & W1).
    rewrite E1.
    destruct (emits_writeUInt32 (Xnb.version e) ltac:(split; [lia|];
                apply Z.lt_trans with (2 ^ 31); [lia | reflexivity]) w1 C1)
      as (w2 & E2 & C2 & W2).
    rewrite E2.
    destruct (IH (acc ++ [rd]) w2 C2) as (w3 & E3 & C3 & W3).
    exists w3. split.
    + fold (@bind_ok BinaryWriter.t). rewrite <- app_assoc in E3. exact E3.
    + split; [exact C3|]. rewrite W3, W2, W1.
      unfold readers_table, reader_entry. cbn [map concat].
      rewrite <- !app_assoc. reflexivity.
Qed.

Lemma unpack_readers_decodes (l : list Xnb.ContentReader) (rds : list Reader) :
  Forall2 (listed available generic_arguments) l rds ->
  forall acc1 acc2,
    decodes (Xnb.unpack_readers available generic_arguments (length l) acc1 acc2)
      (readers_table l) (inl (acc1 ++ rds, acc2 ++ l)).
Proof.
  induction 1 as [|e rd l rds (Ha & Hs & Hv & Hg) Hl IH]; intros acc1 acc2.
  - cbn [length Xnb.unpack_readers]. rewrite !app_nil_r. apply decodes_ret.
  - cbn [length Xnb.unpack_readers].
    unfold readers_table, reader_entry. cbn [map concat]. fold reader_entry.
    fold (readers_table l).
    rewrite <- !app_assoc.
    rewrite (app_assoc (varint 5 _)).
    eapply decodes_bind.
    { apply decodes_readString; [exact Ha|].
      apply Z.lt_trans with (2 ^ 14); [exact Hs | reflexivity]. }
    eapply decodes_bind.
    { rewrite <- (Z.mod_small (Xnb.version e) (2 ^ 32)) at 1.
      - apply decodes_readInt32. split; [|lia].
        apply Z.le_trans with 0; [discriminate | lia].
      - split; [lia|]. apply Z.lt_trans with (2 ^ 31); [lia | reflexivity]. }
    intros pre post. unfold bind_ok, bind, of_result. rewrite Hg.
    pose proof (IH (acc1 ++ [rd]) (acc2 ++ [Xnb.mkContentReader (Xnb.type e) (Xnb.version e)])
                  pre post) as E.
    rewrite <- !app_assoc in E. cbn [app] in E. destruct e. exact E.
Qed.


Lemma reads_bind_ok {A B : Type} (m : M BinaryReader.t (A + Failure))
    (k : A -> M BinaryReader.t (B + Failure)) (enc1 enc2 : Buffer) (v : A) (u : B + Failure) :
  decodes m enc1 (inl v) -> reads (k v) enc2 u -> reads (x <-? m ;; k x) (enc1 ++ enc2) u.
Proof.
  intros H1 H2. unfold bind_ok.
  apply (reads_bind m _ enc1 enc2 (inl v) u H1). exact H2.
Qed.

(** The part of [pack] between the header and the trim. *)
Lemma pack_body_emits (l : list Xnb.ContentReader) (rd : Reader) (rest : list Reader)
    (c : Content) (enc : Buffer) :
  Forall2 (listed available generic_arguments) l (rd :: rest) ->
  Z.of_nat (length l) < 2 ^ 14 ->
  emits_ok (reader_writeTo rd (rd :: rest) c) enc ->
  emits_ok
    (BinaryWriter.write7BitNumber (Z.of_nat (length l)) ;;;
     loaded <-? Xnb.pack_readers available generic_arguments l [] ;;
     BinaryWriter.write7BitNumber 0 ;;;
     ReaderManagerWriting.writeTo loaded c)
    (varint 5 (Z.of_nat (length l)) ++ readers_table l ++ [0; 1] ++ enc).
Proof.
  intros Hl Hn He.
  apply emits_ok_bind; [apply emits_write7BitNumber; lia|].
  intros w Hw. unfold bind_ok, bind.
  destruct (pack_readers_emits l (rd :: rest) Hl [] w Hw) as (w1 & E1 & C1 & W1).
  rewrite E1. cbn [app].
  destruct (emits_write7BitNumber 0 ltac:(split; [lia | reflexivity]) w1 C1)
    as (w2 & E2 & C2 & W2).
  rewrite E2.
  destruct (writeTo_emits rd rest c enc He w2 C2) as (w3 & E3 & C3 & W3).
  exists w3. split; [exact E3|]. split; [exact C3|].
  rewrite W3, W2, W1. rewrite <- !app_assoc. reflexivity.
Qed.

(** The part of [unpack] after the decompression, on what [pack] wrote. *)
Lemma unpack_content_reads (h : Worker.Header) (l : list Xnb.ContentReader) (rd : Reader)
    (rest : list Reader) (expect : option Reader) (c : Content) (enc : Buffer) :
  Forall2 (listed available generic_arguments) l (rd :: rest) ->
  Z.of_nat (length l) < 2 ^ 31 ->
  expected rd expect ->
  reads (reader_readFrom rd (rd :: rest)) enc (inl c) ->
  reads (Xnb.unpack_content available generic_arguments h expect)
    (varint 5 (Z.of_nat (length l)) ++ readers_table l ++ [0; 1] ++ enc)
    (inl (Xnb.mkParsed
            (Worker.mkHeader (Worker.target h) (Worker.xnbVersion h) (Worker.hidef h)
               (Worker.compressed h) None) l c)).
Proof.
  intros Hl Hn He Hr. unfold Xnb.unpack_content.
  eapply reads_bind; [apply decodes_read7BitNumber; lia|].
  rewrite Nat2Z.id.
  eapply reads_bind_ok; [apply (unpack_readers_decodes l (rd :: rest) Hl [] [])|].
  cbn [app].
  apply (reads_bind BinaryReader.read7BitNumber _ (varint 5 0) ([1] ++ enc) 0);
    [apply decodes_read7BitNumber; split; [lia | reflexivity]|].
  cbn [Z.eqb negb].
  intros pre. unfold bind_ok, bind.
  destruct (readFrom_reads (rd :: rest) 0 rd expect enc (inl c) eq_refl eq_refl He Hr pre)
    as (r' & E).
  change (varint 5 (Z.of_nat 0 + 1)) with [1] in E. rewrite E.
  eexists. reflexivity.
Qed.

End PackUnpack.
(** [parseHeader] on the flags byte [pack] writes for a target without
    compression. *)
Lemma parseHeader_uncompressed (t v : Z) (hd : bool) (rest : Buffer) :
  Worker.parseHeader
    (BinaryReader.new ([88; 78; 66; t; v; if hd then 1 else 0] ++ rest)) =
    Ok (Worker.mkHeader (toLowerCase (Buffer_toString1 t)) v hd (Some false) (Some 0),
        mkBinary ([88; 78; 66; t; v; if hd then 1 else 0] ++ rest) 6).
Proof. rewrite parseHeader_prefix. destruct hd; reflexivity. Qed.

(** The target letters of the platforms without compression. *)
Lemma uncompressed_target (h : Worker.Header) :
  Worker.valid_header h -> Worker.lz4Compression h = false ->
  exists tb, TextEncoder_encode (Worker.target h) = [tb] /\
             toLowerCase (Buffer_toString1 tb) = Worker.target h /\
             0 <= Worker.xnbVersion h <= 255 /\
             Worker.pack_flags h = if Worker.hidef h then 1 else 0.
Proof.
  intros [Ht Hv] Hz. destruct h as [t v hd cp ct].
  cbn [Worker.target Worker.xnbVersion Worker.hidef] in *.
  assert (0 <= v <= 255) as Hb by (elem_cases Hv; lia).
  assert (Worker.pack_flags (Worker.mkHeader t v hd cp ct) = if hd then 1 else 0) as Hf.
  { unfold Worker.pack_flags. rewrite Hz. destruct hd; reflexivity. }
  elem_cases Ht; subst t; try discriminate Hz; eexists; (split; [reflexivity|]);
    (split; [reflexivity|]); (split; [exact Hb | exact Hf]).
Qed.

Section PackThenUnpack.
Context {Reader Content : Type}.
Context {RC : ReaderClass Reader (Content + Failure)} {WC : WriterClass Reader Content}.
Variable available : list Reader.
Variable generic_arguments : string -> list XType.
Context {Lzx : Type}.
Variable Lzx_16 : Lzx.
Variable Lzx_decompress : Lzx -> Z -> Z -> M LzxReader.t (list Z * Lzx).
Variable decodeBlock : Buffer -> Buffer -> Buffer.
Variable encodeBound : Z -> Z.
Variable encodeBlock : Buffer -> Buffer -> Z * Buffer.

Lemma unpack_decompress_uncompressed (h : Worker.Header) (fileSize : Z) (r : LzxReader.t) :
  Worker.compressed h = Some false ->
  Xnb.unpack_decompress Lzx_16 Lzx_decompress decodeBlock h fileSize r = Ok (tt, r).
Proof. intros E. unfold Xnb.unpack_decompress. rewrite E. reflexivity. Qed.

(** [X22] For a target without compression (['w'], ['m'], ['x']), readers
    that [getReader] resolves and content that the first of them writes and
    reads back, [pack] returns the file made of the six header bytes, the
    length of the file, the readers table, the bytes 0 and 1 and the
    content, and [unpack] of this file returns the header with
    [compressed: false], the readers and the content that were packed. *)
Theorem pack_unpack (jsonLength : Z) (json : Xnb.Parsed Content) (rd : Reader)
    (rest : list Reader) (expect : option Reader) (enc : Buffer) :
  let h := Xnb.header json in
  let body := varint 5 (Z.of_nat (length (Xnb.readers json)))
              ++ readers_table (Xnb.readers json) ++ [0; 1] ++ enc in
  Worker.valid_header h ->
  Worker.lz4Compression h = false ->
  Forall2 (listed available generic_arguments) (Xnb.readers json) (rd :: rest) ->
  Z.of_nat (length (Xnb.readers json)) < 2 ^ 14 ->
  expected rd expect ->
  emits_ok (reader_writeTo rd (rd :: rest) (Xnb.content json)) enc ->
  reads (reader_readFrom rd (rd :: rest)) enc (inl (Xnb.content json)) ->
  10 + size body < 2 ^ 32 ->
  exists file,
    Xnb.pack available generic_arguments encodeBound encodeBlock jsonLength json =
      Ok (inl file) /\
    file = TextEncoder_encode "XNB" ++ TextEncoder_encode (Worker.target h)
           ++ [Worker.xnbVersion h; if Worker.hidef h then 1 else 0]
           ++ bytesLE32 (10 + size body) ++ body /\
    Xnb.unpack available generic_arguments Lzx_16 Lzx_decompress decodeBlock file expect =
      Ok (inl (Xnb.mkParsed
                 (Worker.mkHeader (Worker.target h) (Worker.xnbVersion h) (Worker.hidef h)
                    (Some false) None)
                 (Xnb.readers json) (Xnb.content json))).
Proof.
  intros h0 body Hh Hz Hl Hn He Hw Hr Hs.
  destruct json as [h l c]. cbn [Xnb.header Xnb.readers Xnb.content] in *. subst h0.
  destruct (uncompressed_target h Hh Hz) as (tb & Et & El & Hv & Hf).
  set (pre := [88; 78; 66; tb; Worker.xnbVersion h; if Worker.hidef h then 1 else 0]).
  assert (0 <= size body) as Hb0 by (unfold size; lia).
  assert (size (pre ++ bytesLE32 0 ++ body) = 10 + size body) as Hsz.
  { rewrite !size_app. unfold size at 1 2. cbn [length pre bytesLE32]. lia. }
  exists (pre ++ bytesLE32 (10 + size body) ++ body).
  split; [|split].
  - unfold Xnb.pack. cbn [Xnb.header Xnb.readers Xnb.content].
    destruct (pack_header_written jsonLength h Hv) as (w0 & E0 & C0 & W0).
    rewrite E0.
    destruct (pack_body_emits available generic_arguments l rd rest c enc Hl Hn Hw w0 C0)
      as (w1 & E1 & C1 & W1).
    rewrite E1, Hz.
    destruct (trim_written w1 C1) as [TB TP]. rewrite TB, TP, W1, W0, Hz, Et, Hf.
    change (TextEncoder_encode "XNB" ++ [tb]
            ++ [Worker.xnbVersion h; if Worker.hidef h then 1 else 0] ++ bytesLE32 0 ++ [])
      with (pre ++ bytesLE32 0).
    fold body. rewrite <- app_assoc, Hsz.
    change 6 with (size pre).
    rewrite Buffer_writeUInt32LE_patch; [reflexivity | reflexivity | lia].
  - rewrite Et. reflexivity.
  - unfold Xnb.unpack, bind, LzxReader.new.
    pose proof (parseHeader_uncompressed tb (Worker.xnbVersion h) (Worker.hidef h)
                  (bytesLE32 (10 + size body) ++ body)) as PH.
    fold pre in PH. rewrite (inherited_run _ _ _ _ _ PH).
    assert (0 <= 10 + size body < 2 ^ 32) as Hn32 by lia.
    rewrite (inherited_run _ _ _ _ _ (decodes_readUInt32 _ Hn32 pre body)).
    cbn [LzxReader.base buffer].
    replace (size (pre ++ bytesLE32 (10 + size body) ++ body)) with (10 + size body)
      by (symmetry; exact Hsz).
    rewrite Z.eqb_refl. cbn [negb].
    rewrite unpack_decompress_uncompressed by reflexivity.
    destruct (unpack_content_reads available generic_arguments
                (Worker.mkHeader (toLowerCase (Buffer_toString1 tb)) (Worker.xnbVersion h)
                   (Worker.hidef h) (Some false) (Some 0))
                l rd rest expect c enc Hl
                ltac:(apply Z.lt_trans with (2 ^ 14); [exact Hn | reflexivity]) He Hr
                (pre ++ bytesLE32 (10 + size body))) as (r' & E).
    rewrite <- app_assoc, size_app in E. fold body in E.
    rewrite (inherited_run _ _ _ _ _ E).
    cbn [Worker.target Worker.xnbVersion Worker.hidef Worker.compressed].
    rewrite El. reflexivity.
Qed.

End PackThenUnpack.
Lemma pack_unpack_witness :
  let effect := SoundEffect.mk 18 (replicate 18 7) 3 [1; 2; 3] in
  let json := Xnb.mkParsed (Worker.mkHeader "w" 5 true None None)
                [Xnb.mkContentReader "Microsoft.Xna.Framework.Content.SoundEffectReader" 0]
                effect in
  exists file,
    Xnb.pack [tt] (fun _ => []) (fun n => n) (fun _ output => (0, output)) 2 json =
      Ok (inl file) /\
    size file = 108 /\
    Xnb.unpack [tt] (fun _ => []) tt Lzx_stored (fun _ output => output) file None =
      Ok (inl (Xnb.mkParsed (Worker.mkHeader "w" 5 true (Some false) None)
                 [Xnb.mkContentReader "Microsoft.Xna.Framework.Content.SoundEffectReader" 0]
                 effect)).
Proof.
  intros effect json.
  destruct (pack_unpack [tt] (fun _ => []) tt Lzx_stored (fun _ output => output)
              (fun n => n) (fun _ output => (0, output)) 2 json tt [] None
              (bytesLE32 18 ++ replicate 18 7 ++ bytesLE32 3 ++ [1; 2; 3] ++ replicate 12 0))
    as (file & P & F & U).
  - split; cbn; set_solver.
  - reflexivity.
  - constructor; [|constructor].
    split; [|split; [|split]].
    + unfold ascii_only; vm_compute.
      repeat (apply List.Forall_cons; [reflexivity|]); apply List.Forall_nil.
    + reflexivity.
    + split; [discriminate | reflexivity].
    + reflexivity.
  - reflexivity.
  - exact Logic.I.
  - apply (SoundEffect_writeTo_emits effect); split; first [reflexivity | discriminate].
  - apply (decodes_reads _ (bytesLE32 18 ++ replicate 18 7 ++ bytesLE32 3 ++ [1; 2; 3])
             (replicate 12 0)).
    apply (SoundEffect_readFrom_decodes effect); reflexivity.
  - reflexivity.
  - exists file. split; [exact P|]. split; [rewrite F; reflexivity | exact U].
Defined.

(** ** pack and unpack with LZ4 *)

Lemma Buffer_copy_tail (source : Buffer) (s : Z) :
  0 <= s <= size source ->
  Buffer_copy source (Buffer_alloc (size source - s)) 0 s (size source) =
    Ok (drop (Z.to_nat s) source).
Proof.
  intros Hs. unfold Buffer_copy, Buffer_alloc.
  assert (size (replicate (Z.to_nat (size source - s)) 0) = size source - s) as Sn
    by (unfold size; rewrite length_replicate; unfold size in Hs; lia).
  rewrite Sn. cbn [Z.ltb Z.compare].
  replace ((s <? 0) || (size source <? s)) with false
    by (symmetry; apply orb_false_iff; split; apply Z.ltb_ge; lia).
  replace (size source <? 0) with false by (symmetry; apply Z.ltb_ge; lia).
  destruct ((size source - s <=? 0) || (size source <=? s)) eqn:E.
  - assert (size source = s) as Es
      by (apply orb_true_iff in E as [E|E]; apply Z.leb_le in E; lia).
    rewrite Es, Z.sub_diag. cbn [Z.to_nat replicate].
    rewrite drop_ge; [reflexivity | unfold size in Es; lia].
  - rewrite Z.sub_0_r, Z.ltb_irrefl, Z.min_id. change (Z.to_nat 0) with 0%nat.
    rewrite take_0. cbn [app]. rewrite Z.add_0_l.
    rewrite (drop_ge (replicate _ _)) by (rewrite length_replicate; lia).
    rewrite app_nil_r. f_equal. apply take_ge. rewrite length_drop. unfold size. lia.
Qed.

Lemma Buffer_copy_clamped (source target : Buffer) (targetStart length : Z) :
  0 <= targetStart < size target -> size target - targetStart < length ->
  length <= size source ->
  Buffer_copy source target targetStart 0 length =
    Ok (take (Z.to_nat targetStart) target
        ++ take (Z.to_nat (size target - targetStart)) source).
Proof.
  intros Ht Hl Hs. unfold Buffer_copy.
  replace (targetStart <? 0) with false by (symmetry; apply Z.ltb_ge; lia).
  replace (size source <? 0) with false by (symmetry; apply Z.ltb_ge; lia).
  replace (length <? 0) with false by (symmetry; apply Z.ltb_ge; lia).
  cbn [Z.ltb Z.compare orb].
  replace ((size target <=? targetStart) || (length <=? 0)) with false
    by (symmetry; apply orb_false_iff; split; apply Z.leb_gt; lia).
  rewrite !Z.sub_0_r, Z.add_0_l.
  replace (size target - targetStart <? length) with true by (symmetry; apply Z.ltb_lt; lia).
  rewrite Z.min_l by lia. cbn [drop].
  rewrite (drop_ge target) by (unfold size in *; lia).
  rewrite app_nil_r. reflexivity.
Qed.

Lemma Buffer_subarray_head (b : Buffer) (k : Z) :
  0 <= k -> Buffer_subarray b 0 k = take (Z.to_nat k) b.
Proof.
  intros Hk. unfold Buffer_subarray. cbn [Z.ltb Z.compare].
  replace (k <? 0) with false by (symmetry; apply Z.ltb_ge; lia).
  assert (0 <= size b) as H0 by (unfold size; lia).
  rewrite (Z.min_l 0) by lia. rewrite Z.sub_0_r.
  change (Z.to_nat 0) with 0%nat. rewrite drop_0.
  destruct (Z.le_ge_cases k (size b)).
  - rewrite Z.min_l by lia. reflexivity.
  - rewrite Z.min_r by lia. unfold size. rewrite Nat2Z.id.
    rewrite !take_ge; [reflexivity | unfold size in *; lia ..].
Qed.

Lemma Buffer_subarray_tail (pre b : Buffer) :
  Buffer_subarray (pre ++ b) (size pre) (size (pre ++ b)) = b.
Proof.
  unfold Buffer_subarray.
  assert (0 <= size pre) as H0 by (unfold size; lia).
  assert (size (pre ++ b) = size pre + size b) as Hs by apply size_app.
  assert (0 <= size b) as H1 by (unfold size; lia).
  replace (size pre <? 0) with false by (symmetry; apply Z.ltb_ge; lia).
  replace (size (pre ++ b) <? 0) with false by (symmetry; apply Z.ltb_ge; lia).
  rewrite Z.min_id, Z.min_l by lia. rewrite Hs.
  replace (size pre + size b - size pre) with (size b) by lia.
  unfold size. rewrite !Nat2Z.id. rewrite drop_app_length, take_ge; [reflexivity | lia].
Qed.

(** The copy of the decompressed bytes over the compressed ones, when these
    are not longer. *)
Lemma copyFrom_decompressed (prologue compressed decompressed : Buffer) (p : Z) :
  size compressed <= size decompressed ->
  BinaryReader.copyFrom decompressed (size prologue) 0 (size decompressed)
    (mkBinary (prologue ++ compressed) p) =
    Ok (tt, mkBinary (prologue ++ decompressed) p).
Proof.
  intros Hk.
  assert (0 <= size prologue /\ 0 <= size compressed) as [H0 H1] by (unfold size; lia).
  pose proof (copyFrom_over decompressed (size prologue) (size decompressed)
                (mkBinary (prologue ++ compressed) p) ltac:(lia) ltac:(lia)) as E.
  cbn zeta in E. cbn [buffer bytePosition] in E. rewrite E. f_equal. f_equal. f_equal.
  rewrite Z.min_id. rewrite size_app.
  rewrite <- app_assoc. unfold size. rewrite !Nat2Z.id.
  rewrite take_app_length. f_equal.
  rewrite (take_ge decompressed) by lia.
  rewrite drop_ge; [apply app_nil_r|].
  rewrite !length_app, length_replicate. unfold size in *. lia.
Qed.

(** [parseHeader] on the flags byte [pack] writes for LZ4 without [hidef]. *)
Lemma parseHeader_lz4 (t v : Z) (rest : Buffer) :
  Worker.parseHeader (BinaryReader.new ([88; 78; 66; t; v; 64] ++ rest)) =
    Ok (Worker.mkHeader (toLowerCase (Buffer_toString1 t)) v false (Some true) (Some 64),
        mkBinary ([88; 78; 66; t; v; 64] ++ rest) 6).
Proof. rewrite parseHeader_prefix. reflexivity. Qed.

(** The target letters of the platforms with LZ4. *)
Lemma lz4_target (h : Worker.Header) :
  Worker.valid_header h -> Worker.lz4Compression h = true ->
  exists tb, TextEncoder_encode (Worker.target h) = [tb] /\
             toLowerCase (Buffer_toString1 tb) = Worker.target h /\
             0 <= Worker.xnbVersion h <= 255 /\
             Worker.pack_flags h = if Worker.hidef h then 1 else 64.
Proof.
  intros [Ht Hv] Hz. destruct h as [t v hd cp ct].
  cbn [Worker.target Worker.xnbVersion Worker.hidef] in *.
  assert (0 <= v <= 255) as Hb by (elem_cases Hv; lia).
  assert (Worker.pack_flags (Worker.mkHeader t v hd cp ct) = if hd then 1 else 64) as Hf.
  { unfold Worker.pack_flags. rewrite Hz. destruct hd; reflexivity. }
  elem_cases Ht; subst t; try discriminate Hz; eexists; (split; [reflexivity|]);
    (split; [reflexivity|]); (split; [exact Hb | exact Hf]).
Qed.
Section PackLz4.
Context {Reader Content : Type}.
Context {RC : ReaderClass Reader (Content + Failure)} {WC : WriterClass Reader Content}.
Variable available : list Reader.
Variable generic_arguments : string -> list XType.
Context {Lzx : Type}.
Variable Lzx_16 : Lzx.
Variable Lzx_decompress : Lzx -> Z -> Z -> M LzxReader.t (list Z * Lzx).
Variable decodeBlock : Buffer -> Buffer -> Buffer.
Variable encodeBound : Z -> Z.
Variable encodeBlock : Buffer -> Buffer -> Z * Buffer.

(** The end of [pack] for LZ4, on the trimmed writer. *)
Lemma pack_lz4_file (pre body out : Buffer) (k : Z) :
  size pre = 6 -> 0 < size body < 2 ^ 32 ->
  encodeBlock body (Buffer_alloc (encodeBound (size body))) = (k, out) ->
  0 <= k <= size out -> 14 + k < 2 ^ 32 ->
  Xnb.pack_lz4 encodeBound encodeBlock
    (mkBinary (pre ++ bytesLE32 0 ++ bytesLE32 0 ++ body) (14 + size body)) =
    Ok (pre ++ bytesLE32 (14 + k) ++ bytesLE32 (size body)
        ++ take (Z.to_nat (Z.min k (size body))) out).
Proof.
  intros Hp Hb He Hk Hk32.
  set (B := pre ++ bytesLE32 0 ++ bytesLE32 0 ++ body).
  assert (size B = 14 + size body) as HB.
  { subst B. rewrite !size_app, Hp. unfold size at 1 2. cbn [length bytesLE32]. lia. }
  unfold Xnb.pack_lz4. cbn [buffer bytePosition].
  change Worker.XNB_COMPRESSED_PROLOGUE_SIZE with 14.
  replace (14 + size body - 14) with (size B - 14) by lia.
  rewrite Buffer_copy_tail by lia.
  assert (drop (Z.to_nat 14) B = body) as DB.
  { subst B. rewrite !app_assoc. apply drop_app_length'.
    rewrite !length_app. unfold size in Hp. cbn [length bytesLE32]. lia. }
  rewrite DB, He. rewrite Buffer_subarray_head by lia.
  set (cmp := take (Z.to_nat k) out).
  assert (size cmp = k) as Hc.
  { subst cmp. unfold size in *. rewrite length_take. lia. }
  assert (Buffer_writeUInt32LE B (size body) 10 =
          Ok (pre ++ bytesLE32 0 ++ bytesLE32 (size body) ++ body)) as P1.
  { subst B. rewrite (app_assoc pre).
    replace 10 with (size (pre ++ bytesLE32 0))
      by (rewrite size_app, Hp; reflexivity).
    rewrite Buffer_writeUInt32LE_patch; [|reflexivity|lia].
    rewrite <- app_assoc. reflexivity. }
  rewrite P1.
  assert (Buffer_writeUInt32LE (pre ++ bytesLE32 0 ++ bytesLE32 (size body) ++ body)
            (14 + k) 6 =
          Ok (pre ++ bytesLE32 (14 + k) ++ bytesLE32 (size body) ++ body)) as P2.
  { rewrite <- Hp. rewrite Buffer_writeUInt32LE_patch; [reflexivity|reflexivity|lia]. }
  rewrite P2.
  set (rb := pre ++ bytesLE32 (14 + k) ++ bytesLE32 (size body) ++ body).
  set (prologue := pre ++ bytesLE32 (14 + k) ++ bytesLE32 (size body)).
  assert (rb = prologue ++ body) as Hrb by (subst rb prologue; rewrite <- !app_assoc; reflexivity).
  assert (length prologue = 14%nat) as Hpl.
  { subst prologue. rewrite !length_app. unfold size in Hp. cbn [length bytesLE32]. lia. }
  assert (size rb = 14 + size body) as Hrs.
  { rewrite Hrb, size_app. unfold size at 1. rewrite Hpl. lia. }
  assert (take (Z.to_nat 14) rb = prologue) as T14.
  { rewrite Hrb. apply take_app_length'. lia. }
  destruct (Z.le_gt_cases k (size body)) as [Hle|Hgt].
  - rewrite Buffer_copy_into by lia.
    rewrite Hc, Z.min_id, T14.
    rewrite Buffer_subarray_head by lia.
    rewrite Z.min_l by lia. fold cmp.
    f_equal. rewrite app_assoc.
    rewrite take_app_length'.
    + subst prologue. rewrite <- !app_assoc. subst cmp.
      rewrite take_ge; [reflexivity|]. rewrite length_take. lia.
    + rewrite length_app, Hpl, length_take. unfold size in Hc. lia.
  - rewrite Buffer_copy_clamped by lia.
    rewrite T14, Hrs.
    replace (14 + size body - 14) with (size body) by lia.
    rewrite Buffer_subarray_head by lia.
    rewrite Z.min_r by lia.
    f_equal. rewrite take_ge.
    + subst prologue cmp. rewrite <- !app_assoc. rewrite take_take.
      repeat f_equal. lia.
    + rewrite length_app, Hpl, length_take. lia.
Qed.


(** The [if (compressed)] block of [unpack] on an LZ4 file whose compressed
    bytes decode to [body]. *)
Lemma unpack_decompress_lz4 (h : Worker.Header) (fileSize o : Z)
    (pre compressed body : Buffer) :
  Worker.compressed h = Some true ->
  Worker.compressionType h = Some Worker.COMPRESSED_LZ4_MASK ->
  size pre = 10 -> size body < 2 ^ 32 -> size compressed <= size body ->
  decodeBlock compressed (Buffer_alloc (size body)) = body ->
  Xnb.unpack_decompress Lzx_16 Lzx_decompress decodeBlock h fileSize
    (LzxReader.mk (mkBinary (pre ++ bytesLE32 (size body) ++ compressed) 10) o) =
    Ok (tt, LzxReader.mk (mkBinary (pre ++ bytesLE32 (size body) ++ body) 14) o).
Proof.
  intros Hc Ht Hp Hb Hk Hd.
  assert (0 <= size body) as Hb0 by (unfold size; lia).
  unfold Xnb.unpack_decompress. rewrite Hc, Ht. cbn [default from_option id].
  unfold bind.
  pose proof (decodes_readUInt32 (size body) ltac:(lia) pre compressed) as R.
  rewrite Hp in R. rewrite (inherited_run _ _ _ _ _ R).
  rewrite bool_decide_eq_false_2 by discriminate.
  rewrite bool_decide_eq_true_2 by reflexivity.
  cbn [LzxReader.base buffer].
  change Worker.XNB_COMPRESSED_PROLOGUE_SIZE with 14.
  set (prologue := pre ++ bytesLE32 (size body)).
  assert (size prologue = 14) as Hpl.
  { subst prologue. rewrite size_app, Hp. reflexivity. }
  rewrite !(app_assoc pre). fold prologue.
  replace (Buffer_subarray (prologue ++ compressed) 14 (size (prologue ++ compressed)))
    with compressed by (rewrite <- Hpl; symmetry; apply Buffer_subarray_tail).
  rewrite Hd.
  pose proof (copyFrom_decompressed prologue compressed body
                (10 + size (bytesLE32 (size body))) Hk) as CF.
  rewrite Hpl in CF. rewrite (inherited_run _ _ _ _ _ CF).
  reflexivity.
Qed.

(** [X23] For an LZ4 target (['a'], ['i']), when [encodeBlock] reports [k]
    bytes for the [n] bytes of readers table and content, [pack] returns a
    file that declares the length [14 + k] and the decompressed length [n]
    and holds the first [min(k, n)] compressed bytes.  So when the codec
    expands the data ([k > n]) the file is shorter than it declares and
    [unpack] throws the truncation error; when it does not, [hidef] is off
    and [decodeBlock] gives the bytes back, [unpack] returns the header
    with [compressed: true], the readers and the content that were
    packed. *)
Theorem pack_lz4_unpack (jsonLength : Z) (json : Xnb.Parsed Content) (rd : Reader)
    (rest : list Reader) (expect : option Reader) (enc out : Buffer) (k : Z) :
  let h := Xnb.header json in
  let body := varint 5 (Z.of_nat (length (Xnb.readers json)))
              ++ readers_table (Xnb.readers json) ++ [0; 1] ++ enc in
  Worker.valid_header h ->
  Worker.lz4Compression h = true ->
  Forall2 (listed available generic_arguments) (Xnb.readers json) (rd :: rest) ->
  Z.of_nat (length (Xnb.readers json)) < 2 ^ 14 ->
  expected rd expect ->
  emits_ok (reader_writeTo rd (rd :: rest) (Xnb.content json)) enc ->
  reads (reader_readFrom rd (rd :: rest)) enc (inl (Xnb.content json)) ->
  size body < 2 ^ 32 ->
  encodeBlock body (Buffer_alloc (encodeBound (size body))) = (k, out) ->
  0 <= k <= size out -> 14 + k < 2 ^ 32 ->
  exists file,
    Xnb.pack available generic_arguments encodeBound encodeBlock jsonLength json =
      Ok (inl file) /\
    file = TextEncoder_encode "XNB" ++ TextEncoder_encode (Worker.target h)
           ++ [Worker.xnbVersion h; if Worker.hidef h then 1 else 64]
           ++ bytesLE32 (14 + k) ++ bytesLE32 (size body)
           ++ take (Z.to_nat (Z.min k (size body))) out /\
    (size body < k ->
     Xnb.unpack available generic_arguments Lzx_16 Lzx_decompress decodeBlock file expect =
       Ok (inr FileTruncated)) /\
    (k <= size body -> Worker.hidef h = false ->
     decodeBlock (take (Z.to_nat k) out) (Buffer_alloc (size body)) = body ->
     Xnb.unpack available generic_arguments Lzx_16 Lzx_decompress decodeBlock file expect =
       Ok (inl (Xnb.mkParsed
                  (Worker.mkHeader (Worker.target h) (Worker.xnbVersion h) false
                     (Some true) None)
                  (Xnb.readers json) (Xnb.content json)))).
Proof.
  intros h0 body Hh Hz Hl Hn He Hw Hr Hs Henc Hk Hk32.
  destruct json as [h l c]. cbn [Xnb.header Xnb.readers Xnb.content] in *. subst h0.
  destruct (lz4_target h Hh Hz) as (tb & Et & El & Hv & Hf).
  set (flags := if Worker.hidef h then 1 else 64) in *.
  set (pre := [88; 78; 66; tb; Worker.xnbVersion h; flags]).
  assert (0 < size body) as Hb0.
  { subst body. rewrite size_app.
    assert (0 < size (varint 5 (Z.of_nat (length l)))).
    { destruct (varint_enough 4 (Z.of_nat (length l))) as ((L & _) & _).
      - split; [lia|]. apply Z.lt_trans with (2 ^ 14); [exact Hn | reflexivity].
      - unfold size. lia. }
    assert (0 <= size (readers_table l ++ [0; 1] ++ enc)) by (unfold size; lia).
    lia. }
  set (cmp := take (Z.to_nat (Z.min k (size body))) out).
  exists (pre ++ bytesLE32 (14 + k) ++ bytesLE32 (size body) ++ cmp).
  assert (size cmp = Z.min k (size body)) as Hcmp.
  { subst cmp. unfold size in *. rewrite length_take. lia. }
  assert (size (pre ++ bytesLE32 (14 + k) ++ bytesLE32 (size body) ++ cmp)
          = 14 + Z.min k (size body)) as Hsz.
  { rewrite !size_app, Hcmp. unfold size at 1 2 3. cbn [length pre bytesLE32]. lia. }
  split; [|split; [|split]].
  - unfold Xnb.pack. cbn [Xnb.header Xnb.readers Xnb.content].
    destruct (pack_header_written jsonLength h Hv) as (w0 & E0 & C0 & W0).
    rewrite E0.
    destruct (pack_body_emits available generic_arguments l rd rest c enc Hl Hn Hw w0 C0)
      as (w1 & E1 & C1 & W1).
    rewrite E1, Hz.
    destruct (trim_written w1 C1) as [TB TP].
    rewrite W1, W0, Hz, Et, Hf in TB, TP. fold body in TB, TP.
    change (TextEncoder_encode "XNB" ++ [tb] ++ [Worker.xnbVersion h; flags]
            ++ bytesLE32 0 ++ bytesLE32 0) with (pre ++ bytesLE32 0 ++ bytesLE32 0) in TB, TP.
    rewrite <- !app_assoc in TB, TP.
    assert (BinaryWriter.trim w1 =
            mkBinary (pre ++ bytesLE32 0 ++ bytesLE32 0 ++ body) (14 + size body)) as TW.
    { destruct (BinaryWriter.trim w1) as [b p]. cbn [buffer bytePosition] in TB, TP.
      subst b p. f_equal. rewrite !size_app. unfold size at 1 2 3.
      cbn [length pre bytesLE32]. lia. }
    rewrite TW.
    rewrite (pack_lz4_file pre body out k); [reflexivity | reflexivity | lia | exact Henc | lia | lia].
  - rewrite Et. reflexivity.
  - intros Hgt. unfold Xnb.unpack, bind, LzxReader.new.
    pose proof (parseHeader_prefix tb (Worker.xnbVersion h) flags
                  (bytesLE32 (14 + k) ++ bytesLE32 (size body) ++ cmp)) as PH.
    fold pre in PH. rewrite (inherited_run _ _ _ _ _ PH).
    rewrite (inherited_run _ _ _ _ _
               (decodes_readUInt32 (14 + k) ltac:(lia) pre (bytesLE32 (size body) ++ cmp))).
    cbn [LzxReader.base buffer]. rewrite Hsz.
    replace (14 + Z.min k (size body) =? 14 + k) with false
      by (symmetry; apply Z.eqb_neq; lia).
    reflexivity.
  - intros Hle Hhd Hdec. unfold Xnb.unpack, bind, LzxReader.new.
    assert (flags = 64) as Ef by (subst flags; rewrite Hhd; reflexivity).
    assert (Worker.parseHeader
              (BinaryReader.new (pre ++ bytesLE32 (14 + k) ++ bytesLE32 (size body) ++ cmp)) =
            Ok (Worker.mkHeader (toLowerCase (Buffer_toString1 tb)) (Worker.xnbVersion h)
                  false (Some true) (Some 64),
                mkBinary (pre ++ bytesLE32 (14 + k) ++ bytesLE32 (size body) ++ cmp) 6)) as PH
      by (subst pre; rewrite Ef; apply parseHeader_lz4).
    rewrite (inherited_run _ _ _ _ _ PH).
    rewrite (inherited_run _ _ _ _ _
               (decodes_readUInt32 (14 + k) ltac:(lia) pre (bytesLE32 (size body) ++ cmp))).
    cbn [LzxReader.base buffer]. rewrite Hsz.
    rewrite Z.min_l by lia. rewrite Z.eqb_refl. cbn [negb].
    assert (cmp = take (Z.to_nat k) out) as Ec by (subst cmp; rewrite Z.min_l by lia; reflexivity).
    rewrite (app_assoc pre).
    change (size pre + size (bytesLE32 (14 + k))) with 10.
    rewrite (unpack_decompress_lz4 _ _ _ (pre ++ bytesLE32 (14 + k)) cmp body);
      [| reflexivity | reflexivity | reflexivity | lia | lia | rewrite Ec; exact Hdec].
    destruct (unpack_content_reads available generic_arguments
                (Worker.mkHeader (toLowerCase (Buffer_toString1 tb)) (Worker.xnbVersion h)
                   false (Some true) (Some 64))
                l rd rest expect c enc Hl
                ltac:(apply Z.lt_trans with (2 ^ 14); [exact Hn | reflexivity]) He Hr
                ((pre ++ bytesLE32 (14 + k)) ++ bytesLE32 (size body))) as (r' & E).
    fold body in E. rewrite <- (app_assoc _ (bytesLE32 (size body))) in E.
    change (size ((pre ++ bytesLE32 (14 + k)) ++ bytesLE32 (size body))) with 14 in E.
    rewrite (inherited_run _ _ _ _ _ E).
    cbn [Worker.target Worker.xnbVersion Worker.hidef Worker.compressed].
    rewrite El. reflexivity.
Qed.

End PackLz4.
(** The theorem with two stand-ins for the codec: one that stores the bytes
    as they are, and one that puts a zero byte before them. *)
Lemma pack_lz4_unpack_witness :
  let effect := SoundEffect.mk 18 (replicate 18 7) 3 [1; 2; 3] in
  let json := Xnb.mkParsed (Worker.mkHeader "a" 5 false None None)
                [Xnb.mkContentReader "Microsoft.Xna.Framework.Content.SoundEffectReader" 0]
                effect in
  (exists file,
     Xnb.pack [tt] (fun _ => []) (fun n => n) (fun input _ => (size input, input)) 2 json =
       Ok (inl file) /\
     size file = 112 /\
     Xnb.unpack [tt] (fun _ => []) tt Lzx_stored (fun input _ => input) file None =
       Ok (inl (Xnb.mkParsed (Worker.mkHeader "a" 5 false (Some true) None)
                  [Xnb.mkContentReader "Microsoft.Xna.Framework.Content.SoundEffectReader" 0]
                  effect))) /\
  (exists file,
     Xnb.pack [tt] (fun _ => []) (fun n => n + 1)
       (fun input _ => (size input + 1, 0 :: input)) 2 json = Ok (inl file) /\
     size file = 112 /\
     Xnb.unpack [tt] (fun _ => []) tt Lzx_stored (fun input _ => input) file None =
       Ok (inr FileTruncated)).
Proof.
  intros effect json.
  set (enc := bytesLE32 18 ++ replicate 18 7 ++ bytesLE32 3 ++ [1; 2; 3] ++ replicate 12 0).
  assert (Forall2 (listed [tt] (fun _ => [])) (Xnb.readers json) [tt]) as Hl.
  { constructor; [|constructor].
    split; [|split; [|split]].
    - unfold ascii_only; vm_compute.
      repeat (apply List.Forall_cons; [reflexivity|]); apply List.Forall_nil.
    - reflexivity.
    - split; [discriminate | reflexivity].
    - reflexivity. }
  assert (emits_ok (reader_writeTo tt [tt] (Xnb.content json)) enc) as Hw.
  { apply (SoundEffect_writeTo_emits effect); split; first [reflexivity | discriminate]. }
  assert (reads (reader_readFrom tt [tt]) enc (inl (Xnb.content json))) as Hr.
  { apply (decodes_reads _ (bytesLE32 18 ++ replicate 18 7 ++ bytesLE32 3 ++ [1; 2; 3])
             (replicate 12 0)).
    apply (SoundEffect_readFrom_decodes effect); reflexivity. }
  assert (Worker.valid_header (Xnb.header json)) as Hh by (split; cbn; set_solver).
  split.
  - destruct (pack_lz4_unpack [tt] (fun _ => []) tt Lzx_stored (fun input _ => input)
                (fun n => n) (fun input _ => (size input, input)) 2 json tt [] None enc
                (varint 5 1 ++ readers_table (Xnb.readers json) ++ [0; 1] ++ enc) 98
                Hh eq_refl Hl eq_refl Logic.I Hw Hr eq_refl eq_refl
                ltac:(split; [discriminate | discriminate]) eq_refl)
      as (file & P & F & _ & U).
    exists file. split; [exact P|]. split; [rewrite F; reflexivity|].
    apply U; [discriminate | reflexivity | reflexivity].
  - destruct (pack_lz4_unpack [tt] (fun _ => []) tt Lzx_stored (fun input _ => input)
                (fun n => n + 1) (fun input _ => (size input + 1, 0 :: input)) 2 json tt []
                None enc
                (0 :: varint 5 1 ++ readers_table (Xnb.readers json) ++ [0; 1] ++ enc) 99
                Hh eq_refl Hl eq_refl Logic.I Hw Hr eq_refl eq_refl
                ltac:(split; [discriminate | discriminate]) eq_refl)
      as (file & P & F & T & _).
    exists file. split; [exact P|]. split; [rewrite F; reflexivity|].
    apply T. reflexivity.
Defined.

(** ** What unpack refuses *)

Section UnpackRejects.
Context {Reader Content : Type}.
Context {RC : ReaderClass Reader (Content + Failure)}.
Variable available : list Reader.
Variable generic_arguments : string -> list XType.
Context {Lzx : Type}.
Variable Lzx_16 : Lzx.
Variable Lzx_decompress : Lzx -> Z -> Z -> M LzxReader.t (list Z * Lzx).
Variable decodeBlock : Buffer -> Buffer -> Buffer.

(** [unpack] of a file without compression whose length field is right:
    the result of the part after the decompression. *)
Lemma unpack_uncompressed (t v : Z) (hd : bool) (enc rest : Buffer) (expect : option Reader)
    (x : Xnb.Parsed Content + Failure) :
  10 + size (enc ++ rest) < 2 ^ 32 ->
  decodes (Xnb.unpack_content available generic_arguments
             (Worker.mkHeader (toLowerCase (Buffer_toString1 t)) v hd (Some false) (Some 0))
             expect) enc x ->
  Xnb.unpack available generic_arguments Lzx_16 Lzx_decompress decodeBlock
    ([88; 78; 66; t; v; if hd then 1 else 0] ++ bytesLE32 (10 + size (enc ++ rest))
     ++ enc ++ rest) expect = Ok x.
Proof.
  intros Hb D.
  set (body := enc ++ rest) in *.
  assert (0 <= size body) as Hb0 by (unfold size; lia).
  set (pre := [88; 78; 66; t; v; if hd then 1 else 0]).
  unfold Xnb.unpack, bind, LzxReader.new.
  rewrite (inherited_run _ _ _ _ _
             (parseHeader_uncompressed t v hd (bytesLE32 (10 + size body) ++ body))).
  fold pre.
  rewrite (inherited_run _ _ _ _ _
             (decodes_readUInt32 (10 + size body) ltac:(lia) pre body)).
  cbn [LzxReader.base buffer].
  replace (size (pre ++ bytesLE32 (10 + size body) ++ body)) with (10 + size body).
  2:{ rewrite !size_app. unfold size at 2 3. cbn [length pre bytesLE32]. lia. }
  rewrite Z.eqb_refl. cbn [negb].
  rewrite unpack_decompress_uncompressed by reflexivity.
  pose proof (D (pre ++ bytesLE32 (10 + size body)) rest) as E.
  rewrite <- app_assoc, size_app in E. fold body in E.
  rewrite (inherited_run _ _ _ _ _ E). reflexivity.
Qed.

(** [X24] [unpack] throws the truncation error for every file that starts with
    the magic and whose 32-bit length field is not the length of the file,
    whatever the target, the version and the flags are; and for a file
    without compression whose length field is right and whose readers
    [getReader] resolves, it throws the shared-resources error when the
    number after the readers table is not 0, and [getReader]'s error when
    the type of the first reader is not an available one. *)
Theorem unpack_rejects (expect : option Reader) :
  (forall (t v f n : Z) (rest : Buffer),
     0 <= n < 2 ^ 32 -> n <> 10 + size rest ->
     Xnb.unpack available generic_arguments Lzx_16 Lzx_decompress decodeBlock
       ([88; 78; 66; t; v; f] ++ bytesLE32 n ++ rest) expect = Ok (inr FileTruncated)) /\
  (forall (t v : Z) (hd : bool) (l : list Xnb.ContentReader) (rds : list Reader)
          (shared : Z) (rest : Buffer),
     let body := varint 5 (Z.of_nat (length l)) ++ readers_table l
                 ++ varint 5 shared ++ rest in
     Forall2 (listed available generic_arguments) l rds ->
     Z.of_nat (length l) < 2 ^ 31 -> 0 < shared < 2 ^ 31 -> 10 + size body < 2 ^ 32 ->
     Xnb.unpack available generic_arguments Lzx_16 Lzx_decompress decodeBlock
       ([88; 78; 66; t; v; if hd then 1 else 0] ++ bytesLE32 (10 + size body) ++ body)
       expect = Ok (inr (UnexpectedSharedResources shared))) /\
  (forall (t v : Z) (hd : bool) (count : Z) (type : string) (version : Z) (rest : Buffer)
          (f : Failure),
     let body := varint 5 count
                 ++ reader_entry (Xnb.mkContentReader type version) ++ rest in
     0 < count < 2 ^ 31 -> ascii_only type -> size (TextEncoder_encode type) < 2 ^ 31 ->
     0 <= version < 2 ^ 31 -> 10 + size body < 2 ^ 32 ->
     Xnb.getReader available generic_arguments (inl type) = Ok (inr f) ->
     Xnb.unpack available generic_arguments Lzx_16 Lzx_decompress decodeBlock
       ([88; 78; 66; t; v; if hd then 1 else 0] ++ bytesLE32 (10 + size body) ++ body)
       expect = Ok (inr f)).
Proof.
  split; [|split].
  - intros t v f n rest Hn Hne.
    unfold Xnb.unpack, bind, LzxReader.new.
    rewrite (inherited_run _ _ _ _ _ (parseHeader_prefix t v f (bytesLE32 n ++ rest))).
    rewrite (inherited_run _ _ _ _ _
               (decodes_readUInt32 n Hn [88; 78; 66; t; v; f] rest)).
    cbn [LzxReader.base buffer].
    replace (size ([88; 78; 66; t; v; f] ++ bytesLE32 n ++ rest)) with (10 + size rest).
    2:{ rewrite !size_app. unfold size at 2 3. cbn [length bytesLE32]. lia. }
    replace (10 + size rest =? n) with false by (symmetry; apply Z.eqb_neq; lia).
    reflexivity.
  - intros t v hd l rds shared rest body Hl Hn Hs Hb. subst body.
    replace (varint 5 (Z.of_nat (length l)) ++ readers_table l ++ varint 5 shared ++ rest)
      with ((varint 5 (Z.of_nat (length l)) ++ readers_table l ++ varint 5 shared) ++ rest)
      in * by (rewrite <- !app_assoc; reflexivity).
    apply unpack_uncompressed; [exact Hb|].
    unfold Xnb.unpack_content.
    eapply decodes_bind; [apply decodes_read7BitNumber; lia|].
    rewrite Nat2Z.id. unfold bind_ok.
    eapply decodes_bind; [apply (unpack_readers_decodes _ _ l rds Hl [] [])|].
    cbn [app].
    eapply decodes_bind_last; [apply decodes_read7BitNumber; lia|].
    replace (shared =? 0) with false by (symmetry; apply Z.eqb_neq; lia).
    apply decodes_ret.
  - intros t v hd count type version rest f body Hc Ha Hs Hv Hb Hg. subst body.
    replace (varint 5 count ++ reader_entry (Xnb.mkContentReader type version) ++ rest)
      with ((varint 5 count ++ reader_entry (Xnb.mkContentReader type version)) ++ rest)
      in * by (rewrite <- !app_assoc; reflexivity).
    apply unpack_uncompressed; [exact Hb|].
    unfold Xnb.unpack_content.
    eapply decodes_bind; [apply decodes_read7BitNumber; lia|].
    destruct (Z.to_nat count) as [|n] eqn:En; [lia|].
    cbn [Xnb.unpack_readers]. unfold bind_ok.
    unfold reader_entry. cbn [Xnb.type Xnb.version].
    rewrite (app_assoc (varint 5 _)).
    eapply decodes_bind_last.
    + eapply decodes_bind; [apply decodes_readString; assumption|].
      eapply decodes_bind_last.
      * rewrite <- (Z.mod_small version (2 ^ 32)) at 1.
        -- apply decodes_readInt32. split; [|lia].
           apply Z.le_trans with 0; [discriminate | lia].
        -- split; [lia|]. apply Z.lt_trans with (2 ^ 31); [lia | reflexivity].
      * intros pre' post'. unfold bind, of_result. rewrite Hg.
        apply decodes_ret.
    + apply decodes_ret.
Qed.

End UnpackRejects.
Lemma unpack_rejects_witness :
  Xnb.unpack [tt] (fun _ => []) tt Lzx_stored (fun _ output => output)
    ([88; 78; 66; 119; 5; 0] ++ bytesLE32 200 ++ [1; 0; 1]) None =
    Ok (inr FileTruncated : Xnb.Parsed SoundEffect.t + Failure) /\
  Xnb.unpack [tt] (fun _ => []) tt Lzx_stored (fun _ output => output)
    ([88; 78; 66; 119; 5; 0] ++ bytesLE32 12 ++ [0; 3]) None =
    Ok (inr (UnexpectedSharedResources 3) : Xnb.Parsed SoundEffect.t + Failure).
Proof.
  split.
  - apply (proj1 (unpack_rejects [tt] (fun _ => []) tt Lzx_stored (fun _ output => output)
                    None) 119 5 0 200 [1; 0; 1]).
    + split; [discriminate | reflexivity].
    + discriminate.
  - apply (proj1 (proj2 (unpack_rejects [tt] (fun _ => []) tt Lzx_stored
                           (fun _ output => output) None))
             119 5 false [] [] 3 []).
    + constructor.
    + reflexivity.
    + split; reflexivity.
    + reflexivity.
Defined.

(** ** The double methods *)

Lemma size_subarray_le (b : Buffer) (p c : Z) :
  0 <= c -> size (Buffer_subarray b p (p + c)) <= c.
Proof.
  intros Hc.
  unfold Buffer_subarray, size. cbv zeta beta. rewrite length_take.
  assert (0 <= Z.of_nat (length b)) as H0 by lia.
  destruct (p <? 0) eqn:E1, (p + c <? 0) eqn:E2;
    try apply Z.ltb_lt in E1; try apply Z.ltb_ge in E1;
    try apply Z.ltb_lt in E2; try apply Z.ltb_ge in E2; lia.
Qed.

Lemma Buffer_readDoubleLE_short (b : Buffer) :
  size b <= 4 -> Buffer_readDoubleLE b = Throw (RangeErrorOffset 0 (size b)).
Proof.
  intros H. unfold Buffer_readDoubleLE.
  replace (Buffer_get b 7) with (@None Z).
  - destruct (Buffer_get b 0); reflexivity.
  - symmetry. unfold Buffer_get. cbn [Z.ltb Z.compare].
    apply lookup_ge_None_2. unfold size in H. lia.
Qed.

Lemma length_bytesLE64 (v : Z) : length (bytesLE64 v) = 8%nat.
Proof. reflexivity. Qed.

(** [X25] [readDouble] and [peekDouble] never return a number: they take four
    bytes and ask them for the eight bytes of a double, so on every reader
    they throw.  [writeDouble] reserves four bytes and writes eight: with a
    cursor inside the buffer it throws unless exactly four or at least
    eight bytes lie after the cursor, and when it returns it has written
    the eight bytes of the double at the cursor and moved the cursor by
    four. *)
Theorem double_methods :
  (forall r : Binary,
     (exists e, BinaryDoubles.readDouble r = Throw e) /\
     (exists e, BinaryDoubles.peekDouble r = Throw e)) /\
  (forall (value : Num.number) (w : Binary),
     cursor_ok w ->
     let room := size (buffer w) - bytePosition w in
     (room < 4 \/ 4 < room < 8 ->
      exists e, BinaryDoubles.writeDouble value w = Throw e) /\
     (room = 4 \/ 8 <= room ->
      exists w',
        BinaryDoubles.writeDouble value w = Ok (tt, w') /\
        bytePosition w' = bytePosition w + 4 /\
        written w' ++ drop 4 (bytesLE64 (bits_of_binary64 value)) =
          written w ++ bytesLE64 (bits_of_binary64 value))).
Proof.
  split.
  - intros r. split.
    + unfold BinaryDoubles.readDouble, BinaryReader._read, BinaryReader._seek, ret, bind.
      cbv beta.
      destruct ((Z.max (bytePosition r + 4) 0 <? 0)
                || (size (buffer r) <? Z.max (bytePosition r + 4) 0));
        [eexists; reflexivity|].
      unfold BinaryReader.lift.
      rewrite Buffer_readDoubleLE_short; [eexists; reflexivity|].
      pose proof (size_subarray_le (buffer r) (bytePosition r) 4). lia.
    + unfold BinaryDoubles.peekDouble, bind, BinaryReader._peek, BinaryReader.lift.
      rewrite Buffer_readDoubleLE_short; [eexists; reflexivity|].
      pose proof (size_subarray_le (buffer r) (bytePosition r) 4). lia.
  - intros value w [H0 H1] room. subst room.
    assert (0 <= size (buffer w)) as Hs by (unfold size; lia).
    split.
    + intros Hr. unfold BinaryDoubles.writeDouble, BinaryWriter.alloc, Buffer_writeDoubleLE.
      destruct (size (buffer w) <=? bytePosition w + 4) eqn:E;
        [apply Z.leb_le in E | apply Z.leb_gt in E];
        cbn [set_buffer buffer bytePosition].
      * replace (Buffer_get (buffer w ++ Buffer_alloc 4) (bytePosition w + 7))
          with (@None Z).
        { destruct (Buffer_get _ (bytePosition w)); eexists; reflexivity. }
        symmetry. unfold Buffer_get.
        replace (bytePosition w + 7 <? 0) with false by (symmetry; apply Z.ltb_ge; lia).
        apply lookup_ge_None_2. rewrite length_app.
        change (length (Buffer_alloc 4)) with 4%nat. unfold size in *. lia.
      * replace (Buffer_get (buffer w) (bytePosition w + 7)) with (@None Z).
        { destruct (Buffer_get _ (bytePosition w)); eexists; reflexivity. }
        symmetry. unfold Buffer_get.
        replace (bytePosition w + 7 <? 0) with false by (symmetry; apply Z.ltb_ge; lia).
        apply lookup_ge_None_2. unfold size in *. lia.
    + intros Hr. unfold BinaryDoubles.writeDouble. cbv zeta.
      destruct (alloc_room 4 w (conj H0 H1) ltac:(lia)) as (_ & T1 & P1 & _).
      assert (bytePosition w + 8 <= size (buffer (BinaryWriter.alloc 4 w))) as S1.
      { unfold BinaryWriter.alloc.
        destruct (size (buffer w) <=? bytePosition w + 4) eqn:E;
          [apply Z.leb_le in E | apply Z.leb_gt in E];
          cbn [set_buffer buffer bytePosition]; [|lia].
        rewrite size_app. change (size (Buffer_alloc 4)) with 4. lia. }
      set (w1 := BinaryWriter.alloc 4 w) in *.
      unfold written in T1. rewrite P1 in T1. fold (written w) in T1.
      unfold Buffer_writeDoubleLE. rewrite P1.
      destruct (Buffer_get (buffer w1) (bytePosition w)) eqn:G0.
      2:{ unfold Buffer_get in G0.
          replace (bytePosition w <? 0) with false in G0 by (symmetry; apply Z.ltb_ge; lia).
          apply lookup_ge_None_1 in G0. unfold size in *. lia. }
      destruct (Buffer_get (buffer w1) (bytePosition w + 7)) eqn:G7.
      2:{ unfold Buffer_get in G7.
          replace (bytePosition w + 7 <? 0) with false in G7
            by (symmetry; apply Z.ltb_ge; lia).
          apply lookup_ge_None_1 in G7. unfold size in *. lia. }
      unfold Buffer_setArray.
      replace ((bytePosition w <? 0)
               || (size (buffer w1) <? bytePosition w
                                       + size (bytesLE64 (bits_of_binary64 value))))
        with false.
      2:{ symmetry. apply orb_false_iff. split; apply Z.ltb_ge; [lia|].
          change (size (bytesLE64 (bits_of_binary64 value))) with 8. lia. }
      eexists. split; [reflexivity|]. cbn [bytePosition buffer]. split; [reflexivity|].
      unfold written at 1. cbn [bytePosition buffer]. rewrite T1.
      set (enc := bytesLE64 (bits_of_binary64 value)).
      assert (length enc = 8%nat) as Le by apply length_bytesLE64.
      assert (length (written w) = Z.to_nat (bytePosition w)) as Lw.
      { unfold written. rewrite length_take. unfold size in *. lia. }
      rewrite app_assoc.
      rewrite take_app_le by (rewrite length_app; lia).
      rewrite take_app.
      rewrite (take_ge (written w)) by lia.
      replace (Z.to_nat (bytePosition w + 4) - length (written w))%nat with 4%nat by lia.
      rewrite <- app_assoc, take_drop. reflexivity.
Qed.

Lemma double_methods_witness :
  (exists e, BinaryDoubles.writeDouble (Num.of_Z 1) (BinaryWriter.new 0) = Throw e) /\
  (exists w',
     BinaryDoubles.writeDouble (Num.of_Z 1) (BinaryWriter.new 8) = Ok (tt, w') /\
     bytePosition w' = 4 /\ buffer w' = [0; 0; 0; 0; 0; 0; 240; 63]).
Proof.
  split.
  - apply (proj2 double_methods (Num.of_Z 1) (BinaryWriter.new 0) (cursor_ok_new 0)).
    left. reflexivity.
  - destruct (proj2 (proj2 double_methods (Num.of_Z 1) (BinaryWriter.new 8) (cursor_ok_new 8)))
      as (w' & E & P & _).
    + right. discriminate.
    + exists w'. split; [exact E|]. split; [exact P|].
      vm_compute in E. injection E as <-. reflexivity.
Defined.

(** ** Texture2DReader.readFrom *)

Lemma run_bind {A B : Type} (m : M BinaryReader.t A) (k : A -> M BinaryReader.t B)
    (enc : Buffer) (v : A) (b : Buffer) (p : Z) (pre post : Buffer) (res : result (B * Binary)) :
  decodes m enc v -> b = pre ++ enc ++ post -> p = size pre ->
  k v (mkBinary b (p + size enc)) = res ->
  (x <- m ;; k x) (mkBinary b p) = res.
Proof. intros D -> -> <-. unfold bind. rewrite (D pre post). reflexivity. Qed.

Lemma length_readFrom_alpha (data : Buffer) :
  length (Texture2D.readFrom_alpha data) = length data.
Proof.
  unfold Texture2D.readFrom_alpha.
  generalize (Texture2D.pixel_offsets (length data)). intros offsets.
  revert data. induction offsets as [|i offsets IH]; intros data; [reflexivity|].
  cbn [foldl]. rewrite IH. unfold Texture2D.readFrom_pixel.
  pose proof size_Buffer_set as S. unfold size in S.
  apply Nat2Z.inj. rewrite !S. reflexivity.
Qed.

Section ReadTexture.
Variable decompress : Buffer -> Z -> Z -> Z -> Buffer.

Lemma Texture2D_readFrom_run (format width height mipCount : Z) (data pre post : Buffer) :
  - 2 ^ 31 <= format < 2 ^ 31 -> 0 <= width < 2 ^ 32 -> 0 <= height < 2 ^ 32 ->
  0 <= mipCount < 2 ^ 32 -> size data < 2 ^ 32 ->
  let header := bytesLE32 (format mod 2 ^ 32) ++ bytesLE32 width ++ bytesLE32 height
                ++ bytesLE32 mipCount ++ bytesLE32 (size data) in
  Texture2DReading.readFrom decompress
    (mkBinary (pre ++ header ++ data ++ post) (size pre)) =
    Ok (fst (read_texture decompress format width height data),
        mkBinary (pre ++ header ++ snd (read_texture decompress format width height data) ++ post)
          (size pre + 20 + size data)).
Proof.
  intros Hf Hw Hh Hm Hd header.
  assert (0 <= size data) as Hd0 by (unfold size; lia).
  set (b := pre ++ header ++ data ++ post).
  unfold Texture2DReading.readFrom.
  set (e1 := bytesLE32 (format mod 2 ^ 32)). set (e2 := bytesLE32 width).
  set (e3 := bytesLE32 height). set (e4 := bytesLE32 mipCount).
  set (e5 := bytesLE32 (size data)).
  assert (b = pre ++ e1 ++ e2 ++ e3 ++ e4 ++ e5 ++ data ++ post) as Eb.
  { subst b header e1 e2 e3 e4 e5. rewrite <- !app_assoc. reflexivity. }
  apply (run_bind _ _ e1 format b _ pre (e2 ++ e3 ++ e4 ++ e5 ++ data ++ post));
    [apply decodes_readInt32; exact Hf | exact Eb | reflexivity |].
  apply (run_bind _ _ e2 width b _ (pre ++ e1) (e3 ++ e4 ++ e5 ++ data ++ post));
    [apply decodes_readUInt32; exact Hw | rewrite Eb, <- !app_assoc; reflexivity
     | rewrite size_app; reflexivity |].
  apply (run_bind _ _ e3 height b _ (pre ++ e1 ++ e2) (e4 ++ e5 ++ data ++ post));
    [apply decodes_readUInt32; exact Hh | rewrite Eb, <- !app_assoc; reflexivity
     | rewrite !size_app; lia |].
  apply (run_bind _ _ e4 mipCount b _ (pre ++ e1 ++ e2 ++ e3) (e5 ++ data ++ post));
    [apply decodes_readUInt32; exact Hm | rewrite Eb, <- !app_assoc; reflexivity
     | rewrite !size_app; lia |].
  apply (run_bind _ _ e5 (size data) b _ (pre ++ e1 ++ e2 ++ e3 ++ e4) (data ++ post));
    [apply decodes_readUInt32; lia | rewrite Eb, <- !app_assoc; reflexivity
     | rewrite !size_app; lia |].
  change (size e1) with 4. change (size e2) with 4. change (size e3) with 4.
  change (size e4) with 4. change (size e5) with 4.
  unfold bind at 1. cbn [bytePosition].
  apply (run_bind _ _ data data b _ (pre ++ e1 ++ e2 ++ e3 ++ e4 ++ e5) post);
    [apply decodes__read | rewrite Eb, <- !app_assoc; reflexivity
     | rewrite !size_app; change (size e1) with 4; change (size e2) with 4;
       change (size e3) with 4; change (size e4) with 4; change (size e5) with 4; lia |].
  replace (size pre + 4 + 4 + 4 + 4 + 4 + size data) with (size pre + 20 + size data) by lia.
  unfold read_texture.
  destruct (format =? 4); [reflexivity|].
  destruct (format =? 5); [reflexivity|].
  destruct (format =? 6); [reflexivity|].
  destruct (format =? 2); [reflexivity|].
  destruct (format =? 0); [|reflexivity].
  cbn [negb fst snd]. unfold bind, Texture2DReading.assign_view, ret, set_buffer.
  cbn [buffer bytePosition]. f_equal. f_equal. f_equal.
  rewrite length_readFrom_alpha.
  assert (b = (pre ++ header) ++ data ++ post) as Eb'
    by (subst b; rewrite <- !app_assoc; reflexivity).
  assert (length (pre ++ header) = Z.to_nat (size pre + 4 + 4 + 4 + 4 + 4)) as Lp.
  { rewrite length_app. subst header. unfold size. cbn [length app bytesLE32]. lia. }
  rewrite Eb'. rewrite <- Lp.
  rewrite take_app_length.
  rewrite drop_app_ge by lia.
  replace (length (pre ++ header) + length data - length (pre ++ header))%nat
    with (length data) by lia.
  rewrite drop_app_length. rewrite <- !app_assoc. reflexivity.
Qed.

End ReadTexture.

Section TextureWriteRead.
Variable compress : Buffer -> Z -> Z -> Z -> Buffer.
Variable decompress : Buffer -> Z -> Z -> Z -> Buffer.

(** The bytes [Texture2DReader.writeTo] writes. *)
Lemma Texture2D_writeTo_written (content : Texture2DWriter.Texture2D)
    (arrays : gmap nat (list Z)) (w : Binary) (pixels : Buffer) :
  cursor_ok w ->
  - 2 ^ 31 <= Texture2DWriter.format content < 2 ^ 31 ->
  0 <= Texture2DWriter.width content < 2 ^ 32 ->
  0 <= Texture2DWriter.height content < 2 ^ 32 ->
  arrays !! Texture2DWriter.data content = Some pixels ->
  let out := Texture2DWriter.compressed compress content (Texture2D.writeTo_alpha pixels) in
  size out < 2 ^ 32 ->
  exists w',
    Texture2DWriter.writeTo compress content (Texture2DWriter.mkWorld arrays w) =
      Ok (tt, Texture2DWriter.mkWorld
                (<[Texture2DWriter.data content := Texture2D.writeTo_alpha pixels]> arrays)
                w') /\
    cursor_ok w' /\
    written w' =
      written w ++ bytesLE32 (Texture2DWriter.format content mod 2 ^ 32)
      ++ bytesLE32 (Texture2DWriter.width content)
      ++ bytesLE32 (Texture2DWriter.height content)
      ++ bytesLE32 1 ++ bytesLE32 (size out) ++ out.
Proof.
  intros Hw Hf Hwd Hh Hd out Hs.
  unfold Texture2DWriter.writeTo, bind.
  destruct (writeInt32_written _ w Hw Hf) as (w1 & E1 & C1 & W1).
  rewrite (on_output_ok _ _ _ _ _ E1).
  destruct (writeUInt32_written _ w1 C1 Hwd) as (w2 & E2 & C2 & W2).
  rewrite (on_output_ok _ _ _ _ _ E2).
  destruct (writeUInt32_written _ w2 C2 Hh) as (w3 & E3 & C3 & W3).
  rewrite (on_output_ok _ _ _ _ _ E3).
  destruct (writeUInt32_written 1 w3 C3 ltac:(split; [lia|reflexivity]))
    as (w4 & E4 & C4 & W4).
  rewrite (on_output_ok _ _ _ _ _ E4).
  unfold Texture2DWriter.load, Texture2DWriter.store.
  cbn [Texture2DWriter.arrays Texture2DWriter.output].
  rewrite Hd, lookup_insert_eq. fold out.
  destruct (writeUInt32_written (size out) w4 C4 ltac:(unfold size in *; lia))
    as (w5 & E5 & C5 & W5).
  rewrite (on_output_ok _ _ _ _ _ E5).
  destruct (writeBytes_written out w5 C5) as (w6 & E6 & C6 & W6).
  rewrite (on_output_ok _ _ _ _ _ E6).
  exists w6. split; [reflexivity|]. split; [exact C6|].
  rewrite W6, W5, W4, W3, W2, W1. rewrite <- !app_assoc. reflexivity.
Qed.

(** [X26] [readFrom] reads the format, the sizes, the mip count and the data,
    and only then looks at the format: for the format 2 it throws the ECT1
    error and for a format other than 0, 2, 4, 5 and 6 the not-implemented
    error, with the cursor after the data.  For the format 0 it returns the
    un-premultiplied bytes and has overwritten the data bytes of the
    reader's buffer with them, since the un-premultiply loop runs on a view
    of that buffer.  What [writeTo] writes for a format-0 texture whose
    pixels all have alpha 255 is read back as the same texture. *)
Theorem Texture2D_readFrom_formats :
  (forall (format width height mipCount : Z) (data pre post : Buffer),
     - 2 ^ 31 <= format < 2 ^ 31 -> 0 <= width < 2 ^ 32 -> 0 <= height < 2 ^ 32 ->
     0 <= mipCount < 2 ^ 32 -> size data < 2 ^ 32 ->
     let header := bytesLE32 (format mod 2 ^ 32) ++ bytesLE32 width ++ bytesLE32 height
                   ++ bytesLE32 mipCount ++ bytesLE32 (size data) in
     let r := mkBinary (pre ++ header ++ data ++ post) (size pre) in
     (format = 0 ->
      Texture2DReading.readFrom decompress r =
        Ok (inl (Texture2DReading.mkTexture2D 0 (Texture2D.readFrom_alpha data) width height),
            mkBinary (pre ++ header ++ Texture2D.readFrom_alpha data ++ post)
              (size pre + 20 + size data))) /\
     (format = 2 ->
      Texture2DReading.readFrom decompress r =
        Ok (inr Texture2DFormatECT1, set_bytePosition (size pre + 20 + size data) r)) /\
     (format <> 0 -> format <> 2 -> format <> 4 -> format <> 5 -> format <> 6 ->
      Texture2DReading.readFrom decompress r =
        Ok (inr (Texture2DFormatNotImplemented format),
            set_bytePosition (size pre + 20 + size data) r))) /\
  (forall (content : Texture2DWriter.Texture2D) (arrays : gmap nat (list Z)) (w : Binary)
          (px : list Texture2D.pixel),
     cursor_ok w ->
     Texture2DWriter.format content = 0 ->
     0 <= Texture2DWriter.width content < 2 ^ 32 ->
     0 <= Texture2DWriter.height content < 2 ^ 32 ->
     arrays !! Texture2DWriter.data content = Some (Texture2D.flatten px) ->
     Forall Texture2D.byte_pixel px ->
     Forall (fun p => Texture2D.alpha_of p = 255) px ->
     size (Texture2D.flatten px) < 2 ^ 32 ->
     exists w',
       Texture2DWriter.writeTo compress content (Texture2DWriter.mkWorld arrays w) =
         Ok (tt, Texture2DWriter.mkWorld
                   (<[Texture2DWriter.data content := Texture2D.flatten px]> arrays) w') /\
       Texture2DReading.readFrom decompress (mkBinary (buffer w') (bytePosition w)) =
         Ok (inl (Texture2DReading.mkTexture2D 0 (Texture2D.flatten px)
                    (Texture2DWriter.width content) (Texture2DWriter.height content)),
             w')).
Proof.
  split.
  - intros format width height mipCount data pre post Hf Hw Hh Hm Hd header r.
    pose proof (Texture2D_readFrom_run decompress format width height mipCount data pre post
                  Hf Hw Hh Hm Hd) as R.
    cbv zeta in R. fold header in R. fold r in R.
    split; [|split].
    + intros ->. rewrite R. reflexivity.
    + intros ->. rewrite R. reflexivity.
    + intros H0 H2 H4 H5 H6. rewrite R. unfold read_texture.
      apply Z.eqb_neq in H0, H2, H4, H5, H6. rewrite H0, H2, H4, H5, H6. reflexivity.
  - intros content arrays w px Hw Hf Hwd Hh Hd Hb Ha Hs.
    assert (map Texture2D.premultiply_pixel px = px /\
            map Texture2D.unpremultiply_pixel px = px) as [Ep Eu].
    { split; apply (map_id_Forall _ (fun p => Texture2D.byte_pixel p /\
                                               Texture2D.alpha_of p = 255));
        try (apply Forall_and; split; assumption);
        intros p [Hp H255]; apply (unpremultiply_pixel_opaque p Hp H255). }
    assert (Texture2D.writeTo_alpha (Texture2D.flatten px) = Texture2D.flatten px) as Ew
      by (rewrite writeTo_alpha_pixels, Ep; reflexivity).
    assert (Texture2D.readFrom_alpha (Texture2D.flatten px) = Texture2D.flatten px) as Er
      by (rewrite readFrom_alpha_pixels, Eu; reflexivity).
    assert (Texture2DWriter.compressed compress content (Texture2D.flatten px)
            = Texture2D.flatten px) as Ec
      by (unfold Texture2DWriter.compressed; rewrite Hf; reflexivity).
    destruct (Texture2D_writeTo_written content arrays w (Texture2D.flatten px) Hw
                ltac:(rewrite Hf; split; [discriminate | reflexivity]) Hwd Hh Hd
                ltac:(rewrite Ew, Ec; exact Hs)) as (w' & E & C & W).
    rewrite Ew, Ec in W. rewrite Ew in E. rewrite Hf in W.
    exists w'. split; [exact E|].
    set (header := bytesLE32 (0 mod 2 ^ 32) ++ bytesLE32 (Texture2DWriter.width content)
                   ++ bytesLE32 (Texture2DWriter.height content) ++ bytesLE32 1
                   ++ bytesLE32 (size (Texture2D.flatten px))).
    assert (written w' = written w ++ header ++ Texture2D.flatten px) as W'
      by (rewrite W; subst header; rewrite <- !app_assoc; reflexivity).
    pose proof (take_drop (Z.to_nat (bytePosition w')) (buffer w')) as TD.
    fold (written w') in TD. rewrite W' in TD. rewrite <- !app_assoc in TD.
    assert (bytePosition w = size (written w)) as P.
    { unfold written, size. rewrite length_take. unfold cursor_ok, size in Hw. lia. }
    pose proof (Texture2D_readFrom_run decompress 0 (Texture2DWriter.width content)
                  (Texture2DWriter.height content) 1 (Texture2D.flatten px) (written w)
                  (drop (Z.to_nat (bytePosition w')) (buffer w'))
                  ltac:(split; [discriminate | reflexivity]) Hwd Hh
                  ltac:(split; [discriminate | reflexivity]) Hs) as R.
    cbv zeta in R. fold header in R. rewrite TD, <- P in R. rewrite R.
    unfold read_texture. cbn [Z.eqb negb fst snd]. rewrite Er, TD.
    f_equal. f_equal. destruct w' as [b' p']. cbn [buffer bytePosition] in *. f_equal.
    destruct (written_chunk w (mkBinary b' p') _ Hw C W') as [Q _].
    cbn [bytePosition] in Q. rewrite Q, size_app.
    subst header. unfold size at 2. cbn [length app bytesLE32]. lia.
Qed.

End TextureWriteRead.

Lemma Texture2D_readFrom_formats_witness :
  (Texture2DReading.readFrom (fun d _ _ _ => d)
     (mkBinary ([0; 0; 0; 0; 1; 0; 0; 0; 1; 0; 0; 0; 1; 0; 0; 0; 4; 0; 0; 0]
                ++ [64; 0; 0; 128]) 0) =
     Ok (inl (Texture2DReading.mkTexture2D 0 [128; 0; 0; 128] 1 1),
         mkBinary ([0; 0; 0; 0; 1; 0; 0; 0; 1; 0; 0; 0; 1; 0; 0; 0; 4; 0; 0; 0]
                   ++ [128; 0; 0; 128]) 24)) /\
  (exists w',
     Texture2DWriter.writeTo (fun d _ _ _ => d) (Texture2DWriter.mkTexture2D 0 0 1 1)
       (Texture2DWriter.mkWorld {[0%nat := [10; 20; 30; 255]]} (BinaryWriter.new 0)) =
       Ok (tt, Texture2DWriter.mkWorld {[0%nat := [10; 20; 30; 255]]} w') /\
     Texture2DReading.readFrom (fun d _ _ _ => d) (mkBinary (buffer w') 0) =
       Ok (inl (Texture2DReading.mkTexture2D 0 [10; 20; 30; 255] 1 1), w')).
Proof.
  split.
  - pose proof (proj1 (proj1 (Texture2D_readFrom_formats (fun d _ _ _ => d) (fun d _ _ _ => d))
                         0 1 1 1 [64; 0; 0; 128] [] []
                         ltac:(split; [discriminate | reflexivity])
                         ltac:(split; [discriminate | reflexivity])
                         ltac:(split; [discriminate | reflexivity])
                         ltac:(split; [discriminate | reflexivity])
                         ltac:(reflexivity)) eq_refl) as R.
    exact R.
  - destruct (proj2 (Texture2D_readFrom_formats (fun d _ _ _ => d) (fun d _ _ _ => d))
                (Texture2DWriter.mkTexture2D 0 0 1 1) {[0%nat := [10; 20; 30; 255]]}
                (BinaryWriter.new 0) [(10, 20, 30, 255)]) as (w' & E & R).
    + apply cursor_ok_new.
    + reflexivity.
    + split; [discriminate | reflexivity].
    + split; [discriminate | reflexivity].
    + reflexivity.
    + repeat constructor; cbn; lia.
    + repeat constructor.
    + reflexivity.
    + exists w'. split; [|exact R].
      rewrite E. reflexivity.
Defined.

(** ** SFDItemReader: a layer written and read back *)

Lemma isSameColor_eq (c d : Color.t) : Color.isSameColor c d = true -> c = d.
Proof.
  destruct c, d. unfold Color.isSameColor. cbn [Color.red Color.green Color.blue Color.alpha].
  rewrite !andb_true_iff, !Z.eqb_eq. intros [[[-> ->] ->] ->]. reflexivity.
Qed.

Lemma isSameColor_refl (c : Color.t) : Color.isSameColor c c = true.
Proof. unfold Color.isSameColor. rewrite !Z.eqb_refl. reflexivity. Qed.

Lemma findIndex_get (c : Color.t) (table : list Color.t) (o : Z) :
  0 <= o -> SFDItemReader.findIndex c table o <> -1 ->
  o <= SFDItemReader.findIndex c table o /\
  table !! Z.to_nat (SFDItemReader.findIndex c table o - o) = Some c.
Proof.
  revert o. induction table as [|x table IH]; intros o Ho Hn; [contradiction|].
  cbn [SFDItemReader.findIndex] in *.
  destruct (Color.isSameColor x c) eqn:E.
  - apply isSameColor_eq in E. subst x. split; [lia|].
    rewrite Z.sub_diag. reflexivity.
  - destruct (IH (o + 1) ltac:(lia) Hn) as [Hle Hl]. split; [lia|].
    replace (Z.to_nat (SFDItemReader.findIndex c table (o + 1) - o))
      with (S (Z.to_nat (SFDItemReader.findIndex c table (o + 1) - (o + 1)))) by lia.
    exact Hl.
Qed.

Lemma Array_get_findIndex (c : Color.t) (table : list Color.t) :
  0 <= SFDItemReader.findIndex c table 0 ->
  Array_get table (SFDItemReader.findIndex c table 0) = Some c.
Proof.
  intros H. destruct (findIndex_get c table 0 ltac:(lia) ltac:(lia)) as [_ L].
  rewrite Z.sub_0_r in L. unfold Array_get.
  replace (SFDItemReader.findIndex c table 0 <? 0) with false
    by (symmetry; apply Z.ltb_ge; lia).
  exact L.
Qed.

Lemma writeTo_pixels_emits (table : list Color.t) (colors : list Color.t) :
  Forall (fun c => 0 <= SFDItemReader.findIndex c table 0 <= 255) colors ->
  forall register,
    emits_ok (SFDItemReader.writeTo_pixels colors table register)
      (pixel_flags table register colors).
Proof.
  induction 1 as [|c colors Hc Hcs IH]; intros register.
  - apply emits_ok_ret.
  - cbn [SFDItemReader.writeTo_pixels pixel_flags].
    destruct (Color.isSameColor c register).
    + apply (emits_ok_bind _ _ [1]); [apply (emits_writeBoolean true)|]. apply IH.
    + apply (emits_ok_bind _ _ [0]); [apply (emits_writeBoolean false)|].
      cbv zeta.
      replace (SFDItemReader.findIndex c table 0 =? -1) with false
        by (symmetry; apply Z.eqb_neq; lia).
      apply (emits_ok_bind _ _ [SFDItemReader.findIndex c table 0]);
        [apply emits_writeByte; exact Hc|]. apply IH.
Qed.

Lemma readFrom_pixels_decodes (table : list Color.t) (colors : list Color.t) :
  Forall (fun c => 0 <= SFDItemReader.findIndex c table 0 <= 255) colors ->
  forall register data emptyImage,
    decodes (SFDItem.readFrom_pixels (length colors) table (Some register) data emptyImage)
      (pixel_flags table register colors)
      (data ++ map Some (read_back register colors),
       emptyImage && forallb (fun c => Color.isSameColor c register) colors).
Proof.
  induction 1 as [|c colors Hc Hcs IH]; intros register data emptyImage.
  - cbn [length SFDItem.readFrom_pixels pixel_flags read_back map forallb].
    rewrite app_nil_r, andb_true_r. apply decodes_ret.
  - cbn [length SFDItem.readFrom_pixels pixel_flags read_back forallb].
    destruct (Color.isSameColor c register) eqn:E.
    + apply (decodes_bind _ _ [1] _ true); [apply (decodes_readBoolean true)|].
      cbn [map andb]. unfold exchanged.
      pose proof (IH register
                    (data ++ [Some (Color.new (Color.red register) (Color.blue register)
                                      (Color.green register) (Color.alpha register))])
                    emptyImage) as D.
      rewrite <- app_assoc in D. exact D.
    + apply (decodes_bind _ _ [0] _ false); [apply (decodes_readBoolean false)|].
      apply (decodes_bind _ _ [SFDItemReader.findIndex c table 0] _
               (SFDItemReader.findIndex c table 0)); [apply decodes_readByte|].
      cbv zeta. rewrite Array_get_findIndex by lia.
      cbn [map andb]. rewrite andb_false_r.
      pose proof (IH c (data ++ [Some c]) false) as D.
      rewrite <- app_assoc in D. cbn [andb] in D. exact D.
Qed.

Lemma toArray_colors (colors : list Color.t) :
  Color.toArray (map Some colors) = Ok (color_bytes colors).
Proof.
  induction colors as [|c colors IH]; [reflexivity|].
  cbn [map Color.toArray]. rewrite IH. reflexivity.
Qed.

Lemma read_back_same (colors : list Color.t) :
  Forall (fun c => Color.green c = Color.blue c) colors ->
  forall register, Color.green register = Color.blue register ->
    read_back register colors = colors.
Proof.
  induction 1 as [|c colors Hc Hcs IH]; intros register Hr; [reflexivity|].
  cbn [read_back]. destruct (Color.isSameColor c register) eqn:E.
  - apply isSameColor_eq in E. subst c. rewrite (IH register Hr).
    f_equal. unfold exchanged. destruct register as [r g b a].
    cbn [Color.red Color.green Color.blue Color.alpha] in *. subst g. reflexivity.
  - rewrite (IH c Hc). reflexivity.
Qed.
Lemma texture_colors_flatten (px : list Texture2D.pixel) :
  SFDItemReader.texture_colors (Texture2D.flatten px) = map color_of_pixel px.
Proof.
  assert (forall px pre j, length pre = (4 * j)%nat ->
            map (SFDItemReader.color_at (pre ++ Texture2D.flatten px))
              (map (fun k => 4 * Z.of_nat k) (seq j (length px))) =
            map color_of_pixel px) as G.
  { clear px. induction px as [|p px IH]; intros pre j Hl; [reflexivity|].
    cbn [length seq map]. f_equal.
    - destruct p as [[[r g] b] a]. unfold SFDItemReader.color_at, Color.fromArray.
      replace (4 * Z.of_nat j) with (Z.of_nat (length pre)) by lia.
      cbn [Texture2D.flatten flat_map app].
      rewrite Buffer_get_app0, !Buffer_get_app by lia. reflexivity.
    - rewrite flatten_cons, app_assoc. apply (IH _ (S j)).
      rewrite length_app. destruct p as [[[r g] b] a]. cbn [Texture2D.flatten flat_map app length].
      lia. }
  unfold SFDItemReader.texture_colors, Texture2D.pixel_offsets. rewrite length_flatten.
  replace ((4 * length px + 3) `div` 4)%nat with (length px)
    by (apply Nat.div_unique with (r := 3%nat); lia).
  apply (G px [] 0%nat). reflexivity.
Qed.

Lemma color_bytes_pixels (px : list Texture2D.pixel) :
  Forall Texture2D.byte_pixel px ->
  color_bytes (map color_of_pixel px) = Texture2D.flatten px.
Proof.
  induction 1 as [|[[[r g] b] a] px (Hr & Hg & Hb & Ha) Hpx IH]; [reflexivity|].
  rewrite flatten_cons, <- IH. unfold color_bytes. cbn [map flat_map]. f_equal.
  unfold SFDItemReader.toBuffer. cbn [color_of_pixel Color.red Color.green Color.blue Color.alpha].
  rewrite !Z.mod_small by lia. reflexivity.
Qed.

Lemma emits_ok_bind_ok (m1 m2 : M BinaryWriter.t (unit + Failure)) (enc1 enc2 : Buffer) :
  emits_ok m1 enc1 -> emits_ok m2 enc2 -> emits_ok (_ <-? m1 ;; m2) (enc1 ++ enc2).
Proof.
  intros H1 H2 w Hw. destruct (H1 w Hw) as (w1 & E1 & C1 & W1).
  destruct (H2 w1 C1) as (w2 & E2 & C2 & W2).
  exists w2. unfold bind_ok, bind. rewrite E1. split; [exact E2|]. split; [exact C2|].
  rewrite W2, W1, <- app_assoc. reflexivity.
Qed.

Lemma emits_ok_line_feed : emits_ok (SFDItemReader.writeChar SFDItemReader.line_feed) [10].
Proof.
  intros w Hw.
  assert (ascii_only SFDItemReader.line_feed) as Ha
    by (apply List.Forall_cons; [reflexivity | apply List.Forall_nil]).
  destruct (emits_writeChars SFDItemReader.line_feed Ha w Hw) as (w' & E & C & W).
  exists w'. split; [|split; [exact C | exact W]].
  unfold SFDItemReader.writeChar, bind, BinaryWriterStrings.writeChar.
  unfold BinaryWriterStrings.writeChars in E.
  change (String_length SFDItemReader.line_feed) with 1 in *. cbn [Z.eqb Pos.eqb negb].
  cbv zeta in E.
  destruct (Buffer_write (buffer (BinaryWriter.alloc 1 w)) SFDItemReader.line_feed
              (bytePosition (BinaryWriter.alloc 1 w))); [|discriminate|discriminate].
  injection E as <-. reflexivity.
Qed.

(** [X27] A layer of [width * height] pixels whose colors are in the color
    table is written by [writeTo] as the byte 1, a flag byte for each pixel
    (1 for a pixel equal to the register, else 0 and the index of its color,
    which becomes the register) and a line feed.  [readFrom] reads these
    bytes back as [undefined] when every pixel is the transparent black of
    the first register, and else as the layer in which every pixel written
    as a repetition has the green and the blue of the register exchanged.
    So a layer comes back as it was written when green equals blue in all
    its pixels and some pixel is not transparent black.  A missing layer is
    the byte 0 and reads back as [undefined]. *)
Theorem SFDItem_layer_write_read (table : list Color.t) (width height : Z)
    (px : list Texture2D.pixel) :
  let colors := map color_of_pixel px in
  let texture := SFDItem.mkTexture width height (Texture2D.flatten px) in
  let enc := [1] ++ pixel_flags table Color.default colors ++ [10] in
  Forall Texture2D.byte_pixel px ->
  length px = Z.to_nat (width * height) ->
  Forall (fun c => 0 <= SFDItemReader.findIndex c table 0 <= 255) colors ->
  emits_ok (SFDItemReader.writeTo_layer table (Some texture)) enc /\
  decodes (SFDItem.readFrom_layer width height table) enc
    (if forallb (fun c => Color.isSameColor c Color.default) colors then None
     else Some (SFDItem.mkTexture width height
                  (color_bytes (read_back Color.default colors)))) /\
  (Forall (fun c => Color.green c = Color.blue c) colors ->
   forallb (fun c => Color.isSameColor c Color.default) colors = false ->
   decodes (SFDItem.readFrom_layer width height table) enc (Some texture)) /\
  emits_ok (SFDItemReader.writeTo_layer table None) [0] /\
  decodes (SFDItem.readFrom_layer width height table) [0] None.
Proof.
  intros colors texture enc Hb Hl Ht.
  assert (decodes (SFDItem.readFrom_layer width height table) enc
            (if forallb (fun c => Color.isSameColor c Color.default) colors then None
             else Some (SFDItem.mkTexture width height
                          (color_bytes (read_back Color.default colors))))) as D.
  { unfold SFDItem.readFrom_layer. subst enc.
    apply (decodes_bind _ _ [1] _ true); [apply (decodes_readBoolean true)|].
    cbn iota. rewrite <- Hl.
    replace (length px) with (length colors) by (subst colors; apply length_map).
    eapply decodes_bind; [apply (readFrom_pixels_decodes table colors Ht Color.default [] true)|].
    cbn [app andb].
    apply (decodes_bind_last _ _ [10] [10]); [apply (decodes__read [10])|].
    destruct (forallb (fun c => Color.isSameColor c Color.default) colors);
      [apply decodes_ret|].
    intros pre post. unfold bind, BinaryReader.lift. rewrite toArray_colors.
    apply decodes_ret. }
  split; [|split; [exact D|split; [|split]]].
  - unfold SFDItemReader.writeTo_layer. subst enc texture. cbn [SFDItem.data].
    apply (emits_ok_bind _ _ [1]); [apply (emits_writeBoolean true)|].
    rewrite texture_colors_flatten. fold colors.
    apply emits_ok_bind_ok; [apply writeTo_pixels_emits; exact Ht | apply emits_ok_line_feed].
  - intros Hg He. rewrite He in D.
    rewrite (read_back_same colors Hg Color.default eq_refl) in D.
    subst colors. rewrite color_bytes_pixels in D by exact Hb. exact D.
  - unfold SFDItemReader.writeTo_layer.
    rewrite <- (app_nil_r [0]).
    apply (emits_ok_bind _ _ [0] []); [apply (emits_writeBoolean false) | apply emits_ok_ret].
  - unfold SFDItem.readFrom_layer.
    apply (decodes_bind_last _ _ [0] false); [apply (decodes_readBoolean false)|].
    apply decodes_ret.
Qed.

Lemma SFDItem_layer_write_read_witness :
  let table := [Color.new 1 2 3 4] in
  let texture := SFDItem.mkTexture 2 1 [1; 2; 3; 4; 1; 2; 3; 4] in
  (exists w',
     SFDItemReader.writeTo_layer table (Some texture) (BinaryWriter.new 0) = Ok (inl tt, w') /\
     written w' = [1; 0; 0; 1; 10]) /\
  SFDItem.readFrom_layer 2 1 table (BinaryReader.new [1; 0; 0; 1; 10]) =
    Ok (Some (SFDItem.mkTexture 2 1 [1; 2; 3; 4; 1; 3; 2; 4]),
        mkBinary [1; 0; 0; 1; 10] 5).
Proof.
  intros table texture.
  destruct (SFDItem_layer_write_read table 2 1 [(1, 2, 3, 4); (1, 2, 3, 4)])
    as (W & R & _).
  - repeat constructor; cbn; lia.
  - reflexivity.
  - repeat constructor; cbn; lia.
  - split.
    + destruct (W (BinaryWriter.new 0) (cursor_ok_new 0)) as (w' & E & _ & Wr).
      exists w'. split; [exact E | exact Wr].
    + exact (R [] []).
Defined.

(** ** SoundEffectReader: the wave file exported and imported *)

Lemma decodes_skip (enc : Buffer) : decodes (SoundEffectFile.skip (size enc)) enc tt.
Proof. intros pre post. reflexivity. Qed.

Lemma le32_of_bytes (a b c d : Z) :
  0 <= a <= 255 -> 0 <= b <= 255 -> 0 <= c <= 255 -> 0 <= d <= 255 ->
  bytesLE32 (a + b * 2 ^ 8 + c * 2 ^ 16 + d * 2 ^ 24) = [a; b; c; d].
Proof.
  intros Ha Hb Hc Hd. unfold bytesLE32.
  change (2 ^ 8) with 256. change (2 ^ 16) with 65536. change (2 ^ 24) with 16777216.
  repeat f_equal; Z.div_mod_to_equations; lia.
Qed.

(** A 32-bit signed integer read from four bytes is written as the same four
    bytes. *)
Lemma readInt32_four_bytes (a b c d : Z) :
  0 <= a <= 255 -> 0 <= b <= 255 -> 0 <= c <= 255 -> 0 <= d <= 255 ->
  exists v, - 2 ^ 31 <= v < 2 ^ 31 /\
            Buffer_readInt32LE [a; b; c; d] = Ok v /\
            bytesLE32 (v mod 2 ^ 32) = [a; b; c; d].
Proof.
  intros Ha Hb Hc Hd.
  set (u := a + b * 2 ^ 8 + c * 2 ^ 16 + d * 2 ^ 24).
  assert (0 <= u < 2 ^ 32) as Hu.
  { subst u. change (2 ^ 8) with 256. change (2 ^ 16) with 65536.
    change (2 ^ 24) with 16777216. change (2 ^ 32) with 4294967296. lia. }
  pose proof (le32_of_bytes a b c d Ha Hb Hc Hd) as E. fold u in E.
  pose proof (Buffer_readInt32LE_bytes u) as R. rewrite E in R.
  rewrite int32_of_bytes in R by exact Hu.
  exists (JS.ToInt32 u). split; [apply ToInt32_range|]. split; [exact R|].
  rewrite <- E. f_equal. unfold JS.ToInt32.
  pose proof (eq_refl : 2 ^ 31 = 2147483648) as P31.
  pose proof (eq_refl : 2 ^ 32 = 4294967296) as P32.
  rewrite <- (Z.mod_small u (2 ^ 32)) at 2 by exact Hu.
  rewrite Zminus_mod_idemp_l. f_equal. lia.
Qed.
Lemma format_fields_16 (h0 h1 h2 h3 h4 h5 h6 h7 h8 h9 h10 h11 h12 h13 h14 h15 : Z)
    (tail : Buffer) :
  bytes [h4; h5; h6; h7; h8; h9; h10; h11] ->
  exists sampleRate bytesPerSec,
    - 2 ^ 31 <= sampleRate < 2 ^ 31 /\ - 2 ^ 31 <= bytesPerSec < 2 ^ 31 /\
    bytesLE32 (sampleRate mod 2 ^ 32) = [h4; h5; h6; h7] /\
    bytesLE32 (bytesPerSec mod 2 ^ 32) = [h8; h9; h10; h11] /\
    SoundEffectFile.format_fields
      ([h0; h1; h2; h3; h4; h5; h6; h7; h8; h9; h10; h11; h12; h13; h14; h15] ++ tail) =
      Ok ([h0; h1], [h2; h3], sampleRate, bytesPerSec, [h12; h13], [h14; h15]).
Proof.
  intros Hb.
  assert (0 <= h4 <= 255 /\ 0 <= h5 <= 255 /\ 0 <= h6 <= 255 /\ 0 <= h7 <= 255 /\
          0 <= h8 <= 255 /\ 0 <= h9 <= 255 /\ 0 <= h10 <= 255 /\ 0 <= h11 <= 255)
    as (B4 & B5 & B6 & B7 & B8 & B9 & B10 & B11).
  { unfold bytes in Hb. rewrite !Forall_cons in Hb. tauto. }
  destruct (readInt32_four_bytes h4 h5 h6 h7 B4 B5 B6 B7) as (sr & Rsr & Esr & Wsr).
  destruct (readInt32_four_bytes h8 h9 h10 h11 B8 B9 B10 B11) as (bs & Rbs & Ebs & Wbs).
  exists sr, bs. split; [exact Rsr|]. split; [exact Rbs|]. split; [exact Wsr|].
  split; [exact Wbs|].
  assert (decodes (wavTypeFormat <- BinaryReader.readBytes 2 ;;
                   flags <- BinaryReader.readBytes 2 ;;
                   sampleRate <- BinaryReader.readInt32 ;;
                   bytesPerSec <- BinaryReader.readInt32 ;;
                   blockAlignment <- BinaryReader.readBytes 2 ;;
                   bitsPerSample <- BinaryReader.readBytes 2 ;;
                   ret (wavTypeFormat, flags, sampleRate, bytesPerSec, blockAlignment,
                        bitsPerSample))
            ([h0; h1] ++ [h2; h3] ++ [h4; h5; h6; h7] ++ [h8; h9; h10; h11]
             ++ [h12; h13] ++ [h14; h15])
            ([h0; h1], [h2; h3], sr, bs, [h12; h13], [h14; h15])) as D.
  { eapply decodes_bind; [apply (decodes__read [h0; h1])|].
    eapply decodes_bind; [apply (decodes__read [h2; h3])|].
    eapply decodes_bind; [rewrite <- Wsr; apply decodes_readInt32; exact Rsr|].
    eapply decodes_bind; [rewrite <- Wbs; apply decodes_readInt32; exact Rbs|].
    eapply decodes_bind; [apply (decodes__read [h12; h13])|].
    eapply decodes_bind_last; [apply (decodes__read [h14; h15])|].
    apply decodes_ret. }
  unfold SoundEffectFile.format_fields, BinaryReader.new.
  pose proof (D [] tail) as E. cbn [app] in E. change (size (@nil Z)) with 0 in E.
  cbn [app]. rewrite E. reflexivity.
Qed.

(** [X28] [export] writes a sound effect whose format has 16 or 18 bytes as a
    wave file: the RIFF header, the format size, the first 16 bytes of the
    format, two zero bytes when the format size is 18, and the data chunk.
    [import] of this file returns the sound effect that was exported, with
    the bytes after the sixteenth of the format replaced by zeros. *)
Theorem SoundEffect_export_import (value : SoundEffect.t) (head tail : Buffer) :
  SoundEffect.format value = head ++ tail -> length head = 16%nat -> bytes head ->
  SoundEffect.formatSize value = size (SoundEffect.format value) ->
  length tail = 0%nat \/ length tail = 2%nat ->
  SoundEffect.dataSize value = size (SoundEffect.data value) ->
  size (SoundEffect.data value) < 2 ^ 31 - 64 ->
  exists w',
    SoundEffectFile.export value (BinaryWriter.new 0) = Ok (tt, w') /\
    written w' =
      TextEncoder_encode "RIFF"
      ++ bytesLE32 (size (SoundEffect.data value) + size (SoundEffect.format value) + 12)
      ++ TextEncoder_encode "WAVE" ++ TextEncoder_encode "fmt "
      ++ bytesLE32 (SoundEffect.formatSize value) ++ head ++ replicate (length tail) 0
      ++ TextEncoder_encode "data" ++ bytesLE32 (SoundEffect.dataSize value)
      ++ SoundEffect.data value /\
    SoundEffectFile.import (BinaryReader.new (buffer w')) =
      Ok (SoundEffect.mk (SoundEffect.formatSize value) (head ++ replicate (length tail) 0)
            (SoundEffect.dataSize value) (SoundEffect.data value),
          mkBinary (buffer w') (bytePosition w')).
Proof.
  intros Ef Hh Hb Es Ht Ed Hd.
  destruct value as [fs format ds data].
  cbn [SoundEffect.formatSize SoundEffect.format SoundEffect.dataSize SoundEffect.data] in *.
  subst format.
  assert (0 <= size data) as Hd0 by (unfold size; lia).
  assert (size (head ++ tail) = 16 + size tail) as Hs
    by (rewrite size_app; unfold size; lia).
  assert (fs = 16 /\ tail = [] \/ fs = 18 /\ length tail = 2%nat) as Hfs.
  { destruct Ht as [Ht|Ht].
    - left. destruct tail; [|discriminate]. split; [|reflexivity].
      rewrite Es, Hs. reflexivity.
    - right. split; [|exact Ht]. rewrite Es, Hs. unfold size. lia. }
  assert (- 2 ^ 31 <= fs < 2 ^ 31) as Rfs
    by (destruct Hfs as [[-> _]|[-> _]]; split; first [discriminate | reflexivity]).
  assert (2 ^ 31 = 2147483648) as P31 by reflexivity.
  assert (2 ^ 32 = 4294967296) as P32 by reflexivity.
  assert (size tail <= 2) as Htl by (unfold size; lia).
  assert (0 <= size tail) as Htl0 by (unfold size; lia).
  destruct head as [|h0 [|h1 [|h2 [|h3 [|h4 [|h5 [|h6 [|h7 [|h8 [|h9 [|h10 [|h11 [|h12
    [|h13 [|h14 [|h15 [|]]]]]]]]]]]]]]]]]; try discriminate.
  destruct (format_fields_16 h0 h1 h2 h3 h4 h5 h6 h7 h8 h9 h10 h11 h12 h13 h14 h15 tail)
    as (sr & bs & Rsr & Rbs & Wsr & Wbs & FF).
  { unfold bytes in *. rewrite !Forall_cons in Hb. rewrite !Forall_cons.
    repeat split; try tauto; try apply Forall_nil_2. }
  set (riff := size data + size ([h0; h1; h2; h3; h4; h5; h6; h7; h8; h9; h10; h11; h12;
                                   h13; h14; h15] ++ tail) + 5 * 4 - 8).
  assert (ascii_only "RIFF" /\ ascii_only "WAVE" /\ ascii_only "fmt " /\ ascii_only "data")
    as (A1 & A2 & A3 & A4).
  { repeat split; unfold ascii_only; vm_compute;
      repeat (apply List.Forall_cons; [reflexivity|]); apply List.Forall_nil. }
  assert (emits (SoundEffectFile.export (SoundEffect.mk fs
                   ([h0; h1; h2; h3; h4; h5; h6; h7; h8; h9; h10; h11; h12; h13; h14; h15]
                    ++ tail) ds data))
            (TextEncoder_encode "RIFF" ++ bytesLE32 (riff mod 2 ^ 32)
             ++ TextEncoder_encode "WAVE" ++ TextEncoder_encode "fmt "
             ++ bytesLE32 (fs mod 2 ^ 32) ++ [h0; h1] ++ [h2; h3]
             ++ bytesLE32 (sr mod 2 ^ 32) ++ bytesLE32 (bs mod 2 ^ 32)
             ++ [h12; h13] ++ [h14; h15] ++ replicate (length tail) 0
             ++ TextEncoder_encode "data" ++ bytesLE32 (ds mod 2 ^ 32) ++ data)) as W.
  { unfold SoundEffectFile.export.
    cbn [SoundEffect.formatSize SoundEffect.format SoundEffect.dataSize SoundEffect.data].
    cbv zeta. fold riff.
    apply emits_bind; [apply emits_writeChars; exact A1|].
    apply emits_bind; [apply emits_writeInt32; subst riff; rewrite Hs; lia|].
    apply emits_bind; [apply emits_writeChars; exact A2|].
    apply emits_bind; [apply emits_writeChars; exact A3|].
    rewrite FF.
    assert (forall (k : M BinaryWriter.t unit) enc (x : Buffer * Buffer * Z * Z * Buffer * Buffer),
              emits k enc -> emits (fields <- @of_result BinaryWriter.t _ (Ok x) ;; k) enc)
      as OR by (intros k enc x Hk w Hw; exact (Hk w Hw)).
    intros w Hw. unfold bind at 1, of_result at 1. revert w Hw.
    change (emits
      (BinaryWriter.writeInt32 fs ;;;
       BinaryWriter.writeBytes [h0; h1] ;;;
       BinaryWriter.writeBytes [h2; h3] ;;;
       BinaryWriter.writeInt32 sr ;;;
       BinaryWriter.writeInt32 bs ;;;
       BinaryWriter.writeBytes [h12; h13] ;;;
       BinaryWriter.writeBytes [h14; h15] ;;;
       (if fs =? 18 then BinaryWriter.writeByte 0 ;;; BinaryWriter.writeByte 0 else ret tt) ;;;
       BinaryWriterStrings.writeChars "data" ;;;
       BinaryWriter.writeInt32 ds ;;;
       BinaryWriter.writeBytes data)
      (bytesLE32 (fs mod 2 ^ 32) ++ [h0; h1] ++ [h2; h3]
       ++ bytesLE32 (sr mod 2 ^ 32) ++ bytesLE32 (bs mod 2 ^ 32)
       ++ [h12; h13] ++ [h14; h15] ++ replicate (length tail) 0
       ++ TextEncoder_encode "data" ++ bytesLE32 (ds mod 2 ^ 32) ++ data)).
    apply emits_bind; [apply emits_writeInt32; exact Rfs|].
    apply emits_bind; [apply emits_writeBytes|].
    apply emits_bind; [apply emits_writeBytes|].
    apply emits_bind; [apply emits_writeInt32; exact Rsr|].
    apply emits_bind; [apply emits_writeInt32; exact Rbs|].
    apply emits_bind; [apply emits_writeBytes|].
    apply emits_bind; [apply emits_writeBytes|].
    apply emits_bind.
    { destruct Hfs as [[-> ->]|[-> Hl]].
      - cbn [Z.eqb Pos.eqb length replicate]. apply emits_ret.
      - rewrite Hl. cbn [Z.eqb Pos.eqb].
        apply (emits_bind _ _ [0] [0]); apply emits_writeByte; lia. }
    apply emits_bind; [apply emits_writeChars; exact A4|].
    apply emits_bind; [apply emits_writeInt32; lia | apply emits_writeBytes]. }
  assert (riff mod 2 ^ 32 = size data + size ([h0; h1; h2; h3; h4; h5; h6; h7; h8; h9; h10;
                                               h11; h12; h13; h14; h15] ++ tail) + 12) as Er.
  { subst riff. rewrite Z.mod_small; [lia|]. rewrite Hs. lia. }
  rewrite Er, Wsr, Wbs in W.
  rewrite (Z.mod_small fs), (Z.mod_small ds) in W by lia.
  destruct (W (BinaryWriter.new 0) (cursor_ok_new 0)) as (w' & E & C & Wr).
  change (written (BinaryWriter.new 0)) with (@nil Z) in Wr. cbn [app] in Wr.
  exists w'. split; [exact E|]. split; [exact Wr|].
  set (zeros := replicate (length tail) 0) in *.
  set (h := [h0; h1; h2; h3; h4; h5; h6; h7; h8; h9; h10; h11; h12; h13; h14; h15]).
  assert (size (h ++ zeros) = fs) as Hz.
  { rewrite Es, size_app, size_app. unfold size. subst zeros. rewrite length_replicate.
    reflexivity. }
  assert (decodes SoundEffectFile.import
            ((TextEncoder_encode "RIFF"
              ++ bytesLE32 (size data + size (h ++ tail) + 12)
              ++ TextEncoder_encode "WAVE" ++ TextEncoder_encode "fmt ")
             ++ bytesLE32 fs ++ (h ++ zeros) ++ TextEncoder_encode "data"
             ++ bytesLE32 (ds mod 2 ^ 32) ++ data)
            (SoundEffect.mk fs (h ++ zeros) ds data)) as D.
  { unfold SoundEffectFile.import.
    eapply decodes_bind; [apply (decodes_skip (TextEncoder_encode "RIFF"
              ++ bytesLE32 (size data + size (h ++ tail) + 12)
              ++ TextEncoder_encode "WAVE" ++ TextEncoder_encode "fmt "))|].
    eapply decodes_bind; [apply decodes_readUInt32; lia|].
    eapply decodes_bind; [rewrite <- Hz; apply decodes__read|].
    eapply decodes_bind; [apply (decodes_skip (TextEncoder_encode "data"))|].
    eapply decodes_bind; [apply decodes_readInt32; lia|].
    eapply decodes_bind_last; [rewrite Ed; apply decodes__read|].
    apply decodes_ret. }
  rewrite (Z.mod_small ds) in D by lia.
  pose proof (decodes_written _ _ [] _ (BinaryWriter.new 0) w' (cursor_ok_new 0) C
                ltac:(rewrite Wr, app_nil_r; subst h; cbn [app]; rewrite <- ?app_assoc;
                      reflexivity) D) as R.
  unfold BinaryReader.new. cbn [bytePosition BinaryWriter.new] in R. rewrite R.
  f_equal. f_equal. destruct w' as [b' p']. cbn [buffer bytePosition] in *. f_equal.
  destruct (written_chunk (BinaryWriter.new 0) (mkBinary b' p') _ (cursor_ok_new 0) C
              ltac:(exact Wr)) as [Q _].
  cbn [bytePosition BinaryWriter.new] in Q. rewrite Q. f_equal.
Qed.

Lemma SoundEffect_export_import_witness :
  let format := [1; 0; 2; 0; 68; 172; 0; 0; 16; 177; 2; 0; 4; 0; 16; 0; 7; 9] in
  exists w',
    SoundEffectFile.export (SoundEffect.mk 18 format 3 [1; 2; 3]) (BinaryWriter.new 0) =
      Ok (tt, w') /\
    SoundEffectFile.import (BinaryReader.new (buffer w')) =
      Ok (SoundEffect.mk 18 [1; 0; 2; 0; 68; 172; 0; 0; 16; 177; 2; 0; 4; 0; 16; 0; 0; 0]
            3 [1; 2; 3],
          mkBinary (buffer w') (bytePosition w')).
Proof.
  intros format.
  destruct (SoundEffect_export_import (SoundEffect.mk 18 format 3 [1; 2; 3])
              [1; 0; 2; 0; 68; 172; 0; 0; 16; 177; 2; 0; 4; 0; 16; 0] [7; 9])
    as (w' & E & _ & R).
  - reflexivity.
  - reflexivity.
  - unfold bytes. repeat (apply List.Forall_cons; [lia|]). apply List.Forall_nil.
  - reflexivity.
  - right. reflexivity.
  - reflexivity.
  - reflexivity.
  - exists w'. split; [exact E | exact R].
Defined.
